(* ===== verification/_CoqProject ===== *)
-Q . S2P
Prelude.v
CwStd.v
Errors.v
DebugLog.v
Storage.v
Client.v
States.v
Bank.v
Api.v
Bytes.v
Sections.v
Gas.v
Vm.v
Querier.v
Runs.v
Model.v
Messages.v
Transactions.v
ReadOnly.v
Atomicity.v
Termination.v
Codes.v
Python.v
Digits.v
StdError.v
Uint128.v
UintCrate.v
Uint256.v
Uint512.v
Uint64.v
Ratio.v
Fixed.v
Decimal.v
Decimal256.v
Decimals.v
Namespaces.v
PrefixedStorage.v
TypedStorage.v
Analyzer.v
Rpc.v
Lcd.v
Memory.v
Crypto.v
Compatibility.v
WasmBackend.v
Cache.v
CacheFacts.v
Schema.v
Host.v
HostImports.v
HostFacts.v
HostRefines.v
Guest.v
GuestRegions.v
GuestImports.v
GuestAbi.v
Ibc.v
HostCalls.v
GuestCalls.v
StdQueries.v
MockApi.v
MockQuerier.v
VmTesting.v
Operators.v
Gatekeeper.v
Profiler.v
Queue.v
Staking.v
StakingFacts.v
Hackatom.v
IbcReflect.v
TestContracts.v
GuestDatabase.v
World.v
WorldClients.v
WorldNumbers.v
WorldVm.v
WorldGuest.v
WorldTesting.v
WorldContracts.v
