(* ===== verification/Prelude.v ===== *)
(** * cosmwasm-simulate: a verification development

    cosmwasm-simulate runs CosmWasm contracts against a fork of a live chain: it
    downloads accounts, codes and storages on demand from a node, executes
    transactions and queries locally, and lets the user tamper with the state
    ("cheats"). It is driven from Python and built on a copy of the CosmWasm packages.
    The program has these parts, by file under src/:

    - core/src/fork/model.rs, [Model]: transactions ([execute], [instantiate]),
      dispatch of the messages and replies of contracts, roll-back, user queries,
      cheats; core/src/coverage/mod.rs: coverage data gathered on the way;
    - core/src/fork/states.rs, [AllStates]: the simulated chain (contracts, bank,
      block), filled from the client on demand;
    - core/src/fork/querier.rs and instance.rs: the queries a running contract
      makes, and the instance it runs in; storage.rs, api.rs and debug_log.rs: its
      storage with iterators, its address conversions, the log and call trace;
    - core/src/fork/client_backend.rs with its two implementations rpc.rs (with a
      cache in a file) and lcd.rs: the node;
    - core/src/analyzer.rs: a reader of JSON schemas; python-bindings: the classes users
      see;
    - cosmwasm/packages/vm: the virtual machine (linear memory, imports with limits and
      gas, calls, module cache, static checks, gatekeeper, test backends);
    - cosmwasm/packages/std: the library contracts are built with (messages, responses,
      queries, numbers, the memory and the exports of the guest, test doubles);
    - cosmwasm/packages/storage, crypto, schema, check, profiler: typed storage for
      contracts, signatures, interface descriptions, the check program, a profiler;
    - cosmwasm/contracts, test-contract, test-contract-cov: example and test contracts.

    ** Files

    Foundations.
    - [Prelude]: outcomes of a call, the state-and-error monad [M] with its rules
      ([preserves], [yields], the order [⊑] on runs), machine integers, byte strings,
      and the tactics [munfold], [minv], [pres], [approx].
    - [Bytes], [Digits]: decimal strings and bytes of integers. [CwStd], [StdError] (std):
      the message types and the errors. [Errors] (core/src/error.rs, vm/errors): error
      values and their texts.
    - [Uint64], [Uint128], [Uint256], [Uint512], [Ratio] (std/math): the amount types; the
      [uint] crate below the large ones is the class [UintCrate] with the laws
      [UintCrateSpec]. [Fixed]: fixed-point numbers with 18 places, a specification of
      which [Decimal] and [Decimal256] are shown to be implementations; [Decimals]: the
      theorems on both.

    Storage for contracts.
    - [Namespaces], [PrefixedStorage], [TypedStorage] (std/storage.rs, packages/storage):
      the trait [Storage] as a class [StorageTrait] with laws [StorageSpec], the storages
      that implement it, namespaces, and singletons, buckets and sequences in them; JSON is
      one codec per type, the class [Json] with the law [JsonSpec].

    The simulator.
    - [DebugLog], [Storage], [Api], [Analyzer] (core): one file per component of that name.
    - [Client]: interfaces to code that is not in the repository. [Externals] holds
      codecs, hashing and bech32; [CwClientBackend] is the trait of client_backend.rs, and
      [ChainClient] what the simulator relies on: a client shows one chain, and asking it
      does not change what it shows. [Rpc], [Lcd]: the two clients; [rpc_chain_client]
      proves that the RPC client implements [ChainClient] while it is at a block above 0.
    - [States], [Bank] (states.rs): the operations, and the bank as an abstract
      ledger [bal] that the cached balances refine.
    - [Querier] (querier.rs, instance.rs), [Model] (model.rs, coverage), [Python]
      (python-bindings): the rest of the program, with the source's names.
    - [Runs], [Transactions]: the induction principles of the simulator. A relation
      closed under the few steps by which the host touches the state
      ([Closed_Querier], [Closed_Tx]) is kept by every query and transaction, whatever
      the contracts do.
    - [Messages], [Termination], [ReadOnly], [Atomicity], [Codes]: theorems, by subject.

    The virtual machine, at two levels.
    - [Vm]: the level the simulator uses. A contract is an arbitrary tree of host calls
      ([Guest]) supplied by the parameter [WasmEngine]; a region is its bytes.
    - [Memory], [Sections], [Crypto], [Gas], [Host], [HostImports], [HostCalls]: the level
      of the code. Regions in linear memory, wasmer's instance ([WasmerInstance]) and
      pointers ([WasmPtr]), the gas account, every import and every call. [HostFacts]: gas
      and signatures; [HostRefines]: the imports of this level implement those of [Vm].
    - [Compatibility], [WasmBackend], [Cache], [CacheFacts]: static checks (with
      limited.rs), memory limits, the three module caches over a disk that may fail.
      [Operators], [Gatekeeper], [Profiler]: Wasm operators and the two middlewares.
    - [VmTesting]: the test backends of the VM.

    The library of contracts (std), on the linear memory of an instance.
    - [Guest], [GuestImports], [GuestCalls]: memory.rs, imports.rs, exports.rs and derive
      over an allocator ([Allocator]); [GuestRegions], [GuestAbi]: the heap as a finite map
      and the meeting of guest and host on it; [GuestCalls], [GuestDatabase]: whole calls
      and whole storage accesses, from contract code to the state of the simulator.
    - [Ibc], [StdQueries]: IBC types, results and binaries, all queries and
      [QuerierWrapper]; [MockApi], [MockQuerier]: test doubles.
    - [Schema]: interface descriptions (packages/schema) and the check program.

    Contracts, over any lawful storage and any answers of the chain.
    - [Queue], [Staking] with [StakingFacts], [Hackatom] (and the burner), [IbcReflect]
      (reflect, ibc-reflect, ibc-reflect-send), [TestContracts] (crypto-verify, cyberpunk,
      the contracts of the test suites).

    Witnesses.
    - [World], [WorldClients], [WorldNumbers], [WorldVm], [WorldGuest], [WorldTesting],
      [WorldContracts]: concrete chains, nodes, machines, codecs and contracts on which the
      theorems are applied, so that their hypotheses are known to be met by real runs.

    ** How the code is modelled

    A method on [&mut self] that returns [Result<A, Error>] is a function of [M]:
    from a state to an outcome ([Ok], [Err], [Panic]) and a state; an early return
    through [?] keeps the state as it is at that moment. Integers are elements of [Z]
    with the width's check or wrap-around written out; hash maps and B-tree maps are
    finite maps, and the order in which a hash map is iterated is a parameter. The
    contract storage is an [Arc] shared between the state and running instances: an
    instance holds a [Cell] that names the entry of the state it shares, or a private
    copy (queries between contracts); cloning a [Model] copies the storages, so the
    saved state of a transaction shares nothing with the running one.

    Calls nest without a bound in the source: a contract's message runs another
    contract, whose messages run others, and queries query again. [handle_response]
    and [query_raw] take a fuel that bounds the nesting. [Messages] shows that a run that
    does not exhaust its fuel is the run of every larger fuel, and [Termination] that
    ranked contracts never exhaust a fuel computed from the ranks; contracts that are
    not ranked may recurse forever, in the source as well. The endless loops of
    [Hackatom] run out of any fuel.

    ** What is proved

    - Transactions: a failed transaction leaves the model as it was, coverage apart; a
      successful one makes one block ([Atomicity]); messages run in order up to the
      first error and are dispatched once ([Messages]); the call graph in the log is a
      tree ([DebugLog], [Atomicity]). Over whole Python sessions the settings are what the
      user set last ([Python]).
    - Queries are read-only, however contracts behave, and raw queries return the stored
      bytes ([ReadOnly]).
    - The bank moves exactly what it is told and conserves the supply, and reads
      refine the abstract ledger ([Bank]); iterators return a snapshot in order ([Storage]).
    - Addresses differ, the cache of compiled codes is not observable, cheats change what
      they say ([Codes]).
    - Clients: balances are the chain's at the latest block when the client was made, cached
      answers are reused and survive a restart ([Rpc]), storages are decoded exactly ([Lcd]).
    - From contract code to the simulator: regions are read and written inside the memory
      of the guest and within limits ([Memory]); the imports on linear memory refine the
      imports on byte strings ([HostRefines]); a call is the function of the contract on
      the values the host passed, and storage calls of a contract are operations on a map,
      with no memory of the contract lost, or are refused with their error ([GuestCalls],
      [GuestDatabase]). Gas adds up until a charge is not covered ([HostFacts]).
    - Codes: what passes the static checks is exactly what the host can link
      ([Compatibility]), memories stay within their limit ([WasmBackend]), the module of a
      checksum is the compilation of the code with that checksum, and a saved code is found
      unless the memory cache refuses it ([CacheFacts]); no float passes the gatekeeper ([Gatekeeper]); the profiler measures
      each block ([Profiler]).
    - Arithmetic is exact or fails with an error: ratios of amounts ([Ratio]), products,
      quotients, powers and square roots of decimals ([Decimals]); strings, bytes,
      sections and addresses round-trip ([Decimals], [Bytes], [Sections], [Api], [MockApi]).
    - A view of a storage through a namespace is a storage again, isolated from the views
      of other namespaces ([PrefixedStorage]); buckets are typed maps, updates are all or
      nothing, sequences count ([TypedStorage]).
    - Contracts: the queue is first-in first-out; the books of the staking contract
      balance and holders can unbond; a call of the escrow pays its beneficiary and nobody
      else, and only the chain itself ([sudo]) can pay others; the account at the other end
      of an IBC channel obeys the host of the channel only, which passes on what the admin
      of the sender sends and takes the tokens when the channel closes; interface
      descriptions are complete ([Schema]); balances set in a test are seen ([MockQuerier]).
    - Deviations from what comments and documentation say, stated as theorems: block
      time stands still, a send to oneself mints, a set balance hides others ([Bank]),
      failed submessages that are replied to and hard errors are not rolled back
      ([Atomicity]), results with spare capacity are freed with a wrong size ([GuestCalls]),
      a failing bank message leaves no error text ([World]), a client made for a block
      ignores it ([Rpc]), a module heavier than the memory cache cannot be had
      ([CacheFacts]), fields of structures pile up ([Analyzer]), a checked power panics ([Decimals]), a
      range panics on a bare key ([PrefixedStorage]), batch verification panics in the host
      ([HostFacts]), saving a code keeps the tail of an older file ([CacheFacts]).

    ** What is not modelled

    Wasm itself (contracts are arbitrary, or given by their Rust code), locks and threads
    (the program is single-threaded), and third-party code, which is a parameter: wasmer,
    the Wasm parser, curve libraries, JSON, protobuf, bincode, HTTP, hashes, bech32,
    base64, RLP, argon2, cw-storage-plus. At the level of [Vm] gas and the layout of memory
    are left out (the simulator runs with an unlimited budget; running out is a trap of the
    guest); they are modelled at the level of [Host]. Left out are the conversion of Python
    values by PyO3, the coverage runtime minicov (bindings to LLVM), generated protobuf
    types, the dead module core/src/fork/bank.rs, macros that produce Rust code
    (schema-derive), command lines, the rewriting of modules by the profiler, the float
    contract floaty (printing of floats), the printing functions of the schema analyzer,
    and functions on Unicode classes of characters (capabilities_from_csv, to_snake_case).
    Of the number types, the serde glue around [visit_str] and the operators on references,
    which forward to those on values, are left out. Cloning the RPC client marks its cache
    as initialized ([cache_clone] in [Rpc]), which no later operation looks at; a saved
    [Model] is otherwise an exact copy. *)

From Stdlib Require Export ZArith Lia.
From stdpp Require Export base strings pretty sorting numbers gmap list.

Set Default Goal Selector "!".

(** ** Outcomes of a call

    A Rust call of the code either returns [Ok], returns [Err] through [?],
    panics ([unwrap], [unimplemented!], arithmetic overflow), or, in the model
    only, runs out of the fuel that bounds the depth of nested calls. *)
Inductive outcome (E A : Type) : Type :=
| Ok (a : A)
| Err (e : E)
| Panic (msg : string)
| OutOfFuel.

Arguments Ok {E A} a.
Arguments Err {E A} e.
Arguments Panic {E A} msg.
Arguments OutOfFuel {E A}.

(** ** State passing with outcomes

    [M E S A] is a method on [&mut self] with state [S] that returns
    [Result<A, E>]. An early return through [?] keeps the state as it is at
    that moment: there is no implicit roll-back. *)
Definition M (E S A : Type) : Type := S → outcome E A * S.

#[export] Instance M_ret E S : MRet (M E S) := λ A a s, (Ok a, s).

#[export] Instance M_bind E S : MBind (M E S) := λ A B k m s,
  match m s with
  | (Ok a, s') => k a s'
  | (Err e, s') => (Err e, s')
  | (Panic p, s') => (Panic p, s')
  | (OutOfFuel, s') => (OutOfFuel, s')
  end.

Definition throw {E S A} (e : E) : M E S A := λ s, (Err e, s).
Definition panic {E S A} (msg : string) : M E S A := λ s, (Panic msg, s).
Definition out_of_fuel {E S A} : M E S A := λ s, (OutOfFuel, s).
Definition get {E S} : M E S S := λ s, (Ok s, s).
Definition gets {E S A} (f : S → A) : M E S A := λ s, (Ok (f s), s).
Definition put {E S} (s' : S) : M E S unit := λ _, (Ok tt, s').
Definition modify {E S} (f : S → S) : M E S unit := λ s, (Ok tt, f s).

(** [Option::unwrap] and [expect]. *)
Definition unwrap {E S A} (msg : string) (o : option A) : M E S A :=
  match o with Some a => mret a | None => panic msg end.

(** A [Result] value used with [?]. *)
Definition of_sum {E S A} (r : E + A) : M E S A :=
  match r with inl e => throw e | inr a => mret a end.

(** The [Result] of a call kept as a value, as in [let r = f(..);]. *)
Definition catch {E S A} (m : M E S A) : M E S (E + A) := λ s,
  match m s with
  | (Ok a, s') => (Ok (inr a), s')
  | (Err e, s') => (Ok (inl e), s')
  | (Panic p, s') => (Panic p, s')
  | (OutOfFuel, s') => (OutOfFuel, s')
  end.

(** [map_err]. *)
Definition map_err {E F S A} (f : E → F) (m : M E S A) : M F S A := λ s,
  match m s with
  | (Ok a, s') => (Ok a, s')
  | (Err e, s') => (Err (f e), s')
  | (Panic p, s') => (Panic p, s')
  | (OutOfFuel, s') => (OutOfFuel, s')
  end.

(** A call on a part of the state ([self.field.method(..)]). *)
Definition zoom {E S T A} (view : T → S) (upd : S → T → T) (m : M E S A) : M E T A :=
  λ t, let '(r, s) := m (view t) in (r, upd s t).

Arguments throw : simpl never.
Arguments panic : simpl never.

(** ** Machine integers

    [u32], [u64], [usize] (64 bits) and [u128] are integers of [Z] in range.
    [+] on the primitive types panics on overflow (the dev profile, which
    [maturin build] uses). *)
Definition U32 : Z := 2 ^ 32.
Definition U64 : Z := 2 ^ 64.
Definition U128 : Z := 2 ^ 128.

Definition in_width (w x : Z) : Prop := (0 ≤ x < w)%Z.

Definition add_or_panic {E S} (w x y : Z) : M E S Z :=
  if (x + y <? w)%Z then mret (x + y)%Z else panic "attempt to add with overflow".

Definition sub_or_panic {E S} (x y : Z) : M E S Z :=
  if (y <=? x)%Z then mret (x - y)%Z else panic "attempt to subtract with overflow".

(** ** Bytes *)
Abbreviation byte := Byte.byte.
Abbreviation bytes := (list Byte.byte).

#[export] Instance byte_eq_dec : EqDecision byte := Byte.byte_eq_dec.

#[export] Program Instance byte_countable : Countable byte :=
  inj_countable Byte.to_N Byte.of_N _.
Next Obligation. apply Byte.of_to_N. Qed.

(** [str::as_bytes]. *)
Definition as_bytes (s : string) : bytes := String.list_byte_of_string s.

(** Lexicographic order on byte strings, the [Ord] of [Vec<u8>]. *)
Fixpoint bytes_leb (a b : bytes) : bool :=
  match a, b with
  | [], _ => true
  | _ :: _, [] => false
  | x :: a', y :: b' =>
      if (Byte.to_N x <? Byte.to_N y)%N then true
      else if (Byte.to_N y <? Byte.to_N x)%N then false
      else bytes_leb a' b'
  end.

Definition bytes_ltb (a b : bytes) : bool := negb (bytes_leb b a).

Definition bytes_le (a b : bytes) : Prop := bytes_leb a b = true.

#[export] Instance bytes_le_dec a b : Decision (bytes_le a b) :=
  decide (bytes_leb a b = true).

Lemma byte_to_N_inj x y : Byte.to_N x = Byte.to_N y → x = y.
Proof.
  intros H. assert (Some x = Some y) as [=]; [|done].
  by rewrite <-(Byte.of_to_N x), <-(Byte.of_to_N y), H.
Qed.

(** Case analysis on a lexicographic comparison. *)
Ltac byte_cmp :=
  repeat match goal with
  | |- context [(?x <? ?y)%N] => destruct (N.ltb_spec x y)
  | H : context [(?x <? ?y)%N] |- _ => destruct (N.ltb_spec x y)
  end.

#[export] Instance bytes_le_refl : Reflexive bytes_le.
Proof.
  unfold bytes_le. intros a; induction a as [|x a IH]; cbn; [done|].
  byte_cmp; [lia|done..].
Qed.

#[export] Instance bytes_le_trans : Transitive bytes_le.
Proof.
  unfold bytes_le. intros a; induction a as [|x a IH]; intros [|y b] [|z c]; cbn; try done.
  byte_cmp; try done; try lia; eauto.
Qed.

#[export] Instance bytes_le_antisymm : AntiSymm (=) bytes_le.
Proof.
  unfold bytes_le. intros a; induction a as [|x a IH]; intros [|y b]; cbn; try done.
  byte_cmp; try done; try lia.
  intros H1 H2. f_equal; [apply byte_to_N_inj; lia|auto].
Qed.

#[export] Instance bytes_le_total : Total bytes_le.
Proof.
  unfold bytes_le. intros a; induction a as [|x a IH]; intros [|y b]; cbn; auto.
  byte_cmp; auto; lia.
Qed.

#[export] Instance bytes_le_preorder : PreOrder bytes_le.
Proof. split; apply _. Qed.

Lemma bytes_ltb_spec a b : bytes_ltb a b = true ↔ bytes_le a b ∧ a ≠ b.
Proof.
  unfold bytes_ltb. rewrite negb_true_iff. split.
  - intros H. destruct (total bytes_le a b) as [Hab|Hba].
    + split; [done|]. intros ->. pose proof (reflexivity (R := bytes_le) b) as Hr.
      unfold bytes_le in Hr. congruence.
    + unfold bytes_le in Hba. congruence.
  - intros [Hle Hne]. apply not_true_is_false. intros Hba. apply Hne.
    by apply (anti_symm bytes_le).
Qed.

(** ** Reasoning about [M] *)

(** Unfold the monadic combinators of a run. *)
Ltac munfold :=
  cbv [mbind M_bind mret M_ret throw panic out_of_fuel get gets put modify unwrap
       of_sum catch map_err zoom add_or_panic sub_or_panic] in *.

Section monad_laws.
Context {E S : Type}.

Lemma bind_ret_l {A B} (a : A) (k : A → M E S B) s : (mret a ≫= k) s = k a s.
Proof. done. Qed.

Lemma bind_ret_r {A} (m : M E S A) s : (m ≫= mret) s = m s.
Proof. unfold mbind, M_bind. by destruct (m s) as [[] ?]. Qed.

Lemma bind_get {A} (k : S → M E S A) s : (get ≫= k) s = k s s.
Proof. done. Qed.

Lemma bind_gets {A B} (f : S → A) (k : A → M E S B) s : (gets f ≫= k) s = k (f s) s.
Proof. done. Qed.

Lemma bind_modify {A} (f : S → S) (k : unit → M E S A) s : (modify f ≫= k) s = k tt (f s).
Proof. done. Qed.
Lemma bind_assoc {A B C} (m : M E S A) (k : A → M E S B) (l : B → M E S C) s :
  ((m ≫= k) ≫= l) s = (m ≫= (λ a, k a ≫= l)) s.
Proof. unfold mbind, M_bind. by destruct (m s) as [[] ?]. Qed.

Lemma bind_Ok_inv {A B} (m : M E S A) (k : A → M E S B) s b s' :
  (m ≫= k) s = (Ok b, s') →
  ∃ a s1, m s = (Ok a, s1) ∧ k a s1 = (Ok b, s').
Proof. unfold mbind, M_bind. destruct (m s) as [[] ?]; naive_solver. Qed.

Lemma bind_Ok {A B} (m : M E S A) (k : A → M E S B) s a s1 :
  m s = (Ok a, s1) → (m ≫= k) s = k a s1.
Proof. unfold mbind, M_bind. by intros ->. Qed.

Lemma bind_Err {A B} (m : M E S A) (k : A → M E S B) s e s1 :
  m s = (Err e, s1) → (m ≫= k) s = (Err e, s1).
Proof. unfold mbind, M_bind. by intros ->. Qed.

Lemma bind_Panic {A B} (m : M E S A) (k : A → M E S B) s p s1 :
  m s = (Panic p, s1) → (m ≫= k) s = (Panic p, s1).
Proof. unfold mbind, M_bind. by intros ->. Qed.

Lemma map_err_Ok {F A} (f : E → F) (m : M E S A) s a s1 :
  m s = (Ok a, s1) → map_err f m s = (Ok a, s1).
Proof. unfold map_err. by intros ->. Qed.

Lemma map_err_Err {F A} (f : E → F) (m : M E S A) s e s1 :
  m s = (Err e, s1) → map_err f m s = (Err (f e), s1).
Proof. unfold map_err. by intros ->. Qed.
End monad_laws.

(** Decompose a hypothesis [(m ≫= k) s = (Ok b, s')]. *)
Ltac minv :=
  repeat match goal with
  | H : (mbind _ _) _ = (Ok _, _) |- _ =>
      let a := fresh "a" in let s := fresh "s" in
      let H1 := fresh "Hm" in let H2 := fresh "Hk" in
      apply bind_Ok_inv in H as (a & s & H1 & H2)
  | H : (mret _) _ = (Ok _, _) |- _ => injection H as <- <-
  | H : (throw _) _ = (Ok _, _) |- _ => discriminate H
  | H : (panic _) _ = (Ok _, _) |- _ => discriminate H
  | H : out_of_fuel _ = (Ok _, _) |- _ => discriminate H
  | H : (gets _) _ = (Ok _, _) |- _ => injection H as <- <-
  | H : (modify _) _ = (Ok _, _) |- _ => injection H as <- <-
  | H : get _ = (Ok _, _) |- _ => injection H as <- <-
  end.

(** *** Relations kept by a call

    [preserves R m]: whatever the outcome of [m] (errors and panics
    included), the states before and after are related by [R]. *)
Definition preserves {E S A} (R : relation S) (m : M E S A) : Prop :=
  ∀ s, R s (m s).2.

(** [yields P m]: a normal result of [m] satisfies [P]. *)
Definition yields {E S A} (P : A → Prop) (m : M E S A) : Prop :=
  ∀ s a s', m s = (Ok a, s') → P a.

Create HintDb pres.

Section preserves.
Context {E S : Type} (R : relation S) `{!Reflexive R, !Transitive R}.

Lemma preserves_ret {A} (a : A) : preserves R (mret a : M E S A).
Proof. by intros s. Qed.
Lemma preserves_throw {A} (e : E) : preserves R (throw e : M E S A).
Proof. by intros s. Qed.
Lemma preserves_panic {A} msg : preserves R (panic msg : M E S A).
Proof. by intros s. Qed.
Lemma preserves_out_of_fuel {A} : preserves R (out_of_fuel : M E S A).
Proof. by intros s. Qed.
Lemma preserves_get : preserves R (get : M E S S).
Proof. by intros s. Qed.
Lemma preserves_gets {A} (f : S → A) : preserves R (gets f : M E S A).
Proof. by intros s. Qed.
Lemma preserves_modify (f : S → S) : (∀ s, R s (f s)) → preserves R (modify f : M E S unit).
Proof. intros H s. apply H. Qed.
Lemma preserves_unwrap {A} msg (o : option A) : preserves R (unwrap msg o : M E S A).
Proof. destruct o; by intros s. Qed.
Lemma preserves_of_sum {A} (r : E + A) : preserves R (of_sum r : M E S A).
Proof. destruct r; by intros s. Qed.
Lemma preserves_add w x y : preserves R (add_or_panic w x y : M E S Z).
Proof. unfold add_or_panic. by case_match; intros s. Qed.
Lemma preserves_sub x y : preserves R (sub_or_panic x y : M E S Z).
Proof. unfold sub_or_panic. by case_match; intros s. Qed.

Lemma preserves_bind {A B} (m : M E S A) (k : A → M E S B) :
  preserves R m → (∀ a, preserves R (k a)) → preserves R (m ≫= k).
Proof.
  intros Hm Hk s. specialize (Hm s). unfold mbind, M_bind.
  destruct (m s) as [[a|e|p|] s'] eqn:Hs; cbn in *; [|done..].
  etrans; [exact Hm|apply Hk].
Qed.

Lemma preserves_catch {A} (m : M E S A) : preserves R m → preserves R (catch m).
Proof.
  intros Hm s. specialize (Hm s). unfold catch.
  by destruct (m s) as [[] ?].
Qed.

Lemma preserves_map_err {F A} (f : E → F) (m : M E S A) :
  preserves R m → preserves R (map_err f m).
Proof.
  intros Hm s. specialize (Hm s). unfold map_err.
  by destruct (m s) as [[] ?].
Qed.
End preserves.

Lemma preserves_zoom {E S T A} (Q : relation S) (R : relation T)
    (view : T → S) (upd : S → T → T) (m : M E S A) :
  preserves Q m → (∀ t s, Q (view t) s → R t (upd s t)) → preserves R (zoom view upd m).
Proof.
  intros Hm HR t. unfold zoom. specialize (Hm (view t)).
  destruct (m (view t)) as [r s]. by apply HR.
Qed.

Lemma preserves_weaken {E S A} (Q R : relation S) (m : M E S A) :
  (∀ s s', Q s s' → R s s') → preserves Q m → preserves R m.
Proof. intros H Hm s. apply H, Hm. Qed.

#[export] Hint Resolve preserves_ret preserves_throw preserves_panic preserves_out_of_fuel
  preserves_get preserves_gets preserves_unwrap preserves_of_sum preserves_add
  preserves_sub preserves_catch preserves_map_err : pres.

(** Prove [preserves R m] for a [m] built from the combinators: split binds and
    matches, close the leaves with the [pres] hints and the hypotheses. *)
Ltac pres_step :=
  match goal with
  | |- preserves _ (mbind _ _) => apply preserves_bind; [apply _| |intros ?]
  | |- preserves _ (match ?x with _ => _ end) => destruct x eqn:?
  | |- preserves _ (catch _) => apply preserves_catch
  | |- preserves _ (map_err _ _) => apply preserves_map_err
  | |- preserves _ (let _ := _ in _) => cbv zeta
  end.
Ltac pres := repeat first [solve [eauto with pres typeclass_instances] | pres_step].

Lemma yields_bind {E S A B} (P : B → Prop) (m : M E S A) (k : A → M E S B) :
  (∀ a, yields P (k a)) → yields P (m ≫= k).
Proof. intros Hk s b s' H. minv. by eapply Hk. Qed.

Lemma yields_bind_strong {E S A B} (Q : A → Prop) (P : B → Prop)
    (m : M E S A) (k : A → M E S B) :
  yields Q m → (∀ a, Q a → yields P (k a)) → yields P (m ≫= k).
Proof. intros Hm Hk s b s' H. minv. by eapply Hk; [eapply Hm|]. Qed.

Lemma yields_ret {E S A} (P : A → Prop) a : P a → yields P (mret a : M E S A).
Proof. by intros H s b s' [= <- <-]. Qed.
Lemma yields_throw {E S A} (P : A → Prop) (e : E) : yields P (throw e : M E S A).
Proof. by intros s b s' [=]. Qed.
Lemma yields_panic {E S A} (P : A → Prop) msg : yields P (panic msg : M E S A).
Proof. by intros s b s' [=]. Qed.
Lemma yields_out_of_fuel {E S A} (P : A → Prop) : yields P (out_of_fuel : M E S A).
Proof. by intros s b s' [=]. Qed.
Lemma yields_zoom {E S T A} (P : A → Prop) (view : T → S) upd (m : M E S A) :
  yields P m → yields P (zoom view upd m).
Proof.
  intros Hm t a t' H. unfold zoom in H. destruct (m (view t)) as [r s] eqn:Hs.
  injection H as -> <-. by eapply Hm.
Qed.

(** ** The approximation order

    [m1 ⊑ m2]: wherever [m1] does not run out of fuel, [m2] does the same. *)
#[export] Instance M_sqsubseteq E S A : SqSubsetEq (M E S A) :=
  λ m1 m2, ∀ s, (m1 s).1 ≠ OutOfFuel → m2 s = m1 s.

#[export] Instance M_sqsubseteq_refl E S A : Reflexive (⊑@{M E S A}).
Proof. by intros m s. Qed.

#[export] Instance M_sqsubseteq_trans E S A : Transitive (⊑@{M E S A}).
Proof.
  intros m1 m2 m3 H12 H23 s Hs. specialize (H12 s Hs).
  rewrite <-H12. apply H23. by rewrite H12.
Qed.

#[export] Instance M_sqsubseteq_preorder E S A : PreOrder (⊑@{M E S A}).
Proof. split; apply _. Qed.

Create HintDb approx.

Lemma approx_out_of_fuel {E S A} (m : M E S A) : out_of_fuel ⊑ m.
Proof. by intros s. Qed.

Lemma approx_bind {E S A B} (m1 m2 : M E S A) (k1 k2 : A → M E S B) :
  m1 ⊑ m2 → (∀ a, k1 a ⊑ k2 a) → (m1 ≫= k1) ⊑ (m2 ≫= k2).
Proof.
  intros Hm Hk s. specialize (Hm s). unfold mbind, M_bind.
  destruct (m1 s) as [[a|e|p|] s']; cbn in *; intros Hs;
    try (rewrite Hm by done); try done.
  by apply Hk.
Qed.

Lemma approx_catch {E S A} (m1 m2 : M E S A) : m1 ⊑ m2 → catch m1 ⊑ catch m2.
Proof.
  intros Hm s. specialize (Hm s). unfold catch.
  destruct (m1 s) as [[a|e|p|] s']; cbn in *; intros Hs; by rewrite Hm.
Qed.

Lemma approx_map_err {E F S A} (f : E → F) (m1 m2 : M E S A) :
  m1 ⊑ m2 → map_err f m1 ⊑ map_err f m2.
Proof.
  intros Hm s. specialize (Hm s). unfold map_err.
  destruct (m1 s) as [[a|e|p|] s']; cbn in *; intros Hs; by rewrite Hm.
Qed.

Lemma approx_zoom {E S T A} (view : T → S) upd (m1 m2 : M E S A) :
  m1 ⊑ m2 → zoom view upd m1 ⊑ zoom view upd m2.
Proof.
  intros Hm t Ht. unfold zoom in *. specialize (Hm (view t)).
  destruct (m1 (view t)) as [r s]. cbn in *. by rewrite Hm.
Qed.

Lemma approx_use {E S A} (m1 m2 : M E S A) s r s' :
  m1 ⊑ m2 → m1 s = (r, s') → r ≠ OutOfFuel → m2 s = (r, s').
Proof. intros H Hs Hr. rewrite <-Hs. apply H. by rewrite Hs. Qed.

#[export] Hint Resolve approx_out_of_fuel approx_catch approx_map_err approx_zoom : approx.

Ltac approx_step :=
  match goal with
  | |- (?m ⊑ ?m) => reflexivity
  | |- (mbind _ _ ⊑ mbind _ _) => apply approx_bind; [|intros ?]
  | |- (match ?x with _ => _ end ⊑ _) => destruct x eqn:?
  | |- (catch _ ⊑ catch _) => apply approx_catch
  | |- (map_err _ _ ⊑ map_err _ _) => apply approx_map_err
  | |- (zoom _ _ _ ⊑ zoom _ _ _) => apply approx_zoom
  end.
Ltac approx := repeat first [solve [eauto with approx] | approx_step].
