(* ===== verification/CwStd.v ===== *)
(** * Data of cosmwasm-std used by the simulator

    The message, response, event and query types of
    [cosmwasm/packages/std/src], with the features the simulator builds with
    ([iterator], [staking], [abort]; no [stargate]). [String] and [Addr] are
    byte strings, [Binary] and [Vec<u8>] are lists of bytes, [Uint128] and the
    primitive integers are integers of [Z]. *)

From S2P Require Import Prelude.

Open Scope Z_scope.

(** ** Addresses, binaries, coins *)

(** [Addr(String)]: [Addr::unchecked], [as_str] and [to_string] are the
    identity on the string. *)
Abbreviation Addr := string.
Abbreviation Binary := bytes.

Record Coin := mkCoin { denom : string; amount : Z }.

#[export] Instance Coin_eq_dec : EqDecision Coin.
Proof. solve_decision. Defined.

(** [Display for Coin]. *)
Definition coin_to_string (c : Coin) : string := pretty (amount c) +:+ denom c.

(** [Iterator::find]: the first element that satisfies [p]. *)
Definition find_first {A} (p : A → bool) (l : list A) : option A := List.find p l.

Definition has_coins (coins : list Coin) (required : Coin) : bool :=
  match find_first (λ c, bool_decide (denom c = denom required)) coins with
  | Some m => amount required <=? amount m
  | None => false
  end.

(** ** Events *)
Record Attribute := mkAttribute { attr_key : string; attr_value : string }.
Record Event := mkEvent { ev_ty : string; ev_attributes : list Attribute }.

Definition Event_new (ty : string) : Event := mkEvent ty [].

Definition Event_add_attribute (key value : string) (e : Event) : Event :=
  mkEvent (ev_ty e) (ev_attributes e ++ [mkAttribute key value]).

(** ** Messages *)
Inductive BankMsg :=
| BankSend (to_address : string) (amount : list Coin)
| BankBurn (amount : list Coin).

Inductive StakingMsg :=
| Delegate (validator : string) (amount : Coin)
| Undelegate (validator : string) (amount : Coin)
| Redelegate (src_validator dst_validator : string) (amount : Coin).

Inductive DistributionMsg :=
| SetWithdrawAddress (address : string)
| WithdrawDelegatorReward (validator : string).

Inductive WasmMsg :=
| WasmExecute (contract_addr : string) (msg : Binary) (funds : list Coin)
| WasmInstantiate (admin : option string) (code_id : Z) (msg : Binary)
    (funds : list Coin) (label : string)
| WasmMigrate (contract_addr : string) (new_code_id : Z) (msg : Binary)
| WasmUpdateAdmin (contract_addr admin : string)
| WasmClearAdmin (contract_addr : string).

(** [CosmosMsg<Empty>]. *)
Inductive CosmosMsg :=
| MsgBank (m : BankMsg)
| MsgCustom
| MsgStaking (m : StakingMsg)
| MsgDistribution (m : DistributionMsg)
| MsgWasm (m : WasmMsg).

Inductive ReplyOn := ReplyAlways | ReplyError | ReplySuccess | ReplyNever.

Record SubMsg := mkSubMsg {
  sm_id : Z;
  sm_msg : CosmosMsg;
  sm_gas_limit : option Z;
  sm_reply_on : ReplyOn
}.

Definition UNUSED_MSG_ID : Z := 0.

Definition SubMsg_new (msg : CosmosMsg) : SubMsg :=
  mkSubMsg UNUSED_MSG_ID msg None ReplyNever.
Definition SubMsg_reply_on (msg : CosmosMsg) (id : Z) (r : ReplyOn) : SubMsg :=
  mkSubMsg id msg None r.
Definition SubMsg_reply_on_success (msg : CosmosMsg) (id : Z) : SubMsg :=
  SubMsg_reply_on msg id ReplySuccess.
Definition SubMsg_reply_on_error (msg : CosmosMsg) (id : Z) : SubMsg :=
  SubMsg_reply_on msg id ReplyError.
Definition SubMsg_reply_always (msg : CosmosMsg) (id : Z) : SubMsg :=
  SubMsg_reply_on msg id ReplyAlways.
Definition SubMsg_with_gas_limit (limit : Z) (m : SubMsg) : SubMsg :=
  mkSubMsg (sm_id m) (sm_msg m) (Some limit) (sm_reply_on m).

(** ** Responses *)
Record Response := mkResponse {
  messages : list SubMsg;
  attributes : list Attribute;
  events : list Event;
  data : option Binary
}.

Definition Response_new : Response := mkResponse [] [] [] None.

Definition add_submessage (m : SubMsg) (r : Response) : Response :=
  mkResponse (messages r ++ [m]) (attributes r) (events r) (data r).
Definition add_message (m : CosmosMsg) (r : Response) : Response :=
  add_submessage (SubMsg_new m) r.
Definition add_event (e : Event) (r : Response) : Response :=
  mkResponse (messages r) (attributes r) (events r ++ [e]) (data r).
Definition add_events (es : list Event) (r : Response) : Response :=
  mkResponse (messages r) (attributes r) (events r ++ es) (data r).
Definition add_submessages (ms : list SubMsg) (r : Response) : Response :=
  mkResponse (messages r ++ ms) (attributes r) (events r) (data r).
Definition add_messages (ms : list CosmosMsg) (r : Response) : Response :=
  add_submessages (SubMsg_new <$> ms) r.
Definition set_data (d : Binary) (r : Response) : Response :=
  mkResponse (messages r) (attributes r) (events r) (Some d).

(** [ContractResult<S>]: what a contract entry point returns. *)
Inductive ContractResult (A : Type) :=
| CROk (a : A)
| CRErr (e : string).
Arguments CROk {A} a.
Arguments CRErr {A} e.

Definition is_ok {A} (r : ContractResult A) : bool :=
  match r with CROk _ => true | CRErr _ => false end.
Definition is_err {A} (r : ContractResult A) : bool :=
  match r with CROk _ => false | CRErr _ => true end.

Inductive SystemError :=
| InvalidRequest (error : string) (request : Binary)
| InvalidResponse (error : string) (response : Binary)
| NoSuchContract (addr : string)
| SysUnknown
| UnsupportedRequest (kind : string).

Inductive SystemResult (A : Type) :=
| SROk (a : A)
| SRErr (e : SystemError).
Arguments SROk {A} a.
Arguments SRErr {A} e.

(** ** Replies *)
Record SubMsgResponse := mkSubMsgResponse {
  smr_events : list Event;
  smr_data : option Binary
}.

Inductive SubMsgResult :=
| SMROk (r : SubMsgResponse)
| SMRErr (e : string).

Record Reply := mkReply { reply_id : Z; reply_result : SubMsgResult }.

(** ** Queries *)
Inductive BankQuery :=
| QBalance (address denom : string)
| QAllBalances (address : string).

Record BalanceResponse := mkBalanceResponse { br_amount : Coin }.
Record AllBalanceResponse := mkAllBalanceResponse { abr_amount : list Coin }.

Inductive WasmQuery :=
| QSmart (contract_addr : string) (msg : Binary)
| QRaw (contract_addr : string) (key : Binary)
| QContractInfo (contract_addr : string).

Inductive StakingQuery :=
| QBondedDenom
| QAllDelegations (delegator : string)
| QDelegation (delegator validator : string)
| QAllValidators
| QValidator (address : string).

(** [QueryRequest<()>]. *)
Inductive QueryRequest :=
| ReqBank (q : BankQuery)
| ReqCustom
| ReqStaking (q : StakingQuery)
| ReqWasm (q : WasmQuery).

(** ** Call environment *)
Record BlockInfo := mkBlockInfo { height : Z; time : Z; chain_id : string }.
Record TransactionInfo := mkTransactionInfo { tx_index : Z }.
Record ContractInfo := mkContractInfo { ci_address : Addr }.
Record Env := mkEnv {
  block : BlockInfo;
  transaction : option TransactionInfo;
  contract : ContractInfo
}.
Record MessageInfo := mkMessageInfo { sender : Addr; funds : list Coin }.

(** [Order] of a storage scan, as passed over the contract interface. *)
Inductive Order := Ascending | Descending.

Definition order_of_i32 (value : Z) : option Order :=
  if value =? 1 then Some Ascending else if value =? 2 then Some Descending else None.
Definition i32_of_order (o : Order) : Z :=
  match o with Ascending => 1 | Descending => 2 end.

(** ** Timestamps

    [Timestamp(Uint64)] holds nanoseconds; [+] and [-] on [u64] panic on
    overflow. *)
Section Timestamp.
Context {E S : Type}.

Definition plus_nanos (t addition : Z) : M E S Z := add_or_panic U64 t addition.
Definition minus_nanos (t subtrahend : Z) : M E S Z := sub_or_panic t subtrahend.

Definition mul_or_panic (w x y : Z) : M E S Z :=
  if x * y <? w then mret (x * y) else panic "attempt to multiply with overflow".

Definition from_seconds (s : Z) : M E S Z := mul_or_panic U64 s 1000000000.
Definition plus_seconds (t addition : Z) : M E S Z :=
  n ← mul_or_panic U64 addition 1000000000; plus_nanos t n.
Definition minus_seconds (t subtrahend : Z) : M E S Z :=
  n ← mul_or_panic U64 subtrahend 1000000000; minus_nanos t n.
End Timestamp.

Definition seconds (t : Z) : Z := t `div` 1000000000.
Definition subsec_nanos (t : Z) : Z := t `mod` 1000000000.

(** Lemmas *)

Lemma is_ok_negb_is_err {A} (r : ContractResult A) : is_ok r = negb (is_err r).
Proof. by destruct r. Qed.

Lemma order_roundtrip o : order_of_i32 (i32_of_order o) = Some o.
Proof. by destruct o. Qed.

(** A timestamp splits into whole seconds and the rest below one second. *)
Lemma timestamp_split t :
  t = seconds t * 1000000000 + subsec_nanos t ∧ 0 ≤ subsec_nanos t < 1000000000.
Proof.
  unfold seconds, subsec_nanos. split; [|by apply Z.mod_pos_bound].
  rewrite Z.mul_comm. by apply Z.div_mod.
Qed.
