(* ===== verification/Errors.v ===== *)
(** * Error types

    [core/src/error.rs] and the errors of the virtual machine
    ([cosmwasm/packages/vm/src/errors], [backend.rs]), with the text their
    [Display] instances print: the simulator turns every error of the machine
    into a string before it stores it. *)

From S2P Require Import Prelude.

(** The newline that [writeln!] appends. *)
Definition newline : string := String (Ascii.ascii_of_nat 10) EmptyString.

(** ** core/src/error.rs *)
Inductive Error :=
| TokioError (s : string)
| RpcError (s : string)
| HttpError (s : string)
| InvalidArg (s : string)
| TendermintError (s : string)
| FormatError (s : string)
| EVmError (s : string)
| EStdError (s : string)
| IoError (s : string)
| BankError (s : string)
| EBackendError (s : string).

Definition Error_to_string (e : Error) : string :=
  match e with
  | TokioError s => "tokio error: " +:+ s +:+ newline
  | RpcError s => "RPC error: " +:+ s +:+ newline
  | HttpError s => "HTTP error: " +:+ s +:+ newline
  | InvalidArg s => "Invalid argument: " +:+ s +:+ newline
  | TendermintError s => "tendermint error: " +:+ s +:+ newline
  | FormatError s => "format error: " +:+ s +:+ newline
  | EVmError s => "vm error: " +:+ s +:+ newline
  | EStdError s => "std error: " +:+ s +:+ newline
  | IoError s => "I/O error: " +:+ s +:+ newline
  | BankError s => "bank error: " +:+ s +:+ newline
  | EBackendError s => "backend error: " +:+ s +:+ newline
  end.

(** ** BackendError *)
Inductive BackendError :=
| ForeignPanic
| BadArgument
| BInvalidUtf8
| IteratorDoesNotExist (id : Z)
| BOutOfGas
| BUnknown (msg : string)
| UserErr (msg : string).

Definition BackendError_to_string (e : BackendError) : string :=
  match e with
  | ForeignPanic => "Panic in FFI call"
  | BadArgument => "Bad argument"
  | BInvalidUtf8 => "VM received invalid UTF-8 data from backend"
  | IteratorDoesNotExist id => "Iterator with ID " +:+ pretty id +:+ " does not exist"
  | BOutOfGas => "Ran out of gas during call into backend"
  | BUnknown msg => "Unknown error during call into backend: " +:+ msg
  | UserErr msg => "User error during call into backend: " +:+ msg
  end.

(** ** Regions and guest/host communication *)
Inductive RegionValidationError :=
| LengthExceedsCapacity (length capacity : Z)
| OutOfRange (offset capacity : Z)
| ZeroOffset.

Definition RegionValidationError_to_string (e : RegionValidationError) : string :=
  match e with
  | LengthExceedsCapacity l c =>
      "Region length exceeds capacity. Length " +:+ pretty l +:+ ", capacity " +:+ pretty c
  | OutOfRange o c =>
      "Region exceeds address space. Offset " +:+ pretty o +:+ ", capacity " +:+ pretty c
  | ZeroOffset => "Got a zero Wasm address in the offset"
  end.

Inductive CommunicationError :=
| DerefErr (offset : Z) (msg : string)
| InvalidOrder (value : Z)
| InvalidRegion (source : RegionValidationError)
| CInvalidUtf8 (msg : string)
| RegionLengthTooBig (length max_length : Z)
| RegionTooSmall (size required : Z)
| ZeroAddress.

Definition CommunicationError_to_string (e : CommunicationError) : string :=
  match e with
  | DerefErr o m =>
      "The Wasm memory address " +:+ pretty o +:+
      " provided by the contract could not be dereferenced: " +:+ m
  | InvalidOrder v => "Got an invalid value for iteration order: " +:+ pretty v
  | InvalidRegion s => "Got an invalid region: " +:+ RegionValidationError_to_string s
  | CInvalidUtf8 m => "Cannot decode UTF8 bytes into string: " +:+ m
  | RegionLengthTooBig l m =>
      "Region length too big. Got " +:+ pretty l +:+ ", limit " +:+ pretty m
  | RegionTooSmall s r =>
      "Region too small. Got " +:+ pretty s +:+ ", required " +:+ pretty r
  | ZeroAddress => "Got a zero Wasm address"
  end.

(** ** VmError

    The [CryptoError] of [CryptoErr] is kept as the text it displays. *)
Inductive VmError :=
| Aborted (msg : string)
| BackendErr (source : BackendError)
| CacheErr (msg : string)
| CommunicationErr (source : CommunicationError)
| CompileErr (msg : string)
| ConversionErr (from_type to_type input : string)
| CryptoErr (source : string)
| GasDepletion
| GenericErr (msg : string)
| InstantiationErr (msg : string)
| IntegrityErr
| ParseErr (target_type msg : string)
| DeserializationLimitExceeded (length max_length : Z)
| SerializeErr (source_type msg : string)
| ResolveErr (msg : string)
| ResultMismatch (function_name : string) (expected actual : Z)
| RuntimeErr (msg : string)
| StaticValidationErr (msg : string)
| UninitializedContextData (kind : string)
| WriteAccessDenied.

Definition VmError_to_string (e : VmError) : string :=
  match e with
  | Aborted msg => "Aborted: " +:+ msg
  | BackendErr s => "Error calling into the VM's backend: " +:+ BackendError_to_string s
  | CacheErr msg => "Cache error: " +:+ msg
  | CommunicationErr s =>
      "Error in guest/host communication: " +:+ CommunicationError_to_string s
  | CompileErr msg => "Error compiling Wasm: " +:+ msg
  | ConversionErr f t i =>
      "Couldn't convert from " +:+ f +:+ " to " +:+ t +:+ ". Input: " +:+ i
  | CryptoErr s => "Crypto error: " +:+ s
  | GasDepletion => "Ran out of gas during contract execution"
  | GenericErr msg => "Generic error: " +:+ msg
  | InstantiationErr msg => "Error instantiating a Wasm module: " +:+ msg
  | IntegrityErr => "Hash doesn't match stored data"
  | ParseErr t msg => "Error parsing into type " +:+ t +:+ ": " +:+ msg
  | DeserializationLimitExceeded l m =>
      "Data too long for deserialization. Got: " +:+ pretty l +:+
      " bytes; limit: " +:+ pretty m +:+ " bytes"
  | SerializeErr s msg => "Error serializing type " +:+ s +:+ ": " +:+ msg
  | ResolveErr msg => "Error resolving Wasm function: " +:+ msg
  | ResultMismatch f e a =>
      "Unexpected number of result values when calling '" +:+ f +:+ "'. Expected: " +:+
      pretty e +:+ ", actual: " +:+ pretty a +:+ "."
  | RuntimeErr msg => "Error executing Wasm: " +:+ msg
  | StaticValidationErr msg => "Error during static Wasm validation: " +:+ msg
  | UninitializedContextData k => "Uninitialized Context Data: " +:+ k
  | WriteAccessDenied => "Must not call a writing storage function in this context."
  end.

(** [From<BackendError> for VmError]. *)
Definition VmError_of_BackendError (e : BackendError) : VmError :=
  match e with BOutOfGas => GasDepletion | _ => BackendErr e end.

(** A [VmError] returned by an import becomes a wasmer [RuntimeError] with its
    text and comes back from the call of the exported function as a
    [RuntimeErr] ([From<VmError> for RuntimeError], [From<RuntimeError> for VmError]). *)
Definition VmError_through_wasm (e : VmError) : VmError :=
  RuntimeErr ("Wasmer runtime error: " +:+ ("RuntimeError: " +:+ VmError_to_string e)).

(** [Error::vm_error] applied to a [VmError]. *)
Definition vm_error (e : VmError) : Error := EVmError (VmError_to_string e).
