(* ===== verification/DebugLog.v ===== *)
(** * Debug log and call trace ([core/src/fork/debug_log.rs])

    The log collects the responses of a transaction, the printed lines and a
    call graph: every opened call gets a fresh number and an edge from the call
    that was current when it was opened. *)

From S2P Require Import Prelude.
From S2P Require Import CwStd.
From S2P Require Import Errors.

Open Scope Z_scope.

(** ** CallTrace *)
Record CallTrace := mkCallTrace {
  call_graph : gmap Z (list Z);
  call_graph_labels : gmap Z string;
  call_id_counter : Z;
  current_call_id : Z
}.

Definition CallTrace_new : CallTrace :=
  mkCallTrace ∅ {[0 := "top"]} 0 0.

(** [entry(k).or_insert_with(Vec::new).push(v)]. *)
Definition push_at (k v : Z) (m : gmap Z (list Z)) : gmap Z (list Z) :=
  <[k := default [] (m !! k) ++ [v]]> m.

Section ops.
Context {E : Type}.

(** Returns the call that was current before, to be restored by [end_call].
    The counter is a [usize] and its increment may overflow. *)
Definition begin_call (context_name : string) : M E CallTrace Z :=
  t ← get;
  call_id ← add_or_panic U64 (call_id_counter t) 1;
  let parent_call_id := current_call_id t in
  _ ← put (mkCallTrace (push_at parent_call_id call_id (call_graph t))
        (<[call_id := context_name]> (call_graph_labels t)) call_id call_id);
  mret parent_call_id.

Definition end_call (parent_call_id : Z) : M E CallTrace unit :=
  modify (λ t, mkCallTrace (call_graph t) (call_graph_labels t)
                 (call_id_counter t) parent_call_id).

Definition error_call (error_str : string) : M E CallTrace unit :=
  t ← get;
  call_id ← add_or_panic U64 (call_id_counter t) 1;
  let parent_call_id := current_call_id t in
  put (mkCallTrace (push_at parent_call_id call_id (call_graph t))
        (<[call_id := error_str]> (call_graph_labels t)) call_id parent_call_id).
End ops.

(** ** DebugLog *)
Record DebugLogEntry := mkDebugLogEntry {
  e_attributes : list Attribute;
  e_events : list Event;
  e_data : option Binary
}.

Record DebugLog := mkDebugLog {
  logs : list DebugLogEntry;
  err_msg : option string;
  stdout : list string;
  call_trace : CallTrace
}.

Definition DebugLog_new : DebugLog := mkDebugLog [] None [] CallTrace_new.

Definition set_call_trace (t : CallTrace) (l : DebugLog) : DebugLog :=
  mkDebugLog (logs l) (err_msg l) (stdout l) t.

Definition get_stdout (l : DebugLog) : string := foldl String.app "" (stdout l).

Definition get_call_trace (l : DebugLog) : gmap Z (list Z) * gmap Z string :=
  (call_graph (call_trace l), call_graph_labels (call_trace l)).

Section log_ops.
Context {E : Type}.

(** [serde_json::from_slice] to a [Value] followed by its [Display]: the text
    of a JSON document, or nothing when the bytes are not JSON. *)
Context (json_display : bytes → option string).

Definition set_err_msg (m : string) : M E DebugLog unit :=
  modify (λ l, mkDebugLog (logs l) (Some m) (stdout l) (call_trace l)).

Definition append_log (r : Response) : M E DebugLog unit :=
  modify (λ l, mkDebugLog
    (logs l ++ [mkDebugLogEntry (attributes r) (events r) (data r)])
    (err_msg l) (stdout l) (call_trace l)).

Definition append_stdout (m : string) : M E DebugLog unit :=
  modify (λ l, mkDebugLog (logs l) (err_msg l) (stdout l ++ [m]) (call_trace l)).

Definition on_trace {A} (m : M E CallTrace A) : M E DebugLog A :=
  zoom call_trace set_call_trace m.

(** [begin_instantiate], [begin_execute], [begin_reply] and [begin_query]
    differ in the word [kind] only; all four unwrap the parsed message. *)
Definition begin_context (kind : string) (contract_addr : Addr) (msg : bytes) : M E DebugLog Z :=
  msg_json ← unwrap "called `Result::unwrap()` on an `Err` value" (json_display msg);
  on_trace (begin_call (contract_addr +:+ ":" +:+ kind +:+ "(" +:+ msg_json +:+ ")")).

Definition begin_instantiate : Addr → bytes → M E DebugLog Z := begin_context "instantiate".
Definition begin_execute : Addr → bytes → M E DebugLog Z := begin_context "execute".
Definition begin_reply : Addr → bytes → M E DebugLog Z := begin_context "reply".
Definition begin_query : Addr → bytes → M E DebugLog Z := begin_context "query".

Definition end_instantiate (parent_call_id : Z) : M E DebugLog unit :=
  on_trace (end_call parent_call_id).
Definition end_execute (parent_call_id : Z) : M E DebugLog unit :=
  on_trace (end_call parent_call_id).
Definition end_reply (parent_call_id : Z) : M E DebugLog unit :=
  on_trace (end_call parent_call_id).
Definition end_query (parent_call_id : Z) : M E DebugLog unit :=
  on_trace (end_call parent_call_id).

Definition begin_error (error_str : string) : M E DebugLog unit :=
  on_trace (error_call error_str).
End log_ops.

(** ** The call graph is a tree *)

Definition edge (t : CallTrace) (p c : Z) : Prop :=
  ∃ l, call_graph t !! p = Some l ∧ c ∈ l.

Record trace_wf (t : CallTrace) : Prop := mk_trace_wf {
  wf_current : 0 ≤ current_call_id t ≤ call_id_counter t;
  wf_labels : ∀ i, is_Some (call_graph_labels t !! i) ↔ 0 ≤ i ≤ call_id_counter t;
  wf_edge : ∀ p c, edge t p c → 0 ≤ p < c ∧ c ≤ call_id_counter t;
  wf_parent : ∀ c, 1 ≤ c ≤ call_id_counter t → ∃ p, edge t p c ∧ ∀ q, edge t q c → q = p;
  wf_sorted : ∀ p l, call_graph t !! p = Some l → StronglySorted Z.lt l
}.

(** A call graph only grows: numbers, labels and edges are never taken back. *)
Record trace_le (t t' : CallTrace) : Prop := mk_trace_le {
  le_counter : call_id_counter t ≤ call_id_counter t';
  le_edge : ∀ p c, edge t p c → edge t' p c;
  le_wf : trace_wf t → trace_wf t'
}.

#[export] Instance trace_le_refl : Reflexive trace_le.
Proof. by intros t. Qed.

#[export] Instance trace_le_trans : Transitive trace_le.
Proof. intros t1 t2 t3 [] []. split; [lia|auto..]. Qed.

Lemma edge_push t p c g' lbl cnt cur q d :
  g' = push_at p c (call_graph t) →
  edge (mkCallTrace g' lbl cnt cur) q d ↔ edge t q d ∨ (q = p ∧ d = c).
Proof.
  intros ->. unfold edge, push_at; cbn. rewrite lookup_insert. case_decide as Hq; subst.
  - split.
    + intros (l & [= <-] & [Hd|Hd]%elem_of_app).
      * left. destruct (call_graph t !! q); cbn in *; [eauto|by apply elem_of_nil in Hd].
      * apply list_elem_of_singleton in Hd. auto.
    + intros [(l & -> & Hd)|[_ ->]]; eexists; (split; [done|]); cbn; set_solver.
  - naive_solver.
Qed.

Lemma push_sorted t p c q l :
  trace_wf t → c = call_id_counter t + 1 →
  push_at p c (call_graph t) !! q = Some l → StronglySorted Z.lt l.
Proof.
  intros Hwf -> Hl. unfold push_at in Hl. rewrite lookup_insert in Hl.
  case_decide; simplify_eq; [|by eapply wf_sorted].
  destruct (call_graph t !! q) as [l|] eqn:Hq; cbn; [|repeat constructor].
  apply StronglySorted_app. split_and!; [|by eapply wf_sorted|repeat constructor].
  intros x y Hx ->%list_elem_of_singleton.
  destruct (wf_edge t Hwf q x) as [_ ?]; [by exists l|lia].
Qed.

(** Both kinds of new node: a call that becomes current, an error leaf. *)
Lemma push_wf t s cur :
  trace_wf t → cur = current_call_id t ∨ cur = call_id_counter t + 1 →
  trace_wf (mkCallTrace (push_at (current_call_id t) (call_id_counter t + 1) (call_graph t))
              (<[call_id_counter t + 1 := s]> (call_graph_labels t))
              (call_id_counter t + 1) cur).
Proof.
  intros Hwf Hcur. pose proof (wf_current t Hwf).
  split; cbn.
  - lia.
  - intros i. rewrite lookup_insert. case_decide; [subst; split; [lia|by eexists]|].
    rewrite (wf_labels t Hwf). lia.
  - intros p c [?%(wf_edge t Hwf)|[-> ->]]%(edge_push t _ _ _ _ _ _ _ _ eq_refl); lia.
  - intros c Hc. destruct (decide (c = call_id_counter t + 1)) as [->|Hne].
    + exists (current_call_id t). split; [by apply (edge_push t _ _ _ _ _ _ _ _ eq_refl); right|].
      intros q [?%(wf_edge t Hwf)|[-> _]]%(edge_push t _ _ _ _ _ _ _ _ eq_refl); [lia|done].
    + destruct (wf_parent t Hwf c) as (p & Hp & Huniq); [lia|]. exists p.
      split; [by apply (edge_push t _ _ _ _ _ _ _ _ eq_refl); left|].
      intros q [?|[_ ?]]%(edge_push t _ _ _ _ _ _ _ _ eq_refl); [by apply Huniq|lia].
  - intros p l. by apply push_sorted.
Qed.

Lemma CallTrace_new_wf : trace_wf CallTrace_new.
Proof.
  unfold CallTrace_new.
  split; cbn [call_graph call_graph_labels call_id_counter current_call_id].
  - lia.
  - intros i. rewrite lookup_singleton. case_decide; subst; [split; [lia|by eexists]|].
    split; [by intros []|lia].
  - intros p c (l & Hl & _). cbn [call_graph] in Hl. by rewrite lookup_empty in Hl.
  - lia.
  - intros p l. by rewrite lookup_empty.
Qed.

Section trace_steps.
Context {E : Type}.

Lemma begin_call_run name t :
  (begin_call name t : outcome E Z * CallTrace) =
  if call_id_counter t + 1 <? U64
  then (Ok (current_call_id t),
        mkCallTrace (push_at (current_call_id t) (call_id_counter t + 1) (call_graph t))
          (<[call_id_counter t + 1 := name]> (call_graph_labels t))
          (call_id_counter t + 1) (call_id_counter t + 1))
  else (Panic "attempt to add with overflow", t).
Proof. unfold begin_call. munfold. by destruct (_ <? _). Qed.

Lemma error_call_run name t :
  (error_call name t : outcome E unit * CallTrace) =
  if call_id_counter t + 1 <? U64
  then (Ok tt,
        mkCallTrace (push_at (current_call_id t) (call_id_counter t + 1) (call_graph t))
          (<[call_id_counter t + 1 := name]> (call_graph_labels t))
          (call_id_counter t + 1) (current_call_id t))
  else (Panic "attempt to add with overflow", t).
Proof. unfold error_call. munfold. by destruct (_ <? _). Qed.

Lemma begin_call_le name : preserves trace_le (begin_call name : M E CallTrace Z).
Proof.
  intros t. rewrite begin_call_run. case_match; [|done]. split; cbn; [lia| |].
  - intros p c Hp. apply (edge_push t _ _ _ _ _ _ _ _ eq_refl). by left.
  - intros Hwf. apply push_wf; auto.
Qed.

Lemma error_call_le name : preserves trace_le (error_call name : M E CallTrace unit).
Proof.
  intros t. rewrite error_call_run. case_match; [|done]. split; cbn; [lia| |].
  - intros p c Hp. apply (edge_push t _ _ _ _ _ _ _ _ eq_refl). by left.
  - intros Hwf. apply push_wf; auto.
Qed.

Lemma end_call_le p t :
  0 ≤ p ≤ call_id_counter t → trace_le t (end_call p t : outcome E unit * CallTrace).2.
Proof. intros Hp. split; cbn; [lia|done|]. intros []. by split. Qed.
End trace_steps.

(** Steps of the trace: a call is closed with the number of some earlier call
    (the code passes the number that [begin_call] returned). *)
Inductive trace_step : CallTrace → CallTrace → Prop :=
| step_begin name p t t' :
    begin_call (E := Error) name t = (Ok p, t') → trace_step t t'
| step_end p t t' :
    0 ≤ p ≤ call_id_counter t → end_call (E := Error) p t = (Ok tt, t') → trace_step t t'
| step_error s t t' :
    error_call (E := Error) s t = (Ok tt, t') → trace_step t t'.

Lemma trace_step_le t t' : trace_step t t' → trace_le t t'.
Proof.
  destruct 1 as [name p t t' H|p t t' Hp H|s t t' H].
  - pose proof (begin_call_le (E := Error) name t) as Hle. by rewrite H in Hle.
  - pose proof (end_call_le (E := Error) p t Hp) as Hle. by rewrite H in Hle.
  - pose proof (error_call_le (E := Error) s t) as Hle. by rewrite H in Hle.
Qed.

Lemma trace_steps_le t t' : rtc trace_step t t' → trace_le t t'.
Proof. induction 1; [done|]. etrans; [by apply trace_step_le|done]. Qed.

Lemma trace_wf_reaches t i :
  trace_wf t → 0 ≤ i ≤ call_id_counter t → rtc (edge t) 0 i.
Proof.
  intros Hwf [H0 Hi]. revert i H0 Hi.
  enough (∀ i, 0 ≤ i → 0 ≤ i → i ≤ call_id_counter t → rtc (edge t) 0 i) by auto.
  apply (Z_lt_induction (λ i, 0 ≤ i → i ≤ call_id_counter t → rtc (edge t) 0 i)).
  intros i IH H0 Hi. destruct (decide (i = 0)) as [->|Hne]; [done|].
  destruct (wf_parent t Hwf i) as (p & Hp & _); [lia|].
  pose proof (wf_edge t Hwf p i Hp). eapply rtc_r; [apply (IH p); lia|done].
Qed.

(** ** What the log operations keep *)
Record log_le (l l' : DebugLog) : Prop := mk_log_le {
  le_trace : trace_le (call_trace l) (call_trace l');
  le_logs : logs l `prefix_of` logs l';
  le_stdout : stdout l `prefix_of` stdout l'
}.

#[export] Instance log_le_refl : Reflexive log_le.
Proof. by intros l. Qed.

#[export] Instance log_le_trans : Transitive log_le.
Proof. intros l1 l2 l3 [] []. split; by etrans. Qed.

Section log_steps.
Context {E : Type} (json_display : bytes → option string).

Lemma on_trace_le {A} (m : M E CallTrace A) :
  preserves trace_le m → preserves log_le (on_trace m).
Proof. intros Hm. eapply preserves_zoom; [exact Hm|]. by split. Qed.

Lemma begin_context_le kind a msg : preserves log_le (begin_context (E := E) json_display kind a msg).
Proof.
  unfold begin_context. pres. apply on_trace_le, begin_call_le.
Qed.

Lemma begin_error_le s : preserves log_le (begin_error (E := E) s).
Proof. apply on_trace_le, error_call_le. Qed.

Lemma set_err_msg_le s : preserves log_le (set_err_msg (E := E) s).
Proof. by apply preserves_modify. Qed.

Lemma append_log_le r : preserves log_le (append_log (E := E) r).
Proof. apply preserves_modify. intros l. split; cbn; [done|by eexists|done]. Qed.

Lemma append_stdout_le s : preserves log_le (append_stdout (E := E) s).
Proof. apply preserves_modify. intros l. split; cbn; [done|done|by eexists]. Qed.
End log_steps.

#[export] Hint Resolve begin_context_le begin_error_le set_err_msg_le append_log_le
  append_stdout_le : pres.

(** Closing a context that was opened in a state [l]: the call that was current
    then is current again. *)
Section brackets.
Context {E : Type} (json_display : bytes → option string).

Lemma begin_context_Ok kind a msg l id l1 :
  begin_context (E := E) json_display kind a msg l = (Ok id, l1) →
  id = current_call_id (call_trace l).
Proof.
  unfold begin_context, on_trace, zoom. intros H. minv. rewrite begin_call_run in Hk.
  destruct (json_display msg); [injection Hm as <- <-|done].
  by repeat case_match; simplify_eq/=.
Qed.

Lemma end_context_le kind a msg l id l1 l2 :
  begin_context (E := E) json_display kind a msg l = (Ok id, l1) →
  log_le l l2 → log_le l (on_trace (end_call (E := E) id) l2).2.
Proof.
  intros ->%begin_context_Ok [[Hc He Hw] Hl Hs]. split; [|done..].
  split; cbn; [done|done|]. intros Hwf. pose proof (wf_current _ Hwf).
  specialize (Hw Hwf). destruct Hw. split; cbn; [lia|done..].
Qed.
End brackets.

(** Opening a context does the same whatever the error type of the caller. *)
Lemma begin_context_err {E F : Type} json_display kind a msg l :
  begin_context (E := F) json_display kind a msg l =
  match begin_context (E := E) json_display kind a msg l with
  | (Ok id, l') => (Ok id, l')
  | (Err _, l') => (OutOfFuel, l')
  | (Panic p, l') => (Panic p, l')
  | (OutOfFuel, l') => (OutOfFuel, l')
  end.
Proof.
  unfold begin_context, on_trace, zoom. unfold mbind, M_bind.
  destruct (json_display msg); cbn; [|done]. rewrite !begin_call_run. by destruct (_ <? _).
Qed.

(** Whatever sequence of calls is opened, closed and reported as failed, the
    call graph stays a tree rooted at call 0: calls are numbered without gaps,
    every call has a label, every call but the root has exactly one caller,
    with a smaller number, the callees of a call are in the order they were
    opened, and every call is reached from the root. *)
Theorem call_graph_is_a_tree t :
  rtc trace_step CallTrace_new t →
  trace_wf t ∧ ∀ i, 0 ≤ i ≤ call_id_counter t → rtc (edge t) 0 i.
Proof.
  intros Hsteps. assert (trace_wf t) as Hwf.
  { eapply le_wf; [by apply trace_steps_le|apply CallTrace_new_wf]. }
  split; [done|]. intros i Hi. by apply trace_wf_reaches.
Qed.
