(* ===== verification/Storage.v ===== *)
(** * Contract storage ([core/src/fork/storage.rs])

    [RpcMockStorage] gives a running contract access to a key-value map that it
    shares with the simulator's state, and keeps the iterators the contract has
    opened: each holds a snapshot of the records of its range and a position.
    Every call reports [GasInfo::free()], which is left out. *)

From S2P Require Import Prelude.
From S2P Require Import CwStd.
From S2P Require Import Errors.

Open Scope Z_scope.

(** [ContractStorage = BTreeMap<Vec<u8>, Vec<u8>>]. *)
Abbreviation ContractStorage := (gmap bytes bytes).
Abbreviation StoreRecord := (bytes * bytes)%type.

Record RpcMockStorage := mkStorage {
  inner : ContractStorage;
  iterators : gmap Z (list StoreRecord * nat);
  iterator_id_ctr : Z
}.

Definition Storage_new (cell : ContractStorage) : RpcMockStorage := mkStorage cell ∅ 0.

(** ** [BTreeMap::range]: the entries of a half-open interval in key order *)
Definition key_le (r1 r2 : StoreRecord) : Prop := bytes_le r1.1 r2.1.

#[export] Instance key_le_dec r1 r2 : Decision (key_le r1 r2) := decide (bytes_le r1.1 r2.1).

Definition in_range (lo hi : option bytes) (k : bytes) : bool :=
  match lo with Some s => bytes_leb s k | None => true end &&
  match hi with Some e => bytes_ltb k e | None => true end.

Definition range (m : ContractStorage) (lo hi : option bytes) : list StoreRecord :=
  merge_sort key_le (filter (λ r, in_range lo hi r.1 = true) (map_to_list m)).

(** ** Operations *)
Section ops.
Abbreviation St := RpcMockStorage.

Definition new_iterator (records : list StoreRecord) : M BackendError St Z :=
  st ← get;
  c ← add_or_panic U32 (iterator_id_ctr st) 1;
  _ ← put (mkStorage (inner st) (<[c - 1 := (records, 0%nat)]> (iterators st)) c);
  mret (c - 1).

Definition storage_get (key : bytes) : M BackendError St (option bytes) :=
  gets (λ st, inner st !! key).

(** [start > end] describes an empty range and must not reach [range], which
    panics on it. *)
Definition scan (start stop : option bytes) (order : Order) : M BackendError St Z :=
  st ← get;
  let finish records :=
    match order with
    | Ascending => new_iterator records
    | Descending => new_iterator (reverse records)
    end in
  match start, stop with
  | Some s, Some e =>
      if bytes_ltb e s then new_iterator []
      else finish (range (inner st) (Some s) (Some e))
  | Some s, None => finish (range (inner st) (Some s) None)
  | None, Some e => finish (range (inner st) None (Some e))
  | None, None => finish (range (inner st) (Some []) None)
  end.

Definition next (iterator_id : Z) : M BackendError St (option StoreRecord) :=
  st ← get;
  match iterators st !! iterator_id with
  | Some (records, index) =>
      if (length records <=? index)%nat then mret None
      else
        _ ← put (mkStorage (inner st) (<[iterator_id := (records, S index)]> (iterators st))
                   (iterator_id_ctr st));
        r ← unwrap "index out of bounds" (records !! index);
        mret (Some r)
  | None => throw (IteratorDoesNotExist iterator_id)
  end.

Definition storage_set (key value : bytes) : M BackendError St unit :=
  modify (λ st, mkStorage (<[key := value]> (inner st)) (iterators st) (iterator_id_ctr st)).

Definition storage_remove (key : bytes) : M BackendError St unit :=
  modify (λ st, mkStorage (delete key (inner st)) (iterators st) (iterator_id_ctr st)).

(** Calling [next] [n] times, collecting the answers. *)
Fixpoint next_n (n : nat) (id : Z) : M BackendError St (list (option StoreRecord)) :=
  match n with
  | O => mret []
  | S n' => r ← next id; rs ← next_n n' id; mret (r :: rs)
  end.
End ops.

(** ** The range of a map *)

Definition order_rel (o : Order) : relation StoreRecord :=
  match o with
  | Ascending => λ r1 r2, bytes_ltb r1.1 r2.1 = true
  | Descending => λ r1 r2, bytes_ltb r2.1 r1.1 = true
  end.

#[export] Instance key_le_total : Total key_le.
Proof. intros r1 r2. apply bytes_le_total. Qed.
#[export] Instance key_le_trans : Transitive key_le.
Proof. intros r1 r2 r3. apply bytes_le_trans. Qed.

Lemma elem_of_range m lo hi k v :
  (k, v) ∈ range m lo hi ↔ m !! k = Some v ∧ in_range lo hi k = true.
Proof.
  unfold range. rewrite merge_sort_Permutation, list_elem_of_filter, elem_of_map_to_list.
  cbn. tauto.
Qed.

Lemma range_NoDup_keys m lo hi : NoDup (range m lo hi).*1.
Proof.
  unfold range. rewrite merge_sort_Permutation.
  eapply sublist_NoDup; [apply (NoDup_fst_map_to_list m)|].
  apply fmap_sublist, sublist_filter.
Qed.

Lemma sorted_strict (l : list StoreRecord) :
  NoDup l.*1 → StronglySorted key_le l → StronglySorted (order_rel Ascending) l.
Proof.
  induction l as [|r l IH]; cbn; intros Hnd Hs; [constructor|].
  apply NoDup_cons in Hnd as [Hr Hnd]. apply StronglySorted_cons in Hs as [Hle Hs].
  apply StronglySorted_cons. split; [|by apply IH].
  rewrite Forall_forall in Hle |- *. intros r' Hr'. cbn. apply bytes_ltb_spec.
  split; [by apply Hle|]. intros Heq. apply Hr. rewrite Heq.
  apply list_elem_of_fmap. eauto.
Qed.

Lemma range_sorted m lo hi : StronglySorted (order_rel Ascending) (range m lo hi).
Proof.
  apply sorted_strict; [apply range_NoDup_keys|].
  apply StronglySorted_merge_sort; apply _.
Qed.

Lemma reverse_sorted {A} (R : relation A) (l : list A) :
  StronglySorted R l → StronglySorted (flip R) (reverse l).
Proof.
  induction 1 as [|x l Hs IH Hx]; [constructor|].
  rewrite reverse_cons. apply StronglySorted_app. split_and!; [|done|repeat constructor].
  intros y z Hy ->%list_elem_of_singleton. rewrite Forall_forall in Hx.
  apply Hx. by apply elem_of_reverse.
Qed.

(** The records a scan selects, in the order it returns them. *)
Definition scan_records (m : ContractStorage) (start stop : option bytes) (o : Order)
    : list StoreRecord :=
  match o with
  | Ascending => range m start stop
  | Descending => reverse (range m start stop)
  end.

Lemma elem_of_scan_records m start stop o k v :
  (k, v) ∈ scan_records m start stop o ↔ m !! k = Some v ∧ in_range start stop k = true.
Proof. destruct o; cbn; rewrite ?elem_of_reverse; apply elem_of_range. Qed.

Lemma scan_records_sorted m start stop o :
  StronglySorted (order_rel o) (scan_records m start stop o).
Proof.
  destruct o; cbn; [apply range_sorted|].
  exact (reverse_sorted (order_rel Ascending) _ (range_sorted m start stop)).
Qed.

Lemma range_empty m s e : bytes_ltb e s = true → range m (Some s) (Some e) = [].
Proof.
  intros [Hes Hne]%bytes_ltb_spec.
  destruct (range m (Some s) (Some e)) as [|[k v] l] eqn:Hr; [done|].
  assert ((k, v) ∈ range m (Some s) (Some e)) as [_ Hk]%elem_of_range by (rewrite Hr; set_solver).
  apply andb_true_iff in Hk as [Hsk [Hke Hnk]%bytes_ltb_spec].
  exfalso. apply Hnk, (anti_symm bytes_le); [done|]. by transitivity s.
Qed.

Lemma in_range_bottom hi k : in_range (Some []) hi k = in_range None hi k.
Proof. done. Qed.

Lemma range_bottom m hi : range m (Some []) hi = range m None hi.
Proof. unfold range. f_equal. Qed.

Lemma scan_run start stop o st :
  scan start stop o st =
  if iterator_id_ctr st + 1 <? U32
  then (Ok (iterator_id_ctr st),
        mkStorage (inner st)
          (<[iterator_id_ctr st := (scan_records (inner st) start stop o, 0%nat)]> (iterators st))
          (iterator_id_ctr st + 1))
  else (Panic "attempt to add with overflow", st).
Proof.
  unfold scan, new_iterator, scan_records.
  assert (iterator_id_ctr st + 1 - 1 = iterator_id_ctr st) as Hc by lia.
  munfold. destruct start as [s|], stop as [e|]; [destruct (bytes_ltb e s) eqn:Hes|..];
    destruct o; rewrite ?range_bottom, ?(range_empty _ _ _ Hes); cbn;
    destruct (_ <? U32); by rewrite ?Hc.
Qed.

(** ** Draining an iterator *)
Lemma next_n_run n id rs ix st :
  iterators st !! id = Some (rs, ix) →
  ∃ st', next_n n id st =
           (Ok ((Some <$> take n (drop ix rs)) ++ replicate (n - length (drop ix rs)) None), st') ∧
         inner st' = inner st ∧ iterator_id_ctr st' = iterator_id_ctr st ∧
         (∀ j, j ≠ id → iterators st' !! j = iterators st !! j).
Proof.
  revert ix st. induction n as [|n IH]; intros ix st Hid; [by exists st|].
  cbn [next_n]. unfold next. munfold. cbn. rewrite Hid.
  destruct (Nat.leb_spec (length rs) ix) as [Hlen|Hlen].
  - destruct (IH ix st Hid) as (st' & Hrun & Hst'). munfold. rewrite Hrun.
    exists st'. split; [|done]. do 2 f_equal.
    rewrite drop_ge by lia. rewrite !take_nil. cbn. by rewrite Nat.sub_0_r.
  - destruct (lookup_lt_is_Some_2 rs ix Hlen) as [r Hr]. rewrite Hr.
    destruct (IH (S ix) (mkStorage (inner st) (<[id:=(rs, S ix)]> (iterators st)) (iterator_id_ctr st)))
      as (st' & Hrun & Hi & Hc & Hj); [cbn; apply lookup_insert_eq|].
    munfold. rewrite Hrun. exists st'. split; [|split_and!; [done..|]].
    + rewrite (drop_S rs r ix Hr). cbn. done.
    + intros j Hne. rewrite (Hj j Hne). cbn. by rewrite lookup_insert_ne.
Qed.

(** C11: An iterator returns, in key order or in reverse, exactly the records
    that were in its range when it was opened, and nothing after them, however
    often it is asked and whatever was written to the storage since. *)
Theorem scan_iterates_snapshot start stop o st id st1 st2 n :
  scan start stop o st = (Ok id, st1) →
  iterators st2 !! id = iterators st1 !! id →
  ∃ records st3,
    next_n n id st2 =
      (Ok ((Some <$> take n records) ++ replicate (n - length records) None), st3) ∧
    inner st3 = inner st2 ∧
    StronglySorted (order_rel o) records ∧
    ∀ k v, (k, v) ∈ records ↔ inner st !! k = Some v ∧ in_range start stop k = true.
Proof.
  rewrite scan_run. case_match; [|done]. intros [= <- <-] Hit. cbn in Hit.
  rewrite lookup_insert_eq in Hit.
  destruct (next_n_run n _ _ _ _ Hit) as (st3 & Hrun & Hin & _). rewrite drop_0 in Hrun.
  eexists _, st3. split; [exact Hrun|]. split; [done|].
  split; [apply scan_records_sorted|intros; apply elem_of_scan_records].
Qed.
