(* ===== verification/Client.v ===== *)
(** * Code outside the repository

    What the simulator takes from third-party crates, as the operations of one
    class: JSON by serde_json and serde-json-wasm, protobuf by prost, SHA-256 by
    sha2, bech32 by the bech32 crate, the iteration order of [HashMap]. A
    decoder returns the text of its error or the decoded value. Nothing is
    assumed of them here; a theorem that needs a fact of one of them takes it
    as a hypothesis.

    The second part is the trait of the chain clients and what the simulator relies on. *)

From S2P Require Import Prelude.
From S2P Require Import CwStd.
From S2P Require Import Errors.

Class Externals := {
  (** [serde_json::from_slice::<Value>] and the [Display] of the value. *)
  json_display : bytes → option string;
  (** The error text of the same parser on bytes that are not JSON. *)
  json_parse_error : bytes → string;

  (** [cosmwasm_std::to_binary] / [from_binary] / [from_slice] (serde-json-wasm). *)
  to_binary_balance : BalanceResponse → string + Binary;
  to_binary_all_balance : AllBalanceResponse → string + Binary;
  to_binary_contract_info : ContractInfo → string + Binary;
  to_binary_print_response : bool → string + Binary;
  from_slice_query_request : bytes → string + QueryRequest;
  from_binary_bank_query : Binary → string + BankQuery;
  from_binary_print_request : Binary → string + string;

  (** [serde_json] as the virtual machine calls it. *)
  to_vec_env : Env → string + bytes;
  to_vec_info : MessageInfo → string + bytes;
  to_vec_reply : Reply → string + bytes;
  to_vec_system_result : SystemResult (ContractResult Binary) → string + bytes;
  from_slice_response : bytes → string + ContractResult Response;
  from_slice_query_response : bytes → string + ContractResult Binary;
  (** [std::any::type_name], by the short name of the type. *)
  rust_type_name : string → string;

  (** prost encodings of the two reply payloads: [MsgInstantiateContractResponse]
      with its address and [MsgExecuteContractResponse], both with empty data. *)
  encode_instantiate_response : string → bytes;
  encode_execute_response : bytes;

  (** [Sha256::digest]. *)
  sha256 : bytes → bytes;

  (** [bech32::encode(hrp, data.to_base32(), Variant::Bech32)] and
      [bech32::decode], whose data part [Vec::<u8>::from_base32] regroups. *)
  bech32_encode : string → bytes → option string;
  bech32_decode : string → string + (string * bytes);
  from_base32 : bytes → option bytes;

  (** The order in which a [HashMap<String, Uint128>] is iterated. *)
  hash_order : gmap string Z → list (string * Z)
}.

(** * The chain client ([core/src/fork/client_backend.rs])

    The trait [CwClientBackend] as a class over the client's state, and the
    promise the simulator's state relies on: a client shows one fixed chain. *)

Open Scope Z_scope.

(** [ContractInfo] of the client: only the code id is kept. *)
Record RpcContractInfo := mkRpcContractInfo { code_id : Z }.

Class CwClientBackend (C : Type) := {
  cb_block_number : C → Z;
  cb_chain_id : M Error C string;
  cb_timestamp : M Error C Z;
  cb_block_height : M Error C Z;
  cb_query_bank_all_balances : string → M Error C (list (string * Z));
  cb_query_wasm_contract_smart : string → bytes → M Error C bytes;
  cb_query_wasm_contract_state_all : string → M Error C (gmap bytes bytes);
  cb_query_wasm_contract_info : string → M Error C RpcContractInfo;
  cb_query_wasm_contract_code : Z → M Error C bytes
}.

(** What a chain at a fixed height holds. *)
Record ChainView := mkChainView {
  cv_balances : string → list (string * Z);
  cv_state : string → gmap bytes bytes;
  cv_info : string → RpcContractInfo;
  cv_code : Z → bytes
}.

(** [ChainClient C]: the answers of the client are those of one chain, whatever
    was asked before. [cc_inv] is the invariant of the client's state (for the
    RPC client: what is in its cache came from the chain). *)
Class ChainClient (C : Type) `{!CwClientBackend C} := {
  cc_inv : C → Prop;
  cc_view : C → ChainView;
  cc_stable : relation C := λ c c', cc_inv c → cc_inv c' ∧ cc_view c' = cc_view c;
  cc_balances_stable a : preserves cc_stable (cb_query_bank_all_balances a);
  cc_state_stable a : preserves cc_stable (cb_query_wasm_contract_state_all a);
  cc_info_stable a : preserves cc_stable (cb_query_wasm_contract_info a);
  cc_code_stable i : preserves cc_stable (cb_query_wasm_contract_code i);
  cc_balances_ok a c l c' :
    cc_inv c → cb_query_bank_all_balances a c = (Ok l, c') → l = cv_balances (cc_view c) a;
  cc_state_ok a c m c' :
    cc_inv c → cb_query_wasm_contract_state_all a c = (Ok m, c') → m = cv_state (cc_view c) a;
  cc_info_ok a c i c' :
    cc_inv c → cb_query_wasm_contract_info a c = (Ok i, c') → i = cv_info (cc_view c) a;
  cc_code_ok i c b c' :
    cc_inv c → cb_query_wasm_contract_code i c = (Ok b, c') → b = cv_code (cc_view c) i
}.

#[export] Instance cc_stable_refl `{ChainClient C} : Reflexive cc_stable.
Proof. by intros c. Qed.
#[export] Instance cc_stable_trans `{ChainClient C} : Transitive cc_stable.
Proof.
  intros c1 c2 c3 H12 H23 H1. destruct (H12 H1) as [H2 E2]. destruct (H23 H2) as [H3 E3].
  split; [done|by rewrite E3].
Qed.

(** [Vec<(String, u128)>] collected into a [HashMap]: later pairs win. *)
Definition collect_map (l : list (string * Z)) : gmap string Z :=
  foldl (λ m kv, <[kv.1 := kv.2]> m) ∅ l.
