(* ===== verification/States.v ===== *)
(** * The simulated chain state and its bank ([core/src/fork/states.rs])

    [AllStates] caches, per address, the contract (code and storage) and the
    bank balances of the chain: an entry is fetched from the client when it is
    first needed and kept from then on. *)

From S2P Require Import Prelude.
From S2P Require Import CwStd.
From S2P Require Import Errors.
From S2P Require Import Client.
From S2P Require Import Storage.

Open Scope Z_scope.

Record ContractState := mkContractState {
  code : bytes;
  storage : ContractStorage
}.

Record AllStates (C : Type) := mkAllStates {
  contract_states : gmap Addr ContractState;
  bank_states : gmap Addr (gmap string Z);
  client : C;
  block_number : Z;
  block_timestamp : Z;
  states_chain_id : string;
  canonical_address_length : Z;
  bech32_prefix : string
}.
Arguments mkAllStates {C}.
Arguments contract_states {C}.
Arguments bank_states {C}.
Arguments client {C}.
Arguments block_number {C}.
Arguments block_timestamp {C}.
Arguments states_chain_id {C}.
Arguments canonical_address_length {C}.
Arguments bech32_prefix {C}.

(** [BLOCK_EPOCH], in nanoseconds. *)
Definition BLOCK_EPOCH : Z := 1000000000.

Section setters.
Context {C : Type}.
Implicit Types st : AllStates C.

Definition set_contract_states m st : AllStates C :=
  mkAllStates m (bank_states st) (client st) (block_number st) (block_timestamp st)
    (states_chain_id st) (canonical_address_length st) (bech32_prefix st).
Definition set_bank_states m st : AllStates C :=
  mkAllStates (contract_states st) m (client st) (block_number st) (block_timestamp st)
    (states_chain_id st) (canonical_address_length st) (bech32_prefix st).
Definition set_client c st : AllStates C :=
  mkAllStates (contract_states st) (bank_states st) c (block_number st) (block_timestamp st)
    (states_chain_id st) (canonical_address_length st) (bech32_prefix st).
Definition set_block_number n st : AllStates C :=
  mkAllStates (contract_states st) (bank_states st) (client st) n (block_timestamp st)
    (states_chain_id st) (canonical_address_length st) (bech32_prefix st).
Definition set_block_timestamp n st : AllStates C :=
  mkAllStates (contract_states st) (bank_states st) (client st) (block_number st) n
    (states_chain_id st) (canonical_address_length st) (bech32_prefix st).
End setters.

Section AllStates.
Context {C : Type} {HC : CwClientBackend C} {HX : Externals}.
Abbreviation ST := (M Error (AllStates C)).

Definition on_client {A} (m : M Error C A) : ST A := zoom client set_client m.

(** [AllStates::new]: the client is queried for the time and the chain id. *)
Definition AllStates_new (c : C) (canonical_len : Z) (prefix : string)
    : outcome Error (AllStates C) * C :=
  (let bn := cb_block_number c in
   ts ← cb_timestamp;
   cid ← cb_chain_id;
   c' ← get;
   mret (mkAllStates ∅ ∅ c' bn ts cid canonical_len prefix)) c.

Definition contract_state_insert (a : Addr) (cs : ContractState) : ST unit :=
  modify (λ st, set_contract_states (<[a := cs]> (contract_states st)) st).
Definition contract_state_remove (a : Addr) : ST unit :=
  modify (λ st, set_contract_states (delete a (contract_states st)) st).
Definition contract_state_get (a : Addr) : ST (option ContractState) :=
  gets (λ st, contract_states st !! a).

(** The storage cell of a contract is replaced; an unknown contract panics. *)
Definition contract_storage_update (a : Addr) (new_storage : ContractStorage) : ST unit :=
  o ← contract_state_get a;
  cs ← unwrap "called `Option::unwrap()` on a `None` value" o;
  contract_state_insert a (mkContractState (code cs) new_storage).

Definition insert_bank_state (a : Addr) (balances : gmap string Z) : ST unit :=
  modify (λ st, set_bank_states (<[a := balances]> (bank_states st)) st).
Definition get_bank_state (a : Addr) : ST (option (gmap string Z)) :=
  gets (λ st, bank_states st !! a).

(** [update_block]: the timestamp that [plus_nanos] computes is dropped; only
    its overflow is seen. *)
Definition update_block : ST unit :=
  st ← get;
  n ← add_or_panic U64 (block_number st) 1;
  _ ← modify (set_block_number n);
  t ← plus_nanos (block_timestamp st) BLOCK_EPOCH;
  mret tt.

Definition coin_spent_event (s : Addr) (amt : Z) (d : string) : Event :=
  Event_add_attribute "amount" (pretty amt +:+ d)
    (Event_add_attribute "spender" s (Event_new "coin_spent")).
Definition coin_received_event (r : Addr) (amt : Z) (d : string) : Event :=
  Event_add_attribute "amount" (pretty amt +:+ d)
    (Event_add_attribute "receiver" r (Event_new "coin_received")).

(** The first lines of [get_balance] and [get_balances]: fetch the balances of
    an account that is not cached yet. *)
Definition fetch_bank_state (owner : Addr) : ST unit :=
  o ← get_bank_state owner;
  match o with
  | Some _ => mret tt
  | None =>
      l ← on_client (cb_query_bank_all_balances owner);
      insert_bank_state owner (collect_map l)
  end.

Definition get_balance (owner : Addr) (d : string) : ST Z :=
  _ ← fetch_bank_state owner;
  o ← get_bank_state owner;
  balances ← unwrap "called `Option::unwrap()` on a `None` value" o;
  match balances !! d with Some b => mret b | None => mret 0 end.

Definition get_balances (owner : Addr) : ST (list Coin) :=
  _ ← fetch_bank_state owner;
  o ← get_bank_state owner;
  balances ← unwrap "called `Option::unwrap()` on a `None` value" o;
  mret ((λ dv, mkCoin dv.1 dv.2) <$> hash_order balances).

(** [entry(owner).or_insert_with(HashMap::new).insert(denom, balance)]. *)
Definition set_balance (owner : Addr) (d : string) (balance : Z) : ST unit :=
  modify (λ st, set_bank_states
    (<[owner := <[d := balance]> (default ∅ (bank_states st !! owner))]> (bank_states st)) st).

Definition insufficient_balance (src : Addr) (bal amt : Z) : string :=
  "insufficient balance (owner: " +:+ src +:+ ", balance: " +:+ pretty bal +:+
  ", amount: " +:+ pretty amt +:+ ")".

(** The loop of [bank_send]: [evs] are the events pushed so far. Both balances
    are read before either is written. *)
Fixpoint bank_send_loop (src dst : Addr) (amount_ : list Coin) (evs : list Event)
    : ST (ContractResult Response) :=
  match amount_ with
  | [] => mret (CROk (add_events evs Response_new))
  | coin :: rest =>
      src_amount ← get_balance src (denom coin);
      dst_amount ← get_balance dst (denom coin);
      if amount coin <=? src_amount then
        s ← sub_or_panic src_amount (amount coin);
        _ ← set_balance src (denom coin) s;
        d ← add_or_panic U128 dst_amount (amount coin);
        _ ← set_balance dst (denom coin) d;
        bank_send_loop src dst rest
          (evs ++ [coin_spent_event src (amount coin) (denom coin);
                   coin_received_event dst (amount coin) (denom coin)])
      else mret (CRErr (insufficient_balance src src_amount (amount coin)))
  end.

Definition bank_send (src dst : Addr) (amount_ : list Coin) : ST (ContractResult Response) :=
  bank_send_loop src dst amount_ [].

Fixpoint bank_burn (src : Addr) (amount_ : list Coin) : ST (ContractResult Response) :=
  match amount_ with
  | [] => mret (CROk Response_new)
  | coin :: rest =>
      src_amount ← get_balance src (denom coin);
      if amount coin <=? src_amount then
        s ← sub_or_panic src_amount (amount coin);
        _ ← set_balance src (denom coin) s;
        bank_burn src rest
      else mret (CRErr (insufficient_balance src src_amount (amount coin)))
  end.

Definition bank_execute (sender_ : Addr) (bank_msg : BankMsg) : ST (ContractResult Response) :=
  match bank_msg with
  | BankSend to_address amount_ => bank_send sender_ to_address amount_
  | BankBurn amount_ => bank_burn sender_ amount_
  end.

Definition bank_query (q : BankQuery) : ST Binary :=
  match q with
  | QBalance address d =>
      balance ← get_balance address d;
      match to_binary_balance (mkBalanceResponse (mkCoin d balance)) with
      | inl e => throw (EStdError e)
      | inr b => mret b
      end
  | QAllBalances address =>
      balances ← get_balances address;
      match to_binary_all_balance (mkAllBalanceResponse balances) with
      | inl e => throw (EStdError e)
      | inr b => mret b
      end
  end.
End AllStates.
