(* ===== verification/Bank.v ===== *)
(** * The bank as a ledger

    The cached balances of [AllStates] together with the chain behind the
    client describe one ledger, the balance of every account in every
    denomination. This file shows that reading balances (which fetches and
    caches accounts) does not change the ledger, and what sending and burning
    coins do to it. *)

From S2P Require Import Prelude.
From S2P Require Import CwStd.
From S2P Require Import Errors.
From S2P Require Import Client.
From S2P Require Import Storage.
From S2P Require Import States.

Open Scope Z_scope.

Section Bank.
Context {C : Type} {HC : CwClientBackend C} {HV : ChainClient C} {HX : Externals}.
Implicit Types st : AllStates C.
Abbreviation ST := (M Error (AllStates C)).

(** The balances of an account: the cached ones, or those of the chain. *)
Definition account st (o : Addr) : gmap string Z :=
  match bank_states st !! o with
  | Some m => m
  | None => collect_map (cv_balances (cc_view (client st)) o)
  end.

Definition bal st (o : Addr) (d : string) : Z := default 0 (account st o !! d).

Definition cached st (o : Addr) : Prop := is_Some (bank_states st !! o).

(** What bank operations leave alone. *)
Record bank_frame st st' : Prop := mk_bank_frame {
  bf_contracts : contract_states st' = contract_states st;
  bf_number : block_number st' = block_number st;
  bf_timestamp : block_timestamp st' = block_timestamp st;
  bf_chain_id : states_chain_id st' = states_chain_id st;
  bf_length : canonical_address_length st' = canonical_address_length st;
  bf_prefix : bech32_prefix st' = bech32_prefix st;
  bf_client : cc_stable (client st) (client st')
}.

#[export] Instance bank_frame_refl : Reflexive bank_frame.
Proof. by intros st. Qed.
#[export] Instance bank_frame_trans : Transitive bank_frame.
Proof. intros s1 s2 s3 [] []. split; congruence || by etrans. Qed.

(** The same ledger, possibly with more of it cached. *)
Record ledger_eq st st' : Prop := mk_ledger_eq {
  le_frame : bank_frame st st';
  le_cached : ∀ o, cached st o → bank_states st' !! o = bank_states st !! o;
  le_account : cc_inv (client st) → ∀ o, account st' o = account st o
}.

#[export] Instance ledger_eq_refl : Reflexive ledger_eq.
Proof. by intros st. Qed.
#[export] Instance ledger_eq_trans : Transitive ledger_eq.
Proof.
  intros s1 s2 s3 [F1 C1 A1] [F2 C2 A2]. split.
  - by etrans.
  - intros o Ho. rewrite C2, C1; [done|done|]. unfold cached. by rewrite C1.
  - intros Hinv o. rewrite A2, A1; [done|done|]. by apply (bf_client _ _ F1).
Qed.

Lemma ledger_eq_cached st st' o : ledger_eq st st' → cached st o → cached st' o.
Proof. intros Hle Ho. unfold cached. by rewrite (le_cached _ _ Hle). Qed.

Lemma ledger_eq_bal st st' o d :
  ledger_eq st st' → cc_inv (client st) → bal st' o d = bal st o d.
Proof. intros Hle Hinv. unfold bal. by rewrite (le_account _ _ Hle). Qed.

(** ** Fetching *)
Lemma fetch_cached st o : cached st o → fetch_bank_state o st = (Ok tt, st).
Proof. intros [m Hm]. unfold fetch_bank_state, get_bank_state. munfold. by rewrite Hm. Qed.

Lemma fetch_uncached st o :
  bank_states st !! o = None →
  fetch_bank_state o st =
    match cb_query_bank_all_balances o (client st) with
    | (Ok l, c') =>
        (Ok tt, set_bank_states (<[o := collect_map l]> (bank_states st)) (set_client c' st))
    | (Err e, c') => (Err e, set_client c' st)
    | (Panic p, c') => (Panic p, set_client c' st)
    | (OutOfFuel, c') => (OutOfFuel, set_client c' st)
    end.
Proof.
  intros Hm. unfold fetch_bank_state, get_bank_state, on_client, insert_bank_state. munfold.
  rewrite Hm. by destruct (cb_query_bank_all_balances o (client st)) as [[] ?].
Qed.

Lemma set_client_ledger st c' :
  cc_stable (client st) c' → ledger_eq st (set_client c' st).
Proof.
  intros Hc. split; [by split|done|].
  intros Hinv o. unfold account; cbn. by destruct (Hc Hinv) as [_ ->].
Qed.

Lemma fetch_ledger o : preserves ledger_eq (fetch_bank_state o : ST unit).
Proof.
  intros st. destruct (bank_states st !! o) as [m|] eqn:Hm.
  { by rewrite fetch_cached by (by eexists). }
  rewrite fetch_uncached by done. pose proof (cc_balances_stable o (client st)) as Hs.
  destruct (cb_query_bank_all_balances o (client st)) as [[l|e|p|] c'] eqn:Hq; cbn in *;
    try by apply set_client_ledger.
  split; [by split|..].
  - intros o' [m' Hm']. cbn. rewrite lookup_insert_ne; [done|]. by intros ->; simplify_eq.
  - intros Hinv o'. unfold account; cbn. rewrite lookup_insert. case_decide; subst.
    + rewrite Hm. f_equal. by eapply cc_balances_ok.
    + by destruct (Hs Hinv) as [_ ->].
Qed.

Lemma fetch_Ok_cached st o st' : fetch_bank_state o st = (Ok tt, st') → cached st' o.
Proof.
  destruct (bank_states st !! o) as [m|] eqn:Hm.
  - rewrite fetch_cached by (by eexists). intros [= <-]. by eexists.
  - rewrite fetch_uncached by done.
    destruct (cb_query_bank_all_balances o (client st)) as [[] ?]; intros [= <-].
    unfold cached; cbn. rewrite lookup_insert_eq. by eexists.
Qed.

(** ** Reading balances *)
Lemma get_balance_run o d st :
  get_balance o d st =
    match fetch_bank_state o st with
    | (Ok _, st') => (Ok (bal st' o d), st')
    | (Err e, st') => (Err e, st')
    | (Panic p, st') => (Panic p, st')
    | (OutOfFuel, st') => (OutOfFuel, st')
    end.
Proof.
  unfold get_balance, get_bank_state. munfold.
  destruct (fetch_bank_state o st) as [[[]|e|p|] st'] eqn:Hf; [|done..].
  apply fetch_Ok_cached in Hf as [m Hm]. unfold bal, account. rewrite Hm. cbn.
  by destruct (m !! d).
Qed.

Lemma get_balance_ledger o d : preserves ledger_eq (get_balance o d : ST Z).
Proof.
  intros st. rewrite get_balance_run. pose proof (fetch_ledger o st) as Hf.
  by destruct (fetch_bank_state o st) as [[] ?].
Qed.

Lemma get_balance_Ok o d st b st' :
  get_balance o d st = (Ok b, st') →
  b = bal st' o d ∧ cached st' o ∧ ledger_eq st st'.
Proof.
  intros H. pose proof (get_balance_ledger o d st) as Hle. rewrite H in Hle.
  rewrite get_balance_run in H.
  destruct (fetch_bank_state o st) as [[[]|e|p|] st1] eqn:Hf; simplify_eq.
  eauto using fetch_Ok_cached.
Qed.

Lemma get_balance_cached o d st : cached st o → get_balance o d st = (Ok (bal st o d), st).
Proof. intros Ho. by rewrite get_balance_run, fetch_cached. Qed.

Lemma get_balances_ledger o : preserves ledger_eq (get_balances o : ST (list Coin)).
Proof.
  unfold get_balances, get_bank_state. pres. apply fetch_ledger.
Qed.

Lemma bank_query_ledger q : preserves ledger_eq (bank_query q : ST Binary).
Proof.
  unfold bank_query. pres; [apply get_balance_ledger|apply get_balances_ledger].
Qed.

(** ** Writing a balance *)
Definition upd (f : Addr → string → Z) (o : Addr) (d : string) (v : Z) : Addr → string → Z :=
  λ o' d', if decide (o' = o ∧ d' = d) then v else f o' d'.

Lemma set_balance_run o d v st :
  (set_balance o d v st : outcome Error unit * AllStates C) =
  (Ok tt, set_bank_states (<[o := <[d := v]> (default ∅ (bank_states st !! o))]> (bank_states st)) st).
Proof. done. Qed.

Lemma set_balance_bal o d v st st' o' d' :
  cached st o → set_balance o d v st = (Ok tt, st') →
  bal st' o' d' = upd (bal st) o d v o' d' ∧ bank_frame st st' ∧
  (∀ x, cached st x → cached st' x).
Proof.
  intros [m Hm]. rewrite set_balance_run, Hm. intros [= <-]. cbn. split_and!.
  - unfold bal, upd, account; cbn. rewrite lookup_insert.
    repeat case_decide; destruct_and?; subst; try naive_solver.
    + by rewrite lookup_insert_eq.
    + rewrite Hm. by rewrite lookup_insert_ne by naive_solver.
  - by split.
  - intros x [mx Hx]. unfold cached; cbn. rewrite lookup_insert. by case_decide; eexists.
Qed.

(** ** Sending and burning coins *)

(** The sum of the amounts of one denomination in a list of coins. *)
Definition total (cs : list Coin) (d : string) : Z :=
  foldr (λ c n, (if decide (denom c = d) then amount c else 0) + n) 0 cs.

Lemma total_cons c cs d :
  total (c :: cs) d = (if decide (denom c = d) then amount c else 0) + total cs d.
Proof. done. Qed.

Lemma total_nonneg cs d : Forall (λ c, 0 ≤ amount c) cs → 0 ≤ total cs d.
Proof. induction 1; [done|]. rewrite total_cons. case_decide; lia. Qed.

Definition send_events (src dst : Addr) (cs : list Coin) : list Event :=
  cs ≫= (λ c, [coin_spent_event src (amount c) (denom c);
               coin_received_event dst (amount c) (denom c)]).

(** What a successful send adds to the balance of [o] in [d]: the receiver gains
    the total; the sender loses it, but not when it sends to itself, because
    the balance of the receiver is read before the sender's is lowered. *)
Definition send_delta (src dst : Addr) (cs : list Coin) (o : Addr) (d : string) : Z :=
  (if decide (o = dst) then total cs d else 0) -
  (if decide (o = src ∧ src ≠ dst) then total cs d else 0).

Definition burn_delta (src : Addr) (cs : list Coin) (o : Addr) (d : string) : Z :=
  if decide (o = src) then total cs d else 0.

(** The state after the two writes of one round of the send loop. *)
Definition after_send (src dst : Addr) (d : string) (v w : Z) st : AllStates C :=
  ((set_balance dst d w : ST unit) ((set_balance src d v : ST unit) st).2).2.

Lemma after_send_facts src dst d v w st :
  cached st src → cached st dst →
  bank_frame st (after_send src dst d v w st) ∧
  (∀ o, cached st o → cached (after_send src dst d v w st) o) ∧
  (∀ o e, bal (after_send src dst d v w st) o e = upd (upd (bal st) src d v) dst d w o e).
Proof.
  intros Hs Hd. unfold after_send.
  destruct ((set_balance src d v : ST unit) st) as [r1 st1] eqn:H1.
  assert (r1 = Ok tt) as -> by (rewrite set_balance_run in H1; congruence). cbn [snd].
  destruct ((set_balance dst d w : ST unit) st1) as [r2 st2] eqn:H2.
  assert (r2 = Ok tt) as -> by (rewrite set_balance_run in H2; congruence).
  pose proof (set_balance_bal src d v st st1) as B1. pose proof (set_balance_bal dst d w st1 st2) as B2.
  cbn [snd]. destruct (B1 "" "" Hs H1) as (_ & F1 & C1). destruct (B2 "" "" (C1 _ Hd) H2) as (_ & F2 & C2).
  split_and!; [by etrans|auto|].
  intros o e. destruct (B1 o e Hs H1) as [E1 _]. destruct (B2 o e (C1 _ Hd) H2) as [-> _].
  unfold upd at 1 2. by case_decide.
Qed.

Lemma bank_send_loop_cons src dst c rest evs st b1 st1 b2 st2 :
  get_balance src (denom c) st = (Ok b1, st1) →
  get_balance dst (denom c) st1 = (Ok b2, st2) →
  bank_send_loop src dst (c :: rest) evs st =
    if amount c <=? b1 then
      if b2 + amount c <? U128 then
        bank_send_loop src dst rest
          (evs ++ [coin_spent_event src (amount c) (denom c);
                   coin_received_event dst (amount c) (denom c)])
          (after_send src dst (denom c) (b1 - amount c) (b2 + amount c) st2)
      else (Panic "attempt to add with overflow",
            ((set_balance src (denom c) (b1 - amount c) : ST unit) st2).2)
    else (Ok (CRErr (insufficient_balance src b1 (amount c))), st2).
Proof.
  intros H1 H2. cbn [bank_send_loop]. rewrite (bind_Ok _ _ _ _ _ H1), (bind_Ok _ _ _ _ _ H2).
  destruct (amount c <=? b1) eqn:Hle; [|done].
  unfold sub_or_panic. rewrite Hle, bind_ret_l.
  rewrite (bind_Ok _ _ _ tt _ (set_balance_run _ _ _ _)).
  unfold add_or_panic. destruct (b2 + amount c <? U128); [|done].
  rewrite bind_ret_l, (bind_Ok _ _ _ tt _ (set_balance_run _ _ _ _)). done.
Qed.

(** One round of the loop, on the ledger. *)
Lemma send_round src dst c st b1 st1 b2 st2 :
  cc_inv (client st) →
  get_balance src (denom c) st = (Ok b1, st1) →
  get_balance dst (denom c) st1 = (Ok b2, st2) →
  let st3 := after_send src dst (denom c) (b1 - amount c) (b2 + amount c) st2 in
  b1 = bal st src (denom c) ∧ b2 = bal st dst (denom c) ∧
  bank_frame st st2 ∧ (∀ o d, bal st2 o d = bal st o d) ∧
  bank_frame st st3 ∧ cc_inv (client st3) ∧
  ∀ o d, bal st3 o d = bal st o d + send_delta src dst [c] o d.
Proof.
  intros Hinv H1 H2 st3.
  destruct (get_balance_Ok _ _ _ _ _ H1) as (-> & C1 & L1).
  destruct (get_balance_Ok _ _ _ _ _ H2) as (-> & C2 & L2).
  assert (cc_inv (client st1)) as Hinv1 by (by apply (bf_client _ _ (le_frame _ _ L1))).
  assert (∀ o d, bal st1 o d = bal st o d) as E1 by (intros; by apply ledger_eq_bal).
  assert (∀ o d, bal st2 o d = bal st o d) as E2.
  { intros. rewrite <-E1. by apply ledger_eq_bal. }
  destruct (after_send_facts src dst (denom c) (bal st1 src (denom c) - amount c)
    (bal st2 dst (denom c) + amount c) st2) as (F3 & _ & B3);
    [by eapply ledger_eq_cached|done|].
  assert (bank_frame st st2) as F2 by (etrans; [apply L1|apply L2]).
  assert (bank_frame st st3) as F3' by (by etrans).
  split_and!; [done|done|done|done|done|by apply (bf_client _ _ F3')|].
  intros o d. unfold st3. rewrite B3. unfold upd. rewrite E1, !E2.
  unfold send_delta, total; cbn.
  repeat case_decide; destruct_and?; subst; try lia; naive_solver lia.
Qed.

Lemma send_delta_cons src dst c cs o d :
  send_delta src dst (c :: cs) o d = send_delta src dst [c] o d + send_delta src dst cs o d.
Proof. unfold send_delta, total; cbn. repeat case_decide; lia. Qed.

(** Every result of the send loop, on the ledger. *)
Lemma bank_send_loop_Ok src dst cs evs st res st' :
  cc_inv (client st) →
  bank_send_loop src dst cs evs st = (Ok res, st') →
  ∃ done, bank_frame st st' ∧ (∀ o d, bal st' o d = bal st o d + send_delta src dst done o d) ∧
  match res with
  | CROk r => done = cs ∧ r = add_events (evs ++ send_events src dst cs) Response_new
  | CRErr e => ∃ c rest, cs = done ++ c :: rest ∧ bal st' src (denom c) < amount c ∧
               e = insufficient_balance src (bal st' src (denom c)) (amount c)
  end.
Proof.
  revert evs st. induction cs as [|c cs IH]; intros evs st Hinv Hrun.
  - injection Hrun as <- <-. exists []. split_and!; [done|intros; unfold send_delta; cbn|done|].
    + repeat case_decide; lia.
    + unfold send_events; cbn. by rewrite app_nil_r.
  - destruct (get_balance src (denom c) st) as [[b1|e|p|] st1] eqn:H1;
      try (cbn [bank_send_loop] in Hrun; unfold mbind, M_bind in Hrun; rewrite H1 in Hrun; discriminate).
    destruct (get_balance dst (denom c) st1) as [[b2|e|p|] st2] eqn:H2;
      try (cbn [bank_send_loop] in Hrun; unfold mbind, M_bind in Hrun;
           rewrite H1, H2 in Hrun; discriminate).
    rewrite (bank_send_loop_cons _ _ _ _ _ _ _ _ _ _ H1 H2) in Hrun.
    destruct (send_round src dst c st b1 st1 b2 st2 Hinv H1 H2)
      as (E1 & E2 & F2 & B2 & F3 & Hinv3 & B3).
    destruct (Z.leb_spec (amount c) b1) as [Hle|Hlt].
    + destruct (_ <? U128); [|discriminate].
      apply IH in Hrun as (dn & F & B & Hres); [|done].
      exists (c :: dn). split_and!; [by etrans| |].
      * intros o d. rewrite B, B3, (send_delta_cons _ _ c dn). lia.
      * destruct res as [r|e].
        -- destruct Hres as [-> ->]. split; [done|]. unfold send_events. cbn.
           by rewrite <-app_assoc.
        -- destruct Hres as (c' & rest & -> & Hlt & ->). eauto.
    + injection Hrun as <- <-. exists []. split_and!; [done| |].
      * intros o d. rewrite B2. unfold send_delta; cbn. repeat case_decide; lia.
      * exists c, cs. rewrite B2, <-E1. auto.
Qed.

(** The send loop succeeds when the client answers, the sender can pay and no
    balance of the receiver overflows. *)
Lemma bank_send_loop_total src dst cs evs st :
  (∀ a c, ∃ l c', cb_query_bank_all_balances a c = (Ok l, c')) →
  cc_inv (client st) → src ≠ dst →
  Forall (λ c, 0 ≤ amount c) cs →
  (∀ d, total cs d ≤ bal st src d) →
  (∀ d, bal st dst d + total cs d < U128) →
  ∃ r st', bank_send_loop src dst cs evs st = (Ok (CROk r), st').
Proof.
  intros Hans Hinv Hne. revert evs st Hinv.
  assert (∀ o d st, ∃ b st', get_balance o d st = (Ok b, st')) as Hget.
  { intros o d st. rewrite get_balance_run. destruct (bank_states st !! o) eqn:Ho.
    - rewrite fetch_cached by (by eexists). eauto.
    - rewrite fetch_uncached by done. destruct (Hans o (client st)) as (l & c' & ->). eauto. }
  induction cs as [|c cs IH]; intros evs st Hinv Hpos Hpay Hover; [by repeat eexists|].
  apply Forall_cons in Hpos as [Hc Hpos].
  destruct (Hget src (denom c) st) as (b1 & st1 & H1).
  destruct (Hget dst (denom c) st1) as (b2 & st2 & H2).
  rewrite (bank_send_loop_cons _ _ _ _ _ _ _ _ _ _ H1 H2).
  destruct (send_round src dst c st b1 st1 b2 st2 Hinv H1 H2)
    as (E1 & E2 & F2 & B2 & F3 & Hinv3 & B3).
  pose proof (total_nonneg cs (denom c) Hpos) as Hn. pose proof (Hpay (denom c)) as Hp.
  pose proof (Hover (denom c)) as Ho. rewrite total_cons, decide_True in Hp, Ho by done.
  destruct (Z.leb_spec (amount c) b1); [|lia].
  destruct (Z.ltb_spec (b2 + amount c) U128); [|lia].
  apply IH; [done|done|..]; intros d; rewrite B3; unfold send_delta; rewrite total_cons; cbn [total foldr].
  - specialize (Hpay d). rewrite total_cons in Hpay. repeat case_decide; naive_solver lia.
  - specialize (Hover d). rewrite total_cons in Hover. repeat case_decide; naive_solver lia.
Qed.

Lemma bank_burn_Ok src cs st res st' :
  cc_inv (client st) →
  bank_burn src cs st = (Ok res, st') →
  ∃ done, bank_frame st st' ∧ (∀ o d, bal st' o d = bal st o d - burn_delta src done o d) ∧
  match res with
  | CROk r => done = cs ∧ r = Response_new
  | CRErr e => ∃ c rest, cs = done ++ c :: rest ∧ bal st' src (denom c) < amount c ∧
               e = insufficient_balance src (bal st' src (denom c)) (amount c)
  end.
Proof.
  revert st. induction cs as [|c cs IH]; intros st Hinv Hrun.
  { injection Hrun as <- <-. exists []. split_and!; [done| |done..].
    intros; unfold burn_delta; cbn. case_decide; lia. }
  cbn [bank_burn] in Hrun. apply bind_Ok_inv in Hrun as (b & st1 & H1 & Hrun).
  destruct (get_balance_Ok _ _ _ _ _ H1) as (-> & C1 & L1).
  assert (∀ o d, bal st1 o d = bal st o d) as E1 by (intros; by apply ledger_eq_bal).
  destruct (Z.leb_spec (amount c) (bal st1 src (denom c))) as [Hle|Hlt].
  - unfold sub_or_panic in Hrun. rewrite (proj2 (Z.leb_le _ _) Hle) in Hrun.
    rewrite bind_ret_l in Hrun.
    apply bind_Ok_inv in Hrun as ([] & st2 & H2 & Hrun).
    pose proof (λ o d, set_balance_bal src (denom c) _ st1 st2 o d C1 H2) as B2.
    destruct (B2 "" "") as (_ & F2 & _).
    assert (bank_frame st st2) as F by (etrans; [apply L1|done]).
    apply IH in Hrun as (dn & F3 & B3 & Hres); [|by apply (bf_client _ _ F)].
    exists (c :: dn). split_and!; [by etrans| |].
    + intros o d. rewrite B3. destruct (B2 o d) as [-> _]. unfold upd, burn_delta.
      rewrite total_cons. repeat case_decide; destruct_and?; subst;
        rewrite ?E1; try lia; naive_solver lia.
    + destruct res as [r|e]; [naive_solver|].
      destruct Hres as (c' & rest & -> & ? & ->). eauto.
  - injection Hrun as <- <-. exists []. split_and!; [apply L1| |eauto].
    intros o d. rewrite E1. unfold burn_delta; cbn. case_decide; lia.
Qed.

(** ** Frames, for every outcome *)
Lemma get_balance_frame o d : preserves bank_frame (get_balance o d : ST Z).
Proof. eapply preserves_weaken; [|apply get_balance_ledger]. by intros ?? []. Qed.

Lemma set_balance_frame o d v : preserves bank_frame (set_balance o d v : ST unit).
Proof. apply preserves_modify. by split. Qed.

Lemma bank_send_loop_frame src dst cs evs :
  preserves bank_frame (bank_send_loop src dst cs evs : ST (ContractResult Response)).
Proof.
  revert evs. induction cs as [|c cs IH]; intros evs; cbn [bank_send_loop]; pres;
    auto using get_balance_frame, set_balance_frame.
Qed.

Lemma bank_burn_frame src cs :
  preserves bank_frame (bank_burn src cs : ST (ContractResult Response)).
Proof.
  induction cs as [|c cs IH]; cbn [bank_burn]; pres;
    auto using get_balance_frame, set_balance_frame.
Qed.

Lemma bank_execute_frame s m :
  preserves bank_frame (bank_execute s m : ST (ContractResult Response)).
Proof. destruct m; [apply bank_send_loop_frame|apply bank_burn_frame]. Qed.

(** Bank responses carry no messages. *)
Lemma bank_execute_no_messages s m :
  yields (λ r, match r with CROk x => messages x = [] | CRErr _ => True end)
    (bank_execute s m : ST (ContractResult Response)).
Proof.
  destruct m as [to cs|cs]; cbn.
  - unfold bank_send. generalize (@nil Event).
    induction cs as [|c cs IH]; intros evs; cbn [bank_send_loop]; [by apply yields_ret|].
    do 2 (apply yields_bind; intros ?). case_match; [|by apply yields_ret].
    do 4 (apply yields_bind; intros ?). apply IH.
  - induction cs as [|c cs IH]; cbn [bank_burn]; [by apply yields_ret|].
    apply yields_bind; intros ?. case_match; [|by apply yields_ret].
    do 2 (apply yields_bind; intros ?). apply IH.
Qed.

(** The supply of a denomination held by a list of accounts. *)
Definition supply st (os : list Addr) (d : string) : Z :=
  foldr (λ o n, bal st o d + n) 0 os.

Lemma supply_shift st st' os d f :
  (∀ o, bal st' o d = bal st o d + f o) →
  supply st' os d = supply st os d + foldr (λ o n, f o + n) 0 os.
Proof. intros H. induction os as [|o os IH]; cbn; [done|]. rewrite H. unfold supply in IH. lia. Qed.

Lemma foldr_indicator (a : Addr) (v : Z) os :
  NoDup os → a ∈ os → foldr (λ o n, (if decide (o = a) then v else 0) + n) 0 os = v.
Proof.
  assert (∀ l, a ∉ l → foldr (λ o n, (if decide (o = a) then v else 0) + n) 0 l = 0) as H0.
  { induction l as [|x l IH]; cbn; [done|]. intros Hn.
    rewrite decide_False by set_solver. rewrite IH by set_solver. done. }
  induction 1 as [|x l Hx Hl IH]; cbn; [by intros ?%elem_of_nil|].
  intros [->|Ha]%elem_of_cons.
  - rewrite decide_True by done. rewrite H0 by done. lia.
  - rewrite decide_False by (by intros ->). rewrite IH by done. lia.
Qed.

Lemma foldr_minus {A} (f g : A → Z) l :
  foldr (λ o n, (f o - g o) + n) 0 l = foldr (λ o n, f o + n) 0 l - foldr (λ o n, g o + n) 0 l.
Proof. induction l as [|x l IH]; cbn; [done|]. lia. Qed.

(** ** Theorems *)

(** reading a balance returns the balance of the ledger (the cached one, or
    the one on chain when the account was not cached yet), and fetching the
    account into the cache changes no balance of any account. *)
Theorem get_balance_correct o d st b st' :
  cc_inv (client st) → get_balance o d st = (Ok b, st') →
  b = bal st o d ∧ (∀ o' d', bal st' o' d' = bal st o' d') ∧
  bank_frame st st' ∧ cached st' o.
Proof.
  intros Hinv H. destruct (get_balance_Ok _ _ _ _ _ H) as (-> & Hc & Hle).
  split_and!; [by apply ledger_eq_bal|intros; by apply ledger_eq_bal|apply Hle|done].
Qed.

(** C5: sending coins to another account succeeds whenever the client answers,
    the sender holds the total of every denomination and no balance of the
    receiver overflows 128 bits; it then moves exactly the totals, leaves
    every other account and the rest of the state alone and reports a
    spent/received pair of events per coin, in order. *)
Theorem bank_send_transfers src dst cs st :
  (∀ a c, ∃ l c', cb_query_bank_all_balances a c = (Ok l, c')) →
  cc_inv (client st) → src ≠ dst →
  Forall (λ c, 0 ≤ amount c) cs →
  (∀ d, total cs d ≤ bal st src d) →
  (∀ d, bal st dst d + total cs d < U128) →
  ∃ st', bank_execute src (BankSend dst cs) st =
           (Ok (CROk (mkResponse [] [] (send_events src dst cs) None)), st') ∧
    bank_frame st st' ∧
    (∀ d, bal st' src d = bal st src d - total cs d) ∧
    (∀ d, bal st' dst d = bal st dst d + total cs d) ∧
    (∀ o d, o ≠ src → o ≠ dst → bal st' o d = bal st o d).
Proof.
  intros Hans Hinv Hne Hpos Hpay Hover.
  destruct (bank_send_loop_total src dst cs [] st) as (r & st' & Hrun); try done.
  exists st'. cbn. unfold bank_send. rewrite Hrun.
  destruct (bank_send_loop_Ok _ _ _ _ _ _ _ Hinv Hrun) as (dn & F & B & -> & ->).
  unfold send_delta in B.
  split_and!; [done|done|intros d|intros d|intros o d ??]; rewrite B;
    repeat case_decide; naive_solver lia.
Qed.

(** C6: a send between two different accounts that reports success leaves the
    supply of every denomination unchanged, over any set of accounts that
    holds both. *)
Theorem bank_send_conserves src dst cs st r st' os d :
  cc_inv (client st) → src ≠ dst →
  bank_execute src (BankSend dst cs) st = (Ok (CROk r), st') →
  NoDup os → src ∈ os → dst ∈ os →
  supply st' os d = supply st os d.
Proof.
  intros Hinv Hne Hrun Hnd Hs Hd. cbn in Hrun. unfold bank_send in Hrun.
  destruct (bank_send_loop_Ok _ _ _ _ _ _ _ Hinv Hrun) as (dn & F & B & -> & ->).
  rewrite (supply_shift st st' os d (λ o, (if decide (o = dst) then total cs d else 0) -
                                          (if decide (o = src) then total cs d else 0))).
  - rewrite foldr_minus, !foldr_indicator by done. lia.
  - intros o. rewrite B. unfold send_delta. repeat case_decide; naive_solver lia.
Qed.

(** a send that reports an error names the balance that was too low, and has
    already moved the coins before the one it could not pay: the bank itself
    does not undo them. *)
Theorem bank_send_insufficient src dst cs st e st' :
  cc_inv (client st) →
  bank_execute src (BankSend dst cs) st = (Ok (CRErr e), st') →
  ∃ done c rest, cs = done ++ c :: rest ∧
    bal st' src (denom c) < amount c ∧
    e = insufficient_balance src (bal st' src (denom c)) (amount c) ∧
    ∀ o d, bal st' o d = bal st o d + send_delta src dst done o d.
Proof.
  intros Hinv Hrun. cbn in Hrun. unfold bank_send in Hrun.
  destruct (bank_send_loop_Ok _ _ _ _ _ _ _ Hinv Hrun) as (dn & F & B & c & rest & -> & Hlt & ->).
  exists dn, c, rest. done.
Qed.

(** C39: an account that sends coins to itself ends up with more than it had: its
    balance grows by the amount sent. *)
Theorem bank_send_to_self_mints a cs st r st' d :
  cc_inv (client st) →
  bank_execute a (BankSend a cs) st = (Ok (CROk r), st') →
  bal st' a d = bal st a d + total cs d.
Proof.
  intros Hinv Hrun. cbn in Hrun. unfold bank_send in Hrun.
  destruct (bank_send_loop_Ok _ _ _ _ _ _ _ Hinv Hrun) as (dn & F & B & -> & ->).
  rewrite B. unfold send_delta. repeat case_decide; naive_solver lia.
Qed.

(** burning coins lowers the balances of the burner by the totals and touches
    no other account; a burn that fails has burnt the coins before the one
    that could not be paid. *)
Theorem bank_burn_correct src cs st res st' :
  cc_inv (client st) →
  bank_execute src (BankBurn cs) st = (Ok res, st') →
  ∃ done, bank_frame st st' ∧
    (∀ o d, bal st' o d = bal st o d - burn_delta src done o d) ∧
    match res with
    | CROk r => done = cs ∧ r = Response_new
    | CRErr e => ∃ c rest, cs = done ++ c :: rest ∧ bal st' src (denom c) < amount c
    end.
Proof.
  intros Hinv Hrun. cbn in Hrun. apply bank_burn_Ok in Hrun as (dn & F & B & Hres); [|done].
  exists dn. split_and!; [done|done|]. destruct res; [done|]. destruct Hres as (c & rest & ? & ? & _).
  eauto.
Qed.

(** a new block raises the block number by one and leaves the block time as
    it was: the increment of the timestamp is computed and dropped. *)
Theorem update_block_time_stands_still st :
  block_number st + 1 < U64 → block_timestamp st + BLOCK_EPOCH < U64 →
  update_block st = (Ok tt, set_block_number (block_number st + 1) st).
Proof.
  intros Hn Ht. unfold update_block, plus_nanos. munfold. cbn.
  destruct (Z.ltb_spec (block_number st + 1) U64); [|lia].
  by destruct (Z.ltb_spec (block_timestamp st + BLOCK_EPOCH) U64); [|lia].
Qed.

(** setting one balance of an account that was never read makes the account
    show that balance only: what the account holds on chain in any other
    denomination is hidden from then on. *)
Theorem set_balance_hides_chain_balances o d v st e :
  bank_states st !! o = None → d ≠ e →
  bal ((set_balance o d v : ST unit) st).2 o e = 0.
Proof.
  intros Ho Hne. rewrite set_balance_run, Ho. unfold bal, account; cbn.
  rewrite lookup_insert_eq. by rewrite lookup_insert_ne, lookup_empty.
Qed.
End Bank.
