(* ===== verification/Api.v ===== *)
(** * Address conversion ([core/src/fork/api.rs])

    [RpcMockApi] is the [BackendApi] of a running contract: it converts between
    bech32 addresses and their canonical bytes. Every call is free of gas. *)

From S2P Require Import Prelude.
From S2P Require Import CwStd.
From S2P Require Import Errors.
From S2P Require Import Client.

Open Scope Z_scope.

Definition BECH32_PREFIX_MAX_LEN : nat := 10.

Record RpcMockApi := mkApi {
  canonical_length : Z;
  prefix_buf : bytes;
  prefix_len : nat
}.

(** The prefix is copied to the front of a zeroed array of ten bytes. *)
Definition RpcMockApi_new (canonical_len : Z) (prefix : string) : Error + RpcMockApi :=
  let len := length (as_bytes prefix) in
  if (BECH32_PREFIX_MAX_LEN <? len)%nat then
    inl (InvalidArg ("bech32 prefix " +:+ prefix +:+ " is too long"))
  else
    inr (mkApi canonical_len
           (as_bytes prefix ++ replicate (BECH32_PREFIX_MAX_LEN - len) Byte.x00) len).

(** [String::from_utf8_unchecked] of the used part of the array. *)
Definition api_prefix (api : RpcMockApi) : string :=
  String.string_of_list_byte (take (prefix_len api) (prefix_buf api)).

Section conversion.
Context {HX : Externals}.

(** [None] is the panic of [Vec::<u8>::from_base32(..).unwrap()]. *)
Definition human_to_canonical (human prefix : string) : option (string + bytes) :=
  if negb (String.prefix prefix human) then
    Some (inl ("Invalid input: human address does not begin with bech32 prefix: " +:+ human))
  else
    match bech32_decode human with
    | inl e => Some (inl ("Invalid input: human address is not bech32 decodable: " +:+ e))
    | inr (hrp, base32_vec) =>
        if negb (String.eqb hrp prefix) then
          Some (inl ("Invalid input: human address has invalid bech32 prefix: " +:+ hrp))
        else
          match from_base32 base32_vec with
          | Some out => Some (inr out)
          | None => None
          end
    end.

Definition canonical_to_human (canonical : bytes) (prefix : string) (canon_length : Z)
    : string + string :=
  if canon_length <? Z.of_nat (length canonical) then
    inl "Invalid input: canonical address length not correct"
  else
    match bech32_encode prefix canonical with
    | Some human => inr human
    | None => inl "Invalid input: canonical address not encodable"
    end.

Context {S : Type}.

Definition canonical_address (api : RpcMockApi) (human : string) : M BackendError S bytes :=
  match human_to_canonical human (api_prefix api) with
  | Some (inr c) => mret c
  | Some (inl e) => throw (UserErr e)
  | None => panic "called `Result::unwrap()` on an `Err` value"
  end.

Definition human_address (api : RpcMockApi) (canonical : bytes) : M BackendError S string :=
  match canonical_to_human canonical (api_prefix api) (canonical_length api) with
  | inr h => mret h
  | inl e => throw (UserErr e)
  end.
End conversion.

Lemma api_prefix_new len prefix api :
  RpcMockApi_new len prefix = inr api → api_prefix api = prefix.
Proof.
  unfold RpcMockApi_new. case_match; [done|]. intros [= <-]. unfold api_prefix; cbn [prefix_len prefix_buf].
  rewrite take_app_length. apply String.string_of_list_byte_of_string.
Qed.

(** with a bech32 codec whose decoder inverts its encoder, and a prefix that
    fits the fixed array, converting a canonical address that is not too long
    to its human form and back returns the same bytes. *)
Theorem address_roundtrip {HX : Externals} {S : Type} len prefix api canonical human (s : S) :
  (∀ hrp b h, bech32_encode hrp b = Some h →
     ∃ v, bech32_decode h = inr (hrp, v) ∧ from_base32 v = Some b ∧ String.prefix hrp h = true) →
  RpcMockApi_new len prefix = inr api →
  human_address api canonical s = (Ok human, s) →
  canonical_address api human s = (Ok canonical, s).
Proof.
  intros Hcodec Hapi. unfold human_address, canonical_address.
  rewrite (api_prefix_new _ _ _ Hapi). unfold canonical_to_human.
  case_match; [done|]. case_match eqn:Hcase; [done|]. intros [= ->].
  case_match eqn:Henc; simplify_eq.
  destruct (Hcodec _ _ _ Henc) as (v & Hdec & Hv & Hpre).
  unfold human_to_canonical. rewrite Hpre, Hdec. cbn. rewrite String.eqb_refl. cbn. by rewrite Hv.
Qed.
