(* ===== verification/Bytes.v ===== *)
(** * Decimal numbers

    [str::parse::<uN>] of the standard library, which reads the amounts in the
    answers of a node and in JSON messages ([cosmwasm/packages/std/src/math/uint128.rs],
    [FromStr]), and its inverse, the [Display] of the same types.

    The second part has the integers as bytes. *)

From Stdlib Require Import Ascii.
From S2P Require Import Prelude.

Open Scope Z_scope.

(** The value of a decimal digit. *)
Definition digit (c : ascii) : option Z :=
  let n := Z.of_nat (nat_of_ascii c) in
  if (48 <=? n) && (n <=? 57) then Some (n - 48) else None.

(** The loop: [checked_mul] by ten, then [checked_add] of the digit. *)
Fixpoint parse_digits (w acc : Z) (s : string) : option Z :=
  match s with
  | EmptyString => Some acc
  | String c s' =>
      match digit c with
      | None => None
      | Some d =>
          if acc * 10 <? w then
            if acc * 10 + d <? w then parse_digits w (acc * 10 + d) s' else None
          else None
      end
  end.

(** An empty string, a lone sign and a negative number are refused; one leading
    plus sign is accepted. *)
Definition parse_uint (w : Z) (s : string) : option Z :=
  match s with
  | EmptyString => None
  | String "+" EmptyString => None
  | String "+" s' => parse_digits w 0 s'
  | _ => parse_digits w 0 s
  end.

(** ** Printing and parsing *)
Lemma digit_pretty_N_char x : (x < 10)%N → digit (pretty_N_char x) = Some (Z.of_N x).
Proof.
  intros Hx.
  assert (x = 0 ∨ x = 1 ∨ x = 2 ∨ x = 3 ∨ x = 4 ∨ x = 5 ∨ x = 6 ∨ x = 7 ∨ x = 8 ∨ x = 9)%N as H by lia.
  by repeat destruct H as [->|H]; [..|subst].
Qed.

(** The digits of [x] in front of [s] are read as [x] before [s]. *)
Lemma parse_digits_go w x s :
  Z.of_N x < w →
  parse_digits w 0 (pretty_N_go x s) = parse_digits w (Z.of_N x) s.
Proof.
  revert s. induction (N.lt_wf_0 x) as [x _ IH]; intros s Hw.
  assert (x = 0 ∨ 0 < x)%N as [->|Hpos] by lia; [by rewrite pretty_N_go_0|].
  rewrite pretty_N_go_step by done.
  assert (x = 10 * (x `div` 10) + x `mod` 10)%N as Hx by (by apply N.div_mod).
  assert (x `mod` 10 < 10)%N as Hm by (by apply N.mod_lt).
  assert (x `div` 10 < x)%N as Hd by (by apply N.div_lt).
  rewrite IH; [|done|lia]. cbn [parse_digits].
  rewrite digit_pretty_N_char by done.
  assert (Z.of_N (x `div` 10) * 10 + Z.of_N (x `mod` 10) = Z.of_N x) as E by lia.
  pose proof (N2Z.is_nonneg (x `mod` 10)).
  destruct (Z.ltb_spec (Z.of_N (x `div` 10) * 10) w); [|lia].
  rewrite E. by destruct (Z.ltb_spec (Z.of_N x) w); [|lia].
Qed.

Lemma pretty_N_go_head x s :
  (0 < x)%N → ∃ c t, pretty_N_go x s = String c t ∧ c ≠ "+"%char.
Proof.
  revert s. induction (N.lt_wf_0 x) as [x _ IH]; intros s Hx.
  rewrite pretty_N_go_step by done.
  assert (x `div` 10 = 0 ∨ 0 < x `div` 10)%N as [Hz|Hpos]
    by (destruct (x `div` 10)%N; [by left|by right]).
  - rewrite Hz, pretty_N_go_0. eexists _, _. split; [done|].
    unfold pretty_N_char. by repeat case_match.
  - by apply IH; [apply N.div_lt|].
Qed.

Lemma parse_uint_plain w s c t : s = String c t → c ≠ "+"%char → parse_uint w s = parse_digits w 0 s.
Proof.
  intros -> Hc. unfold parse_uint. destruct c as [[] [] [] [] [] [] [] []]; done.
Qed.

(** Reading back a printed unsigned integer of any width gives the same
    number: amounts survive the decimal strings they travel in. *)
Theorem parse_print_roundtrip w z : in_width w z → parse_uint w (pretty z) = Some z.
Proof.
  intros [H0 Hw]. destruct z as [|p|p]; [| |lia].
  - assert ((0 <? w) = true) as E by lia.
    change (parse_uint w (pretty 0)) with
      (if 0 <? w then if 0 <? w then Some 0 else None else None). by rewrite E.
  - unfold pretty, pretty_Z. change (pretty p) with (pretty (N.pos p)).
    unfold pretty, pretty_N. case_decide; [done|].
    destruct (pretty_N_go_head (N.pos p) "") as (c & t & Hs & Hc); [lia|].
    rewrite (parse_uint_plain _ _ _ _ Hs Hc), parse_digits_go by done. done.
Qed.

(** * Integers as bytes

    [to_be_bytes], [to_le_bytes], [from_be_bytes] and [from_le_bytes] of the primitive
    integers, and the 64-bit words of the larger ones, least significant first. *)

Definition byte_of_Z (n : Z) : byte :=
  default Byte.x00 (Byte.of_N (Z.to_N (n mod 256))).
Definition Z_of_byte (b : byte) : Z := Z.of_N (Byte.to_N b).

(** The [n] low bytes of [z], and the number they make. *)
Fixpoint le_bytes (n : nat) (z : Z) : bytes :=
  match n with O => [] | S n => byte_of_Z z :: le_bytes n (z / 256) end.
Definition be_bytes (n : nat) (z : Z) : bytes := rev (le_bytes n z).

Fixpoint le_value (b : bytes) : Z :=
  match b with [] => 0 | x :: b => Z_of_byte x + 256 * le_value b end.
Definition be_value (b : bytes) : Z := le_value (rev b).

(** [&data[i..i + n]] of an array that is long enough. *)
Definition slice {A} (i n : nat) (l : list A) : list A := take n (drop i l).

(** The word array of a large integer. *)
Definition word (i z : Z) : Z := (z / 2 ^ (64 * i)) mod 2 ^ 64.
Fixpoint of_words (ws : list Z) : Z :=
  match ws with [] => 0 | x :: ws => x + 2 ^ 64 * of_words ws end.

(** ** Facts *)
Lemma Z_of_byte_of_Z n : Z_of_byte (byte_of_Z n) = n mod 256.
Proof.
  unfold Z_of_byte, byte_of_Z. pose proof (Z.mod_pos_bound n 256 eq_refl).
  destruct (Byte.of_N (Z.to_N (n mod 256))) as [b|] eqn:Hb.
  - cbn. apply Byte.to_of_N in Hb. lia.
  - exfalso. apply Byte.of_N_None_iff in Hb. lia.
Qed.

Lemma Z_of_byte_bound b : 0 ≤ Z_of_byte b < 256.
Proof. unfold Z_of_byte. pose proof (Byte.to_N_bounded b). lia. Qed.

Lemma byte_of_Z_of_byte b : byte_of_Z (Z_of_byte b) = b.
Proof.
  pose proof (Z_of_byte_bound b). unfold byte_of_Z. rewrite Z.mod_small by done.
  unfold Z_of_byte. by rewrite N2Z.id, Byte.of_to_N.
Qed.

Lemma byte_of_Z_mod n m : byte_of_Z (n mod (256 * m)) = byte_of_Z n.
Proof.
  unfold byte_of_Z. destruct (decide (m = 0)) as [->|]; [by rewrite Z.mul_0_r, Zmod_0_r|].
  replace (n mod (256 * m)) with (n + (- (n / (256 * m)) * m) * 256) by (rewrite (Z.mod_eq n (256 * m)) by lia; ring).
  by rewrite Z.mod_add by done.
Qed.

Lemma length_le_bytes n z : length (le_bytes n z) = n.
Proof. revert z. induction n; intros z; cbn; auto. Qed.

Lemma length_be_bytes n z : length (be_bytes n z) = n.
Proof. unfold be_bytes. by rewrite length_rev, length_le_bytes. Qed.

Lemma pow256_S n : 256 ^ Z.of_nat (S n) = 256 * 256 ^ Z.of_nat n.
Proof. by rewrite Nat2Z.inj_succ, Z.pow_succ_r by lia. Qed.

Lemma le_value_bound b : 0 ≤ le_value b < 256 ^ Z.of_nat (length b).
Proof.
  induction b as [|x b IH]; [done|]. cbn [le_value length]. rewrite pow256_S.
  pose proof (Z_of_byte_bound x). lia.
Qed.

Lemma le_value_le_bytes n z : le_value (le_bytes n z) = z mod 256 ^ Z.of_nat n.
Proof.
  revert z. induction n as [|n IH]; intros z; cbn [le_bytes le_value]; [by rewrite Z.mod_1_r|].
  rewrite Z_of_byte_of_Z, IH, pow256_S.
  rewrite Z.rem_mul_r; [done|lia|]. apply Z.pow_pos_nonneg; lia.
Qed.

Lemma le_bytes_le_value b : le_bytes (length b) (le_value b) = b.
Proof.
  induction b as [|x b IH]; [done|]. cbn [le_value length le_bytes].
  pose proof (Z_of_byte_bound x) as Hx.
  replace ((Z_of_byte x + 256 * le_value b) / 256) with (le_value b).
  2: { apply (Z.div_unique _ _ _ (Z_of_byte x)); lia. }
  rewrite IH. f_equal. rewrite <-(byte_of_Z_of_byte x) at 2. unfold byte_of_Z.
  by rewrite (Z.mul_comm 256), Z.mod_add by done.
Qed.

Lemma le_value_app a b : le_value (a ++ b) = le_value a + 256 ^ Z.of_nat (length a) * le_value b.
Proof.
  induction a as [|x a IH]; cbn [app le_value length]; [by rewrite Z.pow_0_r; lia|].
  rewrite IH, pow256_S. ring.
Qed.

Lemma le_bytes_app m n z : le_bytes (m + n) z = le_bytes m z ++ le_bytes n (z / 256 ^ Z.of_nat m).
Proof.
  revert z. induction m as [|m IH]; intros z; cbn [Nat.add le_bytes app].
  - by rewrite Z.pow_0_r, Z.div_1_r.
  - rewrite IH, pow256_S, Z.div_div; [done|lia|]. apply Z.pow_pos_nonneg; lia.
Qed.

Lemma le_bytes_mod n z : le_bytes n (z mod 256 ^ Z.of_nat n) = le_bytes n z.
Proof.
  revert z. induction n as [|n IH]; intros z; [done|]. cbn [le_bytes]. rewrite pow256_S.
  assert (0 < 256 ^ Z.of_nat n) as Hp by (apply Z.pow_pos_nonneg; lia).
  rewrite byte_of_Z_mod. f_equal. rewrite <-(IH (z / 256)). f_equal.
  rewrite Z.rem_mul_r by lia. pose proof (Z.mod_pos_bound z 256 eq_refl).
  symmetry. apply (Z.div_unique _ _ _ (z mod 256)); lia.
Qed.

Lemma be_value_be_bytes n z : 0 ≤ z < 256 ^ Z.of_nat n → be_value (be_bytes n z) = z.
Proof.
  intros Hz. unfold be_value, be_bytes. by rewrite rev_involutive, le_value_le_bytes, Z.mod_small.
Qed.

Lemma be_bytes_be_value b : be_bytes (length b) (be_value b) = b.
Proof.
  unfold be_value, be_bytes. rewrite <-(length_rev b), le_bytes_le_value. apply rev_involutive.
Qed.

Lemma be_value_bound b : 0 ≤ be_value b < 256 ^ Z.of_nat (length b).
Proof. unfold be_value. rewrite <-(length_rev b). apply le_value_bound. Qed.

(** Big-endian digits, the most significant part first. *)
Lemma be_bytes_app m n z : be_bytes (m + n) z = be_bytes n (z / 256 ^ Z.of_nat m) ++ be_bytes m z.
Proof. unfold be_bytes. by rewrite le_bytes_app, rev_app_distr. Qed.

Lemma be_value_app a b : be_value (a ++ b) = be_value a * 256 ^ Z.of_nat (length b) + be_value b.
Proof. unfold be_value. rewrite rev_app_distr, le_value_app, length_rev. lia. Qed.

Lemma be_bytes_0 n : be_bytes n 0 = replicate n Byte.x00.
Proof.
  unfold be_bytes. assert (le_bytes n 0 = replicate n Byte.x00) as ->.
  { induction n as [|n IH]; [done|]. cbn [le_bytes replicate]. by rewrite Z.div_0_l, IH. }
  induction n as [|n IH]; [done|]. cbn [replicate rev]. rewrite IH.
  clear. induction n as [|n IH]; [done|]. cbn. by rewrite IH.
Qed.

(** ** Words *)
Lemma word_bytes i z : 0 ≤ i → le_bytes 8 (word i z) = le_bytes 8 (z / 256 ^ (8 * i)).
Proof.
  intros Hi. unfold word. change (2 ^ 64) with (256 ^ Z.of_nat 8). rewrite le_bytes_mod.
  change 256 with (2 ^ 8). rewrite <-Z.pow_mul_r by lia. do 3 f_equal. lia.
Qed.

(** Eight more bytes are one more word. *)
Lemma of_words_bytes c ws d :
  length c = 8%nat → of_words ws = le_value d → of_words (le_value c :: ws) = le_value (c ++ d).
Proof. intros Hc Hd. cbn [of_words]. by rewrite le_value_app, Hc, Hd. Qed.

Lemma slice_all {A} i n (l : list A) : length l = (i + n)%nat → l = take i l ++ slice i n l.
Proof.
  intros Hl. unfold slice. rewrite (take_ge (drop i l)) by (rewrite length_drop; lia).
  by rewrite take_drop.
Qed.

Lemma length_slice {A} i n (l : list A) : (i + n ≤ length l)%nat → length (slice i n l) = n.
Proof. intros H. unfold slice. rewrite length_take, length_drop. lia. Qed.

Lemma slice_app {A} i n m (l : list A) : slice i (n + m) l = slice i n l ++ slice (i + n) m l.
Proof.
  unfold slice. rewrite <-drop_drop. generalize (drop i l). clear. intros l.
  revert l. induction n as [|n IH]; intros [|x l]; cbn; [done..|by rewrite take_nil|]. by rewrite IH.
Qed.
