(* ===== verification/Sections.v ===== *)
(** * UTF-8 decoding of the Rust standard library

    [String::from_utf8] and [String::from_utf8_lossy], which the imports of the
    virtual machine use on bytes a contract passes.

    The second part is the section codec of the virtual machine, [sections.rs]. *)

From S2P Require Import Prelude.
From S2P Require Import Bytes.
From S2P Require Import CwStd.
From S2P Require Import Errors.

Section utf8.
Local Open Scope N_scope.

Definition between (lo hi : N) (b : byte) : bool :=
  (lo <=? Byte.to_N b) && (Byte.to_N b <=? hi).

Definition continuation : byte → bool := between 128 191.

(** The allowed second byte of a three- or four-byte sequence. *)
Definition second_ok (b0 b1 : byte) : bool :=
  let n := Byte.to_N b0 in
  if n =? 224 then between 160 191 b1
  else if n =? 237 then between 128 159 b1
  else if n =? 240 then between 144 191 b1
  else if n =? 244 then between 128 143 b1
  else continuation b1.

(** One step at the front of a non-empty input: whether a character starts
    there, and how many bytes the character or the broken sequence has. *)
Definition utf8_step (b0 : byte) (rest : bytes) : bool * nat :=
  let n := Byte.to_N b0 in
  if n <? 128 then (true, 1%nat)
  else if (194 <=? n) && (n <=? 223) then
    match rest with
    | b1 :: _ => if continuation b1 then (true, 2%nat) else (false, 1%nat)
    | [] => (false, 1%nat)
    end
  else if (224 <=? n) && (n <=? 239) then
    match rest with
    | b1 :: rest1 =>
        if second_ok b0 b1 then
          match rest1 with
          | b2 :: _ => if continuation b2 then (true, 3%nat) else (false, 2%nat)
          | [] => (false, 2%nat)
          end
        else (false, 1%nat)
    | [] => (false, 1%nat)
    end
  else if (240 <=? n) && (n <=? 244) then
    match rest with
    | b1 :: rest1 =>
        if second_ok b0 b1 then
          match rest1 with
          | b2 :: rest2 =>
              if continuation b2 then
                match rest2 with
                | b3 :: _ => if continuation b3 then (true, 4%nat) else (false, 3%nat)
                | [] => (false, 3%nat)
                end
              else (false, 2%nat)
          | [] => (false, 2%nat)
          end
        else (false, 1%nat)
    | [] => (false, 1%nat)
    end
  else (false, 1%nat).

(** The replacement character U+FFFD. *)
Definition replacement : bytes := [Byte.xef; Byte.xbf; Byte.xbd].

(** The length bounds the number of steps: each step consumes a byte. *)
Fixpoint utf8_chunks (fuel : nat) (l : bytes) : bool * bytes :=
  match fuel, l with
  | _, [] => (true, [])
  | O, _ => (true, [])
  | S fuel', b0 :: rest =>
      let '(ok, n) := utf8_step b0 rest in
      let '(ok', out) := utf8_chunks fuel' (drop n l) in
      (ok && ok', (if ok then take n l else replacement) ++ out)
  end.

Definition from_utf8 (l : bytes) : option string :=
  if (utf8_chunks (length l) l).1 then Some (String.string_of_list_byte l) else None.

Definition from_utf8_lossy (l : bytes) : string :=
  String.string_of_list_byte (utf8_chunks (length l) l).2.
End utf8.

Lemma utf8_step_pos b0 rest ok n :
  utf8_step b0 rest = (ok, n) → (1 ≤ n)%nat ∧ (ok = true → n ≤ length (b0 :: rest))%nat.
Proof.
  unfold utf8_step. repeat case_match; intros [= <- <-]; cbn; split; intros; lia || discriminate.
Qed.

Lemma utf8_chunks_valid fuel l :
  (length l ≤ fuel)%nat → (utf8_chunks fuel l).1 = true → (utf8_chunks fuel l).2 = l.
Proof.
  revert l. induction fuel as [|fuel IH]; intros [|b0 rest]; cbn -[take drop]; try done; [lia|].
  intros Hlen. destruct (utf8_step b0 rest) as [ok n] eqn:Hs.
  destruct (utf8_chunks fuel (drop n (b0 :: rest))) as [ok' out] eqn:Hc. cbn.
  intros [-> ->]%andb_true_iff. apply utf8_step_pos in Hs as [Hn _].
  specialize (IH (drop n (b0 :: rest))). rewrite Hc in IH. cbn in IH.
  rewrite IH; [apply take_drop| |done]. rewrite length_drop. cbn. lia.
Qed.

(** On valid input the lossy decoder changes nothing. *)
Lemma from_utf8_lossy_valid l s : from_utf8 l = Some s → from_utf8_lossy l = s.
Proof.
  unfold from_utf8, from_utf8_lossy. case_match eqn:Hv; [|done]. intros [= <-].
  by rewrite utf8_chunks_valid.
Qed.

(** * Sections ([cosmwasm/packages/vm/src/sections.rs], [conversion.rs])

    Several byte strings packed into one, each followed by its length as a
    big-endian [u32]; the form in which records leave a storage iterator. *)

Open Scope Z_scope.

(** [to_u32] on a [usize]. *)
Definition to_u32 (n : Z) : VmError + Z :=
  if n <? U32 then inr n else inl (ConversionErr "usize" "u32" (pretty n)).

(** [u32::to_be_bytes] and [u32::from_be_bytes]. *)
Definition to_be_bytes (n : Z) : bytes :=
  [byte_of_Z (Z.shiftr n 24); byte_of_Z (Z.shiftr n 16); byte_of_Z (Z.shiftr n 8); byte_of_Z n].
Definition from_be_bytes (b3 b2 b1 b0 : byte) : Z :=
  Z.lor (Z.shiftl (Z_of_byte b3) 24)
    (Z.lor (Z.shiftl (Z_of_byte b2) 16)
      (Z.lor (Z.shiftl (Z_of_byte b1) 8) (Z_of_byte b0))).

Fixpoint encode_sections (sections : list bytes) : VmError + bytes :=
  match sections with
  | [] => inr []
  | section :: rest =>
      match to_u32 (Z.of_nat (length section)) with
      | inl e => inl e
      | inr section_len =>
          match encode_sections rest with
          | inl e => inl e
          | inr out => inr (section ++ to_be_bytes section_len ++ out)
          end
      end
  end.

(** The loop of [decode_sections] on the first [remaining_len] bytes of [data];
    it works backwards, so the sections are collected in order. [None] is the
    panic of the slice (a length that reaches before the start of the data).
    The remaining length shrinks by at least 4 per round. *)
Fixpoint decode_loop (fuel : nat) (data : bytes) (remaining_len : nat) (acc : list bytes)
    : option (list bytes) :=
  if (remaining_len <? 4)%nat then Some acc
  else match fuel with
  | O => None
  | S fuel' =>
      match data !! (remaining_len - 4)%nat, data !! (remaining_len - 3)%nat,
            data !! (remaining_len - 2)%nat, data !! (remaining_len - 1)%nat with
      | Some b3, Some b2, Some b1, Some b0 =>
          let tail_len := Z.to_nat (from_be_bytes b3 b2 b1 b0) in
          if (remaining_len - 4 <? tail_len)%nat then None
          else decode_loop fuel' data (remaining_len - 4 - tail_len)%nat
                 (take tail_len (drop (remaining_len - 4 - tail_len)%nat data) :: acc)
      | _, _, _, _ => None
      end
  end.

Definition decode_sections (data : bytes) : option (list bytes) :=
  decode_loop (length data) data (length data) [].

(** ** Round trip *)

(** Bit [i] of byte [k] of [n], put back in place. *)
Lemma byte_bit n k i :
  0 ≤ k → 0 ≤ i →
  Z.testbit (Z.shiftl (Z.shiftr n k mod 2 ^ 8) k) i =
  (k <=? i) && (i <? k + 8) && Z.testbit n i.
Proof.
  intros Hk Hi. rewrite Z.shiftl_spec by done.
  destruct (Z.leb_spec k i); cbn; [|by rewrite Z.testbit_neg_r by lia].
  destruct (Z.ltb_spec i (k + 8)); cbn; [|by rewrite Z.mod_pow2_bits_high by lia].
  rewrite Z.mod_pow2_bits_low, Z.shiftr_spec by lia. f_equal. lia.
Qed.

Lemma be_bytes_roundtrip n :
  0 ≤ n < U32 →
  from_be_bytes (byte_of_Z (Z.shiftr n 24)) (byte_of_Z (Z.shiftr n 16))
    (byte_of_Z (Z.shiftr n 8)) (byte_of_Z n) = n.
Proof.
  intros Hn. unfold from_be_bytes. rewrite !Z_of_byte_of_Z. change 256 with (2 ^ 8).
  apply Z.bits_inj'. intros i Hi. rewrite !Z.lor_spec, !byte_bit by lia.
  rewrite <-(Z.shiftl_0_r (n mod 2 ^ 8)). rewrite <-(Z.shiftr_0_r n) at 4.
  rewrite byte_bit by lia.
  destruct (Z.ltb_spec i 32).
  - destruct (Z.testbit n i); [|by rewrite !andb_false_r]. rewrite !andb_true_r.
    destruct (Z.leb_spec 24 i), (Z.leb_spec 16 i), (Z.leb_spec 8 i), (Z.leb_spec 0 i),
      (Z.ltb_spec i (24 + 8)), (Z.ltb_spec i (16 + 8)), (Z.ltb_spec i (8 + 8)),
      (Z.ltb_spec i (0 + 8)); cbn; lia || done.
  - assert (Z.testbit n i = false) as ->; [|by rewrite !andb_false_r].
    apply Z.testbit_false; [done|]. rewrite Z.div_small; [done|].
    split; [lia|]. apply Z.lt_le_trans with (2 ^ 32); [apply Hn|]. by apply Z.pow_le_mono_r.
Qed.

Lemma length_to_be_bytes n : length (to_be_bytes n) = 4%nat.
Proof. done. Qed.

Lemma encode_snoc ss s d :
  encode_sections (ss ++ [s]) = inr d →
  ∃ d1, encode_sections ss = inr d1 ∧ d = d1 ++ s ++ to_be_bytes (Z.of_nat (length s)) ∧
        Z.of_nat (length s) < U32.
Proof.
  revert d. induction ss as [|s0 ss IH]; cbn; intros d.
  - unfold to_u32. destruct (Z.ltb_spec (Z.of_nat (length s)) U32); [|done].
    intros [= <-]. eexists. split_and!; [done| |done]. cbn. by rewrite ?app_nil_r.
  - destruct (to_u32 _) as [e|n]; [done|].
    destruct (encode_sections (ss ++ [s])) as [e|out] eqn:Henc; [done|]. intros [= <-].
    destruct (IH out eq_refl) as (d1 & -> & -> & Hlt). eexists. split_and!; [done| |done].
    by rewrite <-!app_assoc.
Qed.

Lemma lookup_tail (p s t q : bytes) j k :
  j = (length p + length s + k)%nat → (k < length t)%nat →
  ((p ++ s ++ t) ++ q) !! j = t !! k.
Proof.
  intros -> Hk. rewrite <-!app_assoc.
  rewrite lookup_app_r by lia. rewrite lookup_app_r by lia.
  rewrite lookup_app_l by lia. f_equal. lia.
Qed.

Lemma decode_loop_encoded ss d tail fuel acc :
  encode_sections ss = inr d → (length d ≤ fuel)%nat →
  decode_loop fuel (d ++ tail) (length d) acc = Some (ss ++ acc).
Proof.
  revert d tail fuel acc. induction ss as [|s ss IH] using rev_ind;
    intros d tail fuel acc Henc Hfuel.
  { injection Henc as <-. by destruct fuel. }
  apply encode_snoc in Henc as (d1 & Henc & -> & Hs).
  rewrite !length_app, length_to_be_bytes in Hfuel |- *.
  destruct fuel as [|fuel]; [lia|]. cbn [decode_loop].
  destruct (Nat.ltb_spec (length d1 + (length s + 4)) 4); [lia|].
  set (t := to_be_bytes (Z.of_nat (length s))) in *.
  rewrite (lookup_tail d1 s t tail _ 0), (lookup_tail d1 s t tail _ 1),
    (lookup_tail d1 s t tail _ 2), (lookup_tail d1 s t tail _ 3)
    by (unfold t; cbn; lia).
  unfold t at 1 2 3 4. cbn [to_be_bytes lookup list_lookup].
  rewrite be_bytes_roundtrip, Nat2Z.id by lia.
  destruct (Nat.ltb_spec (length d1 + (length s + 4) - 4) (length s)); [lia|].
  replace (length d1 + (length s + 4) - 4 - length s)%nat with (length d1) by lia.
  rewrite <-!app_assoc, drop_app_length, take_app_length.
  rewrite IH; [done|done|lia].
Qed.

(** C35: decoding what [encode_sections] produced gives the sections back, for any
    sections it accepts (each shorter than 2^32 bytes), and never panics. *)
Theorem sections_roundtrip ss d :
  encode_sections ss = inr d → decode_sections d = Some ss.
Proof.
  intros H. unfold decode_sections.
  rewrite <-(app_nil_r d) at 2. rewrite (decode_loop_encoded ss d [] _ [] H) by done.
  by rewrite app_nil_r.
Qed.

(** ** What [decode_sections] panics on *)

(** Before trailing sections [d] that are well encoded stands a length that reaches
    before the start of the data. *)
Definition overlong (b : bytes) : Prop :=
  ∃ front n ss d, b = front ++ to_be_bytes n ++ d ∧ encode_sections ss = inr d ∧
    Z.of_nat (length front) < n < U32.

Lemma byte_testbit b i : 8 ≤ i → Z.testbit (Z_of_byte b) i = false.
Proof.
  intros Hi. pose proof (Z_of_byte_bound b). rewrite <-(Z.mod_small (Z_of_byte b) (2 ^ 8)) by lia.
  by apply Z.mod_pow2_bits_high.
Qed.

Lemma from_be_testbit b3 b2 b1 b0 i :
  0 ≤ i → Z.testbit (from_be_bytes b3 b2 b1 b0) i =
    Z.testbit (Z_of_byte b3) (i - 24) || (Z.testbit (Z_of_byte b2) (i - 16) ||
      (Z.testbit (Z_of_byte b1) (i - 8) || Z.testbit (Z_of_byte b0) i)).
Proof. intros Hi. unfold from_be_bytes. by rewrite !Z.lor_spec, !Z.shiftl_spec by done. Qed.

(** Byte [b] at bit [k] of a number. *)
Lemma byte_at n k b :
  0 ≤ k → (∀ i, 0 ≤ i < 8 → Z.testbit n (i + k) = Z.testbit (Z_of_byte b) i) → byte_of_Z (Z.shiftr n k) = b.
Proof.
  intros Hk Hbits. rewrite <-(byte_of_Z_of_byte b), <-(byte_of_Z_of_byte (byte_of_Z _)). f_equal.
  rewrite Z_of_byte_of_Z. apply Z.bits_inj'. intros i Hi.
  change 256 with (2 ^ 8). destruct (Z.ltb_spec i 8).
  - rewrite Z.mod_pow2_bits_low, Z.shiftr_spec by lia. by apply Hbits.
  - rewrite Z.mod_pow2_bits_high by lia. by rewrite byte_testbit.
Qed.

Lemma be_bytes_inverse b3 b2 b1 b0 : to_be_bytes (from_be_bytes b3 b2 b1 b0) = [b3; b2; b1; b0].
Proof.
  unfold to_be_bytes. rewrite <-(Z.shiftr_0_r (from_be_bytes b3 b2 b1 b0)) at 4.
  rewrite (byte_at _ 24 b3), (byte_at _ 16 b2), (byte_at _ 8 b1), (byte_at _ 0 b0); try done.
  all: intros i Hi; rewrite from_be_testbit by lia.
  - rewrite (Z.testbit_neg_r (Z_of_byte b3)), (Z.testbit_neg_r (Z_of_byte b2)), (Z.testbit_neg_r (Z_of_byte b1)) by lia.
    by rewrite Z.add_0_r.
  - rewrite (Z.testbit_neg_r (Z_of_byte b3)), (Z.testbit_neg_r (Z_of_byte b2)), (byte_testbit b0) by lia.
    rewrite orb_false_r. cbn. f_equal. lia.
  - rewrite (Z.testbit_neg_r (Z_of_byte b3)), (byte_testbit b1), (byte_testbit b0) by lia.
    rewrite !orb_false_r. cbn. f_equal. lia.
  - rewrite (byte_testbit b2), (byte_testbit b1), (byte_testbit b0) by lia. rewrite !orb_false_r. f_equal. lia.
Qed.

Lemma from_be_bytes_u32 b3 b2 b1 b0 : 0 ≤ from_be_bytes b3 b2 b1 b0 < U32.
Proof.
  assert (from_be_bytes b3 b2 b1 b0 = from_be_bytes b3 b2 b1 b0 mod U32) as ->; [|by apply Z.mod_pos_bound].
  apply Z.bits_inj'. intros i Hi. unfold U32. destruct (Z.ltb_spec i 32).
  - by rewrite Z.mod_pow2_bits_low.
  - rewrite Z.mod_pow2_bits_high, from_be_testbit by lia. by rewrite !byte_testbit by lia.
Qed.

(** Trailing sections are taken off one by one. *)
Lemma decode_loop_tail ss d front tail fuel acc :
  encode_sections ss = inr d → (length front + length d ≤ fuel)%nat →
  ∃ fuel', (length front ≤ fuel')%nat ∧
    decode_loop fuel (front ++ d ++ tail) (length front + length d) acc =
    decode_loop fuel' (front ++ d ++ tail) (length front) (ss ++ acc).
Proof.
  revert d tail fuel acc. induction ss as [|s ss IH] using rev_ind; intros d tail fuel acc Henc Hfuel.
  { injection Henc as <-. exists fuel. cbn in *. rewrite Nat.add_0_r in *. done. }
  apply encode_snoc in Henc as (d1 & Henc & -> & Hs).
  rewrite !length_app, length_to_be_bytes in Hfuel |- *.
  destruct fuel as [|fuel]; [lia|]. cbn [decode_loop].
  destruct (Nat.ltb_spec (length front + (length d1 + (length s + 4))) 4); [lia|].
  set (t := to_be_bytes (Z.of_nat (length s))) in *.
  replace (front ++ (d1 ++ s ++ t) ++ tail) with (((front ++ d1) ++ s ++ t) ++ tail) by (by rewrite <-!app_assoc).
  rewrite (lookup_tail (front ++ d1) s t tail _ 0), (lookup_tail (front ++ d1) s t tail _ 1),
    (lookup_tail (front ++ d1) s t tail _ 2), (lookup_tail (front ++ d1) s t tail _ 3)
    by (rewrite ?length_app; unfold t; cbn; lia).
  unfold t at 1 2 3 4. cbn [to_be_bytes lookup list_lookup]. rewrite be_bytes_roundtrip, Nat2Z.id by lia.
  destruct (Nat.ltb_spec (length front + (length d1 + (length s + 4)) - 4) (length s)); [lia|].
  replace (length front + (length d1 + (length s + 4)) - 4 - length s)%nat with (length front + length d1)%nat by lia.
  rewrite <-!app_assoc.
  destruct (IH d1 (s ++ t ++ tail) fuel (s :: acc) Henc ltac:(lia)) as (fuel' & Hf & Hrun).
  exists fuel'. split; [done|]. cbn [app]. rewrite <-Hrun. f_equal. f_equal.
  rewrite (app_assoc front d1), drop_app_length' by (by rewrite length_app). by rewrite take_app_length.
Qed.

Lemma decode_overlong b : overlong b → decode_sections b = None.
Proof.
  intros (front & n & ss & d & -> & Henc & Hlen). unfold decode_sections.
  destruct (decode_loop_tail ss d (front ++ to_be_bytes n) [] (length (front ++ to_be_bytes n ++ d)) [] Henc)
    as (fuel & Hf & Hrun).
  { rewrite !length_app. lia. }
  rewrite app_nil_r, <-app_assoc in Hrun.
  replace (length (front ++ to_be_bytes n) + length d)%nat with (length (front ++ to_be_bytes n ++ d)) in Hrun
    by (rewrite !length_app; lia).
  rewrite Hrun. rewrite length_app, length_to_be_bytes in Hf |- *. destruct fuel as [|fuel]; [lia|]. cbn [decode_loop].
  destruct (Nat.ltb_spec (length front + 4) 4); [lia|].
  pose proof (lookup_tail [] front (to_be_bytes n) d) as Hl. cbn [app length] in Hl. rewrite <-app_assoc in Hl.
  rewrite (Hl _ 0%nat), (Hl _ 1%nat), (Hl _ 2%nat), (Hl _ 3%nat) by (cbn; lia).
  cbn [to_be_bytes lookup list_lookup]. rewrite be_bytes_roundtrip by lia.
  by destruct (Nat.ltb_spec (length front + 4 - 4) (Z.to_nat n)); [|lia].
Qed.

Lemma encode_append ss d s :
  encode_sections ss = inr d → Z.of_nat (length s) < U32 →
  encode_sections (ss ++ [s]) = inr (d ++ s ++ to_be_bytes (Z.of_nat (length s))).
Proof.
  revert d. induction ss as [|s0 ss IH]; cbn; intros d Henc Hs.
  - injection Henc as <-. unfold to_u32. destruct (Z.ltb_spec (Z.of_nat (length s)) U32); [|lia]. done.
  - destruct (to_u32 _) as [e|n]; [done|]. destruct (encode_sections ss) as [e|out]; [done|]. injection Henc as <-.
    rewrite (IH out) by done. by rewrite <-!app_assoc.
Qed.

Lemma decode_loop_None fuel data rl acc :
  (rl ≤ fuel)%nat → (rl ≤ length data)%nat → decode_loop fuel data rl acc = None → overlong (take rl data).
Proof.
  revert rl acc. induction fuel as [|fuel IH]; intros rl acc Hf Hl; cbn [decode_loop];
    (destruct (Nat.ltb_spec rl 4); [done|]); [lia|].
  destruct (lookup_lt_is_Some_2 data (rl - 4)) as [b3 H3]; [lia|].
  destruct (lookup_lt_is_Some_2 data (rl - 3)) as [b2 H2]; [lia|].
  destruct (lookup_lt_is_Some_2 data (rl - 2)) as [b1 H1]; [lia|].
  destruct (lookup_lt_is_Some_2 data (rl - 1)) as [b0 H0]; [lia|].
  rewrite H3, H2, H1, H0. set (n := from_be_bytes b3 b2 b1 b0). pose proof (from_be_bytes_u32 b3 b2 b1 b0) as Hn. fold n in Hn.
  assert (take rl data = take (rl - 4) data ++ to_be_bytes n) as Htake.
  { unfold n. rewrite be_bytes_inverse.
    replace rl with (S (S (S (S (rl - 4))))) at 1 by lia.
    rewrite (take_S_r _ (S (S (S (rl - 4)))) b0), (take_S_r _ (S (S (rl - 4))) b1),
      (take_S_r _ (S (rl - 4)) b2), (take_S_r _ (rl - 4) b3); [by rewrite <-!app_assoc|done| | |].
    - by replace (S (rl - 4)) with (rl - 3)%nat by lia.
    - by replace (S (S (rl - 4))) with (rl - 2)%nat by lia.
    - by replace (S (S (S (rl - 4)))) with (rl - 1)%nat by lia. }
  destruct (Nat.ltb_spec (rl - 4) (Z.to_nat n)) as [Hlt|Hge].
  - intros _. exists (take (rl - 4) data), n, [], []. rewrite app_nil_r. split; [done|]. split; [done|].
    rewrite length_take. lia.
  - intros (front & k & ss & d & Heq & Henc & Hlen)%IH; [|lia..].
    set (s := take (Z.to_nat n) (drop (rl - 4 - Z.to_nat n) data)).
    assert (length s = Z.to_nat n) as Hs by (unfold s; rewrite length_take, length_drop; lia).
    exists front, k, (ss ++ [s]), (d ++ s ++ to_be_bytes n). split; [|split; [|done]].
    + rewrite Htake. replace (rl - 4)%nat with (rl - 4 - Z.to_nat n + Z.to_nat n)%nat at 1 by lia.
      rewrite <-take_take_drop. fold s. rewrite Heq. by rewrite <-!app_assoc.
    + replace n with (Z.of_nat (length s)) by lia. apply encode_append; [done|lia].
Qed.

(** [decode_sections] panics exactly on such data. *)
Lemma decode_panics b : decode_sections b = None ↔ overlong b.
Proof.
  split; [|apply decode_overlong]. unfold decode_sections. intros H%decode_loop_None; [|lia..].
  by rewrite take_ge in H.
Qed.
