(* ===== verification/Gas.v ===== *)
(** * Limits of the virtual machine ([cosmwasm/packages/vm/src/imports.rs], [calls.rs])

    How many bytes the host reads from a region, by use.

    The gas accounting of the virtual machine follows. *)

From S2P Require Import Prelude.

Open Scope Z_scope.

(** ** Limits *)
Definition KI : Z := 1024.
Definition MI : Z := 1024 * 1024.
Definition MAX_LENGTH_DB_KEY : Z := 64 * KI.
Definition MAX_LENGTH_DB_VALUE : Z := 128 * KI.
Definition MAX_LENGTH_CANONICAL_ADDRESS : Z := 64.
Definition MAX_LENGTH_HUMAN_ADDRESS : Z := 256.
Definition MAX_LENGTH_QUERY_CHAIN_REQUEST : Z := 64 * KI.
Definition MAX_LENGTH_ED25519_SIGNATURE : Z := 64.
Definition MAX_LENGTH_ED25519_MESSAGE : Z := 128 * 1024.
Definition MAX_COUNT_ED25519_BATCH : Z := 256.
Definition MAX_LENGTH_DEBUG : Z := 2 * MI.
Definition MAX_LENGTH_ABORT : Z := 2 * MI.

(** [read_limits] and [deserialization_limits]: the same for every entry point. *)
Definition READ_LIMIT : Z := 64 * MI.
Definition DESERIALIZATION_LIMIT : Z := 256 * KI.

(** * Gas ([cosmwasm/packages/vm/src]: [backend.rs], [environment.rs], [instance.rs])

    What a call costs ([GasInfo]), the prices of the imports ([GasConfig]), the
    account an instance keeps ([GasState]) and the report on it ([GasReport]).
    All amounts are [u64]. *)

(** [u64::saturating_sub]. *)
Definition saturating_sub (x y : Z) : Z := Z.max 0 (x - y).

(** ** [backend.rs] *)
Record GasInfo := mkGasInfo {
  cost : Z;
  externally_used : Z
}.

Definition with_cost (amount : Z) : GasInfo := mkGasInfo amount 0.
Definition with_externally_used (amount : Z) : GasInfo := mkGasInfo 0 amount.
Definition free : GasInfo := mkGasInfo 0 0.

(** [AddAssign for GasInfo]. *)
Definition GasInfo_add_assign {E} (other : GasInfo) : M E GasInfo unit :=
  self ← get;
  c ← add_or_panic U64 (cost self) (cost other);
  e ← add_or_panic U64 (externally_used self) (externally_used other);
  put (mkGasInfo c e).

(** ** [environment.rs] *)
Record GasConfig := mkGasConfig {
  secp256k1_verify_cost : Z;
  secp256k1_recover_pubkey_cost : Z;
  ed25519_verify_cost : Z;
  ed25519_batch_verify_cost : Z;
  ed25519_batch_verify_one_pubkey_cost : Z
}.

Definition GAS_PER_US : Z := 1000000000.

Definition GasConfig_default : GasConfig :=
  mkGasConfig (154 * GAS_PER_US) (162 * GAS_PER_US) (63 * GAS_PER_US)
    (63 * GAS_PER_US / 2) (63 * GAS_PER_US / 4).

Record GasState := mkGasState {
  gas_limit : Z;
  externally_used_gas : Z
}.

Definition GasState_with_limit (limit : Z) : GasState := mkGasState limit 0.

(** ** [instance.rs] *)
Record GasReport := mkGasReport {
  limit : Z;
  remaining : Z;
  used_externally : Z;
  used_internally : Z
}.

(** [create_gas_report] of a state and the gas that is left. *)
Definition gas_report (state : GasState) (gas_left : Z) : GasReport :=
  mkGasReport (gas_limit state) gas_left (externally_used_gas state)
    (saturating_sub (saturating_sub (gas_limit state) (externally_used_gas state)) gas_left).

Definition GasInfo_ok (i : GasInfo) : Prop := in_width U64 (cost i) ∧ in_width U64 (externally_used i).
