(* ===== verification/Vm.v ===== *)
(** * Running a contract ([cosmwasm/packages/vm/src])

    A contract is WebAssembly, which the repository does not contain; what it
    can do to the simulator is call the imports of [instance.rs]. A call of an
    exported function is therefore a tree of host calls ([Guest]), given by the
    parameter [WasmEngine] for every code and every argument, and this file
    models what the host does with each of them: the imports of [imports.rs]
    (with their length limits and the read-only flag), [call_raw] and the
    [call_*] functions of [calls.rs].

    At this level a region is the byte string it holds and gas is left out: the
    simulator runs with a limit of [u64::MAX] and a free backend, so running out of gas
    is a trap of the guest, and the signature imports, which are pure, are part of the
    guest. [Host] and [HostImports] have linear memory, gas and signatures, and
    [HostRefines] shows that they implement this file. *)

From S2P Require Import Prelude.
From S2P Require Import CwStd.
From S2P Require Import Errors.
From S2P Require Import Client.
From S2P Require Import Storage.
From S2P Require Import States.
From S2P Require Import DebugLog.
From S2P Require Import Sections.
From S2P Require Import Api.
From S2P Require Import Gas.

Open Scope Z_scope.

(** ** Host calls *)
Inductive hostE : Type → Type :=
| HDbRead (key : bytes) : hostE (option bytes)
| HDbWrite (key value : bytes) : hostE unit
| HDbRemove (key : bytes) : hostE unit
| HAddrValidate (source : bytes) : hostE (option bytes)
| HAddrCanonicalize (source : bytes) (capacity : Z) : hostE (bytes + bytes)
| HAddrHumanize (source : bytes) (capacity : Z) : hostE (bytes + bytes)
| HQueryChain (request : bytes) : hostE bytes
| HDbScan (start stop : option bytes) (order : Z) : hostE Z
| HDbNext (iterator_id : Z) : hostE bytes
| HDebug (message : bytes) : hostE unit
| HAbort (message : bytes) : hostE Empty_set.

(** The run of an exported function: [W] is the state of the Wasm instance
    (memory and globals), which survives the call. *)
Inductive Guest (W : Type) : Type :=
| GReturn (w : W) (result : bytes)
| GTrap (w : W) (e : VmError)
| GHost (w : W) (R : Type) (op : hostE R) (k : R → Guest W).
Arguments GReturn {W} w result.
Arguments GTrap {W} w e.
Arguments GHost {W} w {R} op k.

(** wasmer: compiling a code, instantiating a module, calling an export. *)
Class WasmEngine := {
  Module_ : Type;
  WInst : Type;
  wasm_compile : bytes → VmError + Module_;
  wasm_instantiate : Module_ → VmError + WInst;
  call_export : WInst → string → list bytes → Guest WInst
}.

(** ** The environment of an instance

    The storage cell of an instance is an [Arc]: the one of the contract's entry
    in the shared state ([Model::create_instance]) or a copy of its own (the
    instance a query runs in). *)
Inductive Cell := SharedCell (a : Addr) | PrivateCell (m : ContractStorage).

(** [RpcMockQuerier]: the state and the log it shares with the model. *)
Record RpcMockQuerier (C : Type) := mkQuerier {
  q_states : AllStates C;
  q_log : DebugLog
}.
Arguments mkQuerier {C}.
Arguments q_states {C}.
Arguments q_log {C}.

(** What an [Instance] owns: its API, its storage handle (the cell, the open
    iterators), the read-only flag and the Wasm instance. *)
Record Instance (W : Type) := mkInstance {
  i_api : RpcMockApi;
  i_cell : Cell;
  i_iterators : gmap Z (list StoreRecord * nat);
  i_iterator_ctr : Z;
  i_readonly : bool;
  i_wasm : W
}.
Arguments mkInstance {W}.
Arguments i_api {W}.
Arguments i_cell {W}.
Arguments i_iterators {W}.
Arguments i_iterator_ctr {W}.
Arguments i_readonly {W}.
Arguments i_wasm {W}.

(** [Environment]: the instance while it runs, with the state it shares. *)
Record Environment (C W : Type) := mkEnvironment {
  v_querier : RpcMockQuerier C;
  v_inst : Instance W
}.
Arguments mkEnvironment {C W}.
Arguments v_querier {C W}.
Arguments v_inst {C W}.

Section Vm.
Context {C W : Type} {HC : CwClientBackend C} {HX : Externals}.
Abbreviation ENV := (Environment C W).
Abbreviation VM := (M VmError ENV).

Definition set_querier (q : RpcMockQuerier C) (v : ENV) : ENV := mkEnvironment q (v_inst v).
Definition set_inst (i : Instance W) (v : ENV) : ENV := mkEnvironment (v_querier v) i.

Definition set_storage_readonly (b : bool) : VM unit :=
  modify (λ v, let i := v_inst v in
    set_inst (mkInstance (i_api i) (i_cell i) (i_iterators i) (i_iterator_ctr i) b (i_wasm i)) v).
Definition set_wasm (w : W) : VM unit :=
  modify (λ v, let i := v_inst v in
    set_inst (mkInstance (i_api i) (i_cell i) (i_iterators i) (i_iterator_ctr i) (i_readonly i) w) v).

(** The content of the instance's storage cell, and writing the handle back. *)
Definition cell_read (v : ENV) : option ContractStorage :=
  match i_cell (v_inst v) with
  | SharedCell a => storage <$> contract_states (q_states (v_querier v)) !! a
  | PrivateCell m => Some m
  end.

Definition alter_storage (m : ContractStorage) (cs : ContractState) : ContractState :=
  mkContractState (code cs) m.

Definition storage_writeback (st : RpcMockStorage) (v : ENV) : ENV :=
  let q := v_querier v in
  let i := v_inst v in
  match i_cell i with
  | SharedCell a =>
      mkEnvironment
        (mkQuerier (set_contract_states
                      (alter (alter_storage (inner st)) a (contract_states (q_states q))) (q_states q))
           (q_log q))
        (mkInstance (i_api i) (SharedCell a) (iterators st) (iterator_id_ctr st)
           (i_readonly i) (i_wasm i))
  | PrivateCell _ =>
      mkEnvironment q
        (mkInstance (i_api i) (PrivateCell (inner st)) (iterators st) (iterator_id_ctr st)
           (i_readonly i) (i_wasm i))
  end.

(** [with_storage_from_context]: a call on the instance's [RpcMockStorage], whose
    [inner] is the cell; [conv] is the conversion of the error that follows. *)
Definition with_storage {A} (conv : BackendError → VmError)
    (m : M BackendError RpcMockStorage A) : VM A := λ v,
  match cell_read v with
  | None => (Err (UninitializedContextData "storage"), v)
  | Some cell =>
      let i := v_inst v in
      let '(r, st) := m (mkStorage cell (i_iterators i) (i_iterator_ctr i)) in
      let v' := storage_writeback st v in
      match r with
      | Ok a => (Ok a, v')
      | Err e => (Err (conv e), v')
      | Panic p => (Panic p, v')
      | OutOfFuel => (OutOfFuel, v')
      end
  end.

(** [read_region] with its limit: a region is the bytes it holds. *)
Definition read_region (data_ : bytes) (max_length : Z) : VM bytes :=
  if max_length <? Z.of_nat (length data_) then
    throw (CommunicationErr (RegionLengthTooBig (Z.of_nat (length data_)) max_length))
  else mret data_.

Definition maybe_read_region (data_ : option bytes) (max_length : Z) : VM (option bytes) :=
  match data_ with
  | None => mret None
  | Some d => r ← read_region d max_length; mret (Some r)
  end.

(** [write_region] into a prepared region of the given capacity. *)
Definition write_region (capacity : Z) (data_ : bytes) : VM unit :=
  if capacity <? Z.of_nat (length data_) then
    throw (CommunicationErr (RegionTooSmall capacity (Z.of_nat (length data_))))
  else mret tt.

(** ** The imports *)
Definition do_db_read (key : bytes) : VM (option bytes) :=
  key ← read_region key MAX_LENGTH_DB_KEY;
  with_storage VmError_of_BackendError (storage_get key).

Definition do_db_write (key value : bytes) : VM unit :=
  v ← get;
  if i_readonly (v_inst v) then throw WriteAccessDenied
  else
    key ← read_region key MAX_LENGTH_DB_KEY;
    value ← read_region value MAX_LENGTH_DB_VALUE;
    with_storage VmError_of_BackendError (storage_set key value).

Definition do_db_remove (key : bytes) : VM unit :=
  v ← get;
  if i_readonly (v_inst v) then throw WriteAccessDenied
  else
    key ← read_region key MAX_LENGTH_DB_KEY;
    with_storage VmError_of_BackendError (storage_remove key).

(** The result of an API call: a user error is reported to the contract as a
    message, any other error ends the run. *)
Definition user_error {A} (m : M BackendError ENV A) : VM (bytes + A) := λ v,
  match m v with
  | (Ok a, v') => (Ok (inr a), v')
  | (Err (UserErr msg), v') => (Ok (inl (as_bytes msg)), v')
  | (Err e, v') => (Err (VmError_of_BackendError e), v')
  | (Panic p, v') => (Panic p, v')
  | (OutOfFuel, v') => (OutOfFuel, v')
  end.

Definition do_addr_validate (source : bytes) : VM (option bytes) :=
  source ← read_region source MAX_LENGTH_HUMAN_ADDRESS;
  if bool_decide (source = []) then mret (Some (as_bytes "Input is empty"))
  else match from_utf8 source with
  | None => mret (Some (as_bytes "Input is not valid UTF-8"))
  | Some source_string =>
      v ← get;
      r ← user_error (canonical_address (i_api (v_inst v)) source_string);
      match r with
      | inl msg => mret (Some msg)
      | inr canonical =>
          r ← user_error (human_address (i_api (v_inst v)) canonical);
          match r with
          | inl msg => mret (Some msg)
          | inr normalized =>
              if String.eqb normalized source_string then mret None
              else mret (Some (as_bytes "Address is not normalized"))
          end
      end
  end.

Definition do_addr_canonicalize (source : bytes) (capacity : Z) : VM (bytes + bytes) :=
  source ← read_region source MAX_LENGTH_HUMAN_ADDRESS;
  if bool_decide (source = []) then mret (inl (as_bytes "Input is empty"))
  else match from_utf8 source with
  | None => mret (inl (as_bytes "Input is not valid UTF-8"))
  | Some source_string =>
      v ← get;
      r ← user_error (canonical_address (i_api (v_inst v)) source_string);
      match r with
      | inl msg => mret (inl msg)
      | inr canonical => _ ← write_region capacity canonical; mret (inr canonical)
      end
  end.

Definition do_addr_humanize (source : bytes) (capacity : Z) : VM (bytes + bytes) :=
  canonical ← read_region source MAX_LENGTH_CANONICAL_ADDRESS;
  v ← get;
  r ← user_error (human_address (i_api (v_inst v)) canonical);
  match r with
  | inl msg => mret (inl msg)
  | inr human =>
      _ ← write_region capacity (as_bytes human); mret (inr (as_bytes human))
  end.

(** [do_query_chain]: [query_raw] is the querier's entry point. *)
Definition do_query_chain
    (query_raw : bytes → M BackendError (RpcMockQuerier C) (SystemResult (ContractResult Binary)))
    (request : bytes) : VM bytes :=
  request ← read_region request MAX_LENGTH_QUERY_CHAIN_REQUEST;
  result ← map_err VmError_of_BackendError (zoom v_querier set_querier (query_raw request));
  match to_vec_system_result result with
  | inl e => throw (SerializeErr (rust_type_name "SystemResult<ContractResult<Binary>>") e)
  | inr serialized => mret serialized
  end.

Definition do_db_scan (start stop : option bytes) (order : Z) : VM Z :=
  start ← maybe_read_region start MAX_LENGTH_DB_KEY;
  stop ← maybe_read_region stop MAX_LENGTH_DB_KEY;
  match order_of_i32 order with
  | None => throw (CommunicationErr (InvalidOrder order))
  | Some o => with_storage VmError_of_BackendError (scan start stop o)
  end.

Definition do_db_next (iterator_id : Z) : VM bytes :=
  r ← with_storage VmError_of_BackendError (next iterator_id);
  let '(key, value) := default ([], []) r in
  of_sum (encode_sections [key; value]).

(** [print_debug] is off in every instance of the simulator. *)
Definition do_debug (message : bytes) : VM unit := mret tt.

Definition do_abort (message : bytes) : VM Empty_set :=
  message ← read_region message MAX_LENGTH_ABORT;
  throw (Aborted (from_utf8_lossy message)).

Definition host_call
    (query_raw : bytes → M BackendError (RpcMockQuerier C) (SystemResult (ContractResult Binary)))
    {R} (op : hostE R) : VM R :=
  match op in hostE R return VM R with
  | HDbRead key => do_db_read key
  | HDbWrite key value => do_db_write key value
  | HDbRemove key => do_db_remove key
  | HAddrValidate source => do_addr_validate source
  | HAddrCanonicalize source capacity => do_addr_canonicalize source capacity
  | HAddrHumanize source capacity => do_addr_humanize source capacity
  | HQueryChain request => do_query_chain query_raw request
  | HDbScan start stop order => do_db_scan start stop order
  | HDbNext iterator_id => do_db_next iterator_id
  | HDebug message => do_debug message
  | HAbort message => do_abort message
  end.

(** ** Calling an export

    An error of an import passes through the Wasm code as a runtime error. *)
Fixpoint run_guest
    (query_raw : bytes → M BackendError (RpcMockQuerier C) (SystemResult (ContractResult Binary)))
    (g : Guest W) : VM bytes :=
  match g with
  | GReturn w result => _ ← set_wasm w; mret result
  | GTrap w e => _ ← set_wasm w; throw e
  | GHost w op k =>
      _ ← set_wasm w;
      r ← map_err VmError_through_wasm (host_call query_raw op);
      run_guest query_raw (k r)
  end.
End Vm.

(** ** [calls.rs] and [serde.rs] *)
Section calls.
Context {C : Type} {HC : CwClientBackend C} {HX : Externals} {HW : WasmEngine}.
Abbreviation VM := (M VmError (Environment C WInst)).
Context (query_raw : bytes → M BackendError (RpcMockQuerier C)
                               (SystemResult (ContractResult Binary))).

(** The arguments are copied into the guest, the result is read back with a limit. *)
Definition call_raw (name : string) (args : list bytes) (result_max_length : Z) : VM bytes :=
  v ← get;
  result ← run_guest query_raw (call_export (i_wasm (v_inst v)) name args);
  read_region result result_max_length.

Definition vm_from_slice {A} (decode : bytes → string + A) (ty : string) (value : bytes)
    (deserialization_limit : Z) : VM A :=
  if deserialization_limit <? Z.of_nat (length value) then
    throw (DeserializationLimitExceeded (Z.of_nat (length value)) deserialization_limit)
  else match decode value with
  | inl e => throw (ParseErr (rust_type_name ty) e)
  | inr a => mret a
  end.

Definition vm_to_vec {A} (encode : A → string + bytes) (ty : string) (data_ : A) : VM bytes :=
  match encode data_ with
  | inl e => throw (SerializeErr (rust_type_name ty) e)
  | inr b => mret b
  end.

Definition call_instantiate_raw (env info msg : bytes) : VM bytes :=
  _ ← set_storage_readonly false;
  call_raw "instantiate" [env; info; msg] READ_LIMIT.
Definition call_execute_raw (env info msg : bytes) : VM bytes :=
  _ ← set_storage_readonly false;
  call_raw "execute" [env; info; msg] READ_LIMIT.
Definition call_reply_raw (env msg : bytes) : VM bytes :=
  _ ← set_storage_readonly false;
  call_raw "reply" [env; msg] READ_LIMIT.
Definition call_query_raw (env msg : bytes) : VM bytes :=
  _ ← set_storage_readonly true;
  call_raw "query" [env; msg] READ_LIMIT.

Definition call_instantiate (env : Env) (info : MessageInfo) (msg : bytes)
    : VM (ContractResult Response) :=
  env ← vm_to_vec to_vec_env "Env" env;
  info ← vm_to_vec to_vec_info "MessageInfo" info;
  data_ ← call_instantiate_raw env info msg;
  vm_from_slice from_slice_response "ContractResult<Response>" data_ DESERIALIZATION_LIMIT.

Definition call_execute (env : Env) (info : MessageInfo) (msg : bytes)
    : VM (ContractResult Response) :=
  env ← vm_to_vec to_vec_env "Env" env;
  info ← vm_to_vec to_vec_info "MessageInfo" info;
  data_ ← call_execute_raw env info msg;
  vm_from_slice from_slice_response "ContractResult<Response>" data_ DESERIALIZATION_LIMIT.

Definition call_reply (env : Env) (msg : Reply) : VM (ContractResult Response) :=
  env ← vm_to_vec to_vec_env "Env" env;
  msg ← vm_to_vec to_vec_reply "Reply" msg;
  data_ ← call_reply_raw env msg;
  vm_from_slice from_slice_response "ContractResult<Response>" data_ DESERIALIZATION_LIMIT.

(** A query response has to be JSON. *)
Definition call_query (env : Env) (msg : bytes) : VM (ContractResult Binary) :=
  env ← vm_to_vec to_vec_env "Env" env;
  data_ ← call_query_raw env msg;
  result ← vm_from_slice from_slice_query_response "ContractResult<Binary>" data_
             DESERIALIZATION_LIMIT;
  match result with
  | CROk binary_response =>
      match json_display binary_response with
      | Some _ => mret result
      | None => throw (GenericErr ("Query response must be valid JSON. " +:+
                                   json_parse_error binary_response))
      end
  | CRErr _ => mret result
  end.
End calls.
