(* ===== verification/Querier.v ===== *)
(** * Contract instances and the querier ([core/src/fork/instance.rs], [querier.rs])

    [RpcContractInstance] pairs an instance with its address. [RpcMockQuerier]
    answers the queries a running contract makes: bank queries from the shared
    state, contract queries by running the queried contract in an instance of
    its own over a copy of its storage, and lines printed to the address
    [supergodprinter]. Such a run may query again; [query_raw] is indexed by the
    number of nested queries it may make. *)

From S2P Require Import Prelude.
From S2P Require Import CwStd.
From S2P Require Import Errors.
From S2P Require Import Client.
From S2P Require Import Storage.
From S2P Require Import States.
From S2P Require Import DebugLog.
From S2P Require Import Api.
From S2P Require Import Vm.

Open Scope Z_scope.

(** ** Contract codes ([model.rs], [maybe_unzip]) *)
Definition WASM_MAGIC : bytes := [Byte.x00; Byte.x61; Byte.x73; Byte.x6d].
Definition GZIP_MAGIC : bytes := [Byte.x00; Byte.x00; Byte.x00; Byte.x00].

Definition maybe_unzip {S} (input : bytes) : M Error S bytes :=
  if (length input <? 4)%nat then panic "range end index 4 out of range for slice"
  else
    let magic := take 4 input in
    if bool_decide (magic = WASM_MAGIC) then mret input
    else if bool_decide (magic = GZIP_MAGIC) then panic "not implemented"
    else panic "not implemented".

Definition PRINTER_ADDR : string := "supergodprinter".

Section shared.
Context {C : Type} {HC : CwClientBackend C} {HX : Externals} {HW : WasmEngine}.
Abbreviation ENV := (Environment C WInst).

(** [fetch_contract_state], the same in the model and in the querier: does
    nothing if the contract is already there. *)
Definition fetch_contract_state (contract_addr : Addr) : M Error (AllStates C) unit :=
  o ← contract_state_get contract_addr;
  match o with
  | Some _ => mret tt
  | None =>
      contract_info ← on_client (cb_query_wasm_contract_info contract_addr);
      wasm_code ← on_client (cb_query_wasm_contract_code (code_id contract_info));
      wasm_code ← maybe_unzip wasm_code;
      storage_ ← on_client (cb_query_wasm_contract_state_all contract_addr);
      contract_state_insert contract_addr (mkContractState wasm_code storage_)
  end.

(** [env], the same in the model and in the querier. *)
Definition contract_env (st : AllStates C) (contract_addr : Addr) : Env :=
  mkEnv (mkBlockInfo (block_number st) (block_timestamp st) (states_chain_id st))
    (Some (mkTransactionInfo 0)) (mkContractInfo contract_addr).

(** [Instance::from_module] and [Instance::from_code]: a fresh storage handle,
    read-only until a call says otherwise. *)
Definition instance_from_module (m : Module_) (api : RpcMockApi) (cell : Cell)
    : VmError + Instance WInst :=
  match wasm_instantiate m with
  | inl e => inl e
  | inr w => inr (mkInstance api cell ∅ 0 true w)
  end.

Definition instance_from_code (code_ : bytes) (api : RpcMockApi) (cell : Cell)
    : VmError + Instance WInst :=
  match wasm_compile code_ with
  | inl e => inl e
  | inr m => instance_from_module m api cell
  end.

(** ** RpcContractInstance *)
Record RpcContractInstance := mkRpcContractInstance {
  ci_addr : Addr;
  ci_instance : Instance WInst
}.

Context (query_raw : bytes → M BackendError (RpcMockQuerier C)
                               (SystemResult (ContractResult Binary))).

(** Run an instance on the shared state. The result of the call is a value, so
    that the instance can be used again after a failed call. *)
Definition on_instance {A} (i : RpcContractInstance) (m : M Error ENV A)
    : M Error (RpcMockQuerier C) ((Error + A) * RpcContractInstance) := λ q,
  match m (mkEnvironment q (ci_instance i)) with
  | (Ok a, v) => (Ok (inr a, mkRpcContractInstance (ci_addr i) (v_inst v)), v_querier v)
  | (Err e, v) => (Ok (inl e, mkRpcContractInstance (ci_addr i) (v_inst v)), v_querier v)
  | (Panic p, v) => (Panic p, v_querier v)
  | (OutOfFuel, v) => (OutOfFuel, v_querier v)
  end.

Definition instance_instantiate (env : Env) (msg : bytes) (sender_ : Addr) (funds_ : list Coin)
    : M Error ENV (ContractResult Response) :=
  map_err vm_error (call_instantiate query_raw env (mkMessageInfo sender_ funds_) msg).

Definition instance_execute (env : Env) (msg : bytes) (sender_ : Addr) (funds_ : list Coin)
    : M Error ENV (ContractResult Response) :=
  map_err vm_error (call_execute query_raw env (mkMessageInfo sender_ funds_) msg).

Definition instance_reply (env : Env) (msg : Reply) : M Error ENV (ContractResult Response) :=
  map_err vm_error (call_reply query_raw env msg).

Definition instance_query (addr : Addr) (env : Env) (wasm_query : WasmQuery)
    : M Error ENV Binary :=
  match wasm_query with
  | QContractInfo _ =>
      match to_binary_contract_info (mkContractInfo addr) with
      | inr b => mret b
      | inl _ => panic "called `Result::unwrap()` on an `Err` value"
      end
  | QRaw _ key =>
      o ← map_err vm_error (with_storage BackendErr (storage_get key));
      match o with
      | Some value => mret value
      | None => mret []
      end
  | QSmart _ msg =>
      r ← map_err vm_error (call_query query_raw env msg);
      match r with
      | CROk b => mret b
      | CRErr e => throw (EVmError e)
      end
  end.

Definition instance_storage_write (key value : bytes) : M Error ENV unit :=
  map_err vm_error (with_storage BackendErr (storage_set key value)).

(** ** RpcMockQuerier *)
Definition set_q_states (st : AllStates C) (q : RpcMockQuerier C) : RpcMockQuerier C :=
  mkQuerier st (q_log q).
Definition set_q_log (l : DebugLog) (q : RpcMockQuerier C) : RpcMockQuerier C :=
  mkQuerier (q_states q) l.

Definition on_states {E A} (m : M E (AllStates C) A) : M E (RpcMockQuerier C) A :=
  zoom q_states set_q_states m.
Definition on_log {E A} (m : M E DebugLog A) : M E (RpcMockQuerier C) A :=
  zoom q_log set_q_log m.

(** [BackendError::Unknown { msg: e.to_string() }]. *)
Definition unknown {A} (m : M Error (RpcMockQuerier C) A) : M BackendError (RpcMockQuerier C) A :=
  map_err (λ e, BUnknown (Error_to_string e)) m.

Definition query_addr (q : WasmQuery) : Addr :=
  match q with QSmart a _ => a | QRaw a _ => a | QContractInfo a => a end.

(** A query to the printer appends a line to the log. *)
Definition query_printer (wasm_query : WasmQuery)
    : M BackendError (RpcMockQuerier C) (SystemResult (ContractResult Binary)) :=
  match wasm_query with
  | QSmart _ msg =>
      match from_binary_print_request msg with
      | inl _ => panic "called `Result::unwrap()` on an `Err` value"
      | inr line =>
          _ ← on_log (append_stdout line);
          match to_binary_print_response true with
          | inl _ => panic "called `Result::unwrap()` on an `Err` value"
          | inr resp => mret (SROk (CROk resp))
          end
      end
  | _ => panic "invalid query to printer"
  end.

(** A query to a contract: the contract is cloned out of the state (code and
    storage), so the run does not share its storage with the state. *)
Definition query_contract (wasm_query : WasmQuery)
    : M BackendError (RpcMockQuerier C) (SystemResult (ContractResult Binary)) :=
  let contract_addr := query_addr wasm_query in
  _ ← unknown (on_states (fetch_contract_state contract_addr));
  q ← get;
  let env := contract_env (q_states q) contract_addr in
  contract_state ← unwrap "called `Option::unwrap()` on a `None` value"
                     (contract_states (q_states q) !! contract_addr);
  match RpcMockApi_new (canonical_address_length (q_states q)) (bech32_prefix (q_states q)) with
  | inl e => throw (BUnknown (Error_to_string e))
  | inr api =>
      match instance_from_code (code contract_state) api (PrivateCell (storage contract_state)) with
      | inl e => throw (BUnknown (VmError_to_string e))
      | inr instance =>
          call_id ← match wasm_query with
                    | QSmart _ msg =>
                        id ← on_log (begin_query json_display contract_addr msg); mret (Some id)
                    | _ => mret None
                    end;
          ri ← unknown (on_instance (mkRpcContractInstance contract_addr instance)
                          (instance_query contract_addr env wasm_query));
          _ ← match call_id with
              | Some id => on_log (end_query id)
              | None => mret tt
              end;
          match ri.1 with
          | inr response => mret (SROk (CROk response))
          | inl e => throw (BUnknown (Error_to_string e))
          end
      end
  end.

Definition query_raw_body (request : bytes)
    : M BackendError (RpcMockQuerier C) (SystemResult (ContractResult Binary)) :=
  match from_slice_query_request request with
  | inl e => throw (BUnknown e)
  | inr (ReqBank bank_query_) =>
      resp ← unknown (on_states (bank_query bank_query_));
      mret (SROk (CROk resp))
  | inr (ReqWasm wasm_query) =>
      if String.eqb (query_addr wasm_query) PRINTER_ADDR
      then query_printer wasm_query
      else query_contract wasm_query
  | inr _ => panic "not implemented"
  end.
End shared.
Arguments mkRpcContractInstance {HW}.
Arguments ci_addr {HW}.
Arguments ci_instance {HW}.

(** [RpcMockQuerier::query_raw]: [fuel] bounds the depth of nested queries. *)
Fixpoint query_raw {C} {HC : CwClientBackend C} {HX : Externals} {HW : WasmEngine}
    (fuel : nat) (request : bytes)
    : M BackendError (RpcMockQuerier C) (SystemResult (ContractResult Binary)) :=
  match fuel with
  | O => out_of_fuel
  | S fuel' => query_raw_body (query_raw fuel') request
  end.
