(* ===== verification/Runs.v ===== *)
(** * Proof principles for contract runs

    A contract is unknown code, so what holds of a run is what every host call
    keeps. This file lifts a relation on the shared state from the steps the
    code takes to whole runs: [Closed_Querier] lists the steps a query can take
    and [run_guest_keeps], [query_raw_keeps] conclude for every guest. Whether
    the guest may also write its own storage is the parameter [writes]. *)

From S2P Require Import Prelude.
From S2P Require Import CwStd.
From S2P Require Import Errors.
From S2P Require Import Client.
From S2P Require Import Storage.
From S2P Require Import States.
From S2P Require Import DebugLog.
From S2P Require Import Api.
From S2P Require Import Vm.
From S2P Require Import Querier.

Open Scope Z_scope.

(** A relation that holds from a fixed earlier state on. *)
Definition keeps_from {E S A} (R : relation S) (s0 : S) (m : M E S A) : Prop :=
  ∀ s, R s0 s → R s0 (m s).2.

Lemma preserves_bind_ret {E S A B} (R : relation S) (a : A) (k : A → M E S B) :
  preserves R (k a) → preserves R (mret a ≫= k).
Proof. done. Qed.

Section keeps_from.
Context {E S : Type} (R : relation S) `{!Reflexive R, !Transitive R}.

Lemma keeps_from_preserves {A} s0 (m : M E S A) : preserves R m → keeps_from R s0 m.
Proof. intros Hm s Hs. etrans; [exact Hs|apply Hm]. Qed.

Lemma keeps_from_bind {A B} s0 (m : M E S A) (k : A → M E S B) :
  keeps_from R s0 m → (∀ a, keeps_from R s0 (k a)) → keeps_from R s0 (m ≫= k).
Proof.
  intros Hm Hk s Hs. specialize (Hm s Hs). unfold mbind, M_bind.
  destruct (m s) as [[a|e|p|] s'] eqn:?; cbn in *; [by apply Hk|done..].
Qed.

(** An opening call whose closing call is relative to the state before it. *)
Lemma preserves_bracket {A B} (m : M E S A) (k : A → M E S B) :
  preserves R m →
  (∀ s a s', m s = (Ok a, s') → keeps_from R s (k a)) →
  preserves R (m ≫= k).
Proof.
  intros Hm Hk s. specialize (Hm s). unfold mbind, M_bind.
  destruct (m s) as [[a|e|p|] s'] eqn:Hs; cbn in *; [|done..].
  by eapply Hk.
Qed.
End keeps_from.

(** The steps of the shared state that a query can cause. *)
Record Closed_Querier {C : Type} {HC : CwClientBackend C} {HX : Externals}
    (Q : relation (RpcMockQuerier C)) : Prop := {
  cq_refl : Reflexive Q;
  cq_trans : Transitive Q;
  cq_fetch a : preserves Q (on_states (fetch_contract_state a));
  cq_bank q : preserves Q (on_states (bank_query q));
  cq_stdout l : preserves Q (on_log (append_stdout (E := BackendError) l));
  cq_begin_query a msg :
    preserves Q (on_log (begin_query (E := BackendError) json_display a msg));
  cq_end_query a msg s id s1 s2 :
    on_log (begin_query (E := BackendError) json_display a msg) s = (Ok id, s1) →
    Q s s2 → Q s (on_log (end_query (E := BackendError) id) s2).2
}.

(** Replacing the storage of a contract. *)
Definition write_cell {C : Type} (a : Addr) (m : ContractStorage) (q : RpcMockQuerier C)
    : RpcMockQuerier C :=
  mkQuerier (set_contract_states (alter (alter_storage m) a (contract_states (q_states q)))
               (q_states q)) (q_log q).

Lemma write_cell_same {C : Type} a cs (q : RpcMockQuerier C) :
  contract_states (q_states q) !! a = Some cs → write_cell a (storage cs) q = q.
Proof.
  intros Ha. unfold write_cell. destruct q as [st l]; cbn in *. f_equal.
  destruct st as [contracts ? ? ? ? ? ? ?]; cbn in *. unfold set_contract_states; cbn. f_equal.
  apply map_eq. intros b. destruct (decide (b = a)) as [->|Hne].
  - rewrite lookup_alter_eq, Ha. cbn. unfold alter_storage. by destruct cs.
  - by rewrite lookup_alter_ne.
Qed.

(** The operations of the storage that only read it. *)
Definition reads {A} (m : M BackendError RpcMockStorage A) : Prop :=
  preserves (λ st st', inner st' = inner st) m.

Lemma get_reads key : reads (storage_get key).
Proof. by intros st. Qed.
Lemma scan_reads start stop o : reads (scan start stop o).
Proof. intros st. rewrite scan_run. by case_match. Qed.
Lemma next_reads id : reads (next id).
Proof.
  intros st. unfold next. munfold. destruct (iterators st !! id) as [[rs ix]|]; [|done].
  case_match; [done|]. by destruct (rs !! ix).
Qed.

Section vm.
Context {C W : Type} {HC : CwClientBackend C} {HX : Externals}.
Context (Q : relation (RpcMockQuerier C)) (HQ : Closed_Querier Q).
Context (writes : Prop) (Hwrites : writes → ∀ a m q, Q q (write_cell a m q)).
Abbreviation ENV := (Environment C W).

Local Instance Q_refl : Reflexive Q := cq_refl Q HQ.
Local Instance Q_trans : Transitive Q := cq_trans Q HQ.

(** An instance that cannot change the shared state in a way [Q] does not allow. *)
Definition guarded (i : Instance W) : Prop :=
  writes ∨ i_readonly i = true ∨ ∃ m, i_cell i = PrivateCell m.

Definition env_rel (v v' : ENV) : Prop :=
  guarded (v_inst v) → guarded (v_inst v') ∧ Q (v_querier v) (v_querier v').

Local Instance env_rel_refl : Reflexive env_rel.
Proof. by intros v. Qed.
Local Instance env_rel_trans : Transitive env_rel.
Proof.
  intros v1 v2 v3 H12 H23 H1. destruct (H12 H1) as [H2 Q2]. destruct (H23 H2) as [H3 Q3].
  split; [done|by etrans].
Qed.

Lemma on_querier_keeps {E A} (m : M E (RpcMockQuerier C) A) :
  preserves Q m → preserves env_rel (zoom v_querier set_querier m).
Proof. intros Hm. eapply preserves_zoom; [exact Hm|]. by intros [q i] q' Hq Hg. Qed.

Lemma storage_writeback_keeps st v cell :
  cell_read v = Some cell →
  inner st = cell ∨ i_readonly (v_inst v) = false →
  env_rel v (storage_writeback st v).
Proof.
  unfold cell_read, storage_writeback. destruct v as [q i]; cbn.
  destruct (i_cell i) as [a|m] eqn:Hc; intros Hcell Hst Hg; cbn in *.
  - split.
    + destruct Hg as [?|[?|[? ?]]]; [by left|by right; left|congruence].
    + destruct (contract_states (q_states q) !! a) as [cs|] eqn:Ha; [|done].
      injection Hcell as <-. fold (write_cell a (inner st) q).
      destruct Hst as [->|Hro]; [by rewrite write_cell_same|].
      destruct Hg as [Hw|[?|[? ?]]]; [by apply Hwrites|congruence..].
  - split; [|done]. right; right. by eexists.
Qed.

Lemma with_storage_reads {A} conv (m : M BackendError RpcMockStorage A) :
  reads m → preserves env_rel (with_storage conv m).
Proof.
  intros Hm v. unfold with_storage. destruct (cell_read v) as [cell|] eqn:Hc; [|done].
  pose proof (Hm (mkStorage cell (i_iterators (v_inst v)) (i_iterator_ctr (v_inst v)))) as Hi.
  destruct (m _) as [r st]; cbn in Hi.
  destruct r; cbn; (eapply storage_writeback_keeps; [done|by left]).
Qed.

Lemma with_storage_writes {A} conv (m : M BackendError RpcMockStorage A) v :
  i_readonly (v_inst v) = false → env_rel v (with_storage conv m v).2.
Proof.
  intros Hro. unfold with_storage. destruct (cell_read v) as [cell|] eqn:Hc; [|done].
  destruct (m _) as [r st]; cbn.
  destruct r; cbn; (eapply storage_writeback_keeps; [done|by right]).
Qed.

Lemma read_region_keeps d n : preserves env_rel (read_region d n : M VmError ENV bytes).
Proof. unfold read_region. pres. Qed.
Lemma maybe_read_region_keeps d n :
  preserves env_rel (maybe_read_region d n : M VmError ENV (option bytes)).
Proof. unfold maybe_read_region. pres. apply read_region_keeps. Qed.
Lemma write_region_keeps n d : preserves env_rel (write_region n d : M VmError ENV unit).
Proof. unfold write_region. pres. Qed.

Hint Resolve read_region_keeps maybe_read_region_keeps write_region_keeps
  with_storage_reads get_reads scan_reads next_reads : pres.

(** A write is refused when the storage is read-only. *)
Lemma guarded_write_keeps {A} (m : M VmError ENV A) :
  (∀ v, i_readonly (v_inst v) = false → env_rel v (m v).2) →
  preserves env_rel (v ← get; if i_readonly (v_inst v) then throw WriteAccessDenied else m).
Proof.
  intros Hm v. munfold. destruct (i_readonly (v_inst v)) eqn:Hro; [done|by apply Hm].
Qed.

Lemma read_region_inv d n (v : ENV) r v' : read_region d n v = (r, v') → v' = v.
Proof. unfold read_region. case_match; by intros [= <- <-]. Qed.

Lemma do_db_write_keeps key value : preserves env_rel (do_db_write key value : M VmError ENV unit).
Proof.
  apply guarded_write_keeps. intros v Hro. unfold mbind, M_bind.
  destruct (read_region key _ v) as [[k| | |] v1] eqn:H1; apply read_region_inv in H1; subst v1; [|done..].
  destruct (read_region value _ v) as [[x| | |] v1] eqn:H1; apply read_region_inv in H1; subst v1; [|done..].
  by apply with_storage_writes.
Qed.

Lemma do_db_remove_keeps key : preserves env_rel (do_db_remove key : M VmError ENV unit).
Proof.
  apply guarded_write_keeps. intros v Hro. unfold mbind, M_bind.
  destruct (read_region key _ v) as [[k| | |] v1] eqn:H1; apply read_region_inv in H1; subst v1; [|done..].
  by apply with_storage_writes.
Qed.

Lemma user_error_keeps {A} (m : M BackendError ENV A) :
  preserves env_rel m → preserves env_rel (user_error m).
Proof.
  intros Hm v. specialize (Hm v). unfold user_error.
  destruct (m v) as [[|[]| |] ?]; done.
Qed.

Lemma api_keeps_canonical api h :
  preserves env_rel (canonical_address api h : M BackendError ENV bytes).
Proof. unfold canonical_address. pres. Qed.
Lemma api_keeps_human api c :
  preserves env_rel (human_address api c : M BackendError ENV string).
Proof. unfold human_address. pres. Qed.

Hint Resolve user_error_keeps api_keeps_canonical api_keeps_human do_db_write_keeps
  do_db_remove_keeps : pres.

Context (query_raw : bytes → M BackendError (RpcMockQuerier C)
                               (SystemResult (ContractResult Binary))).
Context (Hquery : ∀ req, preserves Q (query_raw req)).

Lemma do_query_chain_keeps req : preserves env_rel (do_query_chain query_raw req : M VmError ENV bytes).
Proof. unfold do_query_chain. pres. by apply on_querier_keeps. Qed.

Lemma host_call_keeps {R} (op : hostE R) : preserves env_rel (host_call query_raw op : M VmError ENV R).
Proof.
  destruct op; cbn [host_call];
    unfold do_db_read, do_addr_validate, do_addr_canonicalize, do_addr_humanize, do_db_scan,
      do_db_next, do_debug, do_abort; pres.
  apply do_query_chain_keeps.
Qed.

Lemma set_wasm_keeps w : preserves env_rel (set_wasm w : M VmError ENV unit).
Proof. by apply preserves_modify. Qed.

Lemma set_readonly_keeps : preserves env_rel (set_storage_readonly true : M VmError ENV unit).
Proof. intros v Hg; cbn. split; [by right; left|done]. Qed.

Lemma set_writable_keeps :
  writes → preserves env_rel (set_storage_readonly false : M VmError ENV unit).
Proof. intros Hw v Hg; cbn. split; [by left|done]. Qed.

Lemma run_guest_keeps (g : Guest W) : preserves env_rel (run_guest query_raw g).
Proof.
  induction g as [w r|w e|w R op k IH]; cbn [run_guest]; pres; try apply set_wasm_keeps.
  apply host_call_keeps.
Qed.
End vm.

(** ** Calls of an instance *)
Section calls.
Context {C : Type} {HC : CwClientBackend C} {HX : Externals} {HW : WasmEngine}.
Context (Q : relation (RpcMockQuerier C)) (HQ : Closed_Querier Q).
Context (writes : Prop) (Hwrites : writes → ∀ a m q, Q q (write_cell a m q)).
Context (query_raw : bytes → M BackendError (RpcMockQuerier C)
                               (SystemResult (ContractResult Binary))).
Context (Hquery : ∀ req, preserves Q (query_raw req)).
Abbreviation ENV := (Environment C WInst).
Abbreviation rel := (env_rel (W := WInst) Q writes).

Local Instance rel_refl : Reflexive rel := env_rel_refl Q HQ writes.
Local Instance rel_trans : Transitive rel := env_rel_trans Q HQ writes.

Lemma call_raw_keeps name args n : preserves rel (call_raw query_raw name args n).
Proof. unfold call_raw. pres; [by apply run_guest_keeps|by apply read_region_keeps]. Qed.

Lemma vm_to_vec_keeps {A} enc ty (a : A) : preserves rel (vm_to_vec enc ty a).
Proof. unfold vm_to_vec. pres. Qed.

Lemma vm_from_slice_keeps {A} (dec : bytes → string + A) ty b n :
  preserves rel (vm_from_slice dec ty b n).
Proof. unfold vm_from_slice. pres. Qed.

Local Hint Resolve call_raw_keeps vm_to_vec_keeps vm_from_slice_keeps set_readonly_keeps
  set_writable_keeps : pres.

Lemma call_query_keeps e msg : preserves rel (call_query query_raw e msg).
Proof. unfold call_query, call_query_raw. pres. Qed.

Lemma call_execute_keeps e info msg :
  writes → preserves rel (call_execute query_raw e info msg).
Proof. intros Hw. unfold call_execute, call_execute_raw. pres. Qed.

Lemma call_instantiate_keeps e info msg :
  writes → preserves rel (call_instantiate query_raw e info msg).
Proof. intros Hw. unfold call_instantiate, call_instantiate_raw. pres. Qed.

Lemma call_reply_keeps e msg : writes → preserves rel (call_reply query_raw e msg).
Proof. intros Hw. unfold call_reply, call_reply_raw. pres. Qed.

Lemma instance_query_keeps a e q : preserves rel (instance_query query_raw a e q).
Proof.
  unfold instance_query. pres; [apply call_query_keeps|].
  apply with_storage_reads; [done|done|apply get_reads].
Qed.

Lemma on_instance_keeps {A} i (m : M Error ENV A) :
  guarded writes (ci_instance i) → preserves rel m → preserves Q (on_instance i m).
Proof.
  intros Hi Hm q. specialize (Hm (mkEnvironment q (ci_instance i)) Hi). unfold on_instance.
  destruct (m _) as [[] v]; by destruct Hm.
Qed.

Lemma on_instance_guarded {A} i (m : M Error ENV A) q r i' q' :
  guarded writes (ci_instance i) → preserves rel m →
  on_instance i m q = (Ok (r, i'), q') → guarded writes (ci_instance i') ∧ ci_addr i' = ci_addr i.
Proof.
  intros Hi Hm H. specialize (Hm (mkEnvironment q (ci_instance i)) Hi). unfold on_instance in H.
  destruct (m _) as [[] v]; simplify_eq; by destruct Hm.
Qed.
End calls.

(** ** The querier *)
Section querier.
Context {C : Type} {HC : CwClientBackend C} {HX : Externals} {HW : WasmEngine}.
Context (Q : relation (RpcMockQuerier C)) (HQ : Closed_Querier Q).

Local Instance querier_refl : Reflexive Q := cq_refl Q HQ.
Local Instance querier_trans : Transitive Q := cq_trans Q HQ.

Lemma unknown_keeps {A} (m : M Error (RpcMockQuerier C) A) :
  preserves Q m → preserves Q (unknown m).
Proof. apply preserves_map_err. Qed.

Lemma instance_from_code_cell code_ api cell (i : Instance WInst) :
  instance_from_code code_ api cell = inr i → i_cell i = cell ∧ i_readonly i = true.
Proof. unfold instance_from_code, instance_from_module. by repeat case_match; intros; simplify_eq. Qed.

Section body.
Context (query_raw : bytes → M BackendError (RpcMockQuerier C)
                               (SystemResult (ContractResult Binary))).
Context (Hquery : ∀ req, preserves Q (query_raw req)).

(** The run of the queried contract, in its own instance. *)
Lemma query_run_keeps addr e q i :
  guarded (W := WInst) False (ci_instance i) →
  preserves Q (unknown (on_instance i (instance_query query_raw addr e q))).
Proof.
  intros Hi. apply unknown_keeps, (on_instance_keeps Q False); [done|].
  by apply instance_query_keeps.
Qed.

Lemma query_contract_keeps q : preserves Q (query_contract query_raw q).
Proof.
  unfold query_contract. apply preserves_bind; [apply _|apply unknown_keeps, HQ|intros _].
  apply preserves_bind; [apply _|apply preserves_get; apply _|intros s].
  apply preserves_bind; [apply _|apply preserves_unwrap; apply _|intros cs].
  destruct (RpcMockApi_new _ _) as [err|api]; [pres|].
  destruct (instance_from_code _ _ _) as [err|i] eqn:Hi; [pres|].
  apply instance_from_code_cell in Hi as [Hi _].
  assert (guarded (W := WInst) False i) as Hg by (right; right; by eexists).
  destruct q as [a msg|a key|a]; cbn [query_addr].
  - apply preserves_bracket; [pres; apply HQ|].
    intros s0 o s1 H. apply bind_Ok_inv in H as (id & s1' & Hm & Hk). injection Hk as <- <-.
    apply keeps_from_bind; [apply keeps_from_preserves; [apply _|by apply query_run_keeps]|].
    intros ri. apply keeps_from_bind.
    + intros s2 Hs2. by eapply (cq_end_query Q HQ).
    + intros _. apply keeps_from_preserves; [apply _|]. pres.
  - apply preserves_bind_ret. pres. by apply query_run_keeps.
  - apply preserves_bind_ret. pres. by apply query_run_keeps.
Qed.

Lemma query_raw_body_keeps req : preserves Q (query_raw_body query_raw req).
Proof.
  unfold query_raw_body, query_printer. pres; try apply unknown_keeps; try apply HQ.
  apply query_contract_keeps.
Qed.
End body.

Lemma query_raw_keeps fuel req : preserves Q (query_raw fuel req).
Proof.
  revert req. induction fuel as [|fuel IH]; intros req; cbn [query_raw].
  - apply preserves_out_of_fuel; apply _.
  - by apply query_raw_body_keeps.
Qed.
End querier.
