(* ===== verification/Model.v ===== *)
(** * The simulator ([core/src/fork/model.rs], [core/src/coverage/mod.rs])

    [Model] runs transactions on the simulated chain: it transfers the funds,
    runs the contract, and then runs the messages the contract answers with,
    depth first, with the replies they ask for. The recursion through
    [handle_response] is open in the bodies below and closed by [handle_response],
    which is indexed by the depth of nested messages (and queries). *)

From S2P Require Import Prelude.
From S2P Require Import CwStd.
From S2P Require Import Errors.
From S2P Require Import Client.
From S2P Require Import Storage.
From S2P Require Import States.
From S2P Require Import DebugLog.
From S2P Require Import Api.
From S2P Require Import Vm.
From S2P Require Import Querier.

Open Scope Z_scope.

(** ** Code coverage *)
Record CoverageInfo := mkCoverageInfo {
  enabled : bool;
  coverage_data : gmap string (list bytes)
}.

Definition CoverageInfo_new : CoverageInfo := mkCoverageInfo false ∅.

Definition add_coverage (address : string) (cov_data : bytes) (i : CoverageInfo) : CoverageInfo :=
  mkCoverageInfo (enabled i)
    (<[address := default [] (coverage_data i !! address) ++ [cov_data]]> (coverage_data i)).

Definition COVERAGE_MAX_LEN : Z := 2097152.

(** ** The model *)
Record Model (C : Type) {HW : WasmEngine} := mkModel {
  m_states : AllStates C;
  m_sender : string;
  m_code_id_counters : gmap Z Z;
  m_debug_log : DebugLog;
  m_custom_codes : gmap Z bytes;
  m_coverage_info : CoverageInfo;
  m_wasm_cache : gmap bytes Module_
}.
Arguments mkModel {C HW}.
Arguments m_states {C HW}.
Arguments m_sender {C HW}.
Arguments m_code_id_counters {C HW}.
Arguments m_debug_log {C HW}.
Arguments m_custom_codes {C HW}.
Arguments m_coverage_info {C HW}.
Arguments m_wasm_cache {C HW}.

Definition BASE_EOA : string := "wasm1zcnn5gh37jxg9c6dp4jcjc7995ae0s5f5hj0lj".

Section setters.
Context {C : Type} {HW : WasmEngine}.
Implicit Types m : Model C.

Definition set_m_states st m : Model C :=
  mkModel st (m_sender m) (m_code_id_counters m) (m_debug_log m) (m_custom_codes m)
    (m_coverage_info m) (m_wasm_cache m).
Definition set_m_sender s m : Model C :=
  mkModel (m_states m) s (m_code_id_counters m) (m_debug_log m) (m_custom_codes m)
    (m_coverage_info m) (m_wasm_cache m).
Definition set_m_code_id_counters k m : Model C :=
  mkModel (m_states m) (m_sender m) k (m_debug_log m) (m_custom_codes m)
    (m_coverage_info m) (m_wasm_cache m).
Definition set_m_debug_log l m : Model C :=
  mkModel (m_states m) (m_sender m) (m_code_id_counters m) l (m_custom_codes m)
    (m_coverage_info m) (m_wasm_cache m).
Definition set_m_custom_codes k m : Model C :=
  mkModel (m_states m) (m_sender m) (m_code_id_counters m) (m_debug_log m) k
    (m_coverage_info m) (m_wasm_cache m).
Definition set_m_coverage_info i m : Model C :=
  mkModel (m_states m) (m_sender m) (m_code_id_counters m) (m_debug_log m) (m_custom_codes m)
    i (m_wasm_cache m).
Definition set_m_wasm_cache k m : Model C :=
  mkModel (m_states m) (m_sender m) (m_code_id_counters m) (m_debug_log m) (m_custom_codes m)
    (m_coverage_info m) k.

(** The state and the log, which the model shares with the querier of an instance. *)
Definition m_querier m : RpcMockQuerier C := mkQuerier (m_states m) (m_debug_log m).
Definition set_m_querier (q : RpcMockQuerier C) m : Model C :=
  set_m_debug_log (q_log q) (set_m_states (q_states q) m).
End setters.

(** [format!("seeeed_{}_{}", code_id, code_id_counter)]. *)
Definition address_seed (code_id code_id_counter : Z) : string :=
  "seeeed_" +:+ pretty code_id +:+ "_" +:+ pretty code_id_counter.

(** The event that [instantiate_inner] adds to the response. *)
Definition instantiate_event (code_id : Z) (contract_addr : Addr) : Event :=
  Event_add_attribute "_contract_address" contract_addr
    (Event_add_attribute "code_id" (pretty code_id) (Event_new "instantiate")).

(** Does this submessage want the outcome of its execution reported? *)
Definition do_reply {A} (reply_on : ReplyOn) (response : ContractResult A) : bool :=
  match reply_on with
  | ReplyAlways => true
  | ReplySuccess => is_ok response
  | ReplyError => is_err response
  | ReplyNever => false
  end.

Section Model.
Context {C : Type} {HC : CwClientBackend C} {HX : Externals} {HW : WasmEngine}.
Abbreviation MM := (M Error (Model C)).

Definition on_m_states {A} (m : M Error (AllStates C) A) : MM A := zoom m_states set_m_states m.
Definition on_m_log {A} (m : M Error DebugLog A) : MM A := zoom m_debug_log set_m_debug_log m.
Definition on_m_querier {A} (m : M Error (RpcMockQuerier C) A) : MM A :=
  zoom m_querier set_m_querier m.

(** [Model::new] and [Model::new_lcd], from the client they create. *)
Definition Model_new (c : C) (prefix : string) : outcome Error (Model C) :=
  match AllStates_new c 32 prefix with
  | (Ok st, _) => Ok (mkModel st BASE_EOA ∅ DebugLog_new ∅ CoverageInfo_new ∅)
  | (Err e, _) => Err e
  | (Panic p, _) => Panic p
  | (OutOfFuel, _) => OutOfFuel
  end.

(** The block number of the client, not of the simulated chain. *)
Definition Model_block_number (m : Model C) : Z := cb_block_number (client (m_states m)).

Definition generate_address (code_id : Z) : MM Addr :=
  m ← get;
  let code_id_counter := default 0 (m_code_id_counters m !! code_id) in
  let seed := address_seed code_id code_id_counter in
  code_id_counter' ← add_or_panic U64 code_id_counter 1;
  _ ← modify (set_m_code_id_counters (<[code_id := code_id_counter']> (m_code_id_counters m)));
  let bytes_ := sha256 (as_bytes seed) in
  match canonical_to_human bytes_ (bech32_prefix (m_states m))
          (canonical_address_length (m_states m)) with
  | inl e => throw (FormatError e)
  | inr addr => mret addr
  end.

(** Puts the earlier state back, except for the coverage; returns the state
    that was given up. *)
Definition revert (prev_state : Model C) : MM (Model C) :=
  cur_state ← get;
  _ ← put (set_m_coverage_info (m_coverage_info cur_state) prev_state);
  mret cur_state.

(** The API of a new instance; its storage handle and its querier refer to the
    model's state and are the [Cell] and the state the instance runs on. *)
Definition new_mock : MM RpcMockApi :=
  st ← gets m_states;
  of_sum (RpcMockApi_new (canonical_address_length st) (bech32_prefix st)).

(** The same code as the querier's, on the state the two share. *)
Definition Model_fetch_contract_state (contract_addr : Addr) : MM unit :=
  on_m_states (fetch_contract_state contract_addr).

Definition create_instance (contract_addr : Addr) : MM RpcContractInstance :=
  _ ← Model_fetch_contract_state contract_addr;
  st ← gets m_states;
  contract_state ← unwrap "called `Option::unwrap()` on a `None` value"
                     (contract_states st !! contract_addr);
  deps ← new_mock;
  match instance_from_code (code contract_state) deps (SharedCell contract_addr) with
  | inl e => throw (vm_error e)
  | inr i => mret (mkRpcContractInstance contract_addr i)
  end.

Definition create_instance_from_code (code_ : bytes) (deps : RpcMockApi) (cell : Cell)
    : MM (Instance WInst) :=
  let code_hash := sha256 code_ in
  m ← get;
  module ← match m_wasm_cache m !! code_hash with
           | Some module => mret module
           | None =>
               match wasm_compile code_ with
               | inl e => throw (vm_error e)
               | inr module =>
                   _ ← modify (λ m, set_m_wasm_cache (<[code_hash := module]> (m_wasm_cache m)) m);
                   mret module
               end
           end;
  match instance_from_module module deps cell with
  | inl e => throw (vm_error e)
  | inr i => mret i
  end.

Definition env (contract_addr : Addr) : MM Env :=
  gets (λ m, contract_env (m_states m) contract_addr).

Definition add_custom_code (code_id : Z) (code_ : bytes) : MM unit :=
  modify (λ m, set_m_custom_codes (<[code_id := code_]> (m_custom_codes m)) m).

(** ** Operations that run contracts

    [query_raw] is the querier; [handle_response] is the recursive call. *)
Section open.
Context (query_raw : bytes → M BackendError (RpcMockQuerier C)
                               (SystemResult (ContractResult Binary))).

(** A call on an instance, run on the state shared with the model. *)
Definition run_instance {A} (i : RpcContractInstance)
    (call : M Error (Environment C WInst) A) : MM ((Error + A) * RpcContractInstance) :=
  on_m_querier (on_instance i call).

(** The coverage counters of an instance; a contract without them has none. *)
Definition dump_coverage : M Error (Environment C WInst) bytes :=
  r ← catch (map_err vm_error (call_raw query_raw "dump_coverage" [] COVERAGE_MAX_LEN));
  match r with
  | inr r => mret r
  | inl _ => mret []
  end.

Definition handle_coverage (i : RpcContractInstance) : MM unit :=
  m ← get;
  if enabled (m_coverage_info m) then
    ri ← run_instance i dump_coverage;
    cov ← of_sum ri.1;
    modify (λ m, set_m_coverage_info (add_coverage (ci_addr i) cov (m_coverage_info m)) m)
  else mret tt.

(** [instance.call(..)?] followed by [handle_coverage]. *)
Definition call_and_cover {A} (i : RpcContractInstance)
    (call : M Error (Environment C WInst) A) : MM A :=
  ri ← run_instance i call;
  result ← of_sum ri.1;
  _ ← handle_coverage ri.2;
  mret result.

Context (handle_response : Addr → Response → MM (ContractResult Response)).

(** The transfer of the funds at the start of a call: [Some e] when the bank
    refuses. *)
Definition transfer_funds (sender_ contract_addr : Addr) (funds_ : list Coin) : MM (option string) :=
  if (0 <? length funds_)%nat then
    r ← on_m_states (bank_execute sender_ (BankSend contract_addr funds_));
    match r with
    | CROk r => _ ← on_m_log (append_log r); mret None
    | CRErr e => _ ← on_m_log (set_err_msg e); mret (Some e)
    end
  else mret None.

Definition instantiate_inner (code_id : Z) (sender_ : Addr) (msg : bytes) (funds_ : list Coin)
    : MM (ContractResult Response * option Addr) :=
  contract_addr ← generate_address code_id;
  refused ← transfer_funds sender_ contract_addr funds_;
  match refused with
  | Some e => mret (CRErr e, None)
  | None =>
      deps ← new_mock;
      m ← get;
      wasm_code ← match m_custom_codes m !! code_id with
                  | Some code_ => mret code_
                  | None =>
                      c ← on_m_states (on_client (cb_query_wasm_contract_code code_id));
                      maybe_unzip c
                  end;
      wasm_instance ← create_instance_from_code wasm_code deps (SharedCell contract_addr);
      _ ← on_m_states (contract_state_insert contract_addr (mkContractState wasm_code ∅));
      let i := mkRpcContractInstance contract_addr wasm_instance in
      env_ ← env contract_addr;
      call_id ← on_m_log (begin_instantiate json_display contract_addr msg);
      result ← call_and_cover i (instance_instantiate query_raw env_ msg sender_ funds_);
      match result with
      | CROk r =>
          let r := add_event (instantiate_event code_id contract_addr) r in
          _ ← on_m_log (append_log r);
          response ← handle_response contract_addr r;
          _ ← on_m_log (end_instantiate call_id);
          mret (response, Some contract_addr)
      | CRErr e =>
          _ ← on_m_states (contract_state_remove contract_addr);
          _ ← on_m_log (set_err_msg e);
          _ ← on_m_log (begin_error e);
          mret (CRErr e, None)
      end
  end.

Definition execute_inner (contract_addr sender_ : Addr) (msg : bytes) (funds_ : list Coin)
    : MM (ContractResult Response) :=
  env_ ← env contract_addr;
  i ← create_instance contract_addr;
  refused ← transfer_funds sender_ contract_addr funds_;
  match refused with
  | Some e => mret (CRErr e)
  | None =>
      call_id ← on_m_log (begin_execute json_display contract_addr msg);
      result ← call_and_cover i (instance_execute query_raw env_ msg sender_ funds_);
      match result with
      | CROk r =>
          _ ← on_m_log (append_log r);
          response ← handle_response contract_addr r;
          _ ← on_m_log (end_execute call_id);
          mret response
      | CRErr e =>
          _ ← on_m_log (set_err_msg e);
          _ ← on_m_log (begin_error e);
          mret (CRErr e)
      end
  end.

(** The second half of [handle_submessage_instantiate] and of
    [handle_submessage_execute], which differ in the payload [payload] only: the
    reply to the origin, or the error, or the messages of the response. *)
Definition handle_submessage_response (origin : Addr) (msg : bytes) (sub_msg_id : Z)
    (reply_on : ReplyOn) (payload : bytes) (response : ContractResult Response)
    : MM (ContractResult Response) :=
  if do_reply reply_on response then
    env_ ← env origin;
    let reply := mkReply sub_msg_id
      match response with
      | CROk r => SMROk (mkSubMsgResponse (events r) (Some payload))
      | CRErr e => SMRErr e
      end in
    i ← create_instance origin;
    call_id ← on_m_log (begin_reply json_display origin msg);
    maybe_response ← call_and_cover i (instance_reply query_raw env_ reply);
    match maybe_response with
    | CRErr e =>
        _ ← on_m_log (begin_error e);
        mret (CRErr e)
    | CROk response =>
        _ ← on_m_log (append_log response);
        response ← handle_response origin response;
        _ ← on_m_log (end_reply call_id);
        mret response
    end
  else
    match response with
    | CRErr e =>
        _ ← on_m_log (begin_error e);
        mret (CRErr e)
    | CROk r => handle_response origin r
    end.

Definition handle_submessage_instantiate (origin : Addr) (admin : option string) (code_id : Z)
    (msg : bytes) (funds_ : list Coin) (sub_msg_id : Z) (reply_on : ReplyOn)
    : MM (ContractResult Response) :=
  rn ← match admin with
       | Some allowed =>
           if negb (String.eqb allowed origin)
           then mret (CRErr "cannot instantiate contract", None)
           else instantiate_inner code_id origin msg funds_
       | None => instantiate_inner code_id origin msg funds_
       end;
  handle_submessage_response origin msg sub_msg_id reply_on
    (encode_instantiate_response (default "" rn.2)) rn.1.

Definition handle_submessage_execute (origin target_addr : Addr) (msg : bytes)
    (funds_ : list Coin) (sub_msg_id : Z) (reply_on : ReplyOn) : MM (ContractResult Response) :=
  response ← execute_inner target_addr origin msg funds_;
  handle_submessage_response origin msg sub_msg_id reply_on encode_execute_response response.

(** One message of the loop of [handle_response]. *)
Definition handle_message (origin : Addr) (sub_msg : SubMsg) : MM (ContractResult Response) :=
  match sm_msg sub_msg with
  | MsgWasm (WasmInstantiate admin code_id msg funds_ _) =>
      handle_submessage_instantiate origin admin code_id msg funds_
        (sm_id sub_msg) (sm_reply_on sub_msg)
  | MsgWasm (WasmExecute target_addr msg funds_) =>
      handle_submessage_execute origin target_addr msg funds_
        (sm_id sub_msg) (sm_reply_on sub_msg)
  | MsgBank bank_msg => on_m_states (bank_execute origin bank_msg)
  | _ => panic "not implemented"
  end.

Fixpoint handle_messages (origin : Addr) (ms : list SubMsg) (last_response : ContractResult Response)
    : MM (ContractResult Response) :=
  match ms with
  | [] => mret last_response
  | sub_msg :: rest =>
      response ← handle_message origin sub_msg;
      if is_err response then mret response else handle_messages origin rest response
  end.

Definition handle_response_body (origin : Addr) (response : Response)
    : MM (ContractResult Response) :=
  match messages response with
  | [] => mret (CROk response)
  | ms => handle_messages origin ms (CROk Response_new)
  end.

(** ** Transactions *)

(** What [instantiate] and [execute] do with the result: on an error the state
    is the one before the call and the log is the one of the failed run, on
    success a block is made. *)
Definition finish_transaction (state_copy : Model C) (res : ContractResult Response)
    : MM DebugLog :=
  if is_err res then
    orig_state ← revert state_copy;
    mret (m_debug_log orig_state)
  else
    _ ← on_m_states update_block;
    debug_log ← gets m_debug_log;
    _ ← modify (set_m_debug_log DebugLog_new);
    mret debug_log.

Definition instantiate (code_id : Z) (msg : bytes) (funds_ : list Coin) : MM DebugLog :=
  state_copy ← get;
  ra ← instantiate_inner code_id (m_sender state_copy) msg funds_;
  finish_transaction state_copy ra.1.

Definition execute (contract_addr : Addr) (msg : bytes) (funds_ : list Coin) : MM DebugLog :=
  state_copy ← get;
  res ← execute_inner contract_addr (m_sender state_copy) msg funds_;
  finish_transaction state_copy res.
End open.

(** [handle_response] itself; [fuel] bounds the nesting of messages and of
    queries. *)
Fixpoint handle_response (fuel : nat) (origin : Addr) (response : Response)
    : MM (ContractResult Response) :=
  match fuel with
  | O => out_of_fuel
  | S fuel' => handle_response_body (query_raw fuel) (handle_response fuel') origin response
  end.

Definition Model_instantiate (fuel : nat) : Z → bytes → list Coin → MM DebugLog :=
  instantiate (query_raw fuel) (handle_response fuel).
Definition Model_execute (fuel : nat) : Addr → bytes → list Coin → MM DebugLog :=
  execute (query_raw fuel) (handle_response fuel).

(** ** Queries *)
Definition wasm_query (fuel : nat) (contract_addr : Addr) (msg : bytes) : MM Binary :=
  env_ ← env contract_addr;
  i ← create_instance contract_addr;
  ri ← run_instance i (instance_query (query_raw fuel) contract_addr env_
                         (QSmart contract_addr msg));
  _ ← handle_coverage (query_raw fuel) ri.2;
  of_sum ri.1.

Definition Model_bank_query (bank_query_ : bytes) : MM Binary :=
  match from_binary_bank_query bank_query_ with
  | inl e => throw (FormatError e)
  | inr q => on_m_states (bank_query q)
  end.

(** ** Cheats *)
Definition cheat_block_number (new_number : Z) : MM unit :=
  on_m_states (modify (set_block_number new_number)).

Definition cheat_block_timestamp (new_timestamp : Z) : MM unit :=
  on_m_states (modify (set_block_timestamp new_timestamp)).

Definition cheat_bank_balance (address : Addr) (d : string) (new_balance : Z) : MM unit :=
  on_m_states (set_balance address d new_balance).

(** The new code is tried; if it does not instantiate, the old one is put back. *)
Definition cheat_code (contract_addr : Addr) (new_code : bytes) : MM unit :=
  _ ← Model_fetch_contract_state contract_addr;
  st ← gets m_states;
  old_contract_state ← unwrap "called `Option::unwrap()` on a `None` value"
                         (contract_states st !! contract_addr);
  _ ← on_m_states (contract_state_insert contract_addr
                     (mkContractState new_code (storage old_contract_state)));
  r ← catch (create_instance contract_addr);
  match r with
  | inl e => _ ← on_m_states (contract_state_insert contract_addr old_contract_state); throw e
  | inr _ => mret tt
  end.

Definition cheat_message_sender (my_addr : Addr) : MM unit := modify (set_m_sender my_addr).

Definition cheat_storage (contract_addr : Addr) (key value : bytes) : MM unit :=
  _ ← Model_fetch_contract_state contract_addr;
  st ← gets m_states;
  contract_storage ← unwrap "called `Option::unwrap()` on a `None` value"
                       (contract_states st !! contract_addr);
  on_m_states (contract_state_insert contract_addr
    (mkContractState (code contract_storage) (<[key := value]> (storage contract_storage)))).

Definition enable_code_coverage : MM unit :=
  modify (λ m, set_m_coverage_info (mkCoverageInfo true (coverage_data (m_coverage_info m))) m).
Definition disable_code_coverage : MM unit :=
  modify (λ m, set_m_coverage_info (mkCoverageInfo false (coverage_data (m_coverage_info m))) m).
Definition get_coverage (m : Model C) : gmap string (list bytes) :=
  coverage_data (m_coverage_info m).
End Model.
