(* ===== verification/Messages.v ===== *)
(** * The messages of a response

    Messages run in order, each to the end with everything it causes, and the
    first one that fails stops the rest. Fuel only bounds the nesting: more of it
    never changes a result.

    The second part is on fuel. *)

From S2P Require Import Prelude.
From S2P Require Import CwStd.
From S2P Require Import Errors.
From S2P Require Import DebugLog.
From S2P Require Import Storage.
From S2P Require Import Client.
From S2P Require Import States.
From S2P Require Import Bank.
From S2P Require Import Api.
From S2P Require Import Vm.
From S2P Require Import Querier.
From S2P Require Import Model.

Open Scope Z_scope.

Section Messages.
Context {C : Type} {HC : CwClientBackend C} {HX : Externals} {HW : WasmEngine}.
Abbreviation MM := (M Error (Model C)).
Implicit Types m : Model C.

(** A result whose messages have all been handled. *)
Definition settled (res : ContractResult Response) : Prop :=
  match res with CROk r => messages r = [] | CRErr _ => True end.

Section body.
Context (query_raw : bytes → M BackendError (RpcMockQuerier C)
                               (SystemResult (ContractResult Binary))).
Context (handle_response : Addr → Response → MM (ContractResult Response)).
Context (Hresponse : ∀ a r, yields settled (handle_response a r)).

Lemma execute_inner_settled a s msg f :
  yields settled (execute_inner query_raw handle_response a s msg f).
Proof.
  unfold execute_inner. do 3 (apply yields_bind; intros ?).
  case_match; [by apply yields_ret|]. do 2 (apply yields_bind; intros ?). case_match.
  - apply yields_bind; intros _. eapply yields_bind_strong; [apply Hresponse|].
    intros res Hres. apply yields_bind; intros _. by apply yields_ret.
  - do 2 (apply yields_bind; intros _). by apply yields_ret.
Qed.

Lemma handle_submessage_response_settled origin msg id ro payload res :
  yields settled
    (handle_submessage_response query_raw handle_response origin msg id ro payload res).
Proof.
  unfold handle_submessage_response. case_match.
  - do 4 (apply yields_bind; intros ?). case_match.
    + apply yields_bind; intros _. eapply yields_bind_strong; [apply Hresponse|].
      intros res' Hres. apply yields_bind; intros _. by apply yields_ret.
    + apply yields_bind; intros _. by apply yields_ret.
  - case_match; [apply Hresponse|]. apply yields_bind; intros _. by apply yields_ret.
Qed.

Lemma handle_message_settled origin sm :
  yields settled (handle_message query_raw handle_response origin sm).
Proof.
  unfold handle_message, handle_submessage_instantiate, handle_submessage_execute.
  destruct (sm_msg sm) as [| | | |[]]; try apply yields_panic.
  - apply yields_zoom, bank_execute_no_messages.
  - apply yields_bind; intros ?. apply handle_submessage_response_settled.
  - apply yields_bind; intros ?. apply handle_submessage_response_settled.
Qed.

Lemma handle_messages_settled origin ms last :
  settled last → yields settled (handle_messages query_raw handle_response origin ms last).
Proof.
  revert last. induction ms as [|sm ms IH]; intros last Hlast; cbn [handle_messages].
  - by apply yields_ret.
  - eapply yields_bind_strong; [apply handle_message_settled|]. intros res Hres.
    case_match; [by apply yields_ret|by apply IH].
Qed.

Lemma handle_response_body_settled origin r :
  yields settled (handle_response_body query_raw handle_response origin r).
Proof.
  unfold handle_response_body. destruct (messages r) eqn:Hm; [by apply yields_ret|].
  by apply handle_messages_settled.
Qed.

(** ** Order *)

(** Messages that ran one after the other, all of them successfully. *)
Inductive ran (origin : Addr) : list SubMsg → ContractResult Response → Model C →
    ContractResult Response → Model C → Prop :=
| ran_nil last m : ran origin [] last m last m
| ran_cons sm ms last m r m1 res m2 :
    handle_message query_raw handle_response origin sm m = (Ok (CROk r), m1) →
    ran origin ms (CROk r) m1 res m2 →
    ran origin (sm :: ms) last m res m2.

Lemma handle_messages_Ok origin ms last m res m' :
  handle_messages query_raw handle_response origin ms last m = (Ok res, m') →
  match res with
  | CROk _ => ran origin ms last m res m'
  | CRErr e => last = CRErr e ∧ ms = [] ∨
      ∃ pre sm post r1 m1, ms = pre ++ sm :: post ∧ ran origin pre last m r1 m1 ∧
        handle_message query_raw handle_response origin sm m1 = (Ok (CRErr e), m')
  end.
Proof.
  revert last m. induction ms as [|sm ms IH]; intros last m H; cbn [handle_messages] in H.
  - injection H as -> <-. destruct res; [constructor|by left].
  - apply bind_Ok_inv in H as ([r|e] & m1 & Hm & Hk); cbn in Hk.
    + apply IH in Hk. destruct res as [r'|e]; [by econstructor|].
      right. destruct Hk as [[[=] _]|(pre & sm' & post & r1 & m2 & -> & Hr & Hm')].
      exists (sm :: pre), sm', post, r1, m2. split_and!; [done|by econstructor|done].
    + injection Hk as <- <-. right. exists [], sm, ms, last, m. split_and!; [done|constructor|done].
Qed.
End body.

Lemma handle_response_settled fuel origin r :
  yields settled (handle_response fuel origin r : MM (ContractResult Response)).
Proof.
  revert origin r. induction fuel as [|fuel IH]; intros origin r; cbn [handle_response].
  - apply yields_out_of_fuel.
  - by apply handle_response_body_settled.
Qed.

Lemma handle_response_no_messages fuel origin r m :
  messages r = [] → handle_response (S fuel) origin r m = (Ok (CROk r), m).
Proof. intros Hr. cbn [handle_response]. unfold handle_response_body. by rewrite Hr. Qed.
End Messages.

Section claims.
Context {C : Type} {HC : CwClientBackend C} {HX : Externals} {HW : WasmEngine}.
Implicit Types m : Model C.

(** A message that calls a contract and asks for no reply is dispatched
    once: when the call succeeds, all messages it caused have been handled by
    then, and the second pass that the code makes over the response does
    nothing. *)
Theorem submessage_dispatched_once fuel origin target msg funds_ id ro m r m1 :
  execute_inner (query_raw (S (S fuel))) (handle_response (S fuel)) target origin msg funds_ m
    = (Ok (CROk r), m1) →
  do_reply ro (CROk r) = false →
  messages r = [] ∧
  handle_submessage_execute (query_raw (S (S fuel))) (handle_response (S fuel))
    origin target msg funds_ id ro m = (Ok (CROk r), m1).
Proof.
  intros H Hro.
  assert (messages r = []) as Hr.
  { eapply (execute_inner_settled _ _ (handle_response_settled (S fuel)) _ _ _ _ _ _ _ H). }
  split; [done|]. unfold handle_submessage_execute, handle_submessage_response.
  rewrite (bind_Ok _ _ _ _ _ H), Hro. by apply handle_response_no_messages.
Qed.

(** C7: The messages of a response run in order and the first one that fails is
    the last one that runs: a failing response has messages that all succeeded,
    one that failed with the reported error, and the state is the one that
    message left; the messages after it did not run. *)
Theorem handle_response_stops_at_first_error fuel origin response m e m' :
  handle_response (S fuel) origin response m = (Ok (CRErr e), m') →
  ∃ pre sm post last m1, messages response = pre ++ sm :: post ∧
    ran (query_raw (S fuel)) (handle_response fuel) origin pre (CROk Response_new) m last m1 ∧
    handle_message (query_raw (S fuel)) (handle_response fuel) origin sm m1 = (Ok (CRErr e), m').
Proof.
  cbn [handle_response]. unfold handle_response_body.
  destruct (messages response) as [|sm ms] eqn:Hms; [done|]. intros H.
  apply handle_messages_Ok in H as [[[=] _]|(pre & sm' & post & r1 & m1 & Heq & Hr & Hm)].
  rewrite Heq. by exists pre, sm', post, r1, m1.
Qed.
End claims.

(** * Fuel

    Fuel bounds how deep messages and queries nest and nothing else: a run that
    does not exhaust it gives the same result and the same state with any larger
    amount. *)

Section vm.
Context {C W : Type} {HC : CwClientBackend C} {HX : Externals}.
Abbreviation QR := (bytes → M BackendError (RpcMockQuerier C) (SystemResult (ContractResult Binary))).
Context (q1 q2 : QR) (Hq : ∀ req, q1 req ⊑ q2 req).

Lemma host_call_approx {R} (op : hostE R) :
  (host_call q1 op : M VmError (Environment C W) R) ⊑ host_call q2 op.
Proof. destruct op; cbn [host_call]; try reflexivity. unfold do_query_chain. approx. Qed.

Lemma run_guest_approx (g : Guest W) : run_guest q1 g ⊑ run_guest q2 g.
Proof.
  induction g as [w r|w e|w R op k IH]; cbn [run_guest]; try reflexivity.
  approx. apply host_call_approx.
Qed.
End vm.

Section querier.
Context {C : Type} {HC : CwClientBackend C} {HX : Externals} {HW : WasmEngine}.
Abbreviation QR := (bytes → M BackendError (RpcMockQuerier C) (SystemResult (ContractResult Binary))).

Lemma on_instance_approx {A} i (m1 m2 : M Error (Environment C WInst) A) :
  m1 ⊑ m2 → on_instance i m1 ⊑ on_instance i m2.
Proof.
  intros Hm q. specialize (Hm (mkEnvironment q (ci_instance i))). unfold on_instance.
  destruct (m1 _) as [[] v]; cbn in *; intros Hne; by rewrite Hm.
Qed.

Section body.
Context (q1 q2 : QR) (Hq : ∀ req, q1 req ⊑ q2 req).

Lemma call_raw_approx name args n : call_raw q1 name args n ⊑ call_raw q2 name args n.
Proof. unfold call_raw. approx. by apply run_guest_approx. Qed.

Hint Resolve call_raw_approx : approx.

Lemma instance_instantiate_approx e msg s f :
  instance_instantiate q1 e msg s f ⊑ instance_instantiate q2 e msg s f.
Proof. unfold instance_instantiate, call_instantiate, call_instantiate_raw. approx. Qed.
Lemma instance_execute_approx e msg s f :
  instance_execute q1 e msg s f ⊑ instance_execute q2 e msg s f.
Proof. unfold instance_execute, call_execute, call_execute_raw. approx. Qed.
Lemma instance_reply_approx e r : instance_reply q1 e r ⊑ instance_reply q2 e r.
Proof. unfold instance_reply, call_reply, call_reply_raw. approx. Qed.
Lemma instance_query_approx a e q : instance_query q1 a e q ⊑ instance_query q2 a e q.
Proof. unfold instance_query, call_query, call_query_raw. approx. Qed.

Lemma query_raw_body_approx req : query_raw_body q1 req ⊑ query_raw_body q2 req.
Proof.
  unfold query_raw_body. destruct (from_slice_query_request req) as [|[]]; try reflexivity.
  case_match; [reflexivity|]. unfold query_contract, unknown. approx.
  apply on_instance_approx, instance_query_approx.
Qed.
End body.

Lemma query_raw_step fuel req : (query_raw fuel req : M _ (RpcMockQuerier C) _) ⊑ query_raw (S fuel) req.
Proof.
  revert req. induction fuel as [|fuel IH]; intros req.
  - apply approx_out_of_fuel.
  - by apply query_raw_body_approx.
Qed.

Lemma query_raw_mono fuel fuel' req :
  (fuel ≤ fuel')%nat → (query_raw fuel req : M _ (RpcMockQuerier C) _) ⊑ query_raw fuel' req.
Proof. induction 1; [done|]. etrans; [done|apply query_raw_step]. Qed.
End querier.

Section model.
Context {C : Type} {HC : CwClientBackend C} {HX : Externals} {HW : WasmEngine}.
Abbreviation QR := (bytes → M BackendError (RpcMockQuerier C) (SystemResult (ContractResult Binary))).
Abbreviation MM := (M Error (Model C)).

Section body.
Context (q1 q2 : QR) (Hq : ∀ req, q1 req ⊑ q2 req).
Context (h1 h2 : Addr → Response → MM (ContractResult Response)).
Context (Hh : ∀ a r, h1 a r ⊑ h2 a r).

Lemma run_instance_approx {A} i (c1 c2 : M Error (Environment C WInst) A) :
  c1 ⊑ c2 → (run_instance i c1 : MM _) ⊑ run_instance i c2.
Proof. intros Hc. by apply approx_zoom, on_instance_approx. Qed.

Lemma handle_coverage_approx i : (handle_coverage q1 i : MM unit) ⊑ handle_coverage q2 i.
Proof.
  unfold handle_coverage. approx. apply run_instance_approx. unfold dump_coverage. approx.
  by apply call_raw_approx.
Qed.

Lemma call_and_cover_approx {A} i (c1 c2 : M Error (Environment C WInst) A) :
  c1 ⊑ c2 → (call_and_cover q1 i c1 : MM A) ⊑ call_and_cover q2 i c2.
Proof.
  intros Hc. unfold call_and_cover. approx; [by apply run_instance_approx|].
  apply handle_coverage_approx.
Qed.

Lemma execute_inner_approx a s msg f : execute_inner q1 h1 a s msg f ⊑ execute_inner q2 h2 a s msg f.
Proof.
  unfold execute_inner. approx.
  by apply call_and_cover_approx, instance_execute_approx.
Qed.

Lemma instantiate_inner_approx i s msg f :
  instantiate_inner q1 h1 i s msg f ⊑ instantiate_inner q2 h2 i s msg f.
Proof.
  unfold instantiate_inner. approx.
  by apply call_and_cover_approx, instance_instantiate_approx.
Qed.

Lemma handle_submessage_response_approx origin msg id ro payload res :
  handle_submessage_response q1 h1 origin msg id ro payload res
    ⊑ handle_submessage_response q2 h2 origin msg id ro payload res.
Proof.
  unfold handle_submessage_response. approx.
  by apply call_and_cover_approx, instance_reply_approx.
Qed.

Hint Resolve execute_inner_approx instantiate_inner_approx handle_submessage_response_approx
  : approx.

Lemma handle_message_approx origin sm : handle_message q1 h1 origin sm ⊑ handle_message q2 h2 origin sm.
Proof.
  unfold handle_message, handle_submessage_instantiate, handle_submessage_execute. approx.
Qed.

Lemma handle_response_body_approx origin r :
  handle_response_body q1 h1 origin r ⊑ handle_response_body q2 h2 origin r.
Proof.
  unfold handle_response_body. destruct (messages r) as [|sm ms]; [reflexivity|].
  generalize (sm :: ms), (@CROk Response Response_new). clear sm ms.
  induction l as [|sm ms IH]; intros last; cbn [handle_messages]; [reflexivity|].
  approx. apply handle_message_approx.
Qed.
End body.

Lemma handle_response_step fuel origin r :
  (handle_response fuel origin r : MM _) ⊑ handle_response (S fuel) origin r.
Proof.
  revert origin r. induction fuel as [|fuel IH]; intros origin r.
  - apply approx_out_of_fuel.
  - apply handle_response_body_approx; [|done]. intros req. apply query_raw_step.
Qed.

Lemma handle_response_mono fuel fuel' origin r :
  (fuel ≤ fuel')%nat → (handle_response fuel origin r : MM _) ⊑ handle_response fuel' origin r.
Proof. induction 1; [done|]. etrans; [done|apply handle_response_step]. Qed.

Lemma Model_execute_approx fuel fuel' a msg f :
  (fuel ≤ fuel')%nat → (Model_execute fuel a msg f : MM _) ⊑ Model_execute fuel' a msg f.
Proof.
  intros Hf. unfold Model_execute, execute. approx. apply execute_inner_approx.
  - intros req. by apply query_raw_mono.
  - intros. by apply handle_response_mono.
Qed.

Lemma Model_instantiate_approx fuel fuel' i msg f :
  (fuel ≤ fuel')%nat → (Model_instantiate fuel i msg f : MM _) ⊑ Model_instantiate fuel' i msg f.
Proof.
  intros Hf. unfold Model_instantiate, instantiate. approx. apply instantiate_inner_approx.
  - intros req. by apply query_raw_mono.
  - intros. by apply handle_response_mono.
Qed.

Lemma wasm_query_approx fuel fuel' a msg :
  (fuel ≤ fuel')%nat → (wasm_query fuel a msg : MM _) ⊑ wasm_query fuel' a msg.
Proof.
  intros Hf. unfold wasm_query. approx.
  - apply run_instance_approx, instance_query_approx. intros req. by apply query_raw_mono.
  - apply handle_coverage_approx. intros req. by apply query_raw_mono.
Qed.

(** The result of a transaction or a query does not depend on the fuel: two
    runs that do not exhaust theirs have the same outcome (answer, error or
    panic) and leave the same state. *)
Theorem runs_do_not_depend_on_fuel fuel fuel' (m : Model C) :
  (∀ a msg f, (Model_execute fuel a msg f m).1 ≠ OutOfFuel →
     (Model_execute fuel' a msg f m).1 ≠ OutOfFuel →
     Model_execute fuel a msg f m = Model_execute fuel' a msg f m) ∧
  (∀ i msg f, (Model_instantiate fuel i msg f m).1 ≠ OutOfFuel →
     (Model_instantiate fuel' i msg f m).1 ≠ OutOfFuel →
     Model_instantiate fuel i msg f m = Model_instantiate fuel' i msg f m) ∧
  (∀ a msg, (wasm_query fuel a msg m).1 ≠ OutOfFuel →
     (wasm_query fuel' a msg m).1 ≠ OutOfFuel →
     wasm_query fuel a msg m = wasm_query fuel' a msg m).
Proof.
  split_and!; intros; destruct (Nat.le_ge_cases fuel fuel').
  - symmetry. by apply Model_execute_approx.
  - by apply Model_execute_approx.
  - symmetry. by apply Model_instantiate_approx.
  - by apply Model_instantiate_approx.
  - symmetry. by apply wasm_query_approx.
  - by apply wasm_query_approx.
Qed.
End model.
