(* ===== verification/Transactions.v ===== *)
(** * Proof principle for transactions

    [Closed_Tx R] lists the steps of which every transaction of [Model] is made:
    a relation that every one of them keeps is kept by a whole transaction,
    however deep its messages, replies and queries nest and however it ends. *)

From S2P Require Import Prelude.
From S2P Require Import CwStd.
From S2P Require Import Errors.
From S2P Require Import Client.
From S2P Require Import Storage.
From S2P Require Import States.
From S2P Require Import DebugLog.
From S2P Require Import Api.
From S2P Require Import Vm.
From S2P Require Import Querier.
From S2P Require Import Runs.
From S2P Require Import Model.

Open Scope Z_scope.

Section Transactions.
Context {C : Type} {HC : CwClientBackend C} {HX : Externals} {HW : WasmEngine}.
Abbreviation MM := (M Error (Model C)).
Implicit Types m : Model C.

Record Closed_Tx (R : relation (Model C)) : Prop := {
  ct_refl : Reflexive R;
  ct_trans : Transitive R;
  ct_fetch a : preserves R (on_m_states (fetch_contract_state a));
  ct_bank_query q : preserves R (on_m_states (bank_query q));
  ct_bank s b : preserves R (on_m_states (bank_execute s b));
  ct_code i : preserves R (on_m_states (on_client (cb_query_wasm_contract_code i)));
  ct_insert a cs : preserves R (on_m_states (contract_state_insert a cs));
  ct_remove a : preserves R (on_m_states (contract_state_remove a));
  ct_write a s m : R m (set_m_querier (write_cell a s (m_querier m)) m);
  ct_append_log r : preserves R (on_m_log (append_log r));
  ct_set_err_msg e : preserves R (on_m_log (set_err_msg e));
  ct_begin_error e : preserves R (on_m_log (begin_error e));
  ct_stdout l : preserves R (on_m_log (append_stdout l));
  ct_begin kind a msg : preserves R (on_m_log (begin_context json_display kind a msg));
  ct_end kind a msg m id m1 m2 :
    on_m_log (begin_context json_display kind a msg) m = (Ok id, m1) →
    R m m2 → R m (on_m_log (on_trace (end_call id)) m2).2;
  ct_address i : preserves R (generate_address i);
  ct_coverage a cov m : R m (set_m_coverage_info (add_coverage a cov (m_coverage_info m)) m);
  ct_cache code_ module m :
    wasm_compile code_ = inr module → m_wasm_cache m !! sha256 code_ = None →
    R m (set_m_wasm_cache (<[sha256 code_ := module]> (m_wasm_cache m)) m)
}.

Context (R : relation (Model C)) (HR : Closed_Tx R).

Local Instance tx_refl : Reflexive R := ct_refl R HR.
Local Instance tx_trans : Transitive R := ct_trans R HR.

(** ** The querier's part of the model *)
Definition induced (q q' : RpcMockQuerier C) : Prop :=
  ∀ m, m_querier m = q → R m (set_m_querier q' m).

Lemma induced_states {E F A} (f : M E (AllStates C) A) (g : M F (AllStates C) A) :
  (∀ st, (g st).2 = (f st).2) →
  preserves R (zoom m_states set_m_states f) → preserves induced (on_states g).
Proof.
  intros Hfg Hf q m <-. specialize (Hf m). unfold on_states, zoom in *.
  specialize (Hfg (m_states m)). cbn in *.
  destruct (f (m_states m)) as [r st], (g (m_states m)) as [r' st']; cbn in *. subst st'.
  by destruct m.
Qed.

Lemma induced_log {E F A} (f : M E DebugLog A) (g : M F DebugLog A) :
  (∀ l, (g l).2 = (f l).2) →
  preserves R (zoom m_debug_log set_m_debug_log f) → preserves induced (on_log g).
Proof.
  intros Hfg Hf q m <-. specialize (Hf m). unfold on_log, zoom in *.
  specialize (Hfg (m_debug_log m)). cbn in *.
  destruct (f (m_debug_log m)) as [r l], (g (m_debug_log m)) as [r' l']; cbn in *. subst l'.
  by destruct m.
Qed.

Lemma induced_closed : Closed_Querier induced.
Proof.
  split.
  - intros q m <-. by destruct m.
  - intros q1 q2 q3 H12 H23 m Hm. specialize (H12 m Hm).
    etrans; [exact H12|]. specialize (H23 (set_m_querier q2 m)). destruct m, q2. by apply H23.
  - intros a. by eapply induced_states; [|apply HR].
  - intros q. by eapply induced_states; [|apply HR].
  - intros l. by eapply induced_log; [|apply (ct_stdout R HR l)].
  - intros a msg. eapply induced_log; [|apply (ct_begin R HR "query" a msg)].
    intros l. unfold begin_query. rewrite (begin_context_err (E := Error)).
    by destruct (begin_context _ _ _ _ l) as [[] ?].
  - intros a msg q id q1 q2 Hb H12 m <-. unfold on_log, zoom in Hb.
    unfold begin_query in Hb. rewrite (begin_context_err (E := Error)) in Hb.
    destruct (begin_context json_display "query" a msg (q_log (m_querier m)))
      as [[id'|e|p|] l1] eqn:Hb'; cbn in Hb; try done. injection Hb as -> <-.
    assert (on_m_log (begin_context json_display "query" a msg) m
            = (Ok id, set_m_debug_log l1 m)) as Hbm.
    { unfold on_m_log, zoom. cbn in Hb'. by rewrite Hb'. }
    pose proof (ct_end R HR _ _ _ _ _ _ _ Hbm (H12 m eq_refl)) as He.
    by destruct m, q2.
Qed.

Lemma induced_write a s q : induced q (write_cell a s q).
Proof. intros m <-. apply HR. Qed.

Lemma on_m_querier_tx {A} (f : M Error (RpcMockQuerier C) A) :
  preserves induced f → preserves R (on_m_querier f).
Proof. intros Hf m. specialize (Hf (m_querier m) m eq_refl). unfold on_m_querier, zoom.
  by destruct (f (m_querier m)). Qed.

(** ** Steps of a transaction *)
Section body.
Context (query_raw : bytes → M BackendError (RpcMockQuerier C)
                               (SystemResult (ContractResult Binary))).
Context (Hquery : ∀ req, preserves induced (query_raw req)).

Abbreviation rel := (env_rel (W := WInst) induced True).
Local Instance tx_rel_refl : Reflexive rel := env_rel_refl induced induced_closed True.
Local Instance tx_rel_trans : Transitive rel := env_rel_trans induced induced_closed True.

Lemma run_instance_tx {A} i (call : M Error (Environment C WInst) A) :
  preserves rel call → preserves R (run_instance i call).
Proof.
  intros Hc. apply on_m_querier_tx, (on_instance_keeps induced True); [by left|done].
Qed.

Lemma dump_coverage_tx : preserves rel (dump_coverage query_raw).
Proof.
  unfold dump_coverage. pres.
  apply call_raw_keeps; [apply induced_closed|intros _; apply induced_write|done].
Qed.

Lemma handle_coverage_tx i : preserves R (handle_coverage query_raw i).
Proof.
  unfold handle_coverage. pres.
  - apply run_instance_tx, dump_coverage_tx.
  - apply preserves_modify. intros m. apply HR.
Qed.

Lemma call_and_cover_tx {A} i (call : M Error (Environment C WInst) A) :
  preserves rel call → preserves R (call_and_cover query_raw i call).
Proof.
  intros Hc. unfold call_and_cover. pres; [by apply run_instance_tx|apply handle_coverage_tx].
Qed.

Lemma instance_instantiate_tx e msg s f :
  preserves rel (instance_instantiate query_raw e msg s f).
Proof.
  pose proof induced_closed. pose proof induced_write.
  apply preserves_map_err, call_instantiate_keeps; auto.
Qed.
Lemma instance_execute_tx e msg s f : preserves rel (instance_execute query_raw e msg s f).
Proof.
  pose proof induced_closed. pose proof induced_write.
  apply preserves_map_err, call_execute_keeps; auto.
Qed.
Lemma instance_reply_tx e r : preserves rel (instance_reply query_raw e r).
Proof.
  pose proof induced_closed. pose proof induced_write.
  apply preserves_map_err, call_reply_keeps; auto.
Qed.

Lemma create_instance_tx a : preserves R (create_instance a).
Proof. unfold create_instance, new_mock. pres. apply HR. Qed.

Lemma create_instance_from_code_tx code_ deps cell :
  preserves R (create_instance_from_code code_ deps cell).
Proof.
  intros m. unfold create_instance_from_code. unfold mbind, M_bind. cbn.
  destruct (m_wasm_cache m !! sha256 code_) as [module|] eqn:Hc.
  - cbn. by case_match.
  - destruct (wasm_compile code_) as [e|module] eqn:Hw; [done|]. cbn.
    case_match; by apply HR.
Qed.

Lemma transfer_funds_tx s a f : preserves R (transfer_funds s a f).
Proof. unfold transfer_funds. pres; apply HR. Qed.

Lemma env_tx a : preserves R (env a).
Proof. by apply preserves_gets; apply _. Qed.

Lemma maybe_unzip_tx b : preserves R (maybe_unzip b : MM bytes).
Proof. unfold maybe_unzip. pres. Qed.

Context (handle_response : Addr → Response → MM (ContractResult Response)).
Context (Hresponse : ∀ a r, preserves R (handle_response a r)).

Hint Resolve create_instance_tx create_instance_from_code_tx transfer_funds_tx env_tx
  maybe_unzip_tx : pres.

(** A contract call in its context of the log: the context is closed after the
    messages of a good answer, and left open by an error. *)
Lemma call_context_tx {A} kind a msg (call : Z → MM A) :
  (∀ m id m1, on_m_log (begin_context json_display kind a msg) m = (Ok id, m1) →
              keeps_from R m (call id)) →
  preserves R (id ← on_m_log (begin_context json_display kind a msg); call id).
Proof. intros Hc. apply preserves_bracket; [apply HR|exact Hc]. Qed.

Lemma keeps_from_end {A} kind a msg m id m1 (x : A) :
  on_m_log (begin_context json_display kind a msg) m = (Ok id, m1) →
  keeps_from R m (_ ← on_m_log (on_trace (end_call id)); mret x).
Proof.
  intros Hb. apply keeps_from_bind.
  - intros m2 H2. by eapply (ct_end R HR).
  - intros _. by apply keeps_from_preserves; [apply _|apply preserves_ret; apply _].
Qed.

Lemma log_keeps_from {A} m0 (f : MM unit) (x : A) :
  preserves R f → keeps_from R m0 (_ ← f; mret x).
Proof. intros Hf. apply keeps_from_preserves; [apply _|]. pres. Qed.

(** One step before the context is opened. *)
Local Ltac tx_bind := apply preserves_bind; [apply _|pres; apply HR|intros ?].

(** The part of a call that is the same in all three kinds. *)
Lemma call_answer_tx {A} kind a msg i origin (call : M Error (Environment C WInst) (ContractResult Response))
    (log_ok : Response → Response) (ret : ContractResult Response → A) (fail : string → MM A) :
  preserves rel call → (∀ e, preserves R (fail e)) →
  preserves R (
    id ← on_m_log (begin_context json_display kind a msg);
    result ← call_and_cover query_raw i call;
    match result with
    | CROk r =>
        _ ← on_m_log (append_log (log_ok r));
        response ← handle_response origin (log_ok r);
        _ ← on_m_log (on_trace (end_call id));
        mret (ret response)
    | CRErr e => fail e
    end).
Proof.
  intros Hcall Hfail. apply call_context_tx. intros m id m1 Hb.
  apply keeps_from_bind.
  { apply keeps_from_preserves; [apply _|]. by apply call_and_cover_tx. }
  intros [r|e].
  - apply keeps_from_bind; [apply keeps_from_preserves; [apply _|apply HR]|intros _].
    apply keeps_from_bind; [apply keeps_from_preserves; [apply _|apply Hresponse]|intros res].
    by eapply keeps_from_end.
  - apply keeps_from_preserves; [apply _|apply Hfail].
Qed.

Lemma execute_inner_tx a s msg f : preserves R (execute_inner query_raw handle_response a s msg f).
Proof.
  unfold execute_inner. do 3 tx_bind. case_match; [pres|].
  apply (call_answer_tx "execute" _ _ _ _ _ (λ r, r) (λ r, r)); [apply instance_execute_tx|].
  intros e. pres; apply HR.
Qed.

Lemma instantiate_inner_tx i s msg f :
  preserves R (instantiate_inner query_raw handle_response i s msg f).
Proof.
  unfold instantiate_inner, new_mock.
  apply preserves_bind; [apply _|apply HR|intros contract_addr]. tx_bind.
  case_match; [pres|]. do 6 tx_bind.
  apply (call_answer_tx "instantiate" _ _ _ _ _
           (add_event (instantiate_event i contract_addr)) (λ r, (r, Some contract_addr)));
    [apply instance_instantiate_tx|].
  intros e. pres; apply HR.
Qed.

Lemma handle_submessage_response_tx origin msg id ro payload res :
  preserves R (handle_submessage_response query_raw handle_response origin msg id ro payload res).
Proof.
  unfold handle_submessage_response. case_match; [|pres; apply HR]. do 2 tx_bind.
  apply (call_answer_tx "reply" _ _ _ _ _ (λ r, r) (λ r, r)); [apply instance_reply_tx|].
  intros e. pres; apply HR.
Qed.

Lemma handle_message_tx origin sm :
  preserves R (handle_message query_raw handle_response origin sm).
Proof.
  unfold handle_message, handle_submessage_instantiate, handle_submessage_execute.
  pres; first [apply HR | apply instantiate_inner_tx | apply execute_inner_tx
              | apply handle_submessage_response_tx].
Qed.

Lemma handle_messages_tx origin ms last :
  preserves R (handle_messages query_raw handle_response origin ms last).
Proof.
  revert last. induction ms as [|sm ms IH]; intros last; cbn [handle_messages]; pres.
  apply handle_message_tx.
Qed.

Lemma handle_response_body_tx origin r :
  preserves R (handle_response_body query_raw handle_response origin r).
Proof. unfold handle_response_body. pres. apply handle_messages_tx. Qed.
End body.

Lemma query_raw_tx fuel req : preserves induced (query_raw fuel req).
Proof. apply query_raw_keeps, induced_closed. Qed.

Lemma handle_response_tx fuel origin r : preserves R (handle_response fuel origin r).
Proof.
  revert origin r. induction fuel as [|fuel IH]; intros origin r; cbn [handle_response].
  - apply preserves_out_of_fuel; apply _.
  - apply handle_response_body_tx; [apply query_raw_tx|done].
Qed.

Lemma execute_tx fuel a s msg f :
  preserves R (execute_inner (query_raw fuel) (handle_response fuel) a s msg f).
Proof. apply execute_inner_tx; [apply query_raw_tx|apply handle_response_tx]. Qed.

Lemma instantiate_tx fuel i s msg f :
  preserves R (instantiate_inner (query_raw fuel) (handle_response fuel) i s msg f).
Proof. apply instantiate_inner_tx; [apply query_raw_tx|apply handle_response_tx]. Qed.
End Transactions.
