(* ===== verification/ReadOnly.v ===== *)
(** * Queries do not change the simulated chain

    The chain as the simulator shows it is the balance of every account and the
    code and storage of every contract, cached or still to be fetched.
    [states_ext] says that two states show the same chain, the second with
    possibly more of it cached. Queries, nested ones and those of the querying
    contract included, stay within it whatever the contracts do.

    The second part is on raw queries. *)

From S2P Require Import Prelude.
From S2P Require Import CwStd.
From S2P Require Import Errors.
From S2P Require Import DebugLog.
From S2P Require Import Storage.
From S2P Require Import Client.
From S2P Require Import States.
From S2P Require Import Bank.
From S2P Require Import Api.
From S2P Require Import Vm.
From S2P Require Import Querier.
From S2P Require Import Runs.
From S2P Require Import Model.

Open Scope Z_scope.

Section ReadOnly.
Context {C : Type} {HC : CwClientBackend C} {HV : ChainClient C} {HX : Externals}.
Implicit Types st : AllStates C.
Abbreviation ST := (M Error (AllStates C)).

Definition chain_contract (v : ChainView) (a : Addr) : ContractState :=
  mkContractState (cv_code v (code_id (cv_info v a))) (cv_state v a).

(** The code and the storage of a contract: the cached ones, or the chain's. *)
Definition contract st (a : Addr) : ContractState :=
  default (chain_contract (cc_view (client st)) a) (contract_states st !! a).

Record states_ext st st' : Prop := mk_states_ext {
  se_number : block_number st' = block_number st;
  se_timestamp : block_timestamp st' = block_timestamp st;
  se_chain_id : states_chain_id st' = states_chain_id st;
  se_length : canonical_address_length st' = canonical_address_length st;
  se_prefix : bech32_prefix st' = bech32_prefix st;
  se_client : cc_stable (client st) (client st');
  se_bank_kept : ∀ o m, bank_states st !! o = Some m → bank_states st' !! o = Some m;
  se_contracts_kept : ∀ a cs, contract_states st !! a = Some cs → contract_states st' !! a = Some cs;
  se_account : cc_inv (client st) → ∀ o, account st' o = account st o;
  se_contract : cc_inv (client st) → ∀ a, contract st' a = contract st a
}.

#[export] Instance states_ext_refl : Reflexive states_ext.
Proof. by intros st. Qed.
#[export] Instance states_ext_trans : Transitive states_ext.
Proof.
  intros s1 s2 s3 H12 H23. destruct H12, H23. split; try (congruence || by etrans); [auto..| |];
    intros Hinv x; assert (cc_inv (client s2)) by (by apply se_client0).
  - by rewrite se_account1, se_account0.
  - by rewrite se_contract1, se_contract0.
Qed.

Lemma ledger_eq_ext st st' : ledger_eq st st' → states_ext st st'.
Proof.
  intros [[Hc ? ? ? ? ? Hcl] Hk Ha]. split; try done.
  - intros o m Ho. rewrite Hk; [done|by eexists].
  - intros a cs. by rewrite Hc.
  - intros Hinv a. unfold contract. rewrite Hc. by destruct (Hcl Hinv) as [_ ->].
Qed.

Lemma set_client_ext st c' : cc_stable (client st) c' → states_ext st (set_client c' st).
Proof. intros Hc. by apply ledger_eq_ext, set_client_ledger. Qed.

Lemma on_client_ext {A} (m : M Error C A) :
  preserves cc_stable m → preserves states_ext (on_client m).
Proof. intros Hm. eapply preserves_zoom; [exact Hm|]. intros. by apply set_client_ext. Qed.

Lemma maybe_unzip_Ok {S} b (s : S) r s' : maybe_unzip b s = (Ok r, s') → r = b ∧ s' = s.
Proof. unfold maybe_unzip. repeat case_match; by intros [= <- <-]. Qed.

Lemma maybe_unzip_ext b : preserves states_ext (maybe_unzip b : ST bytes).
Proof. unfold maybe_unzip. pres. Qed.

Lemma fetch_contract_cached a st :
  is_Some (contract_states st !! a) → fetch_contract_state a st = (Ok tt, st).
Proof. intros [cs Ha]. unfold fetch_contract_state, contract_state_get. munfold. by rewrite Ha. Qed.

(** The outcome of a fetch: the steps only touch the client until the contract
    of the chain is inserted. *)
Lemma fetch_contract_run a st :
  contract_states st !! a = None →
  ∃ c', cc_stable (client st) c' ∧
    let st' := set_client c' st in
    match fetch_contract_state a st with
    | (Ok _, st1) =>
        ∃ cs, st1 = set_contract_states (<[a := cs]> (contract_states st)) st' ∧
              (cc_inv (client st) → cs = chain_contract (cc_view (client st)) a)
    | (_, st1) => st1 = st'
    end.
Proof.
  intros Ha. unfold fetch_contract_state, contract_state_get, contract_state_insert, on_client.
  munfold. rewrite Ha.
  pose proof (cc_info_stable a (client st)) as S1. pose proof (cc_info_ok a (client st)) as O1.
  destruct (cb_query_wasm_contract_info a (client st)) as [[info|e|p|] c1]; cbn in *;
    try by exists c1.
  pose proof (cc_code_stable (code_id info) c1) as S2.
  pose proof (cc_code_ok (code_id info) c1) as O2.
  destruct (cb_query_wasm_contract_code (code_id info) c1) as [[cd|e|p|] c2]; cbn in *;
    try (exists c2; split; [by etrans|done]).
  destruct (maybe_unzip cd _) as [[cd'|e|p|] st2] eqn:Hz;
    [|exists c2; split; [by etrans|]; unfold maybe_unzip, panic, mret, M_ret in Hz;
      repeat case_match; by injection Hz..].
  apply maybe_unzip_Ok in Hz as [-> ->]. cbn.
  pose proof (cc_state_stable a c2) as S3. pose proof (cc_state_ok a c2) as O3.
  destruct (cb_query_wasm_contract_state_all a c2) as [[m|e|p|] c3]; cbn in *;
    (exists c3; split; [by do 2 (etrans; [eassumption|])|]); try done.
  eexists; split; [done|]. intros Hinv. unfold chain_contract.
  destruct (S1 Hinv) as [I1 V1]. destruct (S2 I1) as [I2 V2].
  rewrite (O1 _ _ Hinv eq_refl) in *. rewrite (O2 _ _ I1 eq_refl), (O3 _ _ I2 eq_refl).
  by rewrite V2, V1.
Qed.

Lemma insert_fetched_ext a cs c' st :
  contract_states st !! a = None → cc_stable (client st) c' →
  (cc_inv (client st) → cs = chain_contract (cc_view (client st)) a) →
  states_ext st (set_contract_states (<[a := cs]> (contract_states st)) (set_client c' st)).
Proof.
  intros Ha Hc Hcs. split; cbn; try done.
  - intros b cs' Hb. rewrite lookup_insert_ne; [done|]. by intros ->; simplify_eq.
  - intros Hinv o. unfold account; cbn. by destruct (Hc Hinv) as [_ ->].
  - intros Hinv b. unfold contract; cbn. rewrite lookup_insert.
    destruct (Hc Hinv) as [_ ->]. case_decide; subst; [|done].
    rewrite Ha. cbn. by apply Hcs.
Qed.

Lemma fetch_contract_ext a : preserves states_ext (fetch_contract_state a : ST unit).
Proof.
  intros st. destruct (contract_states st !! a) as [cs|] eqn:Ha.
  { by rewrite fetch_contract_cached by by eexists. }
  destruct (fetch_contract_run a st Ha) as (c' & Hc & Hrun).
  destruct (fetch_contract_state a st) as [[u|e|p|] st1]; cbn in *;
    try (subst st1; by apply set_client_ext).
  destruct Hrun as (cs & -> & Hcs). by apply insert_fetched_ext.
Qed.

Lemma fetch_contract_present a st u st' :
  fetch_contract_state a st = (Ok u, st') → is_Some (contract_states st' !! a).
Proof.
  intros H. destruct (contract_states st !! a) as [cs|] eqn:Ha.
  { rewrite fetch_contract_cached in H by by eexists. injection H as _ <-. by eexists. }
  destruct (fetch_contract_run a st Ha) as (c' & _ & Hrun). rewrite H in Hrun.
  destruct Hrun as (cs & -> & _). cbn. rewrite lookup_insert_eq. by eexists.
Qed.

(** ** The read-only relation on what the querier shares *)
Record query_le (q q' : RpcMockQuerier C) : Prop := mk_query_le {
  ql_states : states_ext (q_states q) (q_states q');
  ql_log : log_le (q_log q) (q_log q');
  ql_logs : logs (q_log q') = logs (q_log q);
  ql_err_msg : err_msg (q_log q') = err_msg (q_log q)
}.

#[export] Instance query_le_refl : Reflexive query_le.
Proof. by intros q. Qed.
#[export] Instance query_le_trans : Transitive query_le.
Proof. intros q1 q2 q3 [] []. split; congruence || by etrans. Qed.

Lemma on_states_query_le {E A} (m : M E (AllStates C) A) :
  preserves states_ext m → preserves query_le (on_states m).
Proof. intros Hm. eapply preserves_zoom; [exact Hm|]. by intros [st l] st' Hst. Qed.

(** Log operations that touch the call trace and the printed lines only. *)
Definition query_log (l l' : DebugLog) : Prop :=
  log_le l l' ∧ logs l' = logs l ∧ err_msg l' = err_msg l.

Lemma on_log_query_le {E A} (m : M E DebugLog A) :
  preserves query_log m → preserves query_le (on_log m).
Proof. intros Hm. eapply preserves_zoom; [exact Hm|]. by intros [st l] l' (? & ? & ?). Qed.

Lemma on_trace_query_log {E A} (m : M E CallTrace A) :
  preserves trace_le m → preserves query_log (on_trace m).
Proof. intros Hm. eapply preserves_zoom; [exact Hm|]. intros l t Ht. by split. Qed.

Lemma begin_context_query_log {E} kind a msg :
  preserves query_log (begin_context (E := E) json_display kind a msg).
Proof.
  unfold begin_context. intros l. unfold mbind, M_bind.
  destruct (json_display msg); cbn; [|done]. apply (on_trace_query_log _ (begin_call_le _)).
Qed.

Lemma query_le_closed : Closed_Querier query_le.
Proof.
  split.
  - apply _.
  - apply _.
  - intros a. apply on_states_query_le, fetch_contract_ext.
  - intros q. apply on_states_query_le.
    apply (preserves_weaken ledger_eq); [apply ledger_eq_ext|apply bank_query_ledger].
  - intros l. apply on_log_query_le. intros lg. split_and!; [apply append_stdout_le|done..].
  - intros a msg. apply on_log_query_le, begin_context_query_log.
  - intros a msg s id s1 s2 Hb [Hst Hl Hlogs Herr]. unfold on_log, zoom in Hb.
    destruct (begin_query json_display a msg (q_log s)) as [r l1] eqn:Hb'.
    injection Hb as -> _. split; [done| |done..].
    eapply (end_context_le json_display); [exact Hb'|done].
Qed.
End ReadOnly.

(** ** Queries of the model *)
Section model.
Context {C : Type} {HC : CwClientBackend C} {HV : ChainClient C} {HX : Externals}
  {HW : WasmEngine}.
Implicit Types m : Model C.

(** A query shows the same chain before and after; besides the caches, only the
    printed lines, the call graph and the coverage counters grow. *)
Record model_query_le (a : Addr) m m' : Prop := mk_model_query_le {
  mq_querier : query_le (m_querier m) (m_querier m');
  mq_sender : m_sender m' = m_sender m;
  mq_counters : m_code_id_counters m' = m_code_id_counters m;
  mq_codes : m_custom_codes m' = m_custom_codes m;
  mq_cache : m_wasm_cache m' = m_wasm_cache m;
  mq_coverage : m_coverage_info m' = m_coverage_info m ∨
    ∃ cov, m_coverage_info m' = add_coverage a cov (m_coverage_info m)
}.

(** The same without the coverage counters. *)
Definition uncovered m m' : Prop :=
  query_le (m_querier m) (m_querier m') ∧ m_sender m' = m_sender m ∧
  m_code_id_counters m' = m_code_id_counters m ∧ m_custom_codes m' = m_custom_codes m ∧
  m_wasm_cache m' = m_wasm_cache m ∧ m_coverage_info m' = m_coverage_info m.

#[export] Instance uncovered_refl : Reflexive uncovered.
Proof. by intros m. Qed.
#[export] Instance uncovered_trans : Transitive uncovered.
Proof.
  intros m1 m2 m3 (? & ? & ? & ? & ? & ?) (? & ? & ? & ? & ? & ?).
  split_and!; congruence || by etrans.
Qed.

Lemma uncovered_model_query_le a m m' : uncovered m m' → model_query_le a m m'.
Proof. intros (? & ? & ? & ? & ? & ?). split; try done. by left. Qed.

Lemma on_m_querier_uncovered {A} (f : M Error (RpcMockQuerier C) A) :
  preserves query_le f → preserves uncovered (on_m_querier f).
Proof. intros Hf. eapply preserves_zoom; [exact Hf|]. by intros m [st l] Hq. Qed.

Lemma on_m_states_uncovered {A} (f : M Error (AllStates C) A) :
  preserves states_ext f → preserves uncovered (on_m_states f).
Proof. intros Hf. eapply preserves_zoom; [exact Hf|]. by intros m st Hq. Qed.

Lemma create_instance_uncovered a : preserves uncovered (create_instance a).
Proof.
  unfold create_instance, new_mock. pres.
  apply on_m_states_uncovered, fetch_contract_ext.
Qed.

Lemma create_instance_Ok a m i m' :
  create_instance a m = (Ok i, m') →
  ci_addr i = a ∧ i_cell (ci_instance i) = SharedCell a ∧ i_readonly (ci_instance i) = true.
Proof.
  unfold create_instance. intros H. minv. case_match eqn:Hi; minv.
  by apply instance_from_code_cell in Hi as [? ?].
Qed.

Context (query_raw : bytes → M BackendError (RpcMockQuerier C)
                               (SystemResult (ContractResult Binary))).
Context (Hquery : ∀ req, preserves query_le (query_raw req)).

Lemma run_readonly_uncovered {A} i (call : M Error (Environment C WInst) A) :
  guarded False (ci_instance i) → preserves (env_rel query_le False) call →
  preserves uncovered (run_instance i call).
Proof.
  intros Hi Hc. apply on_m_querier_uncovered, (on_instance_keeps query_le False); [done|].
  done.
Qed.

Lemma dump_coverage_keeps : preserves (env_rel query_le False) (dump_coverage query_raw).
Proof.
  pose proof (env_rel_refl (W := WInst) query_le query_le_closed False).
  pose proof (env_rel_trans (W := WInst) query_le query_le_closed False).
  unfold dump_coverage. pres. apply call_raw_keeps; [apply query_le_closed|done..].
Qed.

Lemma handle_coverage_readonly i m :
  guarded False (ci_instance i) →
  model_query_le (ci_addr i) m (handle_coverage query_raw i m).2.
Proof.
  intros Hi. unfold handle_coverage. unfold mbind at 1, M_bind at 1. cbn.
  destruct (enabled (m_coverage_info m)); [|by apply uncovered_model_query_le].
  pose proof (run_readonly_uncovered i _ Hi dump_coverage_keeps m) as Hr. unfold mbind, M_bind.
  destruct (run_instance i (dump_coverage query_raw) m) as [[[r i']|e|p|] m1]; cbn in *;
    try by apply uncovered_model_query_le.
  destruct r as [e|cov]; cbn; [by apply uncovered_model_query_le|].
  destruct Hr as (? & ? & ? & ? & ? & Hcov). split; cbn; try done. right. exists cov.
  by rewrite Hcov.
Qed.

Lemma model_query_le_trans a m1 m2 m3 :
  uncovered m1 m2 → model_query_le a m2 m3 → model_query_le a m1 m3.
Proof.
  intros (? & ? & ? & ? & ? & Hc) []. rewrite Hc in *. split; try (congruence || by etrans).
Qed.
End model.

Section claims.
Context {C : Type} {HC : CwClientBackend C} {HV : ChainClient C} {HX : Externals}
  {HW : WasmEngine}.

(** C4: Whatever contracts do while a query runs (nested queries included, and
    however the query ends), the simulated chain is not changed: every account,
    every contract's code and storage, the block, and the recorded responses
    are the same; the query only adds to the caches, the printed lines and the
    call graph, which stays a tree. *)
Theorem query_raw_read_only fuel request (q : RpcMockQuerier C) :
  query_le q (query_raw fuel request q).2.
Proof. apply query_raw_keeps, query_le_closed. Qed.

(** The same of a query made by the user: [Model::wasm_query] runs the
    contract on the shared storage, but read-only. *)
Theorem wasm_query_read_only fuel contract_addr msg (m : Model C) :
  model_query_le contract_addr m (wasm_query fuel contract_addr msg m).2.
Proof.
  assert (∀ req, preserves query_le (query_raw fuel req)) as Hq.
  { intros req. apply query_raw_keeps, query_le_closed. }
  unfold wasm_query. unfold mbind at 1, M_bind at 1. cbn [env gets].
  pose proof (create_instance_uncovered contract_addr m) as H1.
  unfold mbind, M_bind. cbn.
  destruct (create_instance contract_addr m) as [[i|e|p|] m1] eqn:Hi; cbn in *;
    try by apply uncovered_model_query_le.
  apply create_instance_Ok in Hi as (Ha & _ & Hro).
  assert (guarded False (ci_instance i)) as Hg by (by right; left).
  assert (∀ e, preserves (env_rel query_le False)
            (instance_query (query_raw fuel) contract_addr e (QSmart contract_addr msg))) as Hk.
  { intros e. by apply instance_query_keeps; [apply query_le_closed|..]. }
  pose proof (run_readonly_uncovered i _ Hg (Hk (contract_env (m_states m) contract_addr)) m1) as H2.
  destruct (run_instance i _ m1) as [[[r i']|e|p|] m2] eqn:Hr; cbn in *;
    try (apply uncovered_model_query_le; by etrans).
  unfold run_instance, on_m_querier, zoom in Hr.
  destruct (on_instance i _ (m_querier m1)) as [r1 q1] eqn:Hon. injection Hr as -> _.
  eapply (on_instance_guarded query_le False) in Hon as [Hg' Ha']; [|done|apply Hk].
  pose proof (handle_coverage_readonly (query_raw fuel) Hq i' m2 Hg') as H3. rewrite Ha', Ha in H3.
  destruct (handle_coverage (query_raw fuel) i' m2) as [[[]|e|p|] m3]; cbn in *;
    (eapply model_query_le_trans; [by etrans|]); try done.
  by destruct r.
Qed.
End claims.

(** * What raw queries answer

    A raw query runs the queried contract's code through no Wasm at all: an
    instance is made over a copy of the storage and asked for one key. *)

Section Queries.
Context {C : Type} {HC : CwClientBackend C} {HV : ChainClient C} {HX : Externals} {HW : WasmEngine}.
Implicit Types q : RpcMockQuerier C.

Definition raw_value (cs : ContractState) (key : bytes) : bytes := default [] (storage cs !! key).

Lemma raw_on_instance qr_ (q : RpcMockQuerier C) a e t key i m :
  i_cell i = PrivateCell m →
  ∃ i', on_instance (mkRpcContractInstance a i) (instance_query qr_ a e (QRaw t key)) q
    = (Ok (inr (default [] (m !! key)), i'), q).
Proof.
  intros Hi. destruct i as [api cell its ctr ro w]. cbn in Hi. subst cell.
  unfold on_instance, instance_query, with_storage, cell_read, storage_get. munfold. cbn.
  destruct (m !! key); by eexists.
Qed.

(** After the fetch the outcome depends on the compilation of the code only. *)
Lemma raw_query_present qr_ q a key cs :
  contract_states (q_states q) !! a = Some cs →
  query_contract qr_ (QRaw a key) q =
  match RpcMockApi_new (canonical_address_length (q_states q)) (bech32_prefix (q_states q)) with
  | inl e => (Err (BUnknown (Error_to_string e)), q)
  | inr api =>
      match instance_from_code (code cs) api (PrivateCell (storage cs)) with
      | inl e => (Err (BUnknown (VmError_to_string e)), q)
      | inr i => (Ok (SROk (CROk (raw_value cs key))), q)
      end
  end.
Proof.
  intros Ha. unfold query_contract. cbn [query_addr].
  assert ((unknown (on_states (fetch_contract_state a)) q) = (Ok tt, q)) as Hfetch.
  { unfold unknown, on_states, map_err, zoom. rewrite fetch_contract_cached by by eexists.
    by destruct q. }
  rewrite (bind_Ok _ _ _ _ _ Hfetch), bind_get, Ha. cbn [unwrap]. rewrite bind_ret_l.
  destruct (RpcMockApi_new _ _) as [e|api]; [done|].
  destruct (instance_from_code _ _ _) as [e|i] eqn:Hi; [done|]. rewrite bind_ret_l.
  destruct (raw_on_instance qr_ q a (contract_env (q_states q) a) a key i (storage cs)) as [i' Hrun].
  { by apply instance_from_code_cell in Hi as [? _]. }
  erewrite bind_Ok by (unfold unknown, map_err; by rewrite Hrun). done.
Qed.

(** A raw query answers with the bytes the contract stores under the key (its
    storage in the simulation, or on chain if it was not looked at yet), and with no
    bytes when there are none. It changes nothing if the contract is known, and it
    fails then only if the code does not load. *)
Theorem raw_query_reads_storage fuel request a key q :
  cc_inv (client (q_states q)) →
  from_slice_query_request request = inr (ReqWasm (QRaw a key)) → a ≠ PRINTER_ADDR →
  (∀ res q', query_raw fuel request q = (Ok res, q') →
     res = SROk (CROk (raw_value (contract (q_states q) a) key))) ∧
  (∀ cs api i, (0 < fuel)%nat → contract_states (q_states q) !! a = Some cs →
     RpcMockApi_new (canonical_address_length (q_states q)) (bech32_prefix (q_states q)) = inr api →
     instance_from_code (code cs) api (PrivateCell (storage cs)) = inr i →
     query_raw fuel request q = (Ok (SROk (CROk (raw_value cs key))), q)).
Proof.
  intros Hinv Hreq Hne. destruct fuel as [|fuel]; [split; [done|intros; lia]|].
  cbn [query_raw]. unfold query_raw_body. rewrite Hreq. cbn [query_addr].
  destruct (String.eqb_spec a PRINTER_ADDR) as [|_]; [done|]. split.
  - intros res q' H. unfold query_contract in H. cbn [query_addr] in H.
    apply bind_Ok_inv in H as (u & q1 & Hf & H).
    unfold unknown, on_states, map_err, zoom in Hf.
    destruct (fetch_contract_state a (q_states q)) as [[[]|e|p|] st1] eqn:Hfetch; try done.
    injection Hf as _ <-.
    destruct (fetch_contract_present _ _ _ _ Hfetch) as [cs Hcs].
    pose proof (fetch_contract_ext a (q_states q)) as Hext. rewrite Hfetch in Hext. cbn in Hext.
    assert (query_contract (query_raw fuel) (QRaw a key) (set_q_states st1 q) = (Ok res, q')) as H'.
    { unfold query_contract. cbn [query_addr].
      erewrite bind_Ok; [exact H|]. unfold unknown, on_states, map_err, zoom. cbn [set_q_states q_states].
      by rewrite fetch_contract_cached by by eexists. }
    rewrite (raw_query_present _ _ _ _ cs) in H' by done.
    repeat case_match; try done. injection H' as <- _. do 2 f_equal.
    pose proof (se_contract _ _ Hext Hinv a) as Hc. unfold contract at 1 in Hc. rewrite Hcs in Hc.
    cbn in Hc. by rewrite Hc.
  - intros cs api i _ Ha Hapi Hi. rewrite (raw_query_present _ _ _ _ cs) by done. by rewrite Hapi, Hi.
Qed.
End Queries.
