(* ===== verification/Atomicity.v ===== *)
(** * What a transaction changes

    [tx_le] relates the model before and during a transaction: the block, the
    sender, the provided codes and the chain behind the client stay, the address
    counters, the log, the compiled codes and the coverage only grow. On top of
    it: a contract error rolls everything back but the coverage, a success makes
    one block, an error of the simulator itself keeps what was done. *)

From S2P Require Import Prelude.
From S2P Require Import CwStd.
From S2P Require Import Errors.
From S2P Require Import Client.
From S2P Require Import Storage.
From S2P Require Import States.
From S2P Require Import Bank.
From S2P Require Import DebugLog.
From S2P Require Import Api.
From S2P Require Import Vm.
From S2P Require Import Querier.
From S2P Require Import Runs.
From S2P Require Import Model Messages.
From S2P Require Import Transactions.
From S2P Require Import ReadOnly.

Open Scope Z_scope.

Section Atomicity.
Context {C : Type} {HC : CwClientBackend C} {HV : ChainClient C} {HX : Externals}
  {HW : WasmEngine}.
Abbreviation MM := (M Error (Model C)).
Implicit Types (m : Model C) (st : AllStates C).

(** The part of the state that belongs to the block and to the chain. *)
Record block_frame st st' : Prop := mk_block_frame {
  bk_number : block_number st' = block_number st;
  bk_timestamp : block_timestamp st' = block_timestamp st;
  bk_chain_id : states_chain_id st' = states_chain_id st;
  bk_length : canonical_address_length st' = canonical_address_length st;
  bk_prefix : bech32_prefix st' = bech32_prefix st;
  bk_client : cc_stable (client st) (client st')
}.

#[export] Instance block_frame_refl : Reflexive block_frame.
Proof. by intros st. Qed.
#[export] Instance block_frame_trans : Transitive block_frame.
Proof. intros s1 s2 s3 [] []. split; congruence || by etrans. Qed.

Lemma bank_frame_block st st' : bank_frame st st' → block_frame st st'.
Proof. by intros []. Qed.
Lemma states_ext_block st st' : states_ext st st' → block_frame st st'.
Proof. by intros []. Qed.

Definition counter m (i : Z) : Z := default 0 (m_code_id_counters m !! i).

Definition coverage_of m (a : string) : list bytes :=
  default [] (coverage_data (m_coverage_info m) !! a).

Record tx_le m m' : Prop := mk_tx_le {
  tx_block : block_frame (m_states m) (m_states m');
  tx_sender : m_sender m' = m_sender m;
  tx_codes : m_custom_codes m' = m_custom_codes m;
  tx_counters : ∀ i, counter m i ≤ counter m' i;
  tx_cache : m_wasm_cache m ⊆ m_wasm_cache m';
  tx_enabled : enabled (m_coverage_info m') = enabled (m_coverage_info m);
  tx_coverage : ∀ a, coverage_of m a `prefix_of` coverage_of m' a;
  tx_log : log_le (m_debug_log m) (m_debug_log m')
}.

#[export] Instance tx_le_refl : Reflexive tx_le.
Proof. by intros m. Qed.
#[export] Instance tx_le_trans : Transitive tx_le.
Proof.
  intros m1 m2 m3 [? ? ? Hc1 ? ? Hv1 ?] [? ? ? Hc2 ? ? Hv2 ?].
  split; try (congruence || by etrans).
  - intros i. specialize (Hc1 i). specialize (Hc2 i). lia.
  - intros a. etrans; [apply Hv1|apply Hv2].
Qed.

Lemma on_m_states_tx {A} (f : M Error (AllStates C) A) :
  preserves block_frame f → preserves tx_le (on_m_states f).
Proof. intros Hf. eapply preserves_zoom; [exact Hf|]. by intros m st H. Qed.

Lemma on_m_log_tx {A} (f : M Error DebugLog A) :
  preserves log_le f → preserves tx_le (on_m_log f).
Proof. intros Hf. eapply preserves_zoom; [exact Hf|]. by intros m l H. Qed.

(** The outcome of [generate_address]. *)
Lemma generate_address_run i m :
  generate_address i m =
  if counter m i + 1 <? U64 then
    (match canonical_to_human (sha256 (as_bytes (address_seed i (counter m i))))
             (bech32_prefix (m_states m)) (canonical_address_length (m_states m)) with
     | inl e => Err (FormatError e)
     | inr a => Ok a
     end,
     set_m_code_id_counters (<[i := counter m i + 1]> (m_code_id_counters m)) m)
  else (Panic "attempt to add with overflow", m).
Proof.
  unfold generate_address, counter. munfold. destruct (_ <? U64); [|done].
  cbn. by destruct (canonical_to_human _ _ _).
Qed.

Lemma generate_address_tx i : preserves tx_le (generate_address i).
Proof.
  intros m. rewrite generate_address_run. case_match; [|done]. split; cbn; try done.
  intros j. unfold counter at 2. cbn. rewrite lookup_insert. case_decide; subst; cbn; [lia|done].
Qed.

Lemma coverage_tx a cov m :
  tx_le m (set_m_coverage_info (add_coverage a cov (m_coverage_info m)) m).
Proof.
  split; cbn; try done. intros b. unfold coverage_of; cbn. rewrite lookup_insert.
  case_decide; subst; cbn; [by eexists|done].
Qed.

Lemma tx_le_closed : Closed_Tx tx_le.
Proof.
  assert (∀ A (f : M Error (AllStates C) A),
    preserves states_ext f → preserves tx_le (on_m_states f)) as Hext.
  { intros A f Hf. apply on_m_states_tx.
    by eapply preserves_weaken; [apply states_ext_block|]. }
  split; try apply _.
  - intros a. apply Hext, fetch_contract_ext.
  - intros q. apply Hext. eapply preserves_weaken; [apply ledger_eq_ext|apply bank_query_ledger].
  - intros s b. apply on_m_states_tx.
    eapply preserves_weaken; [apply bank_frame_block|apply bank_execute_frame].
  - intros i. apply Hext, on_client_ext, cc_code_stable.
  - intros a cs. apply on_m_states_tx, preserves_modify. by intros st.
  - intros a. apply on_m_states_tx, preserves_modify. by intros st.
  - intros a s m. by destruct m.
  - intros r. apply on_m_log_tx, append_log_le.
  - intros e. apply on_m_log_tx, set_err_msg_le.
  - intros e. apply on_m_log_tx, begin_error_le.
  - intros l. apply on_m_log_tx, append_stdout_le.
  - intros kind a msg. apply on_m_log_tx, begin_context_le.
  - intros kind a msg m id m1 m2 Hb []. unfold on_m_log, zoom in Hb.
    destruct (begin_context json_display kind a msg (m_debug_log m)) as [r l1] eqn:Hb'.
    injection Hb as -> _. split; try done. by eapply end_context_le.
  - apply generate_address_tx.
  - apply coverage_tx.
  - intros code_ module m _ Hn. split; try done. by apply insert_subseteq.
Qed.

(** ** The end of a transaction *)
Definition rolled_back m m1 : Model C := set_m_coverage_info (m_coverage_info m1) m.

Definition committed m1 : Model C :=
  set_m_debug_log DebugLog_new
    (set_m_states (set_block_number (block_number (m_states m1) + 1) (m_states m1)) m1).

Lemma finish_failed m e m1 :
  finish_transaction m (CRErr e) m1 = (Ok (m_debug_log m1), rolled_back m m1).
Proof. done. Qed.

Lemma finish_succeeded m r m1 :
  block_number (m_states m1) + 1 < U64 → block_timestamp (m_states m1) + BLOCK_EPOCH < U64 →
  finish_transaction m (CROk r) m1 = (Ok (m_debug_log m1), committed m1).
Proof.
  intros Hn Ht. unfold finish_transaction, on_m_states, update_block, plus_nanos. munfold. cbn.
  rewrite (proj2 (Z.ltb_lt _ _) Hn), (proj2 (Z.ltb_lt _ _) Ht). done.
Qed.

(** The log handed out is the one of the run; the one kept is the earlier one or
    an empty one. *)
Lemma finish_log m res m1 log m' :
  finish_transaction m res m1 = (Ok log, m') →
  log = m_debug_log m1 ∧ (m_debug_log m' = m_debug_log m ∨ m_debug_log m' = DebugLog_new).
Proof.
  unfold finish_transaction. destruct res as [r|e]; cbn.
  - intros H. apply bind_Ok_inv in H as (u & m2 & Hu & H).
    rewrite bind_gets in H. injection H as <- <-. split; [|by right].
    unfold on_m_states, zoom in Hu. destruct (update_block (m_states m1)).
    by injection Hu as _ <-.
  - intros [= <- <-]. by split; [|left].
Qed.

(** What a caller of [execute] or [instantiate] sees of a run that was rolled back. *)
Lemma tx_le_rolled_back m m1 :
  tx_le m m1 →
  tx_le m (rolled_back m m1) ∧ (∀ a, coverage_of m a `prefix_of` coverage_of (rolled_back m m1) a).
Proof. intros []. split; [|done]. by split. Qed.
End Atomicity.

Section claims.
Context {C : Type} {HC : CwClientBackend C} {HV : ChainClient C} {HX : Externals}
  {HW : WasmEngine}.
Implicit Types m : Model C.

(** C1: A transaction whose contract (or bank transfer, or one of its messages)
    answers with an error leaves the model exactly as it was before, except that
    the coverage counters gathered on the way are kept; the caller gets the log
    of the failed run, which extends the earlier one and whose call graph is a
    tree if the earlier one was. *)
Theorem execute_failure_rolls_back fuel contract_addr msg funds_ m e m1 :
  execute_inner (query_raw fuel) (handle_response fuel) contract_addr (m_sender m) msg funds_ m
    = (Ok (CRErr e), m1) →
  Model_execute fuel contract_addr msg funds_ m = (Ok (m_debug_log m1), rolled_back m m1) ∧
  (∀ a, coverage_of m a `prefix_of` coverage_of (rolled_back m m1) a) ∧
  log_le (m_debug_log m) (m_debug_log m1).
Proof.
  intros H. pose proof (execute_tx tx_le tx_le_closed fuel contract_addr (m_sender m) msg funds_ m)
    as Hle. rewrite H in Hle. cbn in Hle. split_and!.
  - unfold Model_execute, execute. by rewrite bind_get, (bind_Ok _ _ _ _ _ H).
  - by apply tx_le_rolled_back.
  - apply Hle.
Qed.

(** C2: The same of [instantiate]: the new contract, the transferred funds and
    the address counter are taken back as well. *)
Theorem instantiate_failure_rolls_back fuel code_id msg funds_ m e o m1 :
  instantiate_inner (query_raw fuel) (handle_response fuel) code_id (m_sender m) msg funds_ m
    = (Ok (CRErr e, o), m1) →
  Model_instantiate fuel code_id msg funds_ m = (Ok (m_debug_log m1), rolled_back m m1) ∧
  (∀ a, coverage_of m a `prefix_of` coverage_of (rolled_back m m1) a) ∧
  log_le (m_debug_log m) (m_debug_log m1).
Proof.
  intros H. pose proof (instantiate_tx tx_le tx_le_closed fuel code_id (m_sender m) msg funds_ m)
    as Hle. rewrite H in Hle. cbn in Hle. split_and!.
  - unfold Model_instantiate, instantiate. by rewrite bind_get, (bind_Ok _ _ _ _ _ H).
  - by apply tx_le_rolled_back.
  - apply Hle.
Qed.

(** C3: A transaction that succeeds makes one block: the block number is one
    more than before the transaction (no message of it made a block of its own),
    the sender and the provided codes are those of before, the log is handed out
    and emptied. The timestamp stays as it was, although the doc comment of
    [update_block] (states.rs, lines 103 to 105) says that a block increments it by a
    constant: the code drops the result of [plus_nanos]. *)
Theorem execute_success_makes_block fuel contract_addr msg funds_ m r m1 :
  block_number (m_states m) + 1 < U64 →
  block_timestamp (m_states m) + BLOCK_EPOCH < U64 →
  execute_inner (query_raw fuel) (handle_response fuel) contract_addr (m_sender m) msg funds_ m
    = (Ok (CROk r), m1) →
  Model_execute fuel contract_addr msg funds_ m = (Ok (m_debug_log m1), committed m1) ∧
  block_number (m_states (committed m1)) = block_number (m_states m) + 1 ∧
  block_timestamp (m_states (committed m1)) = block_timestamp (m_states m) ∧
  m_sender (committed m1) = m_sender m ∧ m_custom_codes (committed m1) = m_custom_codes m ∧
  m_debug_log (committed m1) = DebugLog_new ∧
  log_le (m_debug_log m) (m_debug_log m1).
Proof.
  intros Hn Ht H.
  pose proof (execute_tx tx_le tx_le_closed fuel contract_addr (m_sender m) msg funds_ m) as Hle.
  rewrite H in Hle. destruct Hle as [[En Et ? ? ? ?] Es Ec ? ? ? ? Hl]; cbn in *.
  unfold Model_execute, execute. rewrite bind_get, (bind_Ok _ _ _ _ _ H).
  rewrite finish_succeeded by (by rewrite ?En, ?Et). by rewrite En.
Qed.

(** C10: The log a transaction returns, successful or not, has a call graph that
    is a tree in which every call is reached from the root, and the log the model
    keeps for the next transaction again has one. *)
Theorem transaction_call_graph_is_a_tree fuel contract_addr msg funds_ m log m' :
  trace_wf (call_trace (m_debug_log m)) →
  Model_execute fuel contract_addr msg funds_ m = (Ok log, m') →
  trace_wf (call_trace log) ∧
  (∀ i, 0 ≤ i ≤ call_id_counter (call_trace log) → rtc (edge (call_trace log)) 0 i) ∧
  trace_wf (call_trace (m_debug_log m')).
Proof.
  intros Hwf H. unfold Model_execute, execute in H. rewrite bind_get in H.
  apply bind_Ok_inv in H as (res & m1 & H1 & H2).
  pose proof (execute_tx tx_le tx_le_closed fuel contract_addr (m_sender m) msg funds_ m) as Hle.
  rewrite H1 in Hle. cbn in Hle.
  assert (trace_wf (call_trace (m_debug_log m1))) as Hwf1 by (by apply Hle).
  apply finish_log in H2 as [-> Hlog].
  split_and!; [done|intros i Hi; by apply trace_wf_reaches|].
  destruct Hlog as [->| ->]; [done|apply CallTrace_new_wf].
Qed.
End claims.

(** ** Contract code and the bank *)
Section bank.
Context {C : Type} {HC : CwClientBackend C} {HV : ChainClient C} {HX : Externals}
  {HW : WasmEngine}.
Implicit Types (m : Model C) (q : RpcMockQuerier C).

(** The ledger of the shared state, as it shows through the cache. *)
Definition same_ledger q q' : Prop :=
  cc_stable (client (q_states q)) (client (q_states q')) ∧
  (cc_inv (client (q_states q)) → ∀ o, account (q_states q') o = account (q_states q) o).

#[export] Instance same_ledger_refl : Reflexive same_ledger.
Proof. by intros q. Qed.
#[export] Instance same_ledger_trans : Transitive same_ledger.
Proof.
  intros q1 q2 q3 [S1 A1] [S2 A2]. split; [by etrans|].
  intros Hinv o. rewrite A2, A1; [done|done|by apply S1].
Qed.

Lemma query_le_ledger q q' : query_le q q' → same_ledger q q'.
Proof. intros [[] _ _ _]. by split. Qed.

Lemma same_ledger_closed : Closed_Querier same_ledger.
Proof.
  pose proof query_le_closed as [_ _ Hf Hb Hs Hq _].
  split; try apply _; intros; try (eapply preserves_weaken; [apply query_le_ledger|auto]).
  done.
Qed.

(** Running contract code, whatever it does, keeps every balance. *)
Lemma run_instance_ledger {A} i (call : M Error (Environment C WInst) A) m :
  preserves (env_rel same_ledger True) call →
  same_ledger (m_querier m) (m_querier (run_instance i call m).2).
Proof.
  intros Hc. pose proof (on_instance_keeps same_ledger True i call) as Hk.
  specialize (Hk (or_introl I) Hc (m_querier m)). unfold run_instance, on_m_querier, zoom.
  by destruct (on_instance i call (m_querier m)) as [r [st l]].
Qed.

Lemma transfer_funds_ledger src dst cs m m' :
  cc_inv (client (m_states m)) →
  transfer_funds src dst cs m = (Ok None, m') →
  cc_inv (client (m_states m')) ∧
  ∀ o d, bal (m_states m') o d = bal (m_states m) o d + send_delta src dst cs o d.
Proof.
  intros Hinv. unfold transfer_funds. destruct cs as [|c cs]; cbn [length Nat.ltb Nat.leb].
  { intros [= <-]. split; [done|]. intros o d. unfold send_delta; cbn. repeat case_decide; lia. }
  unfold on_m_states, zoom, mbind, M_bind.
  destruct (bank_execute src (BankSend dst (c :: cs)) (m_states m)) as [[[r|e]| | |] st'] eqn:Hb;
    cbn; intros [= <-]. cbn.
  destruct (bank_send_loop_Ok _ _ _ _ _ _ _ Hinv Hb) as (dn & F & B & -> & _).
  split; [by apply F|done].
Qed.

Lemma execute_call_ledger fuel e msg s f :
  preserves (env_rel same_ledger True) (instance_execute (query_raw fuel) e msg s f).
Proof.
  apply preserves_map_err, call_execute_keeps; [apply same_ledger_closed|done| |done].
  intros req. apply query_raw_keeps, same_ledger_closed.
Qed.

Lemma create_instance_ledger a m i m1 :
  cc_inv (client (m_states m)) → create_instance a m = (Ok i, m1) →
  cc_inv (client (m_states m1)) ∧ (∀ o, account (m_states m1) o = account (m_states m) o).
Proof.
  intros Hinv H. pose proof (create_instance_uncovered a m) as Hu. rewrite H in Hu.
  destruct Hu as (Hq & _). apply query_le_ledger in Hq as [S A]. split; [by apply S|by apply A].
Qed.

(** An error that is not an answer of the contract (a trap, a write of a
    malformed region, a failing query of the client) is returned without any
    roll-back: the funds sent with the call stay with the contract. *)
Theorem hard_error_keeps_transfer fuel a msg f m i m1 m2 id m3 e i' m4 :
  cc_inv (client (m_states m)) →
  create_instance a m = (Ok i, m1) →
  transfer_funds (m_sender m) a f m1 = (Ok None, m2) →
  on_m_log (begin_execute json_display a msg) m2 = (Ok id, m3) →
  run_instance i (instance_execute (query_raw fuel) (contract_env (m_states m) a) msg (m_sender m) f)
    m3 = (Ok (inl e, i'), m4) →
  Model_execute fuel a msg f m = (Err e, m4) ∧
  ∀ o d, bal (m_states m4) o d = bal (m_states m) o d + send_delta (m_sender m) a f o d.
Proof.
  intros Hinv H1 H2 H3 H4. split.
  - unfold Model_execute, execute, execute_inner, env, call_and_cover.
    rewrite bind_get. apply bind_Err. rewrite bind_gets.
    rewrite (bind_Ok _ _ _ _ _ H1), (bind_Ok _ _ _ _ _ H2), (bind_Ok _ _ _ _ _ H3).
    apply bind_Err. by rewrite (bind_Ok _ _ _ _ _ H4).
  - destruct (create_instance_ledger _ _ _ _ Hinv H1) as [I1 A1].
    destruct (transfer_funds_ledger _ _ _ _ _ I1 H2) as [I2 B2].
    assert (m_states m3 = m_states m2) as E3.
    { unfold on_m_log, zoom in H3. destruct (begin_execute _ _ _ _). by injection H3 as _ <-. }
    pose proof (run_instance_ledger i _ m3
      (execute_call_ledger fuel (contract_env (m_states m) a) msg (m_sender m) f)) as [S4 A4].
    rewrite H4 in S4, A4; cbn in S4, A4. rewrite E3 in *.
    intros o d. unfold bal at 1. rewrite A4 by done. fold (bal (m_states m2) o d). rewrite B2.
    unfold bal. by rewrite A1.
Qed.

(** The same relation on models, and the steps of a call that keep it. *)
Definition keeps_ledger m m' : Prop := same_ledger (m_querier m) (m_querier m').

#[local] Instance keeps_ledger_refl : Reflexive keeps_ledger.
Proof. intros m. apply same_ledger_refl. Qed.
#[local] Instance keeps_ledger_trans : Transitive keeps_ledger.
Proof. intros m1 m2 m3. apply same_ledger_trans. Qed.

Lemma keeps_ledger_bal m m' :
  keeps_ledger m m' → cc_inv (client (m_states m)) →
  cc_inv (client (m_states m')) ∧ ∀ o d, bal (m_states m') o d = bal (m_states m) o d.
Proof. intros [S A] Hinv. split; [by apply S|]. intros o d. unfold bal. by rewrite A. Qed.

Lemma on_m_log_ledger {A} (f : M Error DebugLog A) : preserves keeps_ledger (on_m_log f).
Proof. intros m. unfold on_m_log, zoom. destruct (f (m_debug_log m)). split; [reflexivity|done]. Qed.

Lemma create_instance_keeps a : preserves keeps_ledger (create_instance a).
Proof. intros m. apply query_le_ledger. by destruct (create_instance_uncovered a m). Qed.

Lemma dump_coverage_ledger fuel :
  preserves (env_rel same_ledger True) (dump_coverage (query_raw fuel)).
Proof.
  pose proof (env_rel_refl (W := WInst) same_ledger same_ledger_closed True).
  pose proof (env_rel_trans (W := WInst) same_ledger same_ledger_closed True).
  unfold dump_coverage. pres. apply call_raw_keeps; [apply same_ledger_closed|done|].
  intros req. apply query_raw_keeps, same_ledger_closed.
Qed.

Lemma call_and_cover_ledger {A} fuel i (call : M Error (Environment C WInst) A) :
  preserves (env_rel same_ledger True) call →
  preserves keeps_ledger (call_and_cover (query_raw fuel) i call).
Proof.
  intros Hc. unfold call_and_cover, handle_coverage. pres.
  - intros m. by apply run_instance_ledger.
  - intros m. apply run_instance_ledger, dump_coverage_ledger.
  - apply preserves_modify. intros m. split; [reflexivity|done].
Qed.

Lemma reply_call_ledger fuel e r :
  preserves (env_rel same_ledger True) (instance_reply (query_raw fuel) e r).
Proof.
  apply preserves_map_err, call_reply_keeps; [apply same_ledger_closed|done| |done].
  intros req. apply query_raw_keeps, same_ledger_closed.
Qed.

(** The callee is paid, is called and answers with the error [e], which is logged. *)
Definition pays_and_fails (fuel : nat) (origin target : Addr) (msg : bytes) (f : list Coin)
    m (e : string) m' : Prop :=
  ∃ i m1 m2 c m3 m4,
    create_instance target m = (Ok i, m1) ∧
    transfer_funds origin target f m1 = (Ok None, m2) ∧
    on_m_log (begin_execute json_display target msg) m2 = (Ok c, m3) ∧
    call_and_cover (query_raw fuel) i
      (instance_execute (query_raw fuel) (contract_env (m_states m) target) msg origin f) m3
      = (Ok (CRErr e), m4) ∧
    on_m_log (begin_error e) (on_m_log (set_err_msg e) m4).2 = (Ok tt, m').

(** The contract that sent the message replies to the error [e] with a success that sends
    nothing. *)
Definition accepts_failure (fuel : nat) (origin : Addr) (msg : bytes) (id : Z) (e : string)
    m (r : Response) m' : Prop :=
  ∃ i m1 c m2,
    create_instance origin m = (Ok i, m1) ∧
    on_m_log (begin_reply json_display origin msg) m1 = (Ok c, m2) ∧
    call_and_cover (query_raw fuel) i
      (instance_reply (query_raw fuel) (contract_env (m_states m) origin) (mkReply id (SMRErr e))) m2
      = (Ok (CROk r), m') ∧
    messages r = [].

Lemma pays_and_fails_runs fuel origin target msg f m e m' hr :
  pays_and_fails fuel origin target msg f m e m' → cc_inv (client (m_states m)) →
  execute_inner (query_raw fuel) hr target origin msg f m = (Ok (CRErr e), m') ∧
  cc_inv (client (m_states m')) ∧
  ∀ o d, bal (m_states m') o d = bal (m_states m) o d + send_delta origin target f o d.
Proof.
  intros (i & m1 & m2 & c & m3 & m4 & H1 & H2 & H3 & H4 & H5) Hinv. split.
  { unfold execute_inner, env.
    rewrite bind_gets, (bind_Ok _ _ _ _ _ H1), (bind_Ok _ _ _ _ _ H2), (bind_Ok _ _ _ _ _ H3),
      (bind_Ok _ _ _ _ _ H4).
    rewrite (bind_Ok (on_m_log (set_err_msg e)) _ m4 tt (on_m_log (set_err_msg e) m4).2) by done.
    by rewrite (bind_Ok _ _ _ _ _ H5). }
  destruct (create_instance_ledger _ _ _ _ Hinv H1) as [I1 A1].
  destruct (transfer_funds_ledger _ _ _ _ _ I1 H2) as [I2 B2].
  assert (keeps_ledger m2 m') as Hk.
  { pose proof (on_m_log_ledger (begin_execute json_display target msg) m2) as K3. rewrite H3 in K3.
    pose proof (call_and_cover_ledger fuel i _
      (execute_call_ledger fuel (contract_env (m_states m) target) msg origin f) m3) as K4.
    rewrite H4 in K4. etrans; [exact K3|]. etrans; [exact K4|].
    etrans; [apply (on_m_log_ledger (set_err_msg e))|].
    pose proof (on_m_log_ledger (begin_error e) (on_m_log (set_err_msg e) m4).2) as K5.
    by rewrite H5 in K5. }
  destruct (keeps_ledger_bal _ _ Hk I2) as [I4 B4]. split; [done|].
  intros o d. rewrite B4, B2. unfold bal. by rewrite A1.
Qed.

Lemma accepts_failure_runs fuel origin msg id ro payload e m r m' :
  accepts_failure (S fuel) origin msg id e m r m' → cc_inv (client (m_states m)) →
  do_reply ro (@CRErr Response e) = true →
  ∃ m'', handle_submessage_response (query_raw (S fuel)) (handle_response (S fuel))
      origin msg id ro payload (CRErr e) m = (Ok (CROk r), m'') ∧
    ∀ o d, bal (m_states m'') o d = bal (m_states m) o d.
Proof.
  intros (i & m1 & c & m2 & H1 & H2 & H3 & Hr) Hinv Hro.
  exists (on_m_log (end_reply c) (on_m_log (append_log r) m').2).2. split.
  - unfold handle_submessage_response, env.
    rewrite Hro, bind_gets, (bind_Ok _ _ _ _ _ H1), (bind_Ok _ _ _ _ _ H2), (bind_Ok _ _ _ _ _ H3).
    rewrite (bind_Ok (on_m_log (append_log r)) _ m' tt (on_m_log (append_log r) m').2) by done.
    by rewrite (bind_Ok _ _ _ _ _ (handle_response_no_messages fuel origin r _ Hr)).
  - pose proof (create_instance_keeps origin m) as K1. rewrite H1 in K1.
    pose proof (on_m_log_ledger (begin_reply json_display origin msg) m1) as K2. rewrite H2 in K2.
    pose proof (call_and_cover_ledger (S fuel) i _ (reply_call_ledger (S fuel)
      (contract_env (m_states m) origin) (mkReply id (SMRErr e))) m2) as K3. rewrite H3 in K3.
    eapply keeps_ledger_bal; [|exact Hinv]. etrans; [exact K1|]. etrans; [exact K2|]. etrans; [exact K3|].
    etrans; [apply (on_m_log_ledger (append_log r))|apply on_m_log_ledger].
Qed.

(** C38: A submessage that fails and whose error is replied to is not reverted, although the
    documentation of [SubMsg] says its changes are: when the callee has been paid and answers with
    an error, and the reply of the sender accepts that error, the submessage as a whole succeeds
    with the reply's response and the coins stay with the callee; no other balance moves. *)
Theorem failed_submessage_is_not_reverted fuel origin target msg f id ro m e m1 r m2 :
  cc_inv (client (m_states m)) →
  pays_and_fails (S fuel) origin target msg f m e m1 →
  do_reply ro (@CRErr Response e) = true →
  accepts_failure (S fuel) origin msg id e m1 r m2 →
  ∃ m', handle_submessage_execute (query_raw (S fuel)) (handle_response (S fuel))
      origin target msg f id ro m = (Ok (CROk r), m') ∧
    ∀ o d, bal (m_states m') o d = bal (m_states m) o d + send_delta origin target f o d.
Proof.
  intros Hinv Hfail Hro Hacc.
  destruct (pays_and_fails_runs _ _ _ _ _ _ _ _ (handle_response (S fuel)) Hfail Hinv) as (Hrun & I1 & B1).
  destruct (accepts_failure_runs fuel origin msg id ro encode_execute_response e m1 r m2 Hacc I1 Hro)
    as (m' & Hreply & B2).
  exists m'. split; [|intros o d; by rewrite B2, B1].
  unfold handle_submessage_execute. by rewrite (bind_Ok _ _ _ _ _ Hrun).
Qed.
End bank.
