(* ===== verification/Termination.v ===== *)
(** * Termination

    A contract can answer every call with a message to itself, and then a
    transaction does not end: the source recurses without a bound, and so does
    the model, which runs out of any fuel. A transaction does end when the
    messages of the contracts, their replies and the queries they make can be
    ranked so that every call causes smaller ones only. The rank then bounds the
    fuel, and the result is the one of every larger fuel. *)

From S2P Require Import Prelude.
From S2P Require Import CwStd.
From S2P Require Import Errors.
From S2P Require Import Client.
From S2P Require Import Storage.
From S2P Require Import States.
From S2P Require Import Bank.
From S2P Require Import DebugLog.
From S2P Require Import Api.
From S2P Require Import Vm.
From S2P Require Import Querier.
From S2P Require Import Model.
From S2P Require Import Messages.

Open Scope Z_scope.

(** ** Total correctness of a call

    [halts P m]: from every state, [m] does not run out of fuel, and a normal
    result satisfies [P]. *)
Definition halts {E S A} (P : A → Prop) (m : M E S A) : Prop := ∀ s,
  match (m s).1 with Ok a => P a | OutOfFuel => False | _ => True end.

Create HintDb halts.

Section halts.
Context {E S : Type}.

Lemma halts_ret {A} (P : A → Prop) a : P a → halts P (mret a : M E S A).
Proof. by intros H s. Qed.
Lemma halts_throw {A} (P : A → Prop) (e : E) : halts P (throw e : M E S A).
Proof. by intros s. Qed.
Lemma halts_panic {A} (P : A → Prop) msg : halts P (panic msg : M E S A).
Proof. by intros s. Qed.
Lemma halts_get (P : S → Prop) : (∀ s, P s) → halts P (get : M E S S).
Proof. intros H s. apply H. Qed.
Lemma halts_gets {A} (P : A → Prop) (f : S → A) : (∀ s, P (f s)) → halts P (gets f : M E S A).
Proof. intros H s. apply H. Qed.
Lemma halts_put (s0 : S) (P : unit → Prop) : P tt → halts P (put s0 : M E S unit).
Proof. by intros H s. Qed.
Lemma halts_modify f (P : unit → Prop) : P tt → halts P (modify f : M E S unit).
Proof. by intros H s. Qed.
Lemma halts_unwrap {A} (P : A → Prop) msg o :
  (∀ a, o = Some a → P a) → halts P (unwrap msg o : M E S A).
Proof. intros H s. destruct o; [by apply H|done]. Qed.
Lemma halts_of_sum {A} (P : A → Prop) (r : E + A) :
  (∀ a, r = inr a → P a) → halts P (of_sum r : M E S A).
Proof. intros H s. destruct r; [done|by apply H]. Qed.
Lemma halts_add w x y (P : Z → Prop) : (∀ z, P z) → halts P (add_or_panic w x y : M E S Z).
Proof. intros H s. unfold add_or_panic. by destruct (_ <? _); [apply H|]. Qed.
Lemma halts_sub x y (P : Z → Prop) : (∀ z, P z) → halts P (sub_or_panic x y : M E S Z).
Proof. intros H s. unfold sub_or_panic. by destruct (_ <=? _); [apply H|]. Qed.

Lemma halts_weaken {A} (P Q : A → Prop) (m : M E S A) :
  halts P m → (∀ a, P a → Q a) → halts Q m.
Proof. intros Hm HPQ s. specialize (Hm s). destruct (m s).1; try done. by apply HPQ. Qed.

Lemma halts_bind {A B} (Q : A → Prop) (P : B → Prop) (m : M E S A) (k : A → M E S B) :
  halts Q m → (∀ a, Q a → halts P (k a)) → halts P (m ≫= k).
Proof.
  intros Hm Hk s. specialize (Hm s). unfold mbind, M_bind.
  destruct (m s) as [[a|e|p|] s']; cbn in *; try done. by apply Hk.
Qed.

Lemma halts_catch {A} (Q : A → Prop) (P : E + A → Prop) (m : M E S A) :
  halts Q m → (∀ e, P (inl e)) → (∀ a, Q a → P (inr a)) → halts P (catch m).
Proof.
  intros Hm He Ha s. specialize (Hm s). unfold catch.
  destruct (m s) as [[a|e|p|] s']; cbn in *; auto.
Qed.

Lemma halts_map_err {F A} (P : A → Prop) (f : E → F) (m : M E S A) :
  halts P m → halts P (map_err f m).
Proof.
  intros Hm s. specialize (Hm s). unfold map_err. by destruct (m s) as [[] ?].
Qed.

Lemma halts_zoom {T A} (P : A → Prop) (view : T → S) upd (m : M E S A) :
  halts P m → halts P (zoom view upd m).
Proof. intros Hm t. specialize (Hm (view t)). unfold zoom. by destruct (m (view t)) as [r s]. Qed.

Lemma halts_not_out_of_fuel {A} (P : A → Prop) (m : M E S A) s : halts P m → (m s).1 ≠ OutOfFuel.
Proof. intros Hm. specialize (Hm s). by destruct (m s).1. Qed.
End halts.

#[export] Hint Resolve halts_ret halts_throw halts_panic halts_get halts_gets halts_put halts_modify
  halts_unwrap halts_of_sum halts_add halts_sub halts_map_err halts_zoom : halts.

(** Prove [halts P m] for a [m] built from the combinators; nothing is kept of the
    results on the way. *)
Abbreviation any := (λ _, True).
Ltac halts_step :=
  match goal with
  | |- halts _ (mbind _ _) => apply (halts_bind any); [|intros ? _]
  | |- halts _ (match ?x with _ => _ end) => destruct x eqn:?
  | |- halts _ (map_err _ _) => apply halts_map_err
  | |- halts _ (zoom _ _ _) => apply halts_zoom
  | |- halts _ (let _ := _ in _) => cbv zeta
  end.
Ltac halts := repeat first [solve [eauto with halts] | halts_step].

Lemma halts_yields {E S A} (P Q : A → Prop) (m : M E S A) :
  halts P m → yields Q m → halts (λ a, P a ∧ Q a) m.
Proof.
  intros Hm Hy s. specialize (Hm s). specialize (Hy s).
  destruct (m s) as [[a|e|p|] s']; cbn in *; try done. split; [done|by eapply Hy].
Qed.

(** ** What the host does by itself ends *)

(** A client whose queries come back. *)
Class ClientHalts (C : Type) {HC : CwClientBackend C} : Prop := {
  ch_balances a : halts any (cb_query_bank_all_balances a : M Error C _);
  ch_state a : halts any (cb_query_wasm_contract_state_all a : M Error C _);
  ch_info a : halts any (cb_query_wasm_contract_info a : M Error C _);
  ch_code i : halts any (cb_query_wasm_contract_code i : M Error C _)
}.

#[export] Hint Resolve ch_balances ch_state ch_info ch_code : halts.

Section host.
Context {C : Type} {HC : CwClientBackend C} {HCh : ClientHalts C} {HX : Externals}.
Abbreviation ST := (M Error (AllStates C)).

Lemma get_balance_halts o d : halts any (get_balance o d : ST Z).
Proof. unfold get_balance, fetch_bank_state, on_client, get_bank_state, insert_bank_state. halts. Qed.
Lemma set_balance_halts o d v : halts any (set_balance o d v : ST unit).
Proof. unfold set_balance. halts. Qed.
Hint Resolve get_balance_halts set_balance_halts : halts.

Lemma bank_execute_halts s msg : halts any (bank_execute s msg : ST (ContractResult Response)).
Proof.
  destruct msg as [dst cs|cs]; cbn [bank_execute]; unfold bank_send.
  - generalize (@nil Event). induction cs as [|c cs IH]; intros evs; cbn [bank_send_loop]; halts.
  - induction cs as [|c cs IH]; cbn [bank_burn]; halts.
Qed.

Lemma bank_query_halts q : halts any (bank_query q : ST Binary).
Proof.
  destruct q; unfold bank_query, get_balances, fetch_bank_state, on_client, get_bank_state,
    insert_bank_state; halts.
Qed.

Lemma fetch_contract_halts a : halts any (fetch_contract_state a : ST unit).
Proof.
  unfold fetch_contract_state, contract_state_get, on_client, maybe_unzip, contract_state_insert. halts.
Qed.
End host.
#[export] Hint Resolve bank_execute_halts bank_query_halts fetch_contract_halts : halts.

Section log.
Context {E : Type} {HX : Externals}.
Abbreviation LOG := (M E DebugLog).

Lemma begin_context_halts kind a msg : halts any (begin_context json_display kind a msg : LOG Z).
Proof. unfold begin_context, on_trace, begin_call. halts. Qed.
Lemma end_context_halts id : halts any (on_trace (end_call id) : LOG unit).
Proof. unfold on_trace, end_call. halts. Qed.
Lemma begin_error_halts e : halts any (begin_error e : LOG unit).
Proof. unfold begin_error, on_trace, error_call. halts. Qed.
Lemma set_err_msg_halts e : halts any (set_err_msg e : LOG unit).
Proof. unfold set_err_msg. halts. Qed.
Lemma append_log_halts r : halts any (append_log r : LOG unit).
Proof. unfold append_log. halts. Qed.
Lemma append_stdout_halts r : halts any (append_stdout r : LOG unit).
Proof. unfold append_stdout. halts. Qed.
End log.
#[export] Hint Resolve begin_context_halts end_context_halts begin_error_halts set_err_msg_halts
  append_log_halts append_stdout_halts : halts.

(** ** Guests *)

(** [guest_ok ask ret g]: whatever the host answers, every query [g] makes
    satisfies [ask] and every result it returns satisfies [ret]. *)
Fixpoint guest_ok {W} (ask ret : bytes → Prop) (g : Guest W) : Prop :=
  match g with
  | GReturn _ result => ret result
  | GTrap _ _ => True
  | GHost _ op k =>
      match op with HQueryChain request => ask request | _ => True end ∧
      ∀ r, guest_ok ask ret (k r)
  end.

Section guests.
Context {C W : Type} {HC : CwClientBackend C} {HX : Externals}.
Abbreviation VM := (M VmError (Environment C W)).
Context (q : bytes → M BackendError (RpcMockQuerier C) (SystemResult (ContractResult Binary))).

Lemma with_storage_halts {A} conv (m : M BackendError RpcMockStorage A) :
  halts any m → halts any (with_storage conv m : VM A).
Proof.
  intros Hm v. unfold with_storage. destruct (cell_read v) as [cell|]; [|done].
  match goal with |- context [m ?s] => specialize (Hm s); destruct (m s) as [[] ?] end; done.
Qed.

Lemma user_error_halts {A} (m : M BackendError (Environment C W) A) :
  halts any m → halts any (user_error m : VM _).
Proof. intros Hm v. specialize (Hm v). unfold user_error. by destruct (m v) as [[|[]| |] ?]. Qed.
Hint Resolve with_storage_halts user_error_halts : halts.

Lemma canonical_address_halts {S} api h : halts any (canonical_address api h : M BackendError S _).
Proof. unfold canonical_address, api_prefix. halts. Qed.
Lemma human_address_halts {S} api h : halts any (human_address api h : M BackendError S _).
Proof. unfold human_address, api_prefix. halts. Qed.
Lemma scan_halts start stop o : halts any (scan start stop o).
Proof. unfold scan, new_iterator. halts. Qed.
Lemma next_halts i : halts any (next i).
Proof. unfold next. halts. Qed.
Hint Resolve canonical_address_halts human_address_halts scan_halts next_halts : halts.

Lemma read_region_halts d n : halts (λ r, r = d) (read_region d n : VM bytes).
Proof. unfold read_region. halts. Qed.

Lemma host_call_halts (ask : bytes → Prop) {R} (op : hostE R) :
  (∀ r, ask r → halts any (q r)) →
  match op with HQueryChain request => ask request | _ => True end →
  halts any (host_call q op : VM R).
Proof.
  intros Hq. destruct op; cbn [host_call];
    unfold do_db_read, do_db_write, do_db_remove, do_addr_validate, do_addr_canonicalize,
      do_addr_humanize, do_query_chain, do_db_scan, do_db_next, do_debug, do_abort,
      maybe_read_region, write_region, storage_get, storage_set, storage_remove; intros Hop.
  7: { eapply halts_bind; [apply read_region_halts|]. intros ? ->. halts. }
  all: unfold read_region; halts.
Qed.

Lemma run_guest_halts (ask ret : bytes → Prop) (g : Guest W) :
  (∀ r, ask r → halts any (q r)) → guest_ok ask ret g →
  halts ret (run_guest q g : VM bytes).
Proof.
  intros Hq. induction g as [w b|w e|w R op k IH]; cbn [run_guest guest_ok]; intros Hg;
    unfold set_wasm; [halts..|].
  destruct Hg as [Hop Hk]. apply (halts_bind any); [halts|]. intros _ _.
  apply (halts_bind any); [by apply halts_map_err, (host_call_halts ask)|].
  intros r _. by apply IH.
Qed.
End guests.

(** ** Ranked contracts *)
Section ranked.
Context {C : Type} {HC : CwClientBackend C} {HCh : ClientHalts C}
  {HX : Externals} {HW : WasmEngine}.
Abbreviation MM := (M Error (Model C)).
Abbreviation ENV := (Environment C WInst).

(** A rank for the messages contracts are called with, for the ids they ask
    replies under and for the messages they are queried with. *)
Context (rank : bytes → nat) (rank_reply : Z → nat) (rank_query : bytes → nat).
Open Scope nat_scope.

Definition sub_rank (sm : SubMsg) : nat :=
  match sm_msg sm with
  | MsgWasm (WasmExecute _ msg _) | MsgWasm (WasmInstantiate _ _ msg _ _) =>
      rank msg `max` rank_reply (sm_id sm)
  | _ => 0
  end.

Definition below (n : nat) (r : Response) : Prop := Forall (λ sm, sub_rank sm < n) (messages r).

Definition request_rank (request : bytes) : nat :=
  match from_slice_query_request request with
  | inr (ReqWasm (QSmart _ msg)) => rank_query msg
  | _ => 0
  end.

(** The answer of a contract, decoded, sends messages below [n] only. *)
Definition answers_below (n : nat) (b : bytes) : Prop :=
  ∀ r, from_slice_response b = inr (CROk r) → below n r.

(** Every call causes smaller calls only: a call sends messages smaller than the
    one it handles, a query makes smaller queries, and no call makes a query of
    rank [N] or more. *)
Record ranked_contracts (N : nat) : Prop := {
  rc_execute w env info msg :
    guest_ok (λ r, request_rank r < N) (answers_below (rank msg))
      (call_export w "execute" [env; info; msg]);
  rc_instantiate w env info msg :
    guest_ok (λ r, request_rank r < N) (answers_below (rank msg))
      (call_export w "instantiate" [env; info; msg]);
  rc_reply w env reply b : to_vec_reply reply = inr b →
    guest_ok (λ r, request_rank r < N) (answers_below (rank_reply (reply_id reply)))
      (call_export w "reply" [env; b]);
  rc_query w env msg :
    guest_ok (λ r, request_rank r < rank_query msg) any
      (call_export w "query" [env; msg]);
  rc_coverage w :
    guest_ok (λ r, request_rank r < N) any (call_export w "dump_coverage" [])
}.

Context (N : nat) (HR : ranked_contracts N).

Lemma call_raw_halts ask ret q name args n :
  (∀ r, ask r → halts any (q r)) → (∀ w, guest_ok ask ret (call_export w name args)) →
  halts ret (call_raw q name args n : M VmError ENV bytes).
Proof.
  intros Hq Hg. unfold call_raw. apply (halts_bind any); [halts|]. intros v _.
  eapply halts_bind; [by eapply run_guest_halts|]. intros b Hb.
  eapply halts_weaken; [apply read_region_halts|]. by intros ? ->.
Qed.

Lemma decode_halts n (b : bytes) limit :
  answers_below n b →
  halts (λ res, ∀ r, res = CROk r → below n r)
    (vm_from_slice from_slice_response "ContractResult<Response>" b limit
      : M VmError ENV (ContractResult Response)).
Proof.
  intros Hb. unfold vm_from_slice. halts. apply halts_ret. intros r ->. by apply Hb.
Qed.

Lemma on_instance_halts {A} (P : A → Prop) i (m : M Error ENV A) :
  halts P m → halts (λ ri, ∀ a, ri.1 = inr a → P a) (on_instance i m).
Proof.
  intros Hm q. unfold on_instance. specialize (Hm (mkEnvironment q (ci_instance i))).
  destruct (m _) as [[] ?]; cbn in *; try done. by intros ? [= ->].
Qed.

(** *** Queries *)
Lemma instance_query_halts fuel a e q :
  (∀ r, request_rank r < fuel → halts any (query_raw fuel r : M _ (RpcMockQuerier C) _)) →
  match q with QSmart _ msg => rank_query msg ≤ fuel | _ => True end →
  halts any (instance_query (query_raw fuel) a e q : M Error ENV Binary).
Proof.
  intros Hq Hn. destruct q as [t msg|t key|t]; unfold instance_query.
  - unfold call_query, call_query_raw, vm_to_vec, vm_from_slice, set_storage_readonly. halts.
    apply (call_raw_halts (λ r, request_rank r < rank_query msg)).
    + intros r Hr. apply Hq. lia.
    + intros w. apply (rc_query N HR).
  - unfold storage_get. halts. apply with_storage_halts. halts.
  - halts.
Qed.

Lemma query_raw_halts fuel request :
  request_rank request < fuel → halts any (query_raw fuel request : M _ (RpcMockQuerier C) _).
Proof.
  revert request. induction fuel as [|fuel IH]; intros request Hf; [lia|]. cbn [query_raw].
  unfold query_raw_body. unfold request_rank in Hf.
  destruct (from_slice_query_request request) as [|[b| |st|q]]; [halts| |halts..|].
  { unfold unknown, on_states. halts. }
  unfold query_printer, query_contract, unknown, on_states, on_log, begin_query, end_query. halts.
  eapply halts_weaken; [apply on_instance_halts, instance_query_halts|done]; [done|].
  by destruct q; [lia|..].
Qed.

(** *** Messages, for a querier that ends on queries below [N] and a recursive
    call that ends on responses below [n] *)
Section body.
Context (q : bytes → M BackendError (RpcMockQuerier C) (SystemResult (ContractResult Binary))).
Context (Hq : ∀ r, request_rank r < N → halts any (q r)).
Context (h : Addr → Response → MM (ContractResult Response)) (n : nat).
Context (Hh : ∀ o r, below n r → halts settled (h o r)).

Lemma below_mono k l r : k ≤ l → below k r → below l r.
Proof. intros Hkl Hr. eapply Forall_impl; [exact Hr|]. cbn. lia. Qed.

Lemma call_and_cover_halts k i (call : M Error ENV (ContractResult Response)) :
  k ≤ n → halts (λ res, ∀ r, res = CROk r → below k r) call →
  halts (λ res, ∀ r, res = CROk r → below n r) (call_and_cover q i call : MM _).
Proof.
  intros Hk Hcall. unfold call_and_cover, run_instance, on_m_querier.
  eapply halts_bind; [by apply halts_zoom, on_instance_halts|]. intros ri Hri.
  eapply halts_bind; [apply halts_of_sum; exact Hri|]. intros res Hres.
  apply (halts_bind any).
  - unfold handle_coverage. halts. unfold run_instance, on_m_querier. apply halts_zoom.
    eapply halts_weaken; [apply (on_instance_halts any)|done]. unfold dump_coverage.
    apply (halts_bind any); [|intros ? _; halts]. eapply (halts_catch any); [|done..].
    apply halts_map_err. eapply call_raw_halts; [exact Hq|apply (rc_coverage N HR)].
  - intros _ _. apply halts_ret. intros r Hr. by eapply below_mono, Hres.
Qed.

Lemma instance_execute_halts e msg s f :
  halts (λ res, ∀ r, res = CROk r → below (rank msg) r)
    (instance_execute q e msg s f : M Error ENV _).
Proof.
  unfold instance_execute, call_execute, call_execute_raw, vm_to_vec, set_storage_readonly.
  apply halts_map_err. do 2 (apply (halts_bind any); [halts|intros ? _]).
  eapply halts_bind; [|intros b Hb; by apply decode_halts].
  apply (halts_bind any); [halts|intros ? _].
  eapply call_raw_halts; [exact Hq|]. intros w. apply (rc_execute N HR).
Qed.

Lemma instance_instantiate_halts e msg s f :
  halts (λ res, ∀ r, res = CROk r → below (rank msg) r)
    (instance_instantiate q e msg s f : M Error ENV _).
Proof.
  unfold instance_instantiate, call_instantiate, call_instantiate_raw, vm_to_vec,
    set_storage_readonly.
  apply halts_map_err. do 2 (apply (halts_bind any); [halts|intros ? _]).
  eapply halts_bind; [|intros b Hb; by apply decode_halts].
  apply (halts_bind any); [halts|intros ? _].
  eapply call_raw_halts; [exact Hq|]. intros w. apply (rc_instantiate N HR).
Qed.

Lemma instance_reply_halts e rep :
  halts (λ res, ∀ r, res = CROk r → below (rank_reply (reply_id rep)) r)
    (instance_reply q e rep : M Error ENV _).
Proof.
  unfold instance_reply, call_reply, call_reply_raw, vm_to_vec, set_storage_readonly.
  apply halts_map_err. apply (halts_bind any); [halts|intros ? _].
  destruct (to_vec_reply rep) as [e'|b] eqn:Hb; [intros v; exact I|].
  apply (halts_bind (λ b', b' = b)); [by apply halts_ret|]. intros ? ->.
  eapply halts_bind; [|intros b' Hb'; by apply decode_halts].
  apply (halts_bind any); [halts|intros ? _].
  eapply call_raw_halts; [exact Hq|]. intros w. by apply (rc_reply N HR).
Qed.

(** The three places where a response is handled. *)
Lemma handled_halts o r (fin : MM unit) {B} (k : ContractResult Response → B) (P : B → Prop) :
  below n r → halts any fin → (∀ res, settled res → P (k res)) →
  halts P (response ← h o r; _ ← fin; mret (k response)).
Proof.
  intros Hr Hf Hk. eapply halts_bind; [by apply Hh|]. intros res Hres.
  apply (halts_bind any); [done|]. intros _ _. apply halts_ret. by apply Hk.
Qed.

Lemma create_instance_halts a : halts any (create_instance a : MM RpcContractInstance).
Proof. unfold create_instance, new_mock, on_m_states. halts. Qed.
Lemma transfer_funds_halts s a f : halts any (transfer_funds s a f : MM (option string)).
Proof. unfold transfer_funds, on_m_states, on_m_log. halts. Qed.
Hint Resolve create_instance_halts transfer_funds_halts : halts.

Lemma execute_inner_halts a s msg f :
  rank msg ≤ n → halts settled (execute_inner q h a s msg f).
Proof.
  intros Hn. unfold execute_inner, env, on_m_log, begin_execute, end_execute.
  do 3 (apply (halts_bind any); [halts|intros ? _]). case_match; [by apply halts_ret|].
  apply (halts_bind any); [halts|intros ? _].
  eapply halts_bind; [by eapply call_and_cover_halts, instance_execute_halts|].
  intros [r|e] Hres; [|halts; by apply halts_ret].
  apply (halts_bind any); [halts|intros ? _].
  apply (handled_halts _ _ _ id); [by apply Hres|halts|done].
Qed.

Lemma instantiate_inner_halts i s msg f :
  rank msg ≤ n → halts (λ ra, settled ra.1) (instantiate_inner q h i s msg f).
Proof.
  intros Hn. unfold instantiate_inner, env, on_m_log, on_m_states, begin_instantiate, end_instantiate,
    generate_address, new_mock, on_client, maybe_unzip, create_instance_from_code,
    contract_state_insert, contract_state_remove.
  do 2 (apply (halts_bind any); [halts|intros ? _]). case_match; [by apply halts_ret|].
  do 7 (apply (halts_bind any); [halts|intros ? _]).
  eapply halts_bind; [by eapply call_and_cover_halts, instance_instantiate_halts|].
  intros [r|e] Hres; [|halts; by apply halts_ret].
  apply (halts_bind any); [halts|intros ? _].
  apply (handled_halts _ _ _ (λ res, (res, _))); [|halts|done]. by apply (Hres r).
Qed.

Lemma handle_submessage_response_halts o msg id ro payload res :
  rank_reply id ≤ n → settled res →
  halts settled (handle_submessage_response q h o msg id ro payload res).
Proof.
  intros Hn Hs. unfold handle_submessage_response, env, on_m_log, begin_reply, end_reply. case_match.
  - do 3 (apply (halts_bind any); [halts|intros ? _]).
    eapply halts_bind; [eapply call_and_cover_halts, instance_reply_halts; exact Hn|].
    intros [r|e] Hres; [|halts; by apply halts_ret].
    apply (halts_bind any); [halts|intros ? _].
    apply (handled_halts _ _ _ (λ r, r)); [by apply Hres|halts|done].
  - destruct res as [r|e]; [|halts; by apply halts_ret].
    apply Hh. unfold below. cbn in Hs. by rewrite Hs.
Qed.

Lemma handle_message_halts o sm : sub_rank sm ≤ n → halts settled (handle_message q h o sm).
Proof.
  unfold sub_rank, handle_message, handle_submessage_instantiate, handle_submessage_execute.
  destruct (sm_msg sm) as [b| | | |[]]; intros Hn; try apply halts_panic.
  - apply halts_zoom. eapply halts_weaken; [apply halts_yields|].
    + apply bank_execute_halts.
    + apply bank_execute_no_messages.
    + by intros ? [].
  - eapply halts_bind; [apply execute_inner_halts; lia|]. intros res Hres.
    apply handle_submessage_response_halts; [lia|done].
  - apply (halts_bind (λ ra, settled ra.1)).
    + halts; try (apply instantiate_inner_halts; lia). by apply halts_ret.
    + intros ra Hra. apply handle_submessage_response_halts; [lia|done].
Qed.

Lemma handle_messages_halts o ms last :
  Forall (λ sm, sub_rank sm ≤ n) ms → settled last → halts settled (handle_messages q h o ms last).
Proof.
  intros Hms. revert last. induction Hms as [|sm ms Hsm Hms IH]; intros last Hlast;
    cbn [handle_messages]; [by apply halts_ret|].
  eapply halts_bind; [by apply handle_message_halts|]. intros res Hres.
  case_match; [by apply halts_ret|by apply IH].
Qed.
End body.

Lemma handle_response_halts fuel n o r :
  N + n < fuel → below n r → halts settled (handle_response fuel o r : MM _).
Proof.
  revert n o r. induction fuel as [|fuel IH]; intros n o r Hf Hr; [lia|].
  cbn [handle_response]. unfold handle_response_body.
  destruct (messages r) as [|sm ms] eqn:Hms; [by apply halts_ret|].
  unfold below in Hr. rewrite Hms in Hr. destruct n as [|n]; [by inversion Hr; lia|].
  apply (handle_messages_halts _ (λ req Hreq, query_raw_halts (S fuel) req ltac:(lia)) _ n).
  - intros o' r' Hr'. apply (IH n); [lia|done].
  - eapply Forall_impl; [exact Hr|]. cbn. lia.
  - done.
Qed.

Lemma finish_transaction_halts m res : halts any (finish_transaction m res : MM DebugLog).
Proof.
  unfold finish_transaction, revert, on_m_states, update_block, plus_nanos. halts.
Qed.

Section runs.
Context (fuel : nat) (n : nat) (Hf : N + n < fuel).

Lemma querier_halts r : request_rank r < N → halts any (query_raw fuel r : M _ (RpcMockQuerier C) _).
Proof. intros Hr. apply query_raw_halts. lia. Qed.

Lemma Model_execute_halts a msg f : rank msg ≤ n → halts any (Model_execute fuel a msg f : MM _).
Proof.
  intros Hn. unfold Model_execute, execute. apply (halts_bind any); [halts|intros m _].
  eapply halts_bind; [|intros res _; apply finish_transaction_halts].
  apply (execute_inner_halts _ querier_halts _ n); [|done].
  intros o r Hr. by apply (handle_response_halts fuel n).
Qed.

Lemma Model_instantiate_halts i msg f :
  rank msg ≤ n → halts any (Model_instantiate fuel i msg f : MM _).
Proof.
  intros Hn. unfold Model_instantiate, instantiate. apply (halts_bind any); [halts|intros m _].
  eapply halts_bind; [|intros res _; apply finish_transaction_halts].
  apply (instantiate_inner_halts _ querier_halts _ n); [|done].
  intros o r Hr. by apply (handle_response_halts fuel n).
Qed.
End runs.

(** C9: If the calls of the contracts can be ranked (every call sends messages
    and asks for replies of a smaller rank than its own, every query makes smaller
    queries, no call makes a query of rank [N] or more) and the client answers,
    then every transaction ends, whatever the state it starts from: with fuel
    above [N] and the rank of the message together it returns a log, an error or a
    panic, and every larger fuel gives the same. *)
Theorem ranked_transactions_terminate fuel msg m :
  N + rank msg < fuel →
  (∀ a f, (Model_execute fuel a msg f m).1 ≠ OutOfFuel ∧
     ∀ fuel', fuel ≤ fuel' → Model_execute fuel' a msg f m = Model_execute fuel a msg f m) ∧
  (∀ i f, (Model_instantiate fuel i msg f m).1 ≠ OutOfFuel ∧
     ∀ fuel', fuel ≤ fuel' → Model_instantiate fuel' i msg f m = Model_instantiate fuel i msg f m).
Proof.
  intros Hf. split; intros x f.
  - assert ((Model_execute fuel x msg f m).1 ≠ OutOfFuel) as Hne.
    { by eapply halts_not_out_of_fuel, (Model_execute_halts fuel (rank msg)). }
    split; [done|]. intros fuel' Hle. by apply Model_execute_approx.
  - assert ((Model_instantiate fuel x msg f m).1 ≠ OutOfFuel) as Hne.
    { by eapply halts_not_out_of_fuel, (Model_instantiate_halts fuel (rank msg)). }
    split; [done|]. intros fuel' Hle. by apply Model_instantiate_approx.
Qed.
End ranked.
