(* ===== verification/Codes.v ===== *)
(** * Contract addresses and compiled codes

    Addresses of new contracts come from a per-code counter; compiled codes are
    cached by the hash of the code.

    The second part is on the cheats, which replace codes and balances. *)

From Stdlib Require Import Ascii.
From S2P Require Import Prelude.
From S2P Require Import CwStd.
From S2P Require Import Errors.
From S2P Require Import DebugLog.
From S2P Require Import Storage.
From S2P Require Import Client.
From S2P Require Import States.
From S2P Require Import Bank.
From S2P Require Import Api.
From S2P Require Import Vm.
From S2P Require Import Querier.
From S2P Require Import Runs.
From S2P Require Import Model.
From S2P Require Import Transactions.
From S2P Require Import ReadOnly.
From S2P Require Import Atomicity.

Open Scope Z_scope.

(** ** Seeds *)

(** No character of [s] is [c]. *)
Fixpoint lacks (c : Ascii.ascii) (s : string) : Prop :=
  match s with
  | EmptyString => True
  | String x s' => x ≠ c ∧ lacks c s'
  end.

Lemma split_at_char c s1 t1 s2 t2 :
  lacks c s1 → lacks c s2 → s1 +:+ String c t1 = s2 +:+ String c t2 → s1 = s2 ∧ t1 = t2.
Proof.
  revert s2. induction s1 as [|x s1 IH]; intros [|y s2]; cbn.
  - by intros _ _ [= ->].
  - by intros _ [Hy _] [= <- _].
  - by intros [Hx _] _ [= -> _].
  - intros [_ H1] [_ H2] [= -> H]. by destruct (IH s2 H1 H2 H) as [-> ->].
Qed.

Lemma pretty_N_go_lacks x s : lacks "_"%char s → lacks "_"%char (pretty_N_go x s).
Proof.
  revert s. induction (N.lt_wf_0 x) as [x _ IH]; intros s Hs.
  assert (x = 0 ∨ 0 < x)%N as [->|?] by lia; [by rewrite pretty_N_go_0|].
  rewrite pretty_N_go_step by done. apply IH; [by apply N.div_lt|].
  split; [|done]. unfold pretty_N_char. by repeat case_match.
Qed.

Lemma pretty_lacks (z : Z) : 0 ≤ z → lacks "_"%char (pretty z).
Proof.
  destruct z as [|p|p]; [done| |lia]. intros _. unfold pretty, pretty_Z.
  change (pretty p) with (pretty (N.pos p)). unfold pretty, pretty_N.
  case_decide; [done|]. by apply pretty_N_go_lacks.
Qed.

Lemma address_seed_inj i j k l :
  0 ≤ i → 0 ≤ k → address_seed i j = address_seed k l → i = k ∧ j = l.
Proof.
  unfold address_seed. intros Hi Hk [= H].
  apply (split_at_char "_"%char) in H as [H1 H2]; [|by apply pretty_lacks..].
  split; by apply (inj pretty).
Qed.

Lemma as_bytes_inj s t : as_bytes s = as_bytes t → s = t.
Proof.
  unfold as_bytes. intros H.
  rewrite <-(String.string_of_list_byte_of_string s), <-(String.string_of_list_byte_of_string t).
  by rewrite H.
Qed.

Section Codes.
Context {C : Type} {HC : CwClientBackend C} {HV : ChainClient C} {HX : Externals}
  {HW : WasmEngine}.
Abbreviation MM := (M Error (Model C)).
Implicit Types m : Model C.

(** Two contracts created one after the other, for the same code or for
    different ones, get different addresses, if SHA-256 does not collide on the
    seeds and bech32 is injective: the counter of a code only grows. *)
Theorem generated_addresses_differ i j m a m1 m2 b m3 :
  (∀ s t, sha256 (as_bytes s) = sha256 (as_bytes t) →
     (∃ x y, s = address_seed x y) → (∃ x y, t = address_seed x y) → s = t) →
  (∀ hrp x y s, bech32_encode hrp x = Some s → bech32_encode hrp y = Some s → x = y) →
  0 ≤ i → 0 ≤ j →
  generate_address i m = (Ok a, m1) →
  (∀ k, counter m1 k ≤ counter m2 k) →
  bech32_prefix (m_states m2) = bech32_prefix (m_states m1) →
  generate_address j m2 = (Ok b, m3) →
  a ≠ b.
Proof.
  intros Hsha Hbech Hi Hj H1 Hcnt Hpre H2 <-.
  rewrite generate_address_run in H1, H2. unfold canonical_to_human in *.
  repeat case_match; simplify_eq/=. rewrite Hpre in *.
  assert (sha256 (as_bytes (address_seed i (counter m i))) =
          sha256 (as_bytes (address_seed j (counter m2 j)))) as Heq by (by eapply Hbech).
  apply Hsha, address_seed_inj in Heq as [-> Heq]; [|eauto..].
  specialize (Hcnt j). unfold counter at 1 in Hcnt; cbn in Hcnt.
  rewrite lookup_insert_eq in Hcnt. cbn in Hcnt. lia.
Qed.

(** ** The cache of compiled codes *)

(** Every cached module is the compiled form of every code with its hash. *)
Definition cache_ok m : Prop :=
  ∀ code_ module, m_wasm_cache m !! sha256 code_ = Some module → wasm_compile code_ = inr module.

Definition keeps_cache m m' : Prop := cache_ok m → cache_ok m'.

#[export] Instance keeps_cache_refl : Reflexive keeps_cache.
Proof. intros m. exact (λ H, H). Qed.
#[export] Instance keeps_cache_trans : Transitive keeps_cache.
Proof. intros m1 m2 m3. unfold keeps_cache. auto. Qed.

Lemma same_cache m m' : m_wasm_cache m' = m_wasm_cache m → keeps_cache m m'.
Proof. intros H Hm. unfold cache_ok. by rewrite H. Qed.

Context (Hhash : ∀ c1 c2, sha256 c1 = sha256 c2 → wasm_compile c1 = wasm_compile c2).

Lemma insert_cache_ok code_ module m :
  wasm_compile code_ = inr module →
  keeps_cache m (set_m_wasm_cache (<[sha256 code_ := module]> (m_wasm_cache m)) m).
Proof.
  intros Hc Hm c md; cbn. rewrite lookup_insert. case_decide as Heq; [|by apply Hm].
  intros [= <-]. by rewrite <-(Hhash _ _ Heq).
Qed.

Lemma on_m_states_cache {A} (f : M Error (AllStates C) A) :
  preserves keeps_cache (on_m_states f).
Proof. intros m. unfold on_m_states, zoom. apply same_cache. by destruct (f (m_states m)). Qed.

Lemma on_m_log_cache {A} (f : M Error DebugLog A) : preserves keeps_cache (on_m_log f).
Proof. intros m. unfold on_m_log, zoom. apply same_cache. by destruct (f (m_debug_log m)). Qed.

Lemma keeps_cache_closed : Closed_Tx keeps_cache.
Proof.
  split; intros; try apply on_m_states_cache; try apply on_m_log_cache.
  - apply _.
  - apply _.
  - by apply same_cache.
  - etrans; [done|apply on_m_log_cache].
  - intros m. rewrite generate_address_run. by case_match; apply same_cache.
  - by apply same_cache.
  - by apply insert_cache_ok.
Qed.

(** The end of a transaction: either state has a correct cache. *)
Lemma finish_transaction_cache m res m1 :
  cache_ok m → cache_ok m1 → cache_ok (finish_transaction m res m1).2.
Proof.
  intros Hm. destruct res as [r|e]; [|intros _; exact Hm]. cbn.
  revert m1. change (preserves keeps_cache (finish_transaction m (CROk r))).
  unfold finish_transaction. cbn. pres; [apply on_m_states_cache|].
  apply preserves_modify. intros m'. by apply same_cache.
Qed.
End Codes.

Section claims.
Context {C : Type} {HC : CwClientBackend C} {HV : ChainClient C} {HX : Externals}
  {HW : WasmEngine}.
Implicit Types m : Model C.

(** C19: The cache of compiled codes cannot be noticed, if codes with the same
    hash compile to the same module: an instance made through the cache is the
    one made by compiling its code, and transactions, whatever they do, keep
    the cache correct. *)
Theorem wasm_cache_transparent m :
  (∀ c1 c2, sha256 c1 = sha256 c2 → wasm_compile c1 = wasm_compile c2) →
  cache_ok m →
  (∀ code_ deps cell,
     (create_instance_from_code code_ deps cell m).1 =
     match instance_from_code code_ deps cell with
     | inl e => Err (vm_error e)
     | inr i => Ok i
     end) ∧
  (∀ fuel a msg f, cache_ok (Model_execute fuel a msg f m).2) ∧
  (∀ fuel i msg f, cache_ok (Model_instantiate fuel i msg f m).2).
Proof.
  intros Hhash Hm. split_and!.
  - intros code_ deps cell. unfold create_instance_from_code, instance_from_code. munfold.
    destruct (m_wasm_cache m !! sha256 code_) as [module|] eqn:Hc.
    + rewrite (Hm _ _ Hc). by destruct (instance_from_module _ _ _).
    + destruct (wasm_compile code_) as [e|module]; [done|]. by destruct (instance_from_module _ _ _).
  - intros fuel a msg f.
    pose proof (execute_tx keeps_cache (keeps_cache_closed Hhash) fuel a (m_sender m) msg f m Hm) as H1.
    unfold Model_execute, execute. rewrite bind_get. unfold mbind, M_bind.
    destruct (execute_inner _ _ a _ _ _ _) as [[res|e|p|] m1]; try done.
    by apply finish_transaction_cache.
  - intros fuel i msg f.
    pose proof (instantiate_tx keeps_cache (keeps_cache_closed Hhash) fuel i (m_sender m) msg f m Hm) as H1.
    unfold Model_instantiate, instantiate. rewrite bind_get. unfold mbind, M_bind.
    destruct (instantiate_inner _ _ i _ _ _ _) as [[[res o]|e|p|] m1]; try done.
    by apply finish_transaction_cache.
Qed.
End claims.

(** * Cheats ([core/src/fork/model.rs], the [cheat_] functions)

    What the functions that overwrite the simulated chain change, and what they
    leave alone. *)

Section Cheats.
Context {C : Type} {HC : CwClientBackend C} {HV : ChainClient C} {HX : Externals}
  {HW : WasmEngine}.
Implicit Types m : Model C.

(** The model with another state of one contract. *)
Definition with_contract (a : Addr) (cs : ContractState) m : Model C :=
  set_m_states (set_contract_states (<[a := cs]> (contract_states (m_states m))) (m_states m)) m.

Lemma fetch_then m a u m1 :
  on_m_states (fetch_contract_state a) m = (Ok u, m1) →
  m1 = set_m_states (m_states m1) m ∧ states_ext (m_states m) (m_states m1) ∧
  is_Some (contract_states (m_states m1) !! a).
Proof.
  unfold on_m_states, zoom. intros H. destruct (fetch_contract_state a (m_states m)) as [r st] eqn:Hf.
  injection H as -> <-. cbn. split; [done|].
  pose proof (fetch_contract_ext a (m_states m)) as He. rewrite Hf in He.
  split; [done|by eapply fetch_contract_present].
Qed.

Lemma contract_present (st : AllStates C) a cs :
  contract_states st !! a = Some cs → contract st a = cs.
Proof. intros H. unfold contract. by rewrite H. Qed.

Lemma create_instance_present a m cs :
  contract_states (m_states m) !! a = Some cs →
  create_instance a m =
    (match RpcMockApi_new (canonical_address_length (m_states m)) (bech32_prefix (m_states m)) with
     | inl e => Err e
     | inr api =>
         match instance_from_code (code cs) api (SharedCell a) with
         | inl e => Err (vm_error e)
         | inr i => Ok (mkRpcContractInstance a i)
         end
     end, m).
Proof.
  intros Ha. unfold create_instance, Model_fetch_contract_state, new_mock, on_m_states, zoom, mbind, M_bind.
  rewrite fetch_contract_cached by (by eexists). destruct m; cbn in *. rewrite Ha. cbn.
  destruct (RpcMockApi_new _ _); [done|]. cbn. by destruct (instance_from_code _ _ _).
Qed.

(** Writing a contract back that was overwritten. *)
Lemma with_contract_back a cs cs' m :
  contract_states (m_states m) !! a = Some cs →
  with_contract a cs (with_contract a cs' m) = m.
Proof.
  intros Ha. unfold with_contract. destruct m as [[] ? ? ? ? ? ?]; cbn in *.
  unfold set_m_states, set_contract_states; cbn. by rewrite insert_insert_eq, insert_id.
Qed.

(** The chain after one contract was written. *)
Lemma with_contract_chain a cs m m1 :
  states_ext (m_states m) (m_states m1) → cc_inv (client (m_states m)) →
  contract (m_states (with_contract a cs m1)) a = cs ∧
  (∀ b, b ≠ a → contract (m_states (with_contract a cs m1)) b = contract (m_states m) b) ∧
  (∀ o, account (m_states (with_contract a cs m1)) o = account (m_states m) o).
Proof.
  intros He Hinv. split_and!.
  - apply contract_present. cbn. apply lookup_insert_eq.
  - intros b Hb. rewrite <-(se_contract _ _ He Hinv b). unfold contract. cbn.
    by rewrite lookup_insert_ne.
  - intros o. by rewrite <-(se_account _ _ He Hinv o).
Qed.

(** Replacing the code of a contract either succeeds, and then the contract
    has the new code over its old storage and nothing else of the chain is
    different, or fails, and then the chain is as it was. *)
Theorem cheat_code_all_or_nothing a new_code m r m' :
  cc_inv (client (m_states m)) →
  cheat_code a new_code m = (r, m') →
  match r with
  | Ok _ =>
      contract (m_states m') a = mkContractState new_code (storage (contract (m_states m) a)) ∧
      (∀ b, b ≠ a → contract (m_states m') b = contract (m_states m) b) ∧
      (∀ o, account (m_states m') o = account (m_states m) o)
  | _ => states_ext (m_states m) (m_states m')
  end.
Proof.
  intros Hinv. unfold cheat_code, mbind at 1, M_bind at 1.
  pose proof (fetch_contract_ext a (m_states m)) as Hext.
  change (Model_fetch_contract_state a) with (on_m_states (fetch_contract_state a)).
  destruct (on_m_states (fetch_contract_state a) m) as [[[]|e|p|] m1] eqn:Hf;
    try (intros [= <- <-]; revert Hf; unfold on_m_states, zoom;
         destruct (fetch_contract_state a (m_states m)); intros [= _ <-]; exact Hext).
  apply fetch_then in Hf as (Em1 & He & [cs Hcs]). clear Hext.
  assert (contract (m_states m) a = cs) as Hc0.
  { rewrite <-(se_contract _ _ He Hinv). by apply contract_present. }
  rewrite bind_gets, Hcs. cbn [unwrap]. rewrite bind_ret_l.
  set (cs' := mkContractState new_code (storage cs)).
  assert (on_m_states (contract_state_insert a cs') m1 = (Ok tt, with_contract a cs' m1)) as Hins by done.
  rewrite (bind_Ok _ _ _ _ _ Hins). unfold mbind, M_bind, catch.
  rewrite (create_instance_present a _ cs') by (cbn; apply lookup_insert_eq).
  assert (∀ e, (λ s, (Err e : outcome Error unit, s)) (with_contract a cs (with_contract a cs' m1)) = (r, m') →
    match r with Ok _ => False | _ => states_ext (m_states m) (m_states m') end) as Hfail.
  { intros e [= <- <-]. by rewrite with_contract_back. }
  pose proof (with_contract_chain a cs' m m1 He Hinv) as Hok.
  rewrite Hc0. destruct (RpcMockApi_new _ _) as [e|api].
  { intros H. specialize (Hfail e H). by destruct r. }
  destruct (instance_from_code _ _ _) as [e|i].
  { intros H. specialize (Hfail (vm_error e) H). by destruct r. }
  by intros [= <- <-].
Qed.

(** Overwriting one key of a contract's storage changes that key and nothing
    else of the chain. *)
Theorem cheat_storage_changes_one_key a key value m m' :
  cc_inv (client (m_states m)) →
  cheat_storage a key value m = (Ok tt, m') →
  contract (m_states m') a =
    mkContractState (code (contract (m_states m) a))
      (<[key := value]> (storage (contract (m_states m) a))) ∧
  (∀ b, b ≠ a → contract (m_states m') b = contract (m_states m) b) ∧
  (∀ o, account (m_states m') o = account (m_states m) o) ∧
  m_debug_log m' = m_debug_log m ∧ m_sender m' = m_sender m.
Proof.
  intros Hinv H. unfold cheat_storage, Model_fetch_contract_state in H.
  apply bind_Ok_inv in H as (u & m1 & Hf & H). rewrite bind_gets in H.
  apply fetch_then in Hf as (Em1 & He & [cs Hcs]). rewrite Hcs in H. cbn [unwrap] in H.
  rewrite bind_ret_l in H. injection H as <-.
  assert (contract (m_states m) a = cs) as ->.
  { rewrite <-(se_contract _ _ He Hinv). by apply contract_present. }
  destruct (with_contract_chain a (mkContractState (code cs) (<[key := value]> (storage cs))) m m1 He Hinv)
    as (H1 & H2 & H3).
  split_and!; [done..| |]; by rewrite Em1.
Qed.
End Cheats.
