(* ===== verification/Python.v ===== *)
(** * The Python classes ([python-bindings/src/lib.rs])

    [cwsimpy], through which users drive the simulator: the class [Model] wraps the
    simulator, the class [DebugLog] the log of a transaction. An error becomes a
    [RuntimeError] with the text of the error. The theorem is on whole sessions: which
    calls determine the settings of the simulator, whatever contracts do in between and
    however the calls end. *)

From S2P Require Import Prelude.
From S2P Require Import CwStd.
From S2P Require Import Errors.
From S2P Require Import Client.
From S2P Require Import Storage.
From S2P Require Import States.
From S2P Require Import Bank.
From S2P Require Import DebugLog.
From S2P Require Import Api.
From S2P Require Import Vm.
From S2P Require Import Querier.
From S2P Require Import Runs.
From S2P Require Import Model.
From S2P Require Import Transactions.
From S2P Require Import ReadOnly.
From S2P Require Import Atomicity.

Open Scope Z_scope.

(** ** The class [DebugLog] *)
Module PyDebugLog.
Record DebugLog := mkDebugLog { inner : DebugLog.DebugLog }.

Section methods.
Context {E S : Type}.
(** [serde_json::to_string] on an entry. *)
Context (entry_json : DebugLogEntry → option string).

(** [Display for DebugLogEntry] within [format!], which panics when it fails. *)
Definition entry_to_string (d : DebugLogEntry) : M E S string :=
  unwrap "a Display implementation returned an error unexpectedly: Error" (entry_json d).
Fixpoint collect_entries (ds : list DebugLogEntry) : M E S (list string) :=
  match ds with
  | [] => mret []
  | d :: ds => s ← entry_to_string d; out ← collect_entries ds; mret (s :: out)
  end.
Definition get_log (self_ : DebugLog) : M E S (list string) := collect_entries (logs (inner self_)).
Definition get_err_msg (self_ : DebugLog) : string :=
  match err_msg (inner self_) with Some err_msg => err_msg | None => "" end.
Definition get_stdout (self_ : DebugLog) : string := DebugLog.get_stdout (inner self_).
Definition get_call_trace (self_ : DebugLog) : gmap Z (list Z) * gmap Z string :=
  DebugLog.get_call_trace (inner self_).
End methods.
End PyDebugLog.

(** ** The class [Model] *)
Module PyModel.
Section methods.
Context {C : Type} {HC : CwClientBackend C} {HX : Externals} {HW : WasmEngine}.
(** The state of the object is its field [inner]; an exception is its text. *)
Abbreviation PY := (M string (Model C)).

(** [map_err(|e| PyRuntimeError::new_err(e.to_string()))?]. *)
Definition or_runtime_error {A} (m : M Error (Model C) A) : PY A := map_err Error_to_string m.

Definition new (c : C) (bech32_prefix : string) : outcome string (Model C) :=
  match Model_new c bech32_prefix with
  | Ok m => Ok m
  | Err e => Err (Error_to_string e)
  | Panic p => Panic p
  | OutOfFuel => OutOfFuel
  end.
Definition block_number : PY Z := gets Model_block_number.
Definition add_custom_code (code_id : Z) (code : bytes) : PY unit :=
  or_runtime_error (Model.add_custom_code code_id code).
Definition funds_of (funds_ : list (string * Z)) : list Coin := (λ da, mkCoin da.1 da.2) <$> funds_.
Definition instantiate (fuel : nat) (code_id : Z) (msg : bytes) (funds_ : list (string * Z)) : PY PyDebugLog.DebugLog :=
  debug_log ← or_runtime_error (Model_instantiate fuel code_id msg (funds_of funds_));
  mret (PyDebugLog.mkDebugLog debug_log).
Definition execute (fuel : nat) (contract_addr_ : string) (msg : bytes) (funds_ : list (string * Z))
    : PY PyDebugLog.DebugLog :=
  debug_log ← or_runtime_error (Model_execute fuel contract_addr_ msg (funds_of funds_));
  mret (PyDebugLog.mkDebugLog debug_log).
Definition wasm_query (fuel : nat) (contract_addr_ : string) (msg : bytes) : PY bytes :=
  or_runtime_error (Model.wasm_query fuel contract_addr_ msg).
Definition bank_query (msg : bytes) : PY bytes := or_runtime_error (Model_bank_query msg).
Definition cheat_block_number (block_number : Z) : PY unit :=
  or_runtime_error (Model.cheat_block_number block_number).
Definition cheat_block_timestamp (timestamp_ : Z) : PY unit :=
  or_runtime_error (Model.cheat_block_timestamp timestamp_).
Definition cheat_bank_balance (addr_ : string) (amount : string * Z) : PY unit :=
  let '(denom, new_balance) := amount in or_runtime_error (Model.cheat_bank_balance addr_ denom new_balance).
Definition cheat_code (contract_addr_ : string) (code : bytes) : PY unit :=
  or_runtime_error (Model.cheat_code contract_addr_ code).
Definition cheat_message_sender (sender : string) : PY unit :=
  or_runtime_error (Model.cheat_message_sender sender).
Definition cheat_storage (contract_addr : string) (key value : bytes) : PY unit :=
  or_runtime_error (Model.cheat_storage contract_addr key value).
Definition enable_code_coverage : PY unit := or_runtime_error Model.enable_code_coverage.
Definition disable_code_coverage : PY unit := or_runtime_error Model.disable_code_coverage.
Definition get_code_coverage : PY (gmap string (list bytes)) := gets get_coverage.
End methods.
End PyModel.

(** ** Sessions *)
Inductive PyCall :=
| BlockNumber
| AddCustomCode (code_id : Z) (code : bytes)
| Instantiate (code_id : Z) (msg : bytes) (funds : list (string * Z))
| Execute (contract_addr : string) (msg : bytes) (funds : list (string * Z))
| WasmQuery (contract_addr : string) (msg : bytes)
| BankQuery (msg : bytes)
| CheatBlockNumber (block_number : Z)
| CheatBlockTimestamp (timestamp : Z)
| CheatBankBalance (addr : string) (amount : string * Z)
| CheatCode (contract_addr : string) (code : bytes)
| CheatMessageSender (sender : string)
| CheatStorage (contract_addr : string) (key value : bytes)
| EnableCodeCoverage
| DisableCodeCoverage
| GetCodeCoverage.

Section sessions.
Context {C : Type} {HC : CwClientBackend C} {HV : ChainClient C} {HX : Externals} {HW : WasmEngine}.
Implicit Types m : Model C.

(** The object after a call, whatever the call returned or raised. *)
Definition py_call (fuel : nat) (c : PyCall) m : Model C :=
  match c with
  | BlockNumber => (PyModel.block_number m).2
  | AddCustomCode code_id code => (PyModel.add_custom_code code_id code m).2
  | Instantiate code_id msg funds => (PyModel.instantiate fuel code_id msg funds m).2
  | Execute contract_addr msg funds => (PyModel.execute fuel contract_addr msg funds m).2
  | WasmQuery contract_addr msg => (PyModel.wasm_query fuel contract_addr msg m).2
  | BankQuery msg => (PyModel.bank_query msg m).2
  | CheatBlockNumber n => (PyModel.cheat_block_number n m).2
  | CheatBlockTimestamp t => (PyModel.cheat_block_timestamp t m).2
  | CheatBankBalance addr amount => (PyModel.cheat_bank_balance addr amount m).2
  | CheatCode contract_addr code => (PyModel.cheat_code contract_addr code m).2
  | CheatMessageSender sender => (PyModel.cheat_message_sender sender m).2
  | CheatStorage contract_addr key value => (PyModel.cheat_storage contract_addr key value m).2
  | EnableCodeCoverage => (PyModel.enable_code_coverage m).2
  | DisableCodeCoverage => (PyModel.disable_code_coverage m).2
  | GetCodeCoverage => (PyModel.get_code_coverage m).2
  end.
Definition session (fuel : nat) (calls : list PyCall) m : Model C := foldl (λ m c, py_call fuel c m) m calls.

(** What the user sets. *)
Record Settings := mkSettings { s_sender : string; s_codes : gmap Z bytes; s_coverage : bool }.
Definition settings m : Settings := mkSettings (m_sender m) (m_custom_codes m) (enabled (m_coverage_info m)).
Definition chosen (s : Settings) (c : PyCall) : Settings :=
  match c with
  | CheatMessageSender a => mkSettings a (s_codes s) (s_coverage s)
  | AddCustomCode code_id code => mkSettings (s_sender s) (<[code_id := code]> (s_codes s)) (s_coverage s)
  | EnableCodeCoverage => mkSettings (s_sender s) (s_codes s) true
  | DisableCodeCoverage => mkSettings (s_sender s) (s_codes s) false
  | _ => s
  end.
(** How far a call may move the block. *)
Definition transactions (c : PyCall) : Z := match c with Instantiate _ _ _ | Execute _ _ _ => 1 | _ => 0 end.
Definition sets_block (c : PyCall) : bool := match c with CheatBlockNumber _ => true | _ => false end.

(** The settings and the block stay. *)
Definition calm m m' : Prop :=
  settings m' = settings m ∧ block_number (m_states m') = block_number (m_states m).
#[local] Instance calm_refl : Reflexive calm.
Proof. by intros m. Qed.
#[local] Instance calm_trans : Transitive calm.
Proof. intros m1 m2 m3 [] []. split; congruence. Qed.

Lemma tx_le_calm m m' : tx_le m m' → calm m m'.
Proof. intros [[] Hs Hc _ _ He _ _]. split; [|done]. unfold settings. by rewrite Hs, Hc, He. Qed.

Lemma or_runtime_error_state {A} (f : M Error (Model C) A) m : (PyModel.or_runtime_error f m).2 = (f m).2.
Proof. unfold PyModel.or_runtime_error, map_err. by destruct (f m) as [[]]. Qed.

Lemma bind_state_ret {E S A B} (f : M E S A) (g : A → B) (s : S) : ((a ← f; mret (g a)) s).2 = (f s).2.
Proof. unfold mbind, M_bind. by destruct (f s) as [[]]. Qed.

Lemma on_m_states_calm {A} (f : M Error (AllStates C) A) :
  preserves (λ st st', block_number st' = block_number st) f → preserves calm (on_m_states f).
Proof. intros Hf. eapply preserves_zoom; [exact Hf|]. by intros m st H. Qed.
Lemma fetch_calm a : preserves calm (on_m_states (fetch_contract_state a)).
Proof.
  apply on_m_states_calm. eapply preserves_weaken; [|apply fetch_contract_ext].
  intros st st' H. by destruct (states_ext_block _ _ H).
Qed.
Lemma insert_calm a cs : preserves calm (on_m_states (contract_state_insert a cs)).
Proof. apply on_m_states_calm. by intros st. Qed.
Lemma create_instance_calm a : preserves calm (create_instance a).
Proof. unfold create_instance, new_mock. pres. apply fetch_calm. Qed.

(** The end of a transaction moves the block by at most one. *)
Lemma finish_moves m res m1 :
  calm m m1 → let m' := (finish_transaction m res m1).2 in
  settings m' = settings m ∧ block_number (m_states m) ≤ block_number (m_states m') ≤ block_number (m_states m) + 1.
Proof.
  intros [Hs Hb]. destruct res as [r|e].
  - cbn. unfold finish_transaction, on_m_states, update_block, plus_nanos. munfold. cbn.
    destruct (_ <? U64) eqn:H1; cbn; [destruct (_ <? U64) eqn:H2 in |- *; cbn|]; (split; [done|]);
      rewrite ?Hb; clear; lia.
  - rewrite finish_failed. unfold settings in *. cbn. injection Hs as H1 H2 H3. split; [by f_equal|lia].
Qed.

Lemma execute_moves fuel a msg f m :
  let m' := (Model_execute fuel a msg f m).2 in
  settings m' = settings m ∧ block_number (m_states m) ≤ block_number (m_states m') ≤ block_number (m_states m) + 1.
Proof.
  pose proof (tx_le_calm _ _ (execute_tx tx_le tx_le_closed fuel a (m_sender m) msg f m)) as Hc.
  unfold Model_execute, execute. rewrite bind_get. unfold mbind, M_bind.
  destruct (execute_inner _ _ a _ _ _ _) as [[res|e|p|] m1]; cbn in *; try by apply finish_moves.
  all: destruct Hc as [? ->]; split; [done|clear; lia].
Qed.
Lemma instantiate_moves fuel i msg f m :
  let m' := (Model_instantiate fuel i msg f m).2 in
  settings m' = settings m ∧ block_number (m_states m) ≤ block_number (m_states m') ≤ block_number (m_states m) + 1.
Proof.
  pose proof (tx_le_calm _ _ (instantiate_tx tx_le tx_le_closed fuel i (m_sender m) msg f m)) as Hc.
  unfold Model_instantiate, instantiate. rewrite bind_get. unfold mbind, M_bind.
  destruct (instantiate_inner _ _ i _ _ _ _) as [[[res o]|e|p|] m1]; cbn in *; try by apply finish_moves.
  all: destruct Hc as [? ->]; split; [done|clear; lia].
Qed.

Lemma wasm_query_calm fuel a msg : preserves calm (wasm_query fuel a msg).
Proof.
  intros m. destruct (wasm_query_read_only fuel a msg m) as [[Hst _ _ _] Hs _ Hc _ Hcov]. split.
  - unfold settings. rewrite Hs, Hc. f_equal. by destruct Hcov as [->|[cov ->]].
  - by destruct (states_ext_block _ _ Hst).
Qed.
Lemma bank_query_calm msg : preserves calm (Model_bank_query msg).
Proof.
  unfold Model_bank_query. destruct (from_binary_bank_query msg); [by intros m|].
  apply on_m_states_calm. eapply preserves_weaken; [|apply bank_query_ledger].
  intros st st' H. by destruct (states_ext_block _ _ (ledger_eq_ext _ _ H)).
Qed.
Lemma cheat_bank_balance_calm a d n : preserves calm (cheat_bank_balance a d n).
Proof. apply on_m_states_calm. intros st. by rewrite set_balance_run. Qed.
Lemma cheat_code_calm a code_ : preserves calm (cheat_code a code_).
Proof.
  unfold cheat_code. pres; try apply fetch_calm; try apply insert_calm. apply create_instance_calm.
Qed.
Lemma cheat_storage_calm a k v : preserves calm (cheat_storage a k v).
Proof. unfold cheat_storage. pres; try apply fetch_calm; try apply insert_calm. Qed.

(** One call: the settings are the ones it chooses, the block moves by at most one, for a
    transaction, and is the chosen one after [cheat_block_number]. *)
Lemma py_call_step fuel c m :
  settings (py_call fuel c m) = chosen (settings m) c ∧
  (sets_block c = false →
   block_number (m_states m) ≤ block_number (m_states (py_call fuel c m)) ≤ block_number (m_states m) + transactions c).
Proof.
  assert (∀ m', calm m m' → settings m' = settings m ∧ (false = false →
    block_number (m_states m) ≤ block_number (m_states m') ≤ block_number (m_states m) + 0)) as Hcalm.
  { intros m' [Hs Hb]. rewrite Hb. split; [done|]. intros _. clear. lia. }
  destruct c; cbn [py_call chosen transactions sets_block]; try apply Hcalm; try done.
  - split; [done|]. intros _. cbn. clear. lia.
  - unfold PyModel.instantiate. rewrite bind_state_ret, or_runtime_error_state.
    destruct (instantiate_moves fuel code_id msg (PyModel.funds_of funds) m). by split.
  - unfold PyModel.execute. rewrite bind_state_ret, or_runtime_error_state.
    destruct (execute_moves fuel contract_addr msg (PyModel.funds_of funds) m). by split.
  - unfold PyModel.wasm_query. rewrite or_runtime_error_state. apply wasm_query_calm.
  - unfold PyModel.bank_query. rewrite or_runtime_error_state. apply bank_query_calm.
  - destruct amount. unfold PyModel.cheat_bank_balance. rewrite or_runtime_error_state. apply cheat_bank_balance_calm.
  - unfold PyModel.cheat_code. rewrite or_runtime_error_state. apply cheat_code_calm.
  - split; [done|]. intros _. cbn. clear. lia.
  - unfold PyModel.cheat_storage. rewrite or_runtime_error_state. apply cheat_storage_calm.
  - split; [done|]. intros _. cbn. clear. lia.
  - split; [done|]. intros _. cbn. clear. lia.
Qed.
End sessions.

Section claims.
Context {C : Type} {HC : CwClientBackend C} {HV : ChainClient C} {HX : Externals} {HW : WasmEngine}.

(** C20: A Python session of any length, with contracts that do what they like and calls
    that return, raise or panic: the sender of transactions, the provided codes and
    whether coverage is gathered are exactly what the calls that set them chose last, no
    transaction, roll-back or cheat in between touches them; and unless the block is set
    by hand, its number never falls and rises by at most one per transaction. *)
Theorem python_session_keeps_settings fuel calls (m : Model C) :
  let m' := session fuel calls m in
  settings m' = foldl chosen (settings m) calls ∧
  (Forall (λ c, sets_block c = false) calls →
   block_number (m_states m) ≤ block_number (m_states m') ≤
     block_number (m_states m) + foldr (λ c n, transactions c + n) 0 calls).
Proof.
  revert m. unfold session. induction calls as [|c calls IH]; intros m; cbn [foldl foldr].
  - split; [done|]. intros _. clear. lia.
  - destruct (py_call_step fuel c m) as [Hs Hb]. destruct (IH (py_call fuel c m)) as [IHs IHb].
    split; [by rewrite IHs, Hs|]. intros [Hc Hcs]%Forall_cons_1. specialize (Hb Hc). specialize (IHb Hcs). lia.
Qed.
End claims.
