(* ===== verification/Digits.v ===== *)
(** * Strings of digits

    The value of a string of decimal digits, padding with leading zeros and trimming
    of trailing ones, as [format!] and [trim_end_matches] do them: what the printers and
    parsers of the decimal types are made of. *)

From Stdlib Require Import Ascii.
From S2P Require Import Prelude.
From S2P Require Import Bytes.

Open Scope Z_scope.

Fixpoint digits (s : string) : bool :=
  match s with
  | EmptyString => true
  | String c s' => match digit c with Some _ => digits s' | None => false end
  end.

(** [value_from acc s]: the number read when [s] follows the digits of [acc]. *)
Fixpoint value_from (acc : Z) (s : string) : Z :=
  match s with
  | EmptyString => acc
  | String c s' => value_from (acc * 10 + default 0 (digit c)) s'
  end.
Abbreviation value := (value_from 0).

(** [format!("{:0>n$}", s)]. *)
Fixpoint zeros (n : nat) : string :=
  match n with O => EmptyString | S n => String "0" (zeros n) end.
Definition pad_zeros (n : nat) (s : string) : string := zeros (n - String.length s) +:+ s.

(** [s.trim_end_matches('0')]. *)
Fixpoint trim_zeros (s : string) : string :=
  match s with
  | EmptyString => EmptyString
  | String c s' =>
      match trim_zeros s' with
      | EmptyString => if Ascii.eqb c "0" then EmptyString else String c EmptyString
      | t => String c t
      end
  end.

(** ** Facts *)
Lemma digit_range c d : digit c = Some d → 0 ≤ d ≤ 9.
Proof.
  unfold digit. destruct (Z.leb_spec 48 (Z.of_nat (nat_of_ascii c))); cbn; [|done].
  destruct (Z.leb_spec (Z.of_nat (nat_of_ascii c)) 57); cbn; [|done]. intros [= <-]. lia.
Qed.

Lemma append_cons c s t : String c s +:+ t = String c (s +:+ t).
Proof. done. Qed.

Lemma length_app_string s t : String.length (s +:+ t) = (String.length s + String.length t)%nat.
Proof. induction s as [|c s IH]; [done|]. rewrite append_cons. cbn. by rewrite IH. Qed.

Lemma digits_app s t : digits (s +:+ t) = digits s && digits t.
Proof.
  induction s as [|c s IH]; [done|]. rewrite append_cons. cbn [digits].
  destruct (digit c); [apply IH|done].
Qed.

Lemma value_from_app acc s t : value_from acc (s +:+ t) = value_from (value_from acc s) t.
Proof.
  revert acc. induction s as [|c s IH]; intros acc; [done|]. rewrite append_cons. apply IH.
Qed.

Lemma value_from_acc acc s :
  value_from acc s = acc * 10 ^ Z.of_nat (String.length s) + value s.
Proof.
  revert acc. induction s as [|c s IH]; intros acc; cbn [value_from String.length]; [lia|].
  rewrite IH, (IH (0 * 10 + _)), Nat2Z.inj_succ, Z.pow_succ_r by lia. ring.
Qed.

Lemma value_bound s : digits s = true → 0 ≤ value s < 10 ^ Z.of_nat (String.length s).
Proof.
  induction s as [|c s IH]; cbn [digits value_from String.length]; [done|].
  destruct (digit c) as [d|] eqn:Hd; [|done]. intros Hs%IH. apply digit_range in Hd.
  rewrite value_from_acc, Nat2Z.inj_succ, Z.pow_succ_r by lia. cbn [from_option id].
  set (p := 10 ^ _) in *. clearbody p. nia.
Qed.

Lemma value_from_ge acc s : 0 ≤ acc → digits s = true → acc ≤ value_from acc s.
Proof.
  intros Ha Hs. rewrite value_from_acc. pose proof (value_bound s Hs) as [Hv _].
  pose proof (Z.pow_pos_nonneg 10 (Z.of_nat (String.length s)) ltac:(lia) ltac:(lia)).
  set (p := 10 ^ _) in *. clearbody p. nia.
Qed.

(** The checked parser of the standard library is exact on digits. *)
Lemma parse_digits_value w acc s :
  0 ≤ acc < w → digits s = true →
  parse_digits w acc s = if value_from acc s <? w then Some (value_from acc s) else None.
Proof.
  revert acc. induction s as [|c s IH]; intros acc Ha; cbn [digits parse_digits value_from].
  - intros _. by destruct (Z.ltb_spec acc w); [|lia].
  - destruct (digit c) as [d|] eqn:Hd; [|done]. intros Hs. cbn [from_option id].
    apply digit_range in Hd. pose proof (value_from_ge (acc * 10 + d) s ltac:(lia) Hs).
    destruct (Z.ltb_spec (acc * 10) w).
    + destruct (Z.ltb_spec (acc * 10 + d) w); [by apply IH; [lia|]|].
      by destruct (Z.ltb_spec (value_from (acc * 10 + d) s) w); [lia|].
    + by destruct (Z.ltb_spec (value_from (acc * 10 + d) s) w); [lia|].
Qed.

Lemma parse_uint_value w s :
  0 < w → s ≠ EmptyString → digits s = true →
  parse_uint w s = if value s <? w then Some (value s) else None.
Proof.
  intros Hw Hne Hs. destruct s as [|c s]; [done|].
  rewrite (parse_uint_plain w _ c s) by (done || by intros ->).
  apply parse_digits_value; [lia|done].
Qed.

(** A printed number is a string of digits with that value and, but for 0, without a
    leading zero. *)
Lemma pretty_N_go_digits x s :
  digits s = true →
  digits (pretty_N_go x s) = true ∧ value (pretty_N_go x s) = value_from (Z.of_N x) s ∧
  ((0 < x)%N → 10 ^ Z.of_nat (String.length (pretty_N_go x s) - String.length s - 1) ≤ Z.of_N x ∧
     (String.length s < String.length (pretty_N_go x s))%nat).
Proof.
  revert s. induction (N.lt_wf_0 x) as [x _ IH]; intros s Hs.
  assert (x = 0 ∨ 0 < x)%N as [->|Hpos] by lia.
  { rewrite pretty_N_go_0. split_and!; [done..|lia]. }
  rewrite pretty_N_go_step by done.
  assert (x = 10 * (x `div` 10) + x `mod` 10)%N as Hx by (by apply N.div_mod).
  assert (x `mod` 10 < 10)%N as Hm by (by apply N.mod_lt).
  pose proof (digit_pretty_N_char _ Hm) as Hd.
  set (s' := String (pretty_N_char (x `mod` 10)) s).
  assert (digits s' = true) as Hs' by (cbn; by rewrite Hd).
  destruct (IH (x `div` 10)%N ltac:(by apply N.div_lt) s' Hs') as (IH1 & IH2 & IH3).
  split_and!; [done| |].
  - rewrite IH2. cbn [s' value_from]. rewrite Hd. cbn [from_option id]. f_equal. lia.
  - intros _. assert (x `div` 10 = 0 ∨ 0 < x `div` 10)%N as [Hz|Hq] by lia.
    + rewrite Hz, pretty_N_go_0. cbn [s' String.length].
      replace (S (String.length s) - String.length s - 1)%nat with 0%nat by lia. lia.
    + destruct (IH3 Hq) as [IH4 IH5]. cbn [s' String.length] in IH4, IH5.
      set (l := String.length (pretty_N_go (x `div` 10) s')) in *. split; [|lia].
      replace (Z.of_nat (l - String.length s - 1)) with
        (Z.succ (Z.of_nat (l - S (String.length s) - 1))) by lia.
      rewrite Z.pow_succ_r by lia.
      assert (10 * Z.of_N (x `div` 10) ≤ Z.of_N x) 
        by (clear -Hx; pose proof (N.le_0_l (x `mod` 10)); lia).
      set (p := 10 ^ _) in *. clearbody p. lia.
Qed.

Lemma pretty_digits z :
  0 ≤ z → digits (pretty z) = true ∧ value (pretty z) = z ∧ pretty z ≠ EmptyString.
Proof.
  intros Hz. destruct z as [|p|p]; [done| |lia].
  unfold pretty, pretty_Z. change (pretty p) with (pretty (N.pos p)).
  unfold pretty, pretty_N. case_decide; [done|].
  destruct (pretty_N_go_digits (N.pos p) "") as (H1 & H2 & H3); [done|]. split_and!; [done..|].
  intros He. rewrite He in H3. cbn in H3. lia.
Qed.

Lemma pretty_length z n :
  0 ≤ z < 10 ^ Z.of_nat n → (0 < n)%nat → (String.length (pretty z) ≤ n)%nat.
Proof.
  intros Hz Hn. destruct z as [|p|p]; [cbn; lia| |lia].
  unfold pretty, pretty_Z. change (pretty p) with (pretty (N.pos p)).
  unfold pretty, pretty_N. case_decide; [done|].
  destruct (pretty_N_go_digits (N.pos p) "") as (_ & _ & H3); [done|].
  destruct H3 as [H3 _]; [lia|]. cbn [String.length] in H3.
  set (l := String.length _) in *. destruct (Nat.le_gt_cases l n) as [|Hl]; [done|].
  pose proof (Z.pow_le_mono_r 10 (Z.of_nat n) (Z.of_nat (l - 0 - 1))). lia.
Qed.

Lemma zeros_digits n : digits (zeros n) = true ∧ value (zeros n) = 0 ∧ String.length (zeros n) = n.
Proof.
  induction n as [|n (IH1 & IH2 & IH3)]; [done|]. cbn [zeros digits String.length value_from].
  change (digit "0") with (Some 0). cbn [from_option id]. rewrite value_from_acc.
  rewrite IH1, IH2, IH3. split_and!; [done|lia|done].
Qed.

Lemma pad_zeros_digits n s :
  digits s = true → (String.length s ≤ n)%nat →
  digits (pad_zeros n s) = true ∧ value (pad_zeros n s) = value s ∧
  String.length (pad_zeros n s) = n.
Proof.
  intros Hs Hl. unfold pad_zeros. destruct (zeros_digits (n - String.length s)) as (H1 & H2 & H3).
  rewrite digits_app, value_from_app, length_app_string, H1, H2, H3. split_and!; [done..|lia].
Qed.

(** Trimming zeros divides by a power of ten. *)
Lemma trim_zeros_digits s :
  digits s = true →
  digits (trim_zeros s) = true ∧ (String.length (trim_zeros s) ≤ String.length s)%nat ∧
  value s = value (trim_zeros s) * 10 ^ Z.of_nat (String.length s - String.length (trim_zeros s)) ∧
  (value s ≠ 0 → trim_zeros s ≠ EmptyString).
Proof.
  induction s as [|c s IH]; cbn [digits trim_zeros]; [done|].
  destruct (digit c) as [d|] eqn:Hd; [|done]. intros Hs. destruct (IH Hs) as (H1 & H2 & H3 & H4).
  cbn [value_from]. rewrite Hd. cbn [from_option id].
  rewrite value_from_acc, H3.
  destruct (trim_zeros s) as [|c' t] eqn:Ht; cbn [String.length value_from] in *.
  - rewrite Nat.sub_0_r. destruct (Ascii.eqb_spec c "0") as [->|Hc].
    + injection Hd as <-. cbn. rewrite !Z.mul_0_l. split_and!; [done|lia|done|done].
    + cbn [String.length digits value_from]. rewrite Hd. cbn [from_option id].
      replace (S (String.length s) - 1)%nat with (String.length s) by lia.
      split_and!; [done|lia|lia|done].
  - rewrite Hd. cbn [from_option id]. rewrite !(value_from_acc (_ * 10 + _)).
    split_and!; [cbn [digits]; by rewrite Hd|lia| |done].
    replace (S (String.length s) - S (S (String.length t)))%nat
      with (String.length s - S (String.length t))%nat by lia.
    set (a := String.length s) in *. set (b := String.length t) in *.
    assert (10 ^ Z.of_nat a = 10 ^ Z.of_nat (S b) * 10 ^ Z.of_nat (a - S b)) as ->
      by (rewrite <-Z.pow_add_r by lia; f_equal; lia).
    rewrite Nat2Z.inj_succ, Z.pow_succ_r by lia. ring.
Qed.

(** ** The errors of [parse]

    [ParseIntError] names the first problem: no digits at all, a character that is no
    digit, or a number that is too large. *)
Definition parse_empty : string := "cannot parse integer from empty string".
Definition parse_invalid : string := "invalid digit found in string".
Definition parse_too_large : string := "number too large to fit in target type".

Fixpoint read_digits (w acc : Z) (s : string) : string + Z :=
  match s with
  | EmptyString => inr acc
  | String c s' =>
      match digit c with
      | None => inl parse_invalid
      | Some d =>
          if acc * 10 <? w then
            if acc * 10 + d <? w then read_digits w (acc * 10 + d) s' else inl parse_too_large
          else inl parse_too_large
      end
  end.

Definition parse_int (w : Z) (s : string) : string + Z :=
  match s with
  | EmptyString => inl parse_empty
  | String "+" EmptyString => inl parse_invalid
  | String "+" s' => read_digits w 0 s'
  | _ => read_digits w 0 s
  end.

Definition ok {E A} (r : E + A) : option A := match r with inr a => Some a | inl _ => None end.

Lemma read_digits_ok w acc s : ok (read_digits w acc s) = parse_digits w acc s.
Proof.
  revert acc. induction s as [|c s IH]; intros acc; [done|]. cbn [read_digits parse_digits].
  destruct (digit c); [|done]. by do 2 (destruct (_ <? w); [|done]).
Qed.

Lemma parse_int_ok w s : ok (parse_int w s) = parse_uint w s.
Proof.
  destruct s as [|c s]; [done|].
  destruct (Ascii.eqb_spec c "+") as [->|Hc].
  - destruct s; [done|]. apply read_digits_ok.
  - rewrite (parse_uint_plain _ _ _ _ eq_refl Hc), <-read_digits_ok.
    by destruct c as [[] [] [] [] [] [] [] []].
Qed.
