(* ===== verification/StdError.v ===== *)
(** * Errors of the standard library of contracts ([cosmwasm/packages/std/src/errors],
      [crypto/src/errors.rs])

    The error types, their constructors, texts, codes and conversions, and the
    hand-written equalities. Backtraces, which are compiled in by a feature that is off,
    are left out. *)

From S2P Require Import Prelude.

Open Scope Z_scope.

(** ** [crypto/src/errors.rs] *)
Inductive CryptoError :=
| CryptoBatchErr (msg : string)
| CryptoGenericErr (msg : string)
| CryptoInvalidHashFormat
| CryptoInvalidPubkeyFormat
| CryptoInvalidSignatureFormat
| CryptoInvalidRecoveryParam.

Definition CryptoError_to_string (e : CryptoError) : string :=
  match e with
  | CryptoBatchErr msg => "Batch verify error: " +:+ msg
  | CryptoGenericErr msg => "Crypto error: " +:+ msg
  | CryptoInvalidHashFormat => "Invalid hash format"
  | CryptoInvalidPubkeyFormat => "Invalid public key format"
  | CryptoInvalidSignatureFormat => "Invalid signature format"
  | CryptoInvalidRecoveryParam => "Invalid recovery parameter. Supported values: 0 and 1."
  end.

(** [code]: what crosses the boundary between contract and VM. *)
Definition CryptoError_code (e : CryptoError) : Z :=
  match e with
  | CryptoInvalidHashFormat => 3
  | CryptoInvalidSignatureFormat => 4
  | CryptoInvalidPubkeyFormat => 5
  | CryptoInvalidRecoveryParam => 6
  | CryptoBatchErr _ => 7
  | CryptoGenericErr _ => 10
  end.

(** ** [verification_error.rs] *)
Inductive VerificationError :=
| VerBatchErr
| VerGenericErr
| VerInvalidHashFormat
| VerInvalidSignatureFormat
| VerInvalidPubkeyFormat
| VerInvalidRecoveryParam
| VerUnknownErr (error_code : Z).

Definition VerificationError_to_string (e : VerificationError) : string :=
  match e with
  | VerBatchErr => "Batch error"
  | VerGenericErr => "Generic error"
  | VerInvalidHashFormat => "Invalid hash format"
  | VerInvalidSignatureFormat => "Invalid signature format"
  | VerInvalidPubkeyFormat => "Invalid public key format"
  | VerInvalidRecoveryParam => "Invalid recovery parameter. Supported values: 0 and 1."
  | VerUnknownErr c => "Unknown error: " +:+ pretty c
  end.

Definition VerificationError_eq (self rhs : VerificationError) : bool :=
  match self with
  | VerBatchErr => match rhs with VerBatchErr => true | _ => false end
  | VerGenericErr => match rhs with VerGenericErr => true | _ => false end
  | VerInvalidHashFormat => match rhs with VerInvalidHashFormat => true | _ => false end
  | VerInvalidPubkeyFormat => match rhs with VerInvalidPubkeyFormat => true | _ => false end
  | VerInvalidSignatureFormat => match rhs with VerInvalidSignatureFormat => true | _ => false end
  | VerInvalidRecoveryParam => match rhs with VerInvalidRecoveryParam => true | _ => false end
  | VerUnknownErr c => match rhs with VerUnknownErr c' => c =? c' | _ => false end
  end.

Definition VerificationError_of_CryptoError (e : CryptoError) : VerificationError :=
  match e with
  | CryptoInvalidHashFormat => VerInvalidHashFormat
  | CryptoInvalidPubkeyFormat => VerInvalidPubkeyFormat
  | CryptoInvalidSignatureFormat => VerInvalidSignatureFormat
  | CryptoGenericErr _ => VerGenericErr
  | CryptoInvalidRecoveryParam => VerInvalidRecoveryParam
  | CryptoBatchErr _ => VerBatchErr
  end.

(** ** [recover_pubkey_error.rs] *)
Inductive RecoverPubkeyError :=
| RecInvalidHashFormat
| RecInvalidSignatureFormat
| RecInvalidRecoveryParam
| RecUnknownErr (error_code : Z).

Definition RecoverPubkeyError_to_string (e : RecoverPubkeyError) : string :=
  match e with
  | RecInvalidHashFormat => "Invalid hash format"
  | RecInvalidSignatureFormat => "Invalid signature format"
  | RecInvalidRecoveryParam => "Invalid recovery parameter. Supported values: 0 and 1."
  | RecUnknownErr c => "Unknown error: " +:+ pretty c
  end.

Definition RecoverPubkeyError_eq (self rhs : RecoverPubkeyError) : bool :=
  match self with
  | RecInvalidHashFormat => match rhs with RecInvalidHashFormat => true | _ => false end
  | RecInvalidSignatureFormat => match rhs with RecInvalidSignatureFormat => true | _ => false end
  | RecInvalidRecoveryParam => match rhs with RecInvalidRecoveryParam => true | _ => false end
  | RecUnknownErr c => match rhs with RecUnknownErr c' => c =? c' | _ => false end
  end.

Definition RecoverPubkeyError_of_CryptoError {E S} (e : CryptoError) : M E S RecoverPubkeyError :=
  match e with
  | CryptoInvalidHashFormat => mret RecInvalidHashFormat
  | CryptoInvalidPubkeyFormat => panic "Conversion not supported"
  | CryptoInvalidSignatureFormat => mret RecInvalidSignatureFormat
  | CryptoGenericErr _ => mret (RecUnknownErr (CryptoError_code e))
  | CryptoInvalidRecoveryParam => mret RecInvalidRecoveryParam
  | CryptoBatchErr _ => panic "Conversion not supported"
  end.

(** ** [std_error.rs] *)
Inductive OverflowOperation := OpAdd | OpSub | OpMul | OpPow | OpShr | OpShl.

Record OverflowError := mkOverflowError {
  operation : OverflowOperation;
  operand1 : string;
  operand2 : string
}.
Record DivideByZeroError := mkDivideByZeroError { operand : string }.
Inductive CheckedMultiplyRatioError := RatioDivideByZero | RatioOverflow.
Record ConversionOverflowError := mkConversionOverflowError {
  source_type : string;
  target_type : string;
  conv_value : string
}.
Inductive CheckedFromRatioError := FromRatioDivideByZero | FromRatioOverflow.
Inductive RoundUpOverflowError := mkRoundUpOverflowError.

Definition OverflowOperation_to_string (o : OverflowOperation) : string :=
  match o with
  | OpAdd => "Add" | OpSub => "Sub" | OpMul => "Mul" | OpPow => "Pow" | OpShr => "Shr" | OpShl => "Shl"
  end.
Definition OverflowError_to_string (e : OverflowError) : string :=
  "Cannot " +:+ OverflowOperation_to_string (operation e) +:+ " with " +:+ operand1 e
  +:+ " and " +:+ operand2 e.
Definition DivideByZeroError_to_string (e : DivideByZeroError) : string :=
  "Cannot devide " +:+ operand e +:+ " by zero".

Inductive StdError :=
| StdVerificationErr (source : VerificationError)
| StdRecoverPubkeyErr (source : RecoverPubkeyError)
| StdGenericErr (msg : string)
| StdInvalidBase64 (msg : string)
| StdInvalidDataSize (expected actual : Z)
| StdInvalidHex (msg : string)
| StdInvalidUtf8 (msg : string)
| StdNotFound (kind : string)
| StdParseErr (target_type msg : string)
| StdSerializeErr (source_type msg : string)
| StdOverflow (source : OverflowError)
| StdDivideByZero (source : DivideByZeroError)
| StdConversionOverflow (source : ConversionOverflowError).

Definition StdError_to_string (e : StdError) : string :=
  match e with
  | StdVerificationErr s => "Verification error: " +:+ VerificationError_to_string s
  | StdRecoverPubkeyErr s => "Recover pubkey error: " +:+ RecoverPubkeyError_to_string s
  | StdGenericErr msg => "Generic error: " +:+ msg
  | StdInvalidBase64 msg => "Invalid Base64 string: " +:+ msg
  | StdInvalidDataSize e a =>
      "Invalid data size: expected=" +:+ pretty e +:+ " actual=" +:+ pretty a
  | StdInvalidHex msg => "Invalid hex string: " +:+ msg
  | StdInvalidUtf8 msg => "Cannot decode UTF8 bytes into string: " +:+ msg
  | StdNotFound kind => kind +:+ " not found"
  | StdParseErr t msg => "Error parsing into type " +:+ t +:+ ": " +:+ msg
  | StdSerializeErr t msg => "Error serializing type " +:+ t +:+ ": " +:+ msg
  | StdOverflow s => "Overflow: " +:+ OverflowError_to_string s
  | StdDivideByZero s => "Divide by zero: " +:+ DivideByZeroError_to_string s
  | StdConversionOverflow _ => "Conversion error: "
  end.

#[export] Instance OverflowOperation_eq_dec : EqDecision OverflowOperation.
Proof. solve_decision. Defined.
#[export] Instance OverflowError_eq_dec : EqDecision OverflowError.
Proof. solve_decision. Defined.
#[export] Instance DivideByZeroError_eq_dec : EqDecision DivideByZeroError.
Proof. solve_decision. Defined.
#[export] Instance ConversionOverflowError_eq_dec : EqDecision ConversionOverflowError.
Proof. solve_decision. Defined.

(** [PartialEq for StdError], written out case by case in the source. *)
Definition StdError_eq (self rhs : StdError) : bool :=
  match self with
  | StdVerificationErr s =>
      match rhs with StdVerificationErr s' => VerificationError_eq s s' | _ => false end
  | StdRecoverPubkeyErr s =>
      match rhs with StdRecoverPubkeyErr s' => RecoverPubkeyError_eq s s' | _ => false end
  | StdGenericErr msg => match rhs with StdGenericErr m => String.eqb msg m | _ => false end
  | StdInvalidBase64 msg => match rhs with StdInvalidBase64 m => String.eqb msg m | _ => false end
  | StdInvalidDataSize e a =>
      match rhs with StdInvalidDataSize e' a' => (e =? e') && (a =? a') | _ => false end
  | StdInvalidHex msg => match rhs with StdInvalidHex m => String.eqb msg m | _ => false end
  | StdInvalidUtf8 msg => match rhs with StdInvalidUtf8 m => String.eqb msg m | _ => false end
  | StdNotFound kind => match rhs with StdNotFound k => String.eqb kind k | _ => false end
  | StdParseErr t msg =>
      match rhs with StdParseErr t' m => String.eqb t t' && String.eqb msg m | _ => false end
  | StdSerializeErr t msg =>
      match rhs with StdSerializeErr t' m => String.eqb t t' && String.eqb msg m | _ => false end
  | StdOverflow s => match rhs with StdOverflow s' => bool_decide (s = s') | _ => false end
  | StdDivideByZero s => match rhs with StdDivideByZero s' => bool_decide (s = s') | _ => false end
  | StdConversionOverflow s =>
      match rhs with StdConversionOverflow s' => bool_decide (s = s') | _ => false end
  end.

(** The hand-written equalities are equality. *)
Lemma VerificationError_eq_spec a b : VerificationError_eq a b = true ↔ a = b.
Proof. destruct a, b; cbn; rewrite ?Z.eqb_eq; naive_solver. Qed.
Lemma RecoverPubkeyError_eq_spec a b : RecoverPubkeyError_eq a b = true ↔ a = b.
Proof. destruct a, b; cbn; rewrite ?Z.eqb_eq; naive_solver. Qed.

Lemma StdError_eq_spec a b : StdError_eq a b = true ↔ a = b.
Proof.
  destruct a, b; cbn; try (split; [done|by intros [=]]);
    rewrite ?andb_true_iff, ?String.eqb_eq, ?Z.eqb_eq, ?bool_decide_eq_true,
      ?VerificationError_eq_spec, ?RecoverPubkeyError_eq_spec; naive_solver.
Qed.
