(* ===== verification/Uint128.v ===== *)
(** * 128-bit amounts ([cosmwasm/packages/std/src/math/uint128.rs], [isqrt.rs])

    [Uint128] is an integer of [Z] in [[0, 2^128)]. The operators of the type
    panic when they leave that range; the named methods report, wrap or saturate. *)

From S2P Require Import Prelude.
From S2P Require Import Bytes.
From S2P Require Import Digits.
From S2P Require Import CwStd.
From S2P Require Import StdError.

Open Scope Z_scope.

Definition U256 : Z := 2 ^ 256.
Definition Uint128_MAX : Z := U128 - 1.

(** The checked operations of the primitive type. *)
Definition fits (w : Z) (z : Z) : option Z := if (0 <=? z) && (z <? w) then Some z else None.

Definition overflow (op : OverflowOperation) (a b : Z) (o : option Z) : OverflowError + Z :=
  match o with
  | Some z => inr z
  | None => inl (mkOverflowError op (pretty a) (pretty b))
  end.

(** ** Methods *)
Definition checked_add (self other : Z) : OverflowError + Z :=
  overflow OpAdd self other (fits U128 (self + other)).
Definition checked_sub (self other : Z) : OverflowError + Z :=
  overflow OpSub self other (fits U128 (self - other)).
Definition checked_mul (self other : Z) : OverflowError + Z :=
  overflow OpMul self other (fits U128 (self * other)).
Definition checked_pow (self exp : Z) : OverflowError + Z :=
  overflow OpPow self exp (fits U128 (self ^ exp)).
Definition checked_div (self other : Z) : DivideByZeroError + Z :=
  if other =? 0 then inl (mkDivideByZeroError (pretty self)) else inr (self / other).
Definition checked_rem (self other : Z) : DivideByZeroError + Z :=
  if other =? 0 then inl (mkDivideByZeroError (pretty self)) else inr (self mod other).

(** Euclidean division is division for unsigned numbers. *)
Definition checked_div_euclid (self other : Z) : DivideByZeroError + Z :=
  if other =? 0 then inl (mkDivideByZeroError (pretty self)) else inr (self / other).

Definition wrapping_add (self other : Z) : Z := (self + other) mod U128.
Definition wrapping_sub (self other : Z) : Z := (self - other) mod U128.
Definition wrapping_mul (self other : Z) : Z := (self * other) mod U128.

Definition wrapping_pow (self exp : Z) : Z := (self ^ exp) mod U128.

Definition saturating_add (self other : Z) : Z := Z.min (self + other) Uint128_MAX.
Definition saturating_sub (self other : Z) : Z := Z.max (self - other) 0.
Definition saturating_mul (self other : Z) : Z := Z.min (self * other) Uint128_MAX.
Definition saturating_pow (self exp : Z) : Z := Z.min (self ^ exp) Uint128_MAX.

Definition abs_diff (self other : Z) : Z := if self <? other then other - self else self - other.

Definition is_zero (self : Z) : bool := self =? 0.

Definition to_be_bytes (self : Z) : bytes := be_bytes 16 self.
Definition to_le_bytes (self : Z) : bytes := le_bytes 16 self.

(** [FromStr], [TryFrom<&str>] and the visitor of [Deserialize]. *)
Definition from_str (s : string) : StdError + Z :=
  match parse_int U128 s with
  | inr u => inr u
  | inl e => inl (StdGenericErr ("Parsing u128: " +:+ e))
  end.
Definition visit_str (v : string) : string + Z :=
  match parse_int U128 v with
  | inr u => inr u
  | inl e => inl ("invalid Uint128 '" +:+ v +:+ "' - " +:+ e)
  end.

(** ** Operators *)
Section operators.
Context {E S : Type}.
Abbreviation P := (M E S Z).

Definition expect (msg : string) (o : option Z) : P := unwrap msg o.

Definition uint128_add (self rhs : Z) : P :=
  expect "attempt to add with overflow" (fits U128 (self + rhs)).
Definition uint128_sub (self rhs : Z) : P :=
  expect "attempt to subtract with overflow" (fits U128 (self - rhs)).
Definition uint128_mul (self rhs : Z) : P :=
  expect "attempt to multiply with overflow" (fits U128 (self * rhs)).
Definition uint128_div (self rhs : Z) : P :=
  expect "attempt to divide by zero" (if rhs =? 0 then None else Some (self / rhs)).
Definition uint128_shr (self rhs : Z) : P :=
  expect "attempt to shift right with overflow"
    (if rhs <? 128 then Some (Z.shiftr self rhs) else None).
Definition uint128_rem (self rhs : Z) : P :=
  expect "attempt to calculate the remainder with a divisor of zero"
    (if rhs =? 0 then None else Some (self mod rhs)).
(** [pow] of the primitive type. *)
Definition pow (self exp : Z) : P :=
  expect "attempt to multiply with overflow" (fits U128 (self ^ exp)).

(** [Sum]: [iter.fold(Self::zero(), Add::add)]. *)
Fixpoint fold_ops (op : Z → Z → P) (acc : Z) (l : list Z) : P :=
  match l with [] => mret acc | x :: l => y ← op acc x; fold_ops op y l end.
Definition sum (l : list Z) : P := fold_ops uint128_add 0 l.

(** ** Integer square root

    The loop of [isqrt]; [x1] is never negative, so [x1 < x0] makes it smaller
    in a well-founded order. The sum may overflow the width [w]. *)
Definition isqrt_next (self x0 : Z) : Z := Z.shiftr (x0 + self / x0) 1.

Fixpoint isqrt_loop (w self x0 : Z) (acc : Acc (λ x y, 0 ≤ x < y) x0) {struct acc} : P :=
  _ ← add_or_panic w x0 (self / x0);
  match decide (0 ≤ isqrt_next self x0 < x0) with
  | left H => isqrt_loop w self (isqrt_next self x0) (Acc_inv acc H)
  | right _ => mret x0
  end.

Definition isqrt (w self : Z) : P :=
  let x0 := Z.shiftr self 1 in
  if 0 <? x0 then isqrt_loop w self x0 (wf_guard 32 (Z.lt_wf 0) x0) else mret self.
End operators.

(** [*self = *self op rhs]: the assigning operators keep [self] when they panic. *)
Definition assign {E : Type} (op : Z → Z → M E Z Z) (rhs : Z) : M E Z unit :=
  self ← get; z ← op self rhs; put z.

Definition add_assign {E} : Z → M E Z unit := assign uint128_add.
Definition sub_assign {E} : Z → M E Z unit := assign uint128_sub.
Definition mul_assign {E} : Z → M E Z unit := assign uint128_mul.
Definition div_assign {E} : Z → M E Z unit := assign uint128_div.
Definition rem_assign {E} : Z → M E Z unit := assign uint128_rem.
Definition shr_assign {E} : Z → M E Z unit := assign uint128_shr.

(** ** Facts *)
Lemma fits_Some w z x : fits w z = Some x ↔ x = z ∧ in_width w z.
Proof. unfold fits, in_width. destruct (Z.leb_spec 0 z), (Z.ltb_spec z w); cbn; naive_solver lia. Qed.

Lemma fits_None w z : fits w z = None ↔ ¬ in_width w z.
Proof. unfold fits, in_width. destruct (Z.leb_spec 0 z), (Z.ltb_spec z w); cbn; naive_solver lia. Qed.

(** The four flavours of an operation agree: when the exact result fits, the
    operator, the checked, the wrapping and the saturating method all return it;
    when it does not, the operator panics, the checked method reports the two
    operands, the wrapping one is off by a multiple of [2^128] and the saturating
    one returns the nearest bound. *)
Theorem uint128_flavours_agree {E S : Type} (s : S) a b :
  in_width U128 a → in_width U128 b →
  (if a + b <? U128 then
     (uint128_add a b : M E S Z) s = (Ok (a + b), s) ∧ checked_add a b = inr (a + b) ∧
     wrapping_add a b = a + b ∧ saturating_add a b = a + b
   else
     (uint128_add a b : M E S Z) s = (Panic "attempt to add with overflow", s) ∧
     checked_add a b = inl (mkOverflowError OpAdd (pretty a) (pretty b)) ∧
     wrapping_add a b = a + b - U128 ∧ saturating_add a b = Uint128_MAX) ∧
  (if b <=? a then
     (uint128_sub a b : M E S Z) s = (Ok (a - b), s) ∧ checked_sub a b = inr (a - b) ∧
     wrapping_sub a b = a - b ∧ saturating_sub a b = a - b ∧ abs_diff a b = a - b
   else
     (uint128_sub a b : M E S Z) s = (Panic "attempt to subtract with overflow", s) ∧
     checked_sub a b = inl (mkOverflowError OpSub (pretty a) (pretty b)) ∧
     wrapping_sub a b = a - b + U128 ∧ saturating_sub a b = 0 ∧ abs_diff a b = b - a).
Proof.
  intros [Ha Ha'] [Hb Hb'].
  unfold uint128_add, checked_add, wrapping_add, saturating_add, uint128_sub, checked_sub,
    wrapping_sub, saturating_sub, abs_diff, expect, fits, Uint128_MAX.
  split.
  - destruct (Z.ltb_spec (a + b) U128).
    + rewrite (proj2 (Z.leb_le 0 _)) by lia. cbn.
      split_and!; [done|done|by rewrite Z.mod_small by lia|lia].
    + rewrite (proj2 (Z.leb_le 0 _)) by lia. cbn. split_and!; [done|done| |lia].
      symmetry. apply (Z.mod_unique _ _ 1); lia.
  - destruct (Z.leb_spec b a).
    + rewrite (proj2 (Z.leb_le 0 _)), (proj2 (Z.ltb_lt _ U128)) by lia. cbn.
      split_and!; [done|done|by rewrite Z.mod_small by lia|lia|].
      destruct (Z.ltb_spec a b); lia.
    + rewrite (proj2 (Z.leb_gt 0 _)) by lia. cbn. split_and!; [done|done| |lia|].
      * symmetry. apply (Z.mod_unique _ _ (-1)); lia.
      * destruct (Z.ltb_spec a b); lia.
Qed.

(** ** Newton's iteration *)
Lemma isqrt_next_div n x : isqrt_next n x = (x + n / x) / 2.
Proof. unfold isqrt_next. by rewrite Z.shiftr_div_pow2. Qed.

(** One step does not go below the root. *)
Lemma isqrt_next_above n x : 0 ≤ n → 0 < x → Z.sqrt n ≤ isqrt_next n x.
Proof.
  intros Hn Hx. rewrite isqrt_next_div. destruct (Z.sqrt_spec n Hn) as [Hs _].
  set (r := Z.sqrt n) in *. clearbody r. pose proof (Z.square_nonneg (r - x)).
  assert (2 * r - x ≤ n / x) by (apply Z.div_le_lower_bound; [done|lia]).
  apply Z.div_le_lower_bound; lia.
Qed.

(** A step that does not go down has reached the root. *)
Lemma isqrt_next_stop n x :
  0 ≤ n → 0 < x → Z.sqrt n ≤ x → x ≤ isqrt_next n x → x = Z.sqrt n.
Proof.
  intros Hn Hx Hr Hstop. rewrite isqrt_next_div in Hstop.
  pose proof (Z.mul_div_le (x + n / x) 2 Z.lt_0_2) as Hq.
  set (q := (x + n / x) / 2) in *. clearbody q.
  assert (x * x ≤ n) as Hsq.
  { pose proof (Z.mul_div_le n x Hx) as Hd. set (d := n / x) in *. clearbody d. nia. }
  assert (x ≤ Z.sqrt n) by (apply (Z.sqrt_le_square n x); lia). lia.
Qed.

(** The sum of a step fits, from a start at most half of the number. *)
Lemma isqrt_sum_fits w n x :
  4 < w → n < w → 0 < x → x ≤ n / 2 → Z.sqrt n ≤ x → 0 ≤ n → x + n / x < w.
Proof.
  intros Hw Hn Hx Hhalf Hr H0.
  destruct (decide (x = 1)) as [->|Hne].
  - rewrite Z.div_1_r. assert (n < 4); [|lia].
    apply Z.nle_gt. intros H4. assert (2 * 2 ≤ n) as H2 by lia.
    apply (Z.sqrt_le_square n 2) in H2; lia.
  - assert (n / x ≤ n / 2) by (apply Z.div_le_compat_l; lia).
    pose proof (Z.mul_div_le n 2 Z.lt_0_2). lia.
Qed.

Lemma isqrt_loop_correct {E S : Type} w n x acc (s : S) :
  4 < w → n < w → 0 ≤ n → 0 < x → x ≤ n / 2 → Z.sqrt n ≤ x →
  (isqrt_loop w n x acc : M E S Z) s = (Ok (Z.sqrt n), s).
Proof.
  intros Hw Hn H0. revert x acc. fix IH 2. intros x [acc] Hx Hhalf Hr. cbn [isqrt_loop].
  pose proof (isqrt_sum_fits w n x Hw Hn Hx Hhalf Hr H0) as Hsum.
  unfold add_or_panic. rewrite (proj2 (Z.ltb_lt _ _) Hsum), bind_ret_l.
  pose proof (isqrt_next_above n x H0 Hx) as Habove.
  destruct (decide _) as [Hlt|Hge].
  - assert (0 < Z.sqrt n).
    { apply Z.sqrt_pos. pose proof (Z.mul_div_le n 2 Z.lt_0_2). lia. }
    apply IH; lia.
  - pose proof (Z.sqrt_nonneg n).
    assert (x = Z.sqrt n) as <- by (apply isqrt_next_stop; lia). done.
Qed.

Lemma isqrt_run {E S : Type} (s : S) w n :
  16 ≤ w → in_width w n → (isqrt w n : M E S Z) s = (Ok (Z.sqrt n), s).
Proof.
  intros Hw [H0 Hn]. unfold isqrt. rewrite Z.shiftr_div_pow2 by done. change (2 ^ 1) with 2.
  destruct (Z.ltb_spec 0 (n / 2)) as [Hx|Hx].
  - apply isqrt_loop_correct; try lia.
    pose proof (Z.mul_div_le n 2 Z.lt_0_2). destruct (decide (n < 4)).
    + assert (n = 2 ∨ n = 3) as [->| ->] by lia; done.
    +
      destruct (Z.sqrt_spec n H0) as [Hs _]. set (r := Z.sqrt n) in *.
      assert (2 ≤ r) by (apply (Z.sqrt_le_square n 2); lia).
      apply Z.div_le_lower_bound; nia.
  - assert (n = 0 ∨ n = 1) as [->| ->]; [|done..].
    destruct (decide (2 ≤ n)); [|lia]. assert (1 ≤ n / 2) by (apply Z.div_le_lower_bound; lia). lia.
Qed.

(** The integer square root of the standard library terminates, does not
    overflow and returns the largest integer whose square is at most the
    argument, for every unsigned type of at least four bits. *)
Theorem isqrt_correct {E S : Type} (s : S) w n :
  16 ≤ w → in_width w n → (isqrt w n : M E S Z) s = (Ok (Z.sqrt n), s).
Proof. apply isqrt_run. Qed.
