(* ===== verification/UintCrate.v ===== *)
(** * Large integers of the [uint] crate

    [Uint256] and [Uint512] wrap the types that the macro [construct_uint!] of the crate
    [uint] generates. The crate is not part of the repository: its operations are the
    parameter [UintCrate], one instance per width, and what its documentation promises of
    them is [UintCrateSpec]. The word array of such a type is public, so a value is the
    number its words make ([of_words] in [Bytes]). *)

From S2P Require Import Prelude.
From S2P Require Import Bytes.
From S2P Require Import Digits.
From S2P Require Import CwStd.
From S2P Require Import Uint128.

Open Scope Z_scope.

Class UintCrate (w : Z) := {
  u_checked_add : Z → Z → option Z;
  u_checked_sub : Z → Z → option Z;
  u_checked_mul : Z → Z → option Z;
  u_checked_pow : Z → Z → option Z;
  u_checked_div : Z → Z → option Z;
  u_checked_rem : Z → Z → option Z;
  (** with a flag that tells whether the exact result was out of range *)
  u_overflowing_add : Z → Z → Z * bool;
  u_overflowing_sub : Z → Z → Z * bool;
  u_overflowing_mul : Z → Z → Z * bool;
  u_overflowing_pow : Z → Z → Z * bool;
  u_saturating_add : Z → Z → Z;
  u_saturating_sub : Z → Z → Z;
  u_saturating_mul : Z → Z → Z;
  u_shr : Z → Z → Z;
  u_shl : Z → Z → Z;
  (** [None] where the operator panics *)
  u_pow : Z → Z → option Z;
  u_rem : Z → Z → option Z;
  u_ltb : Z → Z → bool;
  u_from_u128 : Z → Z;
  u_try_into_u128 : Z → option Z;
  u_from_dec_str : string → string + Z;
  u_to_string : Z → string
}.

Definition overflowing (w z : Z) : Z * bool := (z mod w, negb ((0 <=? z) && (z <? w))).

Class UintCrateSpec (w : Z) `{UintCrate w} : Prop := {
  u_checked_add_spec a b : in_width w a → in_width w b → u_checked_add a b = fits w (a + b);
  u_checked_sub_spec a b : in_width w a → in_width w b → u_checked_sub a b = fits w (a - b);
  u_checked_mul_spec a b : in_width w a → in_width w b → u_checked_mul a b = fits w (a * b);
  u_checked_pow_spec a n : in_width w a → in_width U32 n → u_checked_pow a n = fits w (a ^ n);
  u_checked_div_spec a b : in_width w a → in_width w b →
    u_checked_div a b = if b =? 0 then None else Some (a / b);
  u_checked_rem_spec a b : in_width w a → in_width w b →
    u_checked_rem a b = if b =? 0 then None else Some (a mod b);
  u_overflowing_add_spec a b : in_width w a → in_width w b →
    u_overflowing_add a b = overflowing w (a + b);
  u_overflowing_sub_spec a b : in_width w a → in_width w b →
    u_overflowing_sub a b = overflowing w (a - b);
  u_overflowing_mul_spec a b : in_width w a → in_width w b →
    u_overflowing_mul a b = overflowing w (a * b);
  u_overflowing_pow_spec a n : in_width w a → in_width U32 n →
    u_overflowing_pow a n = overflowing w (a ^ n);
  u_saturating_add_spec a b : in_width w a → in_width w b →
    u_saturating_add a b = Z.min (a + b) (w - 1);
  u_saturating_sub_spec a b : in_width w a → in_width w b → u_saturating_sub a b = Z.max (a - b) 0;
  u_saturating_mul_spec a b : in_width w a → in_width w b →
    u_saturating_mul a b = Z.min (a * b) (w - 1);
  u_shr_spec a n : in_width w a → in_width U32 n → u_shr a n = Z.shiftr a n;
  u_shl_spec a n : in_width w a → in_width U32 n → u_shl a n = Z.shiftl a n mod w;
  u_pow_spec a n : in_width w a → in_width U32 n → u_pow a n = fits w (a ^ n);
  u_rem_spec a b : in_width w a → in_width w b → u_rem a b = if b =? 0 then None else Some (a mod b);
  u_ltb_spec a b : in_width w a → in_width w b → u_ltb a b = (a <? b);
  u_from_u128_spec a : in_width U128 a → u_from_u128 a = a;
  u_try_into_u128_spec a : in_width w a → u_try_into_u128 a = fits U128 a;
  (** digits are read exactly, and nothing else is accepted: no sign *)
  u_from_dec_str_spec s : s ≠ EmptyString → digits s = true →
    ok (u_from_dec_str s) = fits w (value s);
  u_from_dec_str_invalid s : digits s = false → ok (u_from_dec_str s) = None;
  u_to_string_spec a : in_width w a → u_to_string a = pretty a
}.

(** ** A crate that keeps the promises: exact arithmetic on [Z]. *)
Definition exact_uint (w : Z) : UintCrate w := {|
  u_checked_add := λ a b, fits w (a + b);
  u_checked_sub := λ a b, fits w (a - b);
  u_checked_mul := λ a b, fits w (a * b);
  u_checked_pow := λ a n, fits w (a ^ n);
  u_checked_div := λ a b, if b =? 0 then None else Some (a / b);
  u_checked_rem := λ a b, if b =? 0 then None else Some (a mod b);
  u_overflowing_add := λ a b, overflowing w (a + b);
  u_overflowing_sub := λ a b, overflowing w (a - b);
  u_overflowing_mul := λ a b, overflowing w (a * b);
  u_overflowing_pow := λ a n, overflowing w (a ^ n);
  u_saturating_add := λ a b, Z.min (a + b) (w - 1);
  u_saturating_sub := λ a b, Z.max (a - b) 0;
  u_saturating_mul := λ a b, Z.min (a * b) (w - 1);
  u_shr := Z.shiftr;
  u_shl := λ a n, Z.shiftl a n mod w;
  u_pow := λ a n, fits w (a ^ n);
  u_rem := λ a b, if b =? 0 then None else Some (a mod b);
  u_ltb := Z.ltb;
  u_from_u128 := id;
  u_try_into_u128 := fits U128;
  u_from_dec_str := λ s, if digits s then read_digits w 0 s else inl parse_invalid;
  u_to_string := pretty
|}.

Lemma exact_uint_spec w : 0 < w → @UintCrateSpec w (exact_uint w).
Proof.
  intros Hw. split; cbn; try done.
  - intros s Hs Hd. rewrite Hd, read_digits_ok, parse_digits_value by (done || lia).
    unfold fits. by rewrite (proj2 (Z.leb_le _ _) (proj1 (value_bound s Hd))).
  - intros s ->. done.
Qed.
