(* ===== verification/Uint256.v ===== *)
(** * 256-bit amounts ([cosmwasm/packages/std/src/math/uint256.rs])

    [Uint256(U256)], by the operations of the [uint] crate. The words of the array are
    read and written directly by the conversions from and to bytes. *)

From S2P Require Import Prelude.
From S2P Require Import Bytes.
From S2P Require Import Digits.
From S2P Require Import CwStd.
From S2P Require Import StdError.
From S2P Require Import Uint128.
From S2P Require Import UintCrate.

Open Scope Z_scope.

Definition MAX : Z := U256 - 1.
Definition MIN : Z := 0.
Definition zero : Z := 0.

(** ** Bytes *)
Definition from_be_bytes (data : bytes) : Z :=
  of_words [le_value (rev (slice 24 8 data)); le_value (rev (slice 16 8 data));
            le_value (rev (slice 8 8 data)); le_value (rev (slice 0 8 data))].
Definition from_le_bytes (data : bytes) : Z :=
  of_words [le_value (slice 0 8 data); le_value (slice 8 8 data);
            le_value (slice 16 8 data); le_value (slice 24 8 data)].
Definition new (value : bytes) : Z := from_be_bytes value.
Definition one : Z := from_be_bytes (replicate 31 Byte.x00 ++ [Byte.x01]).

(** [from_u128] and [from_uint128], usable in constants. *)
Definition from_u128 (num : Z) : Z := from_le_bytes (le_bytes 16 num ++ replicate 16 Byte.x00).
Definition from_uint128 (num : Z) : Z := from_u128 num.

Definition to_be_bytes (self : Z) : bytes :=
  be_bytes 8 (word 3 self) ++ be_bytes 8 (word 2 self) ++ be_bytes 8 (word 1 self)
  ++ be_bytes 8 (word 0 self).
Definition to_le_bytes (self : Z) : bytes :=
  le_bytes 8 (word 0 self) ++ le_bytes 8 (word 1 self) ++ le_bytes 8 (word 2 self)
  ++ le_bytes 8 (word 3 self).

Definition is_zero (self : Z) : bool :=
  (word 0 self =? 0) && (word 1 self =? 0) && (word 2 self =? 0) && (word 3 self =? 0).

Section uint256.
Context `{UintCrate U256}.

Definition to_string (self : Z) : string := u_to_string self.

(** [ok_or_else(|| OverflowError::new(op, self, other))]. *)
Definition or_overflow (op : OverflowOperation) (x y : string) (o : option Z) : OverflowError + Z :=
  match o with Some z => inr z | None => inl (mkOverflowError op x y) end.
Definition or_divide_by_zero (x : string) (o : option Z) : DivideByZeroError + Z :=
  match o with Some z => inr z | None => inl (mkDivideByZeroError x) end.

Definition checked_add (self other : Z) : OverflowError + Z :=
  or_overflow OpAdd (to_string self) (to_string other) (u_checked_add self other).
Definition checked_sub (self other : Z) : OverflowError + Z :=
  or_overflow OpSub (to_string self) (to_string other) (u_checked_sub self other).
Definition checked_mul (self other : Z) : OverflowError + Z :=
  or_overflow OpMul (to_string self) (to_string other) (u_checked_mul self other).
Definition checked_pow (self exp : Z) : OverflowError + Z :=
  or_overflow OpPow (to_string self) (pretty exp) (u_checked_pow self exp).
Definition checked_div (self other : Z) : DivideByZeroError + Z :=
  or_divide_by_zero (to_string self) (u_checked_div self other).
Definition checked_div_euclid (self other : Z) : DivideByZeroError + Z := checked_div self other.
Definition checked_rem (self other : Z) : DivideByZeroError + Z :=
  or_divide_by_zero (to_string self) (u_checked_rem self other).
Definition checked_shr (self other : Z) : OverflowError + Z :=
  if 256 <=? other then inl (mkOverflowError OpShr (to_string self) (pretty other))
  else inr (u_shr self other).
Definition checked_shl (self other : Z) : OverflowError + Z :=
  if 256 <=? other then inl (mkOverflowError OpShl (to_string self) (pretty other))
  else inr (u_shl self other).

Definition wrapping_add (self other : Z) : Z := (u_overflowing_add self other).1.
Definition wrapping_sub (self other : Z) : Z := (u_overflowing_sub self other).1.
Definition wrapping_mul (self other : Z) : Z := (u_overflowing_mul self other).1.
Definition wrapping_pow (self other : Z) : Z := (u_overflowing_pow self other).1.

Definition saturating_add (self other : Z) : Z := u_saturating_add self other.
Definition saturating_sub (self other : Z) : Z := u_saturating_sub self other.
Definition saturating_mul (self other : Z) : Z := u_saturating_mul self other.
Definition saturating_pow (self exp : Z) : Z :=
  match checked_pow self exp with inr value => value | inl _ => MAX end.

(** ** Conversions *)

(** [From] of the smaller unsigned types. *)
Definition from (val : Z) : Z := u_from_u128 val.

(** [TryFrom<Uint256> for Uint128]. *)
Definition try_into_uint128 (value : Z) : ConversionOverflowError + Z :=
  match u_try_into_u128 value with
  | Some z => inr z
  | None => inl (mkConversionOverflowError "Uint256" "Uint128" (to_string value))
  end.

Definition from_str (s : string) : StdError + Z :=
  match s with
  | EmptyString => inl (StdGenericErr "Parsing u256: received empty string")
  | _ =>
      match u_from_dec_str s with
      | inr u => inr u
      | inl e => inl (StdGenericErr ("Parsing u256: " +:+ e))
      end
  end.
Definition visit_str (v : string) : string + Z :=
  match from_str v with
  | inr u => inr u
  | inl e => inl ("invalid Uint256 '" +:+ v +:+ "' - " +:+ StdError_to_string e)
  end.

(** ** Operators *)
Section operators.
Context {E S : Type}.
Abbreviation P := (M E S Z).

Definition add (self rhs : Z) : P :=
  unwrap "attempt to add with overflow" (u_checked_add self rhs).
Definition sub (self rhs : Z) : P :=
  unwrap "attempt to subtract with overflow" (u_checked_sub self rhs).
Definition mul (self rhs : Z) : P :=
  unwrap "attempt to multiply with overflow" (u_checked_mul self rhs).
Definition div (self rhs : Z) : P :=
  unwrap "attempt to divide by zero" (u_checked_div self rhs).
Definition rem (self rhs : Z) : P := unwrap "division by zero" (u_rem self rhs).
Definition shr (self rhs : Z) : P :=
  match checked_shr self rhs with
  | inr z => mret z
  | inl _ => panic ("right shift error: " +:+ pretty rhs
                    +:+ " is larger or equal than the number of bits in Uint256")
  end.
Definition shl (self rhs : Z) : P :=
  match checked_shl self rhs with
  | inr z => mret z
  | inl _ => panic ("left shift error: " +:+ pretty rhs
                    +:+ " is larger or equal than the number of bits in Uint256")
  end.
Definition pow (self exp : Z) : P := unwrap "arithmetic operation overflow" (u_pow self exp).
Definition abs_diff (self other : Z) : P :=
  if u_ltb self other then sub other self else sub self other.
Definition sum (l : list Z) : P := fold_ops add zero l.
End operators.

Definition add_assign {E} : Z → M E Z unit := assign add.
Definition sub_assign {E} : Z → M E Z unit := assign sub.
Definition mul_assign {E} : Z → M E Z unit := assign mul.
Definition div_assign {E} : Z → M E Z unit := assign div.
Definition rem_assign {E} : Z → M E Z unit := assign rem.
Definition shr_assign {E} : Z → M E Z unit := assign shr.
End uint256.

(** ** Bytes and words *)
Lemma U256_bytes : U256 = 256 ^ Z.of_nat 32.
Proof. done. Qed.

(** The four groups of eight of an array of 32 bytes. *)
Lemma groups_of_32 {A} (d : list A) :
  length d = 32%nat → d = slice 0 8 d ++ slice 8 8 d ++ slice 16 8 d ++ slice 24 8 d.
Proof.
  intros Hd. rewrite <-(slice_app 16 8 8), <-(slice_app 8 8 (8 + 8)), <-(slice_app 0 8 (8 + (8 + 8))).
  unfold slice. by rewrite drop_0, take_ge by lia.
Qed.

Lemma from_le_bytes_value data : length data = 32%nat → from_le_bytes data = le_value data.
Proof.
  intros Hd. rewrite (groups_of_32 data Hd) at 2. unfold from_le_bytes.
  repeat (apply of_words_bytes; [apply length_slice; lia|]). cbn [of_words]. lia.
Qed.

Lemma from_be_bytes_value data : length data = 32%nat → from_be_bytes data = be_value data.
Proof.
  intros Hd. unfold be_value. rewrite (groups_of_32 data Hd) at 2. rewrite !rev_app_distr, <-!app_assoc.
  unfold from_be_bytes.
  repeat (apply of_words_bytes; [rewrite length_rev; apply length_slice; lia|]). cbn [of_words]. lia.
Qed.

Lemma to_le_bytes_value z : to_le_bytes z = le_bytes 32 z.
Proof.
  unfold to_le_bytes. rewrite !word_bytes by done.
  rewrite (le_bytes_app 8 24), (le_bytes_app 8 16 (_ / _)), (le_bytes_app 8 8 (_ / _)).
  rewrite !Z.div_div by done. by rewrite Z.div_1_r.
Qed.

Lemma to_be_bytes_value z : to_be_bytes z = be_bytes 32 z.
Proof.
  unfold be_bytes. rewrite <-to_le_bytes_value. unfold to_le_bytes, to_be_bytes, be_bytes.
  by rewrite !rev_app_distr, <-!app_assoc.
Qed.

Lemma is_zero_spec z : in_width U256 z → is_zero z = (z =? 0).
Proof.
  intros [H0 Hz]. apply eq_true_iff_eq. unfold is_zero. rewrite !andb_true_iff, !Z.eqb_eq. split.
  - intros [[[H1 H2] H3] H4]. pose proof (to_le_bytes_value z) as Hb. unfold to_le_bytes in Hb.
    rewrite H1, H2, H3, H4 in Hb. apply (f_equal le_value) in Hb. rewrite le_value_le_bytes in Hb.
    rewrite Z.mod_small in Hb by (rewrite <-U256_bytes; done). rewrite <-Hb. done.
  - intros ->. done.
Qed.

(** Embedding of 128 bits through the bytes. *)
Lemma from_u128_spec num : in_width U128 num → from_u128 num = num.
Proof.
  intros [H0 Hn]. unfold from_u128.
  rewrite from_le_bytes_value by (rewrite length_app, length_le_bytes, length_replicate; done).
  rewrite le_value_app, le_value_le_bytes, length_le_bytes.
  change (le_value (replicate 16 Byte.x00)) with 0. rewrite Z.mul_0_r, Z.add_0_r.
  apply Z.mod_small. done.
Qed.
