(* ===== verification/Uint512.v ===== *)
(** * 512-bit amounts ([cosmwasm/packages/std/src/math/uint512.rs])

    The products of 256-bit numbers, and the conversions between the two widths, which
    go through big-endian bytes. *)

From S2P Require Import Prelude.
From S2P Require Import Bytes.
From S2P Require Import Digits.
From S2P Require Import CwStd.
From S2P Require Import StdError.
From S2P Require Import Uint128.
From S2P Require Import UintCrate.
From S2P Require Import Uint256.

Open Scope Z_scope.

Definition U512 : Z := 2 ^ 512.
Definition MAX : Z := U512 - 1.
Definition MIN : Z := 0.
Definition zero : Z := 0.

(** ** Bytes *)
Definition from_be_bytes (data : bytes) : Z :=
  of_words [le_value (rev (slice 56 8 data)); le_value (rev (slice 48 8 data));
            le_value (rev (slice 40 8 data)); le_value (rev (slice 32 8 data));
            le_value (rev (slice 24 8 data)); le_value (rev (slice 16 8 data));
            le_value (rev (slice 8 8 data)); le_value (rev (slice 0 8 data))].
Definition from_le_bytes (data : bytes) : Z :=
  of_words [le_value (slice 0 8 data); le_value (slice 8 8 data);
            le_value (slice 16 8 data); le_value (slice 24 8 data);
            le_value (slice 32 8 data); le_value (slice 40 8 data);
            le_value (slice 48 8 data); le_value (slice 56 8 data)].
Definition new (value : bytes) : Z := from_be_bytes value.
Definition one : Z := from_be_bytes (replicate 63 Byte.x00 ++ [Byte.x01]).

Definition from_uint256 (num : Z) : Z :=
  from_le_bytes (Uint256.to_le_bytes num ++ replicate 32 Byte.x00).

Definition to_be_bytes (self : Z) : bytes :=
  be_bytes 8 (word 7 self) ++ be_bytes 8 (word 6 self) ++ be_bytes 8 (word 5 self)
  ++ be_bytes 8 (word 4 self) ++ be_bytes 8 (word 3 self) ++ be_bytes 8 (word 2 self)
  ++ be_bytes 8 (word 1 self) ++ be_bytes 8 (word 0 self).
Definition to_le_bytes (self : Z) : bytes :=
  le_bytes 8 (word 0 self) ++ le_bytes 8 (word 1 self) ++ le_bytes 8 (word 2 self)
  ++ le_bytes 8 (word 3 self) ++ le_bytes 8 (word 4 self) ++ le_bytes 8 (word 5 self)
  ++ le_bytes 8 (word 6 self) ++ le_bytes 8 (word 7 self).

Definition is_zero (self : Z) : bool :=
  (word 0 self =? 0) && (word 1 self =? 0) && (word 2 self =? 0) && (word 3 self =? 0)
  && (word 4 self =? 0) && (word 5 self =? 0) && (word 6 self =? 0) && (word 7 self =? 0).

(** [From<Uint256>]: 32 zero bytes in front. *)
Definition of_uint256 (val : Z) : Z :=
  from_be_bytes (replicate 32 Byte.x00 ++ Uint256.to_be_bytes val).

Section uint512.
Context `{UintCrate U512}.

Definition to_string (self : Z) : string := u_to_string self.

Definition checked_add (self other : Z) : OverflowError + Z :=
  or_overflow OpAdd (to_string self) (to_string other) (u_checked_add self other).
Definition checked_sub (self other : Z) : OverflowError + Z :=
  or_overflow OpSub (to_string self) (to_string other) (u_checked_sub self other).
Definition checked_mul (self other : Z) : OverflowError + Z :=
  or_overflow OpMul (to_string self) (to_string other) (u_checked_mul self other).
Definition checked_pow (self exp : Z) : OverflowError + Z :=
  or_overflow OpPow (to_string self) (pretty exp) (u_checked_pow self exp).
Definition checked_div (self other : Z) : DivideByZeroError + Z :=
  or_divide_by_zero (to_string self) (u_checked_div self other).
Definition checked_div_euclid (self other : Z) : DivideByZeroError + Z := checked_div self other.
Definition checked_rem (self other : Z) : DivideByZeroError + Z :=
  or_divide_by_zero (to_string self) (u_checked_rem self other).
Definition checked_shr (self other : Z) : OverflowError + Z :=
  if 512 <=? other then inl (mkOverflowError OpShr (to_string self) (pretty other))
  else inr (u_shr self other).

Definition wrapping_add (self other : Z) : Z := (u_overflowing_add self other).1.
Definition wrapping_sub (self other : Z) : Z := (u_overflowing_sub self other).1.
Definition wrapping_mul (self other : Z) : Z := (u_overflowing_mul self other).1.
Definition wrapping_pow (self other : Z) : Z := (u_overflowing_pow self other).1.

Definition saturating_add (self other : Z) : Z := u_saturating_add self other.
Definition saturating_sub (self other : Z) : Z := u_saturating_sub self other.
Definition saturating_mul (self other : Z) : Z := u_saturating_mul self other.
Definition saturating_pow (self exp : Z) : Z :=
  match checked_pow self exp with inr value => value | inl _ => MAX end.

(** ** Conversions *)
Definition from (val : Z) : Z := u_from_u128 val.

(** [TryFrom<Uint512> for Uint256]: the upper half must be zero. *)
Definition try_into_uint256 (value : Z) : ConversionOverflowError + Z :=
  let bytes := to_be_bytes value in
  let first_bytes := take 32 bytes in
  let last_bytes := drop 32 bytes in
  if bool_decide (first_bytes ≠ replicate 32 Byte.x00)
  then inl (mkConversionOverflowError "Uint512" "Uint256" (to_string value))
  else inr (Uint256.from_be_bytes last_bytes).

Definition try_into_uint128 (value : Z) : ConversionOverflowError + Z :=
  match u_try_into_u128 value with
  | Some z => inr z
  | None => inl (mkConversionOverflowError "Uint512" "Uint128" (to_string value))
  end.

Definition from_str (s : string) : StdError + Z :=
  match u_from_dec_str s with
  | inr u => inr u
  | inl e => inl (StdGenericErr ("Parsing u512: " +:+ e))
  end.
Definition visit_str (v : string) : string + Z :=
  match from_str v with
  | inr u => inr u
  | inl e => inl ("invalid Uint512 '" +:+ v +:+ "' - " +:+ StdError_to_string e)
  end.

(** ** Operators *)
Section operators.
Context {E S : Type}.
Abbreviation P := (M E S Z).

Definition unwrap_none : string := "called `Option::unwrap()` on a `None` value".

Definition add (self rhs : Z) : P := unwrap unwrap_none (u_checked_add self rhs).
Definition sub (self rhs : Z) : P := unwrap unwrap_none (u_checked_sub self rhs).
Definition mul (self rhs : Z) : P := unwrap unwrap_none (u_checked_mul self rhs).
Definition div (self rhs : Z) : P := unwrap unwrap_none (u_checked_div self rhs).
Definition rem (self rhs : Z) : P := unwrap "division by zero" (u_rem self rhs).
Definition shr (self rhs : Z) : P :=
  match checked_shr self rhs with
  | inr z => mret z
  | inl _ => panic ("right shift error: " +:+ pretty rhs
                    +:+ " is larger or equal than the number of bits in Uint512")
  end.
Definition pow (self exp : Z) : P := unwrap "arithmetic operation overflow" (u_pow self exp).
Definition abs_diff (self other : Z) : P :=
  if u_ltb self other then sub other self else sub self other.
Definition sum (l : list Z) : P := fold_ops add zero l.
End operators.

Definition add_assign {E} : Z → M E Z unit := assign add.
Definition sub_assign {E} : Z → M E Z unit := assign sub.
Definition mul_assign {E} : Z → M E Z unit := assign mul.
Definition div_assign {E} : Z → M E Z unit := assign div.
Definition rem_assign {E} : Z → M E Z unit := assign rem.
Definition shr_assign {E} : Z → M E Z unit := assign shr.
End uint512.

(** ** Bytes and words *)
Lemma groups_of_64 {A} (d : list A) :
  length d = 64%nat →
  d = slice 0 8 d ++ slice 8 8 d ++ slice 16 8 d ++ slice 24 8 d
      ++ slice 32 8 d ++ slice 40 8 d ++ slice 48 8 d ++ slice 56 8 d.
Proof.
  intros Hd.
  rewrite <-(slice_app 48 8 8), <-(slice_app 40 8 16), <-(slice_app 32 8 24), <-(slice_app 24 8 32),
    <-(slice_app 16 8 40), <-(slice_app 8 8 48), <-(slice_app 0 8 56).
  unfold slice. by rewrite drop_0, take_ge by lia.
Qed.

Lemma from_le_bytes_512 data : length data = 64%nat → from_le_bytes data = le_value data.
Proof.
  intros Hd. rewrite (groups_of_64 data Hd) at 2. unfold from_le_bytes.
  repeat (apply of_words_bytes; [apply length_slice; lia|]). cbn [of_words]. lia.
Qed.

Lemma from_be_bytes_512 data : length data = 64%nat → from_be_bytes data = be_value data.
Proof.
  intros Hd. unfold be_value. rewrite (groups_of_64 data Hd) at 2. rewrite !rev_app_distr, <-!app_assoc.
  unfold from_be_bytes.
  repeat (apply of_words_bytes; [rewrite length_rev; apply length_slice; lia|]). cbn [of_words]. lia.
Qed.

Lemma to_le_bytes_512 z : to_le_bytes z = le_bytes 64 z.
Proof.
  unfold to_le_bytes. rewrite !word_bytes by done.
  rewrite (le_bytes_app 8 56), (le_bytes_app 8 48 (_ / _)), (le_bytes_app 8 40 (_ / _)),
    (le_bytes_app 8 32 (_ / _)), (le_bytes_app 8 24 (_ / _)), (le_bytes_app 8 16 (_ / _)),
    (le_bytes_app 8 8 (_ / _)).
  rewrite !Z.div_div by done. by rewrite Z.div_1_r.
Qed.

Lemma to_be_bytes_512 z : to_be_bytes z = be_bytes 64 z.
Proof.
  unfold be_bytes. rewrite <-to_le_bytes_512. unfold to_le_bytes, to_be_bytes, be_bytes.
  by rewrite !rev_app_distr, <-!app_assoc.
Qed.

(** ** Both ways between the widths *)
Lemma of_uint256_spec z : in_width U256 z → of_uint256 z = z.
Proof.
  intros Hz. unfold of_uint256. rewrite Uint256.to_be_bytes_value.
  rewrite from_be_bytes_512 by (rewrite length_app, length_be_bytes, length_replicate; done).
  rewrite be_value_app, length_be_bytes, be_value_be_bytes by done. done.
Qed.

Lemma from_uint256_spec z : in_width U256 z → from_uint256 z = z.
Proof.
  intros [H0 Hz]. unfold from_uint256. rewrite Uint256.to_le_bytes_value.
  rewrite from_le_bytes_512 by (rewrite length_app, length_le_bytes, length_replicate; done).
  rewrite le_value_app, le_value_le_bytes, length_le_bytes.
  change (le_value (replicate 32 Byte.x00)) with 0. rewrite Z.mul_0_r, Z.add_0_r.
  by apply Z.mod_small.
Qed.

(** The conversion down succeeds exactly on the numbers of 256 bits. *)
Lemma try_into_uint256_spec `{UintCrate U512} z :
  in_width U512 z →
  try_into_uint256 z =
    if z <? U256 then inr z
    else inl (mkConversionOverflowError "Uint512" "Uint256" (to_string z)).
Proof.
  intros [H0 Hz]. unfold try_into_uint256. rewrite to_be_bytes_512, (be_bytes_app 32 32).
  rewrite take_app_length' by (by rewrite length_be_bytes). rewrite drop_app_length' by (by rewrite length_be_bytes).
  change (256 ^ Z.of_nat 32) with U256.
  assert (0 ≤ z / U256 < U256) as Hq.
  { split; [by apply Z.div_pos|]. apply Z.div_lt_upper_bound; [done|]. done. }
  rewrite Uint256.from_be_bytes_value by apply length_be_bytes.
  destruct (Z.ltb_spec z U256) as [Hlt|Hge].
  - rewrite Z.div_small by done. rewrite bool_decide_false by (rewrite be_bytes_0; intros []; done).
    by rewrite be_value_be_bytes.
  - rewrite bool_decide_true; [done|]. rewrite <-be_bytes_0. intros Heq.
    apply (f_equal be_value) in Heq. rewrite !be_value_be_bytes in Heq by done.
    assert (1 ≤ z / U256) by (by apply Z.div_le_lower_bound; lia). lia.
Qed.
