(* ===== verification/Uint64.v ===== *)
(** * 64-bit amounts ([cosmwasm/packages/std/src/math/uint64.rs]) *)

From S2P Require Import Prelude.
From S2P Require Import Bytes.
From S2P Require Import Digits.
From S2P Require Import CwStd.
From S2P Require Import StdError.
From S2P Require Import Uint128.

Open Scope Z_scope.

Definition MAX : Z := U64 - 1.
Definition MIN : Z := 0.
Definition zero : Z := 0.
Definition one : Z := 1.

Definition to_be_bytes (self : Z) : bytes := be_bytes 8 self.
Definition to_le_bytes (self : Z) : bytes := le_bytes 8 self.
Definition is_zero (self : Z) : bool := self =? 0.

(** ** Methods *)
Definition checked_add (self other : Z) : OverflowError + Z :=
  overflow OpAdd self other (fits U64 (self + other)).
Definition checked_sub (self other : Z) : OverflowError + Z :=
  overflow OpSub self other (fits U64 (self - other)).
Definition checked_mul (self other : Z) : OverflowError + Z :=
  overflow OpMul self other (fits U64 (self * other)).
Definition checked_pow (self exp : Z) : OverflowError + Z :=
  overflow OpPow self exp (fits U64 (self ^ exp)).
Definition checked_div (self other : Z) : DivideByZeroError + Z :=
  if other =? 0 then inl (mkDivideByZeroError (pretty self)) else inr (self / other).
Definition checked_div_euclid (self other : Z) : DivideByZeroError + Z :=
  if other =? 0 then inl (mkDivideByZeroError (pretty self)) else inr (self / other).
Definition checked_rem (self other : Z) : DivideByZeroError + Z :=
  if other =? 0 then inl (mkDivideByZeroError (pretty self)) else inr (self mod other).

Definition wrapping_add (self other : Z) : Z := (self + other) mod U64.
Definition wrapping_sub (self other : Z) : Z := (self - other) mod U64.
Definition wrapping_mul (self other : Z) : Z := (self * other) mod U64.
Definition wrapping_pow (self other : Z) : Z := (self ^ other) mod U64.

Definition saturating_add (self other : Z) : Z := Z.min (self + other) MAX.
Definition saturating_sub (self other : Z) : Z := Z.max (self - other) 0.
Definition saturating_mul (self other : Z) : Z := Z.min (self * other) MAX.
Definition saturating_pow (self exp : Z) : Z := Z.min (self ^ exp) MAX.

Definition abs_diff (self other : Z) : Z := if self <? other then other - self else self - other.

(** ** Conversions *)
Definition try_from_str (val : string) : StdError + Z :=
  match parse_int U64 val with
  | inr u => inr u
  | inl e => inl (StdGenericErr ("Parsing u64: " +:+ e))
  end.
Definition visit_str (v : string) : string + Z :=
  match parse_int U64 v with
  | inr u => inr u
  | inl e => inl ("invalid Uint64 '" +:+ v +:+ "' - " +:+ e)
  end.

(** [TryFrom<Uint128> for Uint64] (in uint128.rs). *)
Definition try_from_uint128 (value : Z) : ConversionOverflowError + Z :=
  match fits U64 value with
  | Some z => inr z
  | None => inl (mkConversionOverflowError "Uint128" "Uint64" (pretty value))
  end.

(** ** Operators *)
Section operators.
Context {E S : Type}.
Abbreviation P := (M E S Z).

Definition unwrap_none : string := "called `Option::unwrap()` on a `None` value".

Definition add (self rhs : Z) : P := unwrap unwrap_none (fits U64 (self + rhs)).
Definition sub (self rhs : Z) : P :=
  unwrap "attempt to subtract with overflow" (fits U64 (self - rhs)).
Definition mul (self rhs : Z) : P :=
  unwrap "attempt to multiply with overflow" (fits U64 (self * rhs)).
Definition div (self rhs : Z) : P :=
  unwrap unwrap_none (if rhs =? 0 then None else Some (self / rhs)).
Definition rem (self rhs : Z) : P :=
  unwrap "attempt to calculate the remainder with a divisor of zero"
    (if rhs =? 0 then None else Some (self mod rhs)).
Definition shr (self rhs : Z) : P :=
  unwrap unwrap_none (if rhs <? 64 then Some (Z.shiftr self rhs) else None).
Definition pow (self exp : Z) : P :=
  unwrap "attempt to multiply with overflow" (fits U64 (self ^ exp)).
Definition sum (l : list Z) : P := fold_ops add zero l.
End operators.

Definition add_assign {E} : Z → M E Z unit := assign add.
Definition sub_assign {E} : Z → M E Z unit := assign sub.
Definition mul_assign {E} : Z → M E Z unit := assign mul.
Definition div_assign {E} : Z → M E Z unit := assign div.
Definition rem_assign {E} : Z → M E Z unit := assign rem.
Definition shr_assign {E} : Z → M E Z unit := assign shr.
