(* ===== verification/Ratio.v ===== *)
(** * Ratios of amounts ([math/uint64.rs], [uint128.rs], [uint256.rs])

    [full_mul], [checked_multiply_ratio] and [multiply_ratio] of the three types: the
    product is taken in the type of twice the width, divided there and converted back. *)

From S2P Require Import Prelude.
From S2P Require Import Bytes.
From S2P Require Import Digits.
From S2P Require Import StdError.
From S2P Require Import Uint128.
From S2P Require Import UintCrate.
From S2P Require Import Uint256.
From S2P Require Import Uint512.
From S2P Require Import Uint64.

Open Scope Z_scope.

Definition unwrap_err : string := "called `Result::unwrap()` on an `Err` value".

(** [match self.checked_multiply_ratio(..)] of the panicking methods. *)
Definition ratio_or_panic {E S} (r : CheckedMultiplyRatioError + Z) : M E S Z :=
  match r with
  | inr value => mret value
  | inl RatioDivideByZero => panic "Denominator must not be zero"
  | inl RatioOverflow => panic "Multiplication overflow"
  end.

Module Ratio64.
Section ratio.
Context {E S : Type}.

Definition full_mul (self rhs : Z) : M E S Z := unwrap unwrap_err (ok (Uint128.checked_mul self rhs)).

Definition checked_multiply_ratio (self numerator denominator : Z)
    : M E S (CheckedMultiplyRatioError + Z) :=
  if denominator =? 0 then mret (inl RatioDivideByZero)
  else
    product ← full_mul self numerator;
    quotient ← uint128_div product denominator;
    match Uint64.try_from_uint128 quotient with
    | inr ratio => mret (inr ratio)
    | inl _ => mret (inl RatioOverflow)
    end.

Definition multiply_ratio (self numerator denominator : Z) : M E S Z :=
  r ← checked_multiply_ratio self numerator denominator; ratio_or_panic r.
End ratio.
End Ratio64.

Module Ratio128.
Section ratio.
Context `{UintCrate U256} {E S : Type}.

Definition full_mul (self rhs : Z) : M E S Z :=
  unwrap unwrap_err (ok (Uint256.checked_mul (Uint256.from self) (Uint256.from rhs))).

Definition checked_multiply_ratio (self numerator denominator : Z)
    : M E S (CheckedMultiplyRatioError + Z) :=
  if denominator =? 0 then mret (inl RatioDivideByZero)
  else
    product ← full_mul self numerator;
    quotient ← Uint256.div product (Uint256.from denominator);
    match Uint256.try_into_uint128 quotient with
    | inr ratio => mret (inr ratio)
    | inl _ => mret (inl RatioOverflow)
    end.

Definition multiply_ratio (self numerator denominator : Z) : M E S Z :=
  r ← checked_multiply_ratio self numerator denominator; ratio_or_panic r.
End ratio.
End Ratio128.

Module Ratio256.
Section ratio.
Context `{UintCrate U512} {E S : Type}.

Definition full_mul (self rhs : Z) : M E S Z :=
  unwrap unwrap_err (ok (Uint512.checked_mul (Uint512.of_uint256 self) (Uint512.of_uint256 rhs))).

Definition checked_multiply_ratio (self numerator denominator : Z)
    : M E S (CheckedMultiplyRatioError + Z) :=
  if Uint256.is_zero denominator then mret (inl RatioDivideByZero)
  else
    product ← full_mul self numerator;
    quotient ← Uint512.div product (Uint512.of_uint256 denominator);
    match Uint512.try_into_uint256 quotient with
    | inr ratio => mret (inr ratio)
    | inl _ => mret (inl RatioOverflow)
    end.

Definition multiply_ratio (self numerator denominator : Z) : M E S Z :=
  r ← checked_multiply_ratio self numerator denominator; ratio_or_panic r.
End ratio.
End Ratio256.

(** ** Exactness *)

(** The ratio of a type of width [w]: exact, or a zero denominator, or too large. *)
Definition ratio (w a n d : Z) : CheckedMultiplyRatioError + Z :=
  if d =? 0 then inl RatioDivideByZero
  else if a * n / d <? w then inr (a * n / d) else inl RatioOverflow.

Lemma in_width_le w v z : w ≤ v → in_width w z → in_width v z.
Proof. unfold in_width. lia. Qed.

(** The product of two numbers fits in twice the width, and the quotient with it. *)
Lemma product_in_width w a b : in_width w a → in_width w b → in_width (w * w) (a * b).
Proof. unfold in_width. intros [Ha Ha'] [Hb Hb']. nia. Qed.

Lemma quotient_in_width w a d : in_width w a → 0 ≤ d → d ≠ 0 → in_width w (a / d).
Proof.
  intros [Ha Ha'] Hd0 Hd. split; [apply Z.div_pos; lia|].
  apply Z.le_lt_trans with a; [|done]. apply Z.div_le_upper_bound; nia.
Qed.

#[export] Hint Resolve product_in_width quotient_in_width : ratio.

Lemma checked_64 {E S} a n d (s : S) :
  in_width U64 a → in_width U64 n → in_width U64 d →
  (Ratio64.checked_multiply_ratio a n d : M E S _) s = (Ok (ratio U64 a n d), s).
Proof.
  intros Ha Hn Hd. unfold Ratio64.checked_multiply_ratio, Ratio64.full_mul, ratio.
  destruct (Z.eqb_spec d 0) as [|Hd0]; [done|]. unfold Uint128.checked_mul.
  pose proof (product_in_width U64 a n Ha Hn) as Hp. change (U64 * U64) with U128 in Hp.
  pose proof (quotient_in_width _ _ d Hp (proj1 Hd) Hd0) as Hq.
  rewrite (proj2 (fits_Some U128 (a * n) _) (conj eq_refl Hp)). cbn [overflow ok unwrap].
  rewrite bind_ret_l. unfold uint128_div. rewrite (proj2 (Z.eqb_neq d 0) Hd0).
  cbn [expect unwrap]. rewrite bind_ret_l. unfold Uint64.try_from_uint128, fits.
  rewrite (proj2 (Z.leb_le _ _) (proj1 Hq)). cbn. by destruct (_ <? U64).
Qed.

Lemma checked_128 `{!UintCrate U256, !UintCrateSpec U256} {E S} a n d (s : S) :
  in_width U128 a → in_width U128 n → in_width U128 d →
  (Ratio128.checked_multiply_ratio a n d : M E S _) s = (Ok (ratio U128 a n d), s).
Proof.
  intros Ha Hn Hd. unfold Ratio128.checked_multiply_ratio, Ratio128.full_mul, ratio.
  destruct (Z.eqb_spec d 0) as [|Hd0]; [done|].
  unfold Uint256.checked_mul, Uint256.from, Uint256.div, Uint256.try_into_uint128.
  assert (∀ z, in_width U128 z → in_width U256 z) as Hw by (intros z; by apply in_width_le).
  pose proof (product_in_width U128 a n Ha Hn) as Hp. change (U128 * U128) with U256 in Hp.
  pose proof (quotient_in_width _ _ d Hp (proj1 Hd) Hd0) as Hq.
  rewrite !u_from_u128_spec, u_checked_mul_spec by auto.
  rewrite (proj2 (fits_Some U256 (a * n) _) (conj eq_refl Hp)). cbn [Uint256.or_overflow ok unwrap].
  rewrite bind_ret_l, u_checked_div_spec, (proj2 (Z.eqb_neq d 0) Hd0) by auto.
  cbn [unwrap]. rewrite bind_ret_l, u_try_into_u128_spec by auto. unfold fits.
  rewrite (proj2 (Z.leb_le _ _) (proj1 Hq)). cbn. by destruct (_ <? U128).
Qed.

Lemma checked_256 `{!UintCrate U512, !UintCrateSpec U512} {E S} a n d (s : S) :
  in_width U256 a → in_width U256 n → in_width U256 d →
  (Ratio256.checked_multiply_ratio a n d : M E S _) s = (Ok (ratio U256 a n d), s).
Proof.
  intros Ha Hn Hd. unfold Ratio256.checked_multiply_ratio, Ratio256.full_mul, ratio.
  rewrite Uint256.is_zero_spec by done.
  destruct (Z.eqb_spec d 0) as [|Hd0]; [done|]. unfold Uint512.checked_mul, Uint512.div.
  assert (∀ z, in_width U256 z → in_width U512 z) as Hw by (intros z; by apply in_width_le).
  pose proof (product_in_width U256 a n Ha Hn) as Hp. change (U256 * U256) with U512 in Hp.
  pose proof (quotient_in_width _ _ d Hp (proj1 Hd) Hd0) as Hq.
  rewrite !of_uint256_spec, u_checked_mul_spec by auto.
  rewrite (proj2 (fits_Some U512 (a * n) _) (conj eq_refl Hp)). cbn [Uint256.or_overflow ok unwrap].
  rewrite bind_ret_l, u_checked_div_spec, (proj2 (Z.eqb_neq d 0) Hd0) by auto.
  cbn [unwrap]. rewrite bind_ret_l, try_into_uint256_spec by done. by destruct (_ <? U256).
Qed.

(** What [multiply_ratio] returns at width [w]. *)
Definition exact_ratio {E} (w a n d : Z) : outcome E Z :=
  if d =? 0 then Panic "Denominator must not be zero"
  else if a * n / d <? w then Ok (a * n / d) else Panic "Multiplication overflow".

Lemma ratio_or_panic_ratio {E S} w a n d (s : S) :
  (ratio_or_panic (ratio w a n d) : M E S Z) s = (exact_ratio w a n d, s).
Proof. unfold ratio, exact_ratio. destruct (d =? 0); [done|]. by destruct (_ <? w). Qed.

(** [multiply_ratio] of the three amount types computes [self * numerator /
    denominator] exactly: the product is taken in twice the width and cannot overflow,
    so the only failures are a zero denominator and a quotient that does not fit. *)
Theorem multiply_ratio_exact `{!UintCrate U256, !UintCrateSpec U256, !UintCrate U512,
    !UintCrateSpec U512} {E S : Type} (s : S) a n d :
  (in_width U64 a → in_width U64 n → in_width U64 d →
   (Ratio64.multiply_ratio a n d : M E S Z) s = (exact_ratio U64 a n d, s)) ∧
  (in_width U128 a → in_width U128 n → in_width U128 d →
   (Ratio128.multiply_ratio a n d : M E S Z) s = (exact_ratio U128 a n d, s)) ∧
  (in_width U256 a → in_width U256 n → in_width U256 d →
   (Ratio256.multiply_ratio a n d : M E S Z) s = (exact_ratio U256 a n d, s)).
Proof.
  split_and!; intros Ha Hn Hd.
  - unfold Ratio64.multiply_ratio. rewrite (bind_Ok _ _ _ _ _ (checked_64 a n d s Ha Hn Hd)).
    apply ratio_or_panic_ratio.
  - unfold Ratio128.multiply_ratio. rewrite (bind_Ok _ _ _ _ _ (checked_128 a n d s Ha Hn Hd)).
    apply ratio_or_panic_ratio.
  - unfold Ratio256.multiply_ratio. rewrite (bind_Ok _ _ _ _ _ (checked_256 a n d s Ha Hn Hd)).
    apply ratio_or_panic_ratio.
Qed.
