(* ===== verification/Fixed.v ===== *)
(** * Fixed-point numbers with 18 decimal places

    What [Decimal] and [Decimal256] ([cosmwasm/packages/std/src/math]) have in common:
    the arithmetic, the printer and the parser of a number [z] of [w] values that stands
    for [z / 10^18]. The two files of those types show that their code is this
    specification at 128 and at 256 bits; the theorems are proved here once. *)

From Stdlib Require Import Ascii.
From S2P Require Import Prelude.
From S2P Require Import Bytes.
From S2P Require Import Digits.
From S2P Require Import CwStd.
From S2P Require Import StdError.
From S2P Require Import Uint128.

Open Scope Z_scope.

Definition FX_PLACES : Z := 18.
Definition FX : Z := 10 ^ 18.

(** ** Results

    What the source does with the [Result] of a method. *)
Section results.
Context {S : Type}.

(** The [Result] of a call as a value, in a function with other errors. *)
Definition attempt {F E A} (m : M F S A) : M E S (F + A) := λ s,
  match m s with
  | (Ok a, s') => (Ok (inr a), s')
  | (Err e, s') => (Ok (inl e), s')
  | (Panic p, s') => (Panic p, s')
  | (OutOfFuel, s') => (OutOfFuel, s')
  end.

(** [r.map_err(|_| e)?]. *)
Definition or_throw {F E A} (e : E) (r : F + A) : M E S A :=
  match r with inr a => mret a | inl _ => throw e end.

Definition or_bound {F E} (bound : Z) (m : M F S Z) : M E S Z :=
  r ← attempt m; match r with inr value => mret value | inl _ => mret bound end.

Lemma bind_or_throw {F E A B} (e : E) (r : F + A) (k : A → M E S B) s :
  (or_throw e r ≫= k) s = match ok r with Some a => k a s | None => (Err e, s) end.
Proof. by destruct r. Qed.

(** The parser of the specification as a function that throws. *)
Definition thrown {A} (m : M unit S (string + A)) : M StdError S A := λ s,
  match m s with
  | (Ok (inr z), s') => (Ok z, s')
  | (Ok (inl msg), s') => (Err (StdGenericErr msg), s')
  | (Panic p, s') => (Panic p, s')
  | (Err _, s') | (OutOfFuel, s') => (OutOfFuel, s')
  end.
End results.

(** ** Printing and parsing *)

(** [str::split('.')]: never empty. *)
Fixpoint split_dot (s : string) : list string :=
  match s with
  | EmptyString => [EmptyString]
  | String c s' =>
      match split_dot s' with
      | [] => []
      | p :: ps => if Ascii.eqb c "." then EmptyString :: p :: ps else String c p :: ps
      end
  end.

Definition fx_print (z : Z) : string :=
  if z mod FX =? 0 then pretty (z / FX)
  else pretty (z / FX) +:+ "." +:+ trim_zeros (pad_zeros 18 (pretty (z mod FX))).

Definition too_many_digits : string := "Cannot parse more than 18 fractional digits".

Section fixed.
Context {E S : Type} (w : Z).
Abbreviation P A := (M E S A).

Definition fx_fraction (parse : string → option Z) (atomics : Z) (rest : list string) : P (string + Z) :=
  match rest with
  | [] => mret (inr atomics)
  | fractional_part :: _ =>
      match parse fractional_part with
      | None => mret (inl "Error parsing fractional")
      | Some fractional =>
          let len := Z.of_nat (String.length fractional_part) mod U32 in
          if len <=? FX_PLACES then
            p ← unwrap "called `Result::unwrap()` on an `Err` value"
                  (fits w (fractional * 10 ^ (FX_PLACES - len)));
            match fits w (atomics + p) with
            | Some atomics => mret (inr atomics)
            | None => mret (inl "Value too big")
            end
          else mret (inl too_many_digits)
      end
  end.

Definition fx_parse (parse : string → option Z) (input : string) : P (string + Z) :=
  match split_dot input with
  | [] => panic "called `Option::unwrap()` on a `None` value"
  | whole_part :: rest =>
      match parse whole_part with
      | None => mret (inl "Error parsing whole")
      | Some whole =>
          match fits w (whole * FX) with
          | None => mret (inl "Value too big")
          | Some atomics =>
              r ← fx_fraction parse atomics rest;
              match r, rest with
              | inr _, _ :: _ :: _ => mret (inl "Unexpected number of dots")
              | r, _ => mret r
              end
          end
      end
  end.

(** ** Powers by squaring

    The loop of [checked_pow] on the binary digits of the exponent. The products on the
    way are checked; the last one is the operator, which panics. *)
Definition fx_mul (x y : Z) : option Z := fits w (x * y / FX).

Fixpoint fx_pow (x y : Z) (n : positive) : P (option Z) :=
  match n with
  | xH => z ← unwrap "attempt to multiply with overflow" (fx_mul x y); mret (Some z)
  | xO n =>
      match fx_mul x x with Some x => fx_pow x y n | None => mret None end
  | xI n =>
      match fx_mul x y with
      | None => mret None
      | Some y => match fx_mul x x with Some x => fx_pow x y n | None => mret None end
      end
  end.

Definition fx_checked_pow (x n : Z) : P (option Z) :=
  if n =? 0 then mret (Some FX) else fx_pow x FX (Z.to_pos n).

(** ** Square roots: the first precision without overflow, from 9 down to 0. *)
Definition fx_sqrt_at (n precision : Z) : P (option Z) :=
  match fits w (n * 100 ^ precision) with
  | None => mret None
  | Some m =>
      r ← isqrt w m;
      z ← unwrap "called `Result::unwrap()` on an `Err` value"
            (fits w (r * 10 ^ (9 - precision)));
      mret (Some z)
  end.

Fixpoint fx_sqrt_from (n : Z) (precision : nat) : P (option Z) :=
  r ← fx_sqrt_at n (Z.of_nat precision);
  match r, precision with
  | Some z, _ => mret (Some z)
  | None, O => mret None
  | None, Datatypes.S p => fx_sqrt_from n p
  end.

Definition fx_sqrt (n : Z) : P Z :=
  r ← fx_sqrt_from n 9;
  unwrap "called `Option::unwrap()` on a `None` value" r.
End fixed.

(** ** The printer and the parser *)
Lemma split_dot_app a b :
  digits a = true → split_dot (a +:+ "." +:+ b) = a :: split_dot b.
Proof.
  induction a as [|c a IH]; cbn [digits].
  - intros _. change ("" +:+ "." +:+ b) with (String "." b). cbn [split_dot].
    destruct (split_dot b) as [|p ps] eqn:Hb; [|done].
    exfalso. revert Hb. clear. induction b as [|c b IH]; cbn [split_dot]; [done|].
    destruct (split_dot b); [by intros _; apply IH|]. by destruct (Ascii.eqb c ".").
  - destruct (digit c) eqn:Hc; [|done]. intros Ha. rewrite append_cons. cbn [split_dot].
    rewrite (IH Ha). destruct (Ascii.eqb_spec c ".") as [->|]; [|done]. by cbv in Hc.
Qed.

Lemma split_dot_digits a : digits a = true → split_dot a = [a].
Proof.
  induction a as [|c a IH]; cbn [digits split_dot]; [done|].
  destruct (digit c) eqn:Hc; [|done]. intros Ha. rewrite (IH Ha).
  destruct (Ascii.eqb_spec c ".") as [->|]; [|done]. by cbv in Hc.
Qed.

(** A parser that is exact on strings of digits. *)
Definition exact_parser (w : Z) (parse : string → option Z) : Prop :=
  ∀ s, s ≠ EmptyString → digits s = true →
    parse s = if value s <? w then Some (value s) else None.

Lemma fits_in w z : in_width w z → fits w z = Some z.
Proof. intros Hz. by apply fits_Some. Qed.

(** The printed fraction: its digits, and what the parser makes of them. *)
Lemma fraction_digits f :
  0 < f < FX →
  let s := trim_zeros (pad_zeros 18 (pretty f)) in
  digits s = true ∧ s ≠ EmptyString ∧ (String.length s ≤ 18)%nat ∧
  0 ≤ value s < FX ∧ value s * 10 ^ (18 - Z.of_nat (String.length s)) = f.
Proof.
  intros Hf. destruct (pretty_digits f) as (H1 & H2 & _); [lia|].
  assert (String.length (pretty f) ≤ 18)%nat as H3 by (apply pretty_length; [exact (conj (Z.lt_le_incl _ _ (proj1 Hf)) (proj2 Hf))|lia]).
  destruct (pad_zeros_digits 18 (pretty f) H1 H3) as (P1 & P2 & P3).
  destruct (trim_zeros_digits _ P1) as (T1 & T2 & T3 & T4). rewrite P3 in T2, T3.
  cbv zeta. set (s := trim_zeros _) in *. rewrite P2, H2 in T3, T4.
  rewrite Nat2Z.inj_sub in T3 by lia. split_and!; [done|apply T4; lia|done| | |done].
  - by apply value_bound.
  - destruct (value_bound s T1) as [_ Hb]. unfold FX. eapply Z.lt_le_trans; [exact Hb|].
    apply Z.pow_le_mono_r; lia.
Qed.

Lemma fx_parse_print {E S} w parse z (s : S) :
  exact_parser w parse → FX * FX ≤ w → in_width w z →
  (fx_parse w parse (fx_print z) : M E S _) s = (Ok (inr z), s).
Proof.
  intros Hparse Hw [Hz0 Hz]. assert (0 < FX) as HF by done.
  assert (z = FX * (z / FX) + z mod FX) as Hdm by (apply Z.div_mod; lia).
  pose proof (Z.mod_pos_bound z FX HF) as Hm. pose proof (Z.div_pos z FX Hz0 HF) as Hq.
  destruct (pretty_digits (z / FX)) as (D1 & D2 & D3); [done|].
  assert (parse (pretty (z / FX)) = Some (z / FX)) as HW.
  { rewrite Hparse, D2 by done. destruct (Z.ltb_spec (z / FX) w); [done|nia]. }
  unfold fx_print. destruct (Z.eqb_spec (z mod FX) 0) as [Hr|Hr].
  - unfold fx_parse. rewrite (split_dot_digits _ D1), HW.
    replace (z / FX * FX) with z by lia. by rewrite fits_in.
  - destruct (fraction_digits (z mod FX)) as (F1 & F2 & F3 & F4 & F5); [lia|].
    set (f := trim_zeros _) in *. unfold fx_parse.
    rewrite (split_dot_app _ _ D1), HW, (split_dot_digits _ F1).
    rewrite (fits_in w (z / FX * FX)) by (unfold in_width; lia).
    unfold fx_fraction. rewrite (Hparse f F2 F1).
    destruct (Z.ltb_spec (value f) w); [|nia].
    rewrite Z.mod_small by (unfold U32; lia). unfold FX_PLACES.
    destruct (Z.leb_spec (Z.of_nat (String.length f)) 18); [|lia].
    rewrite F5, (fits_in w (z mod FX)) by (unfold in_width; lia). cbn [unwrap].
    rewrite bind_assoc, bind_ret_l.
    by rewrite (fits_in w (z / FX * FX + z mod FX)), (Z.mul_comm _ FX), <-Hdm
      by (unfold in_width; lia).
Qed.

(** ** Powers *)

(** [v] is at most the [m]-th power of [X], as fixed-point numbers. *)
Definition at_most_pow (X m v : Z) : Prop := 0 ≤ v ∧ v * FX ^ m ≤ FX * X ^ m.

Lemma at_most_pow_mul X m k a b :
  0 ≤ m → 0 ≤ k → 0 ≤ X → at_most_pow X m a → at_most_pow X k b →
  at_most_pow X (m + k) (a * b / FX).
Proof.
  intros Hm Hk HX [Ha0 Ha] [Hb0 Hb]. assert (0 < FX) as HF by done.
  split; [apply Z.div_pos; nia|].
  rewrite !Z.pow_add_r by lia.
  pose proof (Z.pow_pos_nonneg FX m HF Hm) as Pm. pose proof (Z.pow_pos_nonneg FX k HF Hk) as Pk.
  pose proof (Z.pow_nonneg X m HX) as Xm. pose proof (Z.pow_nonneg X k HX) as Xk.
  pose proof (Z.mul_div_le (a * b) FX HF) as Hd.
  apply (Z.mul_le_mono_pos_l _ _ FX HF).
  set (c := a * b / FX) in *. set (Fm := FX ^ m) in *. set (Fk := FX ^ k) in *.
  set (Ym := X ^ m) in *. set (Yk := X ^ k) in *. clearbody c Fm Fk Ym Yk.
  transitivity ((a * Fm) * (b * Fk)).
  - transitivity ((FX * c) * (Fm * Fk)); [lia|]. transitivity ((a * b) * (Fm * Fk)); [|lia].
    apply Z.mul_le_mono_nonneg_r; [nia|done].
  - transitivity ((FX * Ym) * (FX * Yk)); [|lia]. apply Z.mul_le_mono_nonneg; nia.
Qed.

(** A power that is at most a representable one is representable. *)
Lemma at_most_pow_fits w X N m v :
  0 ≤ X → 0 ≤ m ≤ N → FX < w → X ^ N * FX < w * FX ^ N → at_most_pow X m v → in_width w v.
Proof.
  intros HX Hm HFw Hfit [Hv0 Hv]. split; [done|]. assert (0 < FX) as HF by done.
  pose proof (Z.pow_pos_nonneg FX m HF ltac:(lia)) as Pm.
  destruct (Z.le_gt_cases FX X) as [Hge|Hlt].
  - pose proof (Z.pow_pos_nonneg FX (N - m) HF ltac:(lia)) as Pk.
    pose proof (Z.pow_le_mono_l FX X (N - m) ltac:(lia)) as Hk.
    pose proof (Z.pow_nonneg X m HX) as Xm.
    replace N with (m + (N - m)) in Hfit by lia. rewrite !Z.pow_add_r in Hfit by lia.
    set (Fm := FX ^ m) in *. set (Fk := FX ^ (N - m)) in *. set (Ym := X ^ m) in *.
    set (Yk := X ^ (N - m)) in *. clearbody Fm Fk Ym Yk.
    assert (v * (Fm * Fk) < w * (Fm * Fk)) as H; [|nia].
    apply Z.le_lt_trans with (Ym * Yk * FX); [|done].
    transitivity ((FX * Ym) * Fk); [nia|]. transitivity ((FX * Ym) * Yk); nia.
  - pose proof (Z.pow_le_mono_l X FX m ltac:(lia)) as Hk.
    assert (v * FX ^ m ≤ FX * FX ^ m) as H; [|nia]. etrans; [exact Hv|]. nia.
Qed.

Section powers.
Context {E S : Type} (w X N : Z) (HX : 0 ≤ X) (HFw : FX < w) (Hfit : X ^ N * FX < w * FX ^ N).

Lemma fx_mul_fits m k a b :
  0 ≤ m → 0 ≤ k → m + k ≤ N → at_most_pow X m a → at_most_pow X k b →
  fx_mul w a b = Some (a * b / FX) ∧ at_most_pow X (m + k) (a * b / FX).
Proof.
  intros Hm Hk Hmk Ha Hb. pose proof (at_most_pow_mul X m k a b Hm Hk HX Ha Hb) as Hc.
  split; [|done]. apply fits_in. eapply (at_most_pow_fits w X N (m + k)); [done|lia|done..].
Qed.

(** No product on the way overflows if the power itself is representable. *)
Lemma fx_pow_fits n x y a b (s : S) :
  0 < a → 0 ≤ b → a * Z.pos n + b = N → at_most_pow X a x → at_most_pow X b y →
  ∃ v, (fx_pow w x y n : M E S _) s = (Ok (Some v), s) ∧ at_most_pow X N v.
Proof.
  revert x y a b. induction n as [n IH|n IH|]; intros x y a b Ha Hb HN Hx Hy; cbn [fx_pow].
  - destruct (fx_mul_fits a b x y) as [-> Hxy]; [lia|lia|nia|done|done|].
    destruct (fx_mul_fits a a x x) as [-> Hxx]; [lia|lia|nia|done|done|].
    apply (IH _ _ (a + a) (a + b)); [lia..|done|done].
  - destruct (fx_mul_fits a a x x) as [-> Hxx]; [lia|lia|nia|done|done|].
    apply (IH _ _ (a + a) b); [lia..|done|done].
  - destruct (fx_mul_fits a b x y) as [-> Hxy]; [lia|lia|nia|done|done|].
    eexists. split; [done|]. by replace N with (a + b) by lia.
Qed.
End powers.

(** A run that yields what the specification does, its errors apart. *)
Definition agrees {F S} (m : M F S Z) (spec : M unit S (option Z)) (s : S) : Prop :=
  match spec s with
  | (Ok (Some z), s') => m s = (Ok z, s')
  | (Ok None, s') => ∃ e, m s = (Err e, s')
  | (Panic p, s') => m s = (Panic p, s')
  | _ => False
  end.

(** The same with the error that a missing result is reported as. *)
Definition reported {F S A} (e : F) (spec : M unit S (option A)) : M F S A := λ s,
  match spec s with
  | (Ok (Some z), s') => (Ok z, s')
  | (Ok None, s') => (Err e, s')
  | (Panic p, s') => (Panic p, s')
  | (Err _, s') | (OutOfFuel, s') => (OutOfFuel, s')
  end.

Lemma fx_mul_width w x y z : fx_mul w x y = Some z → in_width w z.
Proof. unfold fx_mul. intros Hz. by apply fits_Some in Hz as [-> Hz]. Qed.

Section squaring.
Context {F S : Type} (w : Z).
Context (checked_mul mul : Z → Z → M F S Z) (loop : nat → Z → Z → Z → M F S Z).
Hypothesis loop_step : ∀ fuel x y n, loop fuel x y n =
  if 1 <? n then
    match fuel with
    | O => out_of_fuel
    | Datatypes.S fuel =>
        if n mod 2 =? 0 then x ← checked_mul x x; loop fuel x y (n / 2)
        else y ← checked_mul x y; x ← checked_mul x x; loop fuel x y ((n - 1) / 2)
    end
  else mul x y.
Hypothesis checked_mul_agrees : ∀ x y (s : S), in_width w x → in_width w y →
  match fx_mul w x y with
  | Some z => checked_mul x y s = (Ok z, s)
  | None => ∃ e, checked_mul x y s = (Err e, s)
  end.
Hypothesis mul_agrees : ∀ x y (s : S), in_width w x → in_width w y →
  mul x y s =
    match fx_mul w x y with
    | Some z => (Ok z, s)
    | None => (Panic "attempt to multiply with overflow", s)
    end.

(** A checked product whose failure ends the loop. *)
Lemma checked_then x y (k : Z → M F S Z) (spec : Z → M unit S (option Z)) s :
  in_width w x → in_width w y →
  (∀ z, in_width w z → agrees (k z) (spec z) s) →
  agrees (checked_mul x y ≫= k)
    (match fx_mul w x y with Some z => spec z | None => mret None end) s.
Proof.
  intros Hx Hy Hk. pose proof (checked_mul_agrees x y s Hx Hy) as H.
  destruct (fx_mul w x y) as [z|] eqn:Hz.
  - unfold agrees. rewrite (bind_Ok _ _ _ _ _ H). apply Hk. by eapply fx_mul_width.
  - destruct H as [e H]. exists e. apply (bind_Err _ _ _ _ _ H).
Qed.

(** The loop on a number [n < 2 ^ (fuel + 1)] is the recursion on its binary digits. *)
Lemma squaring_agrees fuel n x y s :
  in_width w x → in_width w y → Z.pos n < 2 ^ Z.of_nat (Datatypes.S fuel) →
  agrees (loop fuel x y (Z.pos n)) (fx_pow w x y n) s.
Proof.
  revert fuel x y. induction n as [n IH|n IH|]; intros fuel x y Hx Hy Hn; rewrite loop_step.
  - destruct fuel as [|fuel]; [cbn in Hn; lia|]. rewrite Nat2Z.inj_succ, Z.pow_succ_r in Hn by lia.
    rewrite (proj2 (Z.ltb_lt 1 (Z.pos n~1))) by lia.
    rewrite (Pos2Z.inj_xI n), (Z.add_comm (2 * _)), (Z.mul_comm 2), Z.mod_add by done.
    change (1 mod 2 =? 0) with false. cbv iota.
    replace ((1 + Z.pos n * 2 - 1) / 2) with (Z.pos n) by (apply (Z.div_unique _ _ _ 0); lia).
    cbn [fx_pow]. apply checked_then; [done..|]. intros y' Hy'.
    apply checked_then; [done..|]. intros x' Hx'. apply IH; [done..|lia].
  - destruct fuel as [|fuel]; [cbn in Hn; lia|]. rewrite Nat2Z.inj_succ, Z.pow_succ_r in Hn by lia.
    rewrite (proj2 (Z.ltb_lt 1 (Z.pos n~0))) by lia.
    rewrite (Pos2Z.inj_xO n), (Z.mul_comm 2), Z.mod_mul, Z.div_mul by done.
    change (0 =? 0) with true. cbv iota. cbn [fx_pow].
    apply checked_then; [done..|]. intros x' Hx'. apply IH; [done..|lia].
  - change (1 <? 1) with false. cbv iota. unfold agrees. cbn [fx_pow].
    rewrite mul_agrees by done. by destruct (fx_mul w x y).
Qed.
End squaring.

Lemma at_most_pow_1 X : 0 ≤ X → at_most_pow X 1 X.
Proof. intros HX. split; [done|]. rewrite !Z.pow_1_r. lia. Qed.
Lemma at_most_pow_0 X : at_most_pow X 0 FX.
Proof. split; [done|]. by rewrite !Z.pow_0_r. Qed.

(** The last product is not checked: whenever the square fits and the cube does not,
    raising to the third power panics. *)
Lemma fx_pow_3 {E S} w x (s : S) y :
  in_width w x → fx_mul w x x = Some y → fx_mul w y x = None →
  (fx_pow w x FX 3 : M E S _) s = (Panic "attempt to multiply with overflow", s).
Proof.
  intros Hx Hxx Hxy. cbn [fx_pow].
  assert (fx_mul w x FX = Some x) as ->
    by (unfold fx_mul; rewrite Z.div_mul by done; by apply fits_in).
  rewrite Hxx. cbn [fx_pow]. by rewrite Hxy.
Qed.

(** ** Square roots *)

(** [r] is the root of [n] rounded down to a multiple of [u] ulps. *)
Definition root_to (u n r : Z) : Prop := r * r ≤ n * FX < (r + u) * (r + u).

Lemma fx_sqrt_at_spec {E S} w n i (s : S) :
  FX ≤ w → in_width w n → 0 ≤ i ≤ 9 →
  if n * 100 ^ i <? w then
    ∃ r, (fx_sqrt_at w n i : M E S _) s = (Ok (Some r), s) ∧ in_width w r ∧ root_to (10 ^ (9 - i)) n r
  else (fx_sqrt_at w n i : M E S _) s = (Ok None, s).
Proof.
  intros Hw [Hn0 Hn] Hi. unfold fx_sqrt_at.
  pose proof (Z.pow_pos_nonneg 100 i ltac:(lia) ltac:(lia)) as Pi.
  pose proof (Z.pow_pos_nonneg 10 (9 - i) ltac:(lia) ltac:(lia)) as Pu.
  assert (100 ^ i * (10 ^ (9 - i) * 10 ^ (9 - i)) = FX) as HFX.
  { change 100 with (10 ^ 2). rewrite <-Z.pow_mul_r, <-!Z.pow_add_r by lia. unfold FX. f_equal. lia. }
  destruct (Z.ltb_spec (n * 100 ^ i) w) as [Hlt|Hge].
  2: { assert (fits w (n * 100 ^ i) = None) as -> by (apply fits_None; unfold in_width; lia). done. }
  rewrite fits_in by (unfold in_width; nia).
  set (m := n * 100 ^ i) in *. assert (0 ≤ m) as Hm by (unfold m; nia).
  rewrite (bind_Ok _ _ _ _ _ (isqrt_run s w m ltac:(unfold FX in Hw; lia) (conj Hm Hlt))).
  pose proof (Z.sqrt_spec m Hm) as [Hr1 Hr2]. pose proof (Z.sqrt_nonneg m) as Hr0.
  set (r := Z.sqrt m) in *. set (u := 10 ^ (9 - i)) in *.
  assert (u ≤ 10 ^ 9) as Hu by (apply Z.pow_le_mono_r; lia).
  assert (in_width w (r * u)) as Hfit.
  { split; [nia|]. destruct (Z.le_gt_cases (10 ^ 9) r) as [Hbig|Hsmall].
    - apply Z.le_lt_trans with (r * r); nia.
    - apply Z.lt_le_trans with FX; [|done]. change FX with (10 ^ 9 * 10 ^ 9). nia. }
  rewrite (fits_in w (r * u)) by done. eexists. split; [done|]. split; [done|].
  unfold root_to. rewrite <-HFX. replace (n * (100 ^ i * (u * u))) with (m * (u * u)) by (unfold m; ring).
  clearbody m r u. split; nia.
Qed.

Lemma fx_sqrt_from_spec {E S} w n p (s : S) :
  FX ≤ w → in_width w n → (p ≤ 9)%nat →
  ∃ r i, (fx_sqrt_from w n p : M E S _) s = (Ok (Some r), s) ∧ in_width w r ∧
    (i ≤ p)%nat ∧ root_to (10 ^ (9 - Z.of_nat i)) n r ∧
    (∀ j, (i < j ≤ p)%nat → w ≤ n * 100 ^ Z.of_nat j).
Proof.
  intros Hw Hn. induction p as [|p IH]; intros Hp; cbn [fx_sqrt_from].
  - pose proof (fx_sqrt_at_spec (E := E) w n 0 s Hw Hn ltac:(lia)) as H. cbn [Z.of_nat].
    destruct (Z.ltb_spec (n * 100 ^ 0) w); [|unfold in_width in Hn; lia].
    destruct H as (r & H & Hr & Hroot). rewrite (bind_Ok _ _ _ _ _ H).
    exists r, 0%nat. do 2 (split; [done|]). split; [lia|]. split; [done|lia].
  - pose proof (fx_sqrt_at_spec (E := E) w n (Z.of_nat (Datatypes.S p)) s Hw Hn ltac:(lia)) as H.
    destruct (Z.ltb_spec (n * 100 ^ Z.of_nat (Datatypes.S p)) w) as [Hlt|Hge].
    + destruct H as (r & H & Hr & Hroot). rewrite (bind_Ok _ _ _ _ _ H).
      exists r, (Datatypes.S p). do 2 (split; [done|]). split; [lia|]. split; [done|lia].
    + rewrite (bind_Ok _ _ _ _ _ H). destruct IH as (r & i & H1 & H2 & H3 & H4 & H5); [lia|].
      exists r, i. do 2 (split; [done|]). split; [lia|]. split; [done|]. intros j Hj.
      destruct (decide (j = Datatypes.S p)) as [->|]; [done|]. apply H5. lia.
Qed.
