(* ===== verification/Decimal.v ===== *)
(** * Decimals ([cosmwasm/packages/std/src/math/decimal.rs], [fraction.rs])

    [Decimal(Uint128)] is a number of atomic units, 10^18 to the unit. Every operation is
    built from those of [Uint128] and, for products, of [Uint256]; a method that returns
    [Result<_, E>] is a function of [M E], so that [?] is the bind of the monad. *)

From S2P Require Import Prelude.
From S2P Require Import Bytes.
From S2P Require Import Digits.
From S2P Require Import CwStd.
From S2P Require Import StdError.
From S2P Require Import Uint128.
From S2P Require Import UintCrate.
From S2P Require Import Uint256.
From S2P Require Import Ratio.
From S2P Require Import Fixed.

Open Scope Z_scope.

Definition DECIMAL_FRACTIONAL : Z := 1000000000000000000.
Definition DECIMAL_FRACTIONAL_SQUARED : Z := 1000000000000000000000000000000000000.
Definition DECIMAL_PLACES : Z := 18.
Definition MAX : Z := Uint128_MAX.
Definition MIN : Z := 0.

Inductive DecimalRangeExceeded := mkDecimalRangeExceeded.

(** ** Constructors and parts *)
Definition new (value : Z) : Z := value.
Definition raw (value : Z) : Z := value.
Definition one : Z := DECIMAL_FRACTIONAL.
Definition zero : Z := 0.
Definition is_zero (self : Z) : bool := Uint128.is_zero self.
Definition atomics (self : Z) : Z := self.
Definition decimal_places (self : Z) : Z := DECIMAL_PLACES.
Definition numerator (self : Z) : Z := self.
Definition denominator (self : Z) : Z := DECIMAL_FRACTIONAL.
Definition abs_diff (self other : Z) : Z := Uint128.abs_diff self other.

Section decimal.
Context `{UintCrate U256} {S : Type}.

Definition percent {E} (x : Z) : M E S Z := uint128_mul x 10000000000000000.
Definition permille {E} (x : Z) : M E S Z := uint128_mul x 1000000000000000.

Definition from_atomics (atomics decimal_places : Z) : M DecimalRangeExceeded S Z :=
  match decimal_places ?= DECIMAL_PLACES with
  | Lt =>
      let digits := DECIMAL_PLACES - decimal_places in
      factor ← unwrap unwrap_err (ok (Uint128.checked_pow 10 digits));
      or_throw mkDecimalRangeExceeded (Uint128.checked_mul atomics factor)
  | Eq => mret atomics
  | Gt =>
      let digits := decimal_places - DECIMAL_PLACES in
      match Uint128.checked_pow 10 digits with
      | inr factor => unwrap unwrap_err (ok (Uint128.checked_div atomics factor))
      | inl _ => mret 0
      end
  end.

Definition checked_from_ratio (numerator denominator : Z) : M CheckedFromRatioError S Z :=
  r ← Ratio128.checked_multiply_ratio numerator DECIMAL_FRACTIONAL denominator;
  match r with
  | inr ratio => mret ratio
  | inl RatioOverflow => throw FromRatioOverflow
  | inl RatioDivideByZero => throw FromRatioDivideByZero
  end.

Definition from_ratio {E} (numerator denominator : Z) : M E S Z :=
  r ← attempt (checked_from_ratio numerator denominator);
  match r with
  | inr value => mret value
  | inl FromRatioDivideByZero => panic "Denominator must not be zero"
  | inl FromRatioOverflow => panic "Multiplication overflow"
  end.

(** ** [Display] *)
Definition fmt {E} (self : Z) : M E S string :=
  whole ← uint128_div self DECIMAL_FRACTIONAL;
  fractional ← unwrap unwrap_err (ok (Uint128.checked_rem self DECIMAL_FRACTIONAL));
  if Uint128.is_zero fractional then mret (pretty whole)
  else
    let fractional_string := pad_zeros (Z.to_nat DECIMAL_PLACES) (pretty fractional) in
    mret (pretty whole +:+ "." +:+ trim_zeros fractional_string).

(** [map_err(|_| OverflowError { .. })] with the two operands printed. *)
Definition or_overflow {F} (op : OverflowOperation) (self other : Z) (r : F + Z) : M OverflowError S Z :=
  match r with
  | inr z => mret z
  | inl _ => x ← fmt self; y ← fmt other; throw (mkOverflowError op x y)
  end.

(** ** Rounding *)
Definition floor {E} (self : Z) : M E S Z :=
  q ← uint128_div self DECIMAL_FRACTIONAL; uint128_mul q DECIMAL_FRACTIONAL.

Definition checked_add (self other : Z) : M OverflowError S Z :=
  or_overflow OpAdd self other (Uint128.checked_add self other).
Definition checked_sub (self other : Z) : M OverflowError S Z :=
  or_overflow OpSub self other (Uint128.checked_sub self other).

Definition checked_ceil (self : Z) : M RoundUpOverflowError S Z :=
  f ← floor self;
  if f =? self then mret f else map_err (λ _, mkRoundUpOverflowError) (checked_add f one).

Definition ceil {E} (self : Z) : M E S Z :=
  r ← attempt (checked_ceil self);
  match r with inr value => mret value | inl _ => panic "attempt to ceil with overflow" end.

(** ** Products and powers *)
Definition product {E} (self other : Z) : M E S Z :=
  p ← Ratio128.full_mul (numerator self) (numerator other);
  Uint256.div p (Uint256.from_uint128 DECIMAL_FRACTIONAL).

Definition checked_mul (self other : Z) : M OverflowError S Z :=
  result_as_uint256 ← product self other;
  or_overflow OpMul self other (Uint256.try_into_uint128 result_as_uint256).

Definition mul {E} (self other : Z) : M E S Z :=
  result_as_uint256 ← product self other;
  match Uint256.try_into_uint128 result_as_uint256 with
  | inr result => mret result
  | inl _ => panic "attempt to multiply with overflow"
  end.

(** The loop of [checked_pow]; [n] is a [u32], so it is halved at most 32 times. *)
Fixpoint pow_loop (fuel : nat) (x y n : Z) : M OverflowError S Z :=
  if 1 <? n then
    match fuel with
    | O => out_of_fuel
    | Datatypes.S fuel =>
        if n mod 2 =? 0 then x ← checked_mul x x; pow_loop fuel x y (n / 2)
        else y ← checked_mul x y; x ← checked_mul x x; pow_loop fuel x y ((n - 1) / 2)
    end
  else mul x y.

Definition pow_inner (x n : Z) : M OverflowError S Z :=
  if n =? 0 then mret one else pow_loop 32 x one n.

Definition checked_pow (self exp : Z) : M OverflowError S Z :=
  r ← attempt (pow_inner self exp);
  match r with
  | inr z => mret z
  | inl _ => x ← fmt self; throw (mkOverflowError OpPow x (pretty exp))
  end.

Definition pow {E} (self exp : Z) : M E S Z :=
  r ← attempt (checked_pow self exp);
  match r with inr value => mret value | inl _ => panic "Multiplication overflow" end.

Definition checked_div (self other : Z) : M CheckedFromRatioError S Z :=
  checked_from_ratio (numerator self) (numerator other).

Definition checked_rem (self other : Z) : M DivideByZeroError S Z :=
  match Uint128.checked_rem self other with
  | inr z => mret z
  | inl _ => x ← fmt self; throw (mkDivideByZeroError x)
  end.

(** ** Square roots *)
Definition sqrt_with_precision {E} (self precision : Z) : M E S (option Z) :=
  inner_mul ← Uint128.pow 100 precision;
  match Uint128.checked_mul self inner_mul with
  | inl _ => mret None
  | inr inner =>
      outer_mul ← Uint128.pow 10 (DECIMAL_PLACES / 2 - precision);
      root ← isqrt U128 inner;
      z ← unwrap unwrap_err (ok (Uint128.checked_mul root outer_mul));
      mret (Some z)
  end.

(** [(0..=p).rev().find_map(..)]. *)
Fixpoint sqrt_find {E} (self : Z) (precision : nat) : M E S (option Z) :=
  r ← sqrt_with_precision self (Z.of_nat precision);
  match r, precision with
  | Some z, _ => mret (Some z)
  | None, O => mret None
  | None, Datatypes.S p => sqrt_find self p
  end.

Definition sqrt {E} (self : Z) : M E S Z :=
  r ← sqrt_find self (Z.to_nat (DECIMAL_PLACES / 2));
  unwrap "called `Option::unwrap()` on a `None` value" r.

(** ** Saturating operations *)
Definition saturating_add {E} (self other : Z) : M E S Z := or_bound MAX (checked_add self other).
Definition saturating_sub {E} (self other : Z) : M E S Z := or_bound zero (checked_sub self other).
Definition saturating_mul {E} (self other : Z) : M E S Z := or_bound MAX (checked_mul self other).
Definition saturating_pow {E} (self exp : Z) : M E S Z := or_bound MAX (checked_pow self exp).

(** [Fraction::inv]. *)
Definition inv {E} (self : Z) : M E S (option Z) :=
  if is_zero self then mret None
  else z ← uint128_div DECIMAL_FRACTIONAL_SQUARED self; mret (Some z).

(** ** [FromStr] *)
Definition parse_fraction (atomics : Z) (fractional_part : string) : M StdError S Z :=
  fractional ← or_throw (StdGenericErr "Error parsing fractional") (Uint128.from_str fractional_part);
  let len := Z.of_nat (String.length fractional_part) mod U32 in
  exp ← (if len <=? DECIMAL_PLACES then mret (DECIMAL_PLACES - len)
         else throw (StdGenericErr ("Cannot parse more than " +:+ pretty DECIMAL_PLACES
                                    +:+ " fractional digits")));
  fractional_factor ← Uint128.pow 10 exp;
  p ← unwrap unwrap_err (ok (Uint128.checked_mul fractional fractional_factor));
  or_throw (StdGenericErr "Value too big") (Uint128.checked_add atomics p).

Definition from_str (input : string) : M StdError S Z :=
  match split_dot input with
  | [] => panic "called `Option::unwrap()` on a `None` value"
  | whole_part :: parts =>
      whole ← or_throw (StdGenericErr "Error parsing whole") (Uint128.from_str whole_part);
      atomics ← or_throw (StdGenericErr "Value too big")
                  (Uint128.checked_mul whole DECIMAL_FRACTIONAL);
      atomics ← match parts with
                | [] => mret atomics
                | fractional_part :: _ => parse_fraction atomics fractional_part
                end;
      match parts with
      | _ :: _ :: _ => throw (StdGenericErr "Unexpected number of dots")
      | _ => mret atomics
      end
  end.

(** The visitor of [Deserialize]; [Serialize] writes [fmt]. *)
Definition visit_str (v : string) : M string S Z :=
  map_err (λ e, "Error parsing decimal '" +:+ v +:+ "': " +:+ StdError_to_string e) (from_str v).

(** ** Operators *)
Section operators.
Context {E : Type}.
Abbreviation P := (M E S Z).

Definition add (self other : Z) : P := uint128_add self other.
Definition sub (self other : Z) : P := uint128_sub self other.
Definition div (self other : Z) : P :=
  r ← attempt (checked_from_ratio (numerator self) (numerator other));
  match r with
  | inr ratio => mret ratio
  | inl FromRatioDivideByZero => panic "Division failed - denominator must not be zero"
  | inl FromRatioOverflow => panic "Division failed - multiplication overflow"
  end.
Definition rem (self rhs : Z) : P := uint128_rem self rhs.

(** [Mul<Decimal> for Uint128] and [Div<Uint128> for Decimal]. *)
Definition mul_uint (self rhs : Z) : P :=
  if Uint128.is_zero self || is_zero rhs then mret 0
  else Ratio128.multiply_ratio self rhs DECIMAL_FRACTIONAL.
Definition div_uint (self rhs : Z) : P := uint128_div self rhs.

Definition sum (l : list Z) : P := fold_ops add zero l.
End operators.
End decimal.

Definition add_assign {E} : Z → M E Z unit := assign add.
Definition sub_assign {E} : Z → M E Z unit := assign sub.
Definition mul_assign `{UintCrate U256} {E} : Z → M E Z unit := assign mul.
Definition div_assign `{UintCrate U256} {E} : Z → M E Z unit := assign div.
Definition rem_assign {E} : Z → M E Z unit := assign rem.
Definition div_uint_assign {E} : Z → M E Z unit := assign div_uint.

(** ** The operations are those of fixed-point numbers at 128 bits *)
Lemma ok_overflow op a b o : ok (overflow op a b o) = o.
Proof. by destruct o. Qed.

Lemma FX_FRACTIONAL : DECIMAL_FRACTIONAL = FX.
Proof. done. Qed.

Section facts.
Context `{!UintCrate U256, !UintCrateSpec U256} {S : Type}.
Implicit Types (s : S).

Lemma fmt_spec {E} z s : (fmt z : M E S _) s = (Ok (fx_print z), s).
Proof.
  unfold fmt, uint128_div, Uint128.checked_rem, Uint128.is_zero, fx_print.
  rewrite FX_FRACTIONAL. change (FX =? 0) with false. cbn [expect unwrap ok]. rewrite !bind_ret_l.
  by destruct (_ =? 0).
Qed.

Lemma or_overflow_spec {F} op a b (r : F + Z) s :
  or_overflow op a b r s =
    match r with
    | inr z => (Ok z, s)
    | inl _ => (Err (mkOverflowError op (fx_print a) (fx_print b)), s)
    end.
Proof.
  destruct r; [|done]. unfold or_overflow.
  by rewrite (bind_Ok _ _ _ _ _ (fmt_spec a s)), (bind_Ok _ _ _ _ _ (fmt_spec b s)).
Qed.

(** *** Products *)
Lemma product_spec {E} x y s :
  in_width U128 x → in_width U128 y →
  (product x y : M E S _) s = (Ok (x * y / FX), s) ∧ in_width U256 (x * y / FX).
Proof.
  intros Hx Hy. unfold product, numerator, Ratio128.full_mul, Uint256.checked_mul, Uint256.from.
  assert (∀ z, in_width U128 z → in_width U256 z) as Hw by (intros z; by apply in_width_le).
  pose proof (product_in_width U128 x y Hx Hy) as Hp. change (U128 * U128) with U256 in Hp.
  rewrite !u_from_u128_spec, u_checked_mul_spec, fits_in by auto.
  cbn [Uint256.or_overflow ok unwrap]. rewrite bind_ret_l. unfold Uint256.div, Uint256.from_uint128.
  rewrite from_u128_spec, FX_FRACTIONAL, u_checked_div_spec by done.
  split; [done|]. by apply quotient_in_width.
Qed.

Lemma try_into_spec z :
  in_width U256 z →
  Uint256.try_into_uint128 z =
    match fits U128 z with
    | Some z => inr z
    | None => inl (mkConversionOverflowError "Uint256" "Uint128" (pretty z))
    end.
Proof.
  intros Hz. unfold Uint256.try_into_uint128, Uint256.to_string.
  rewrite u_try_into_u128_spec, u_to_string_spec by done. done.
Qed.

Lemma checked_mul_spec x y s :
  in_width U128 x → in_width U128 y →
  checked_mul x y s =
    match fx_mul U128 x y with
    | Some z => (Ok z, s)
    | None => (Err (mkOverflowError OpMul (fx_print x) (fx_print y)), s)
    end.
Proof.
  intros Hx Hy. unfold checked_mul. destruct (product_spec (E := OverflowError) x y s Hx Hy) as [Hp Hw].
  rewrite (bind_Ok _ _ _ _ _ Hp), or_overflow_spec, try_into_spec by done.
  unfold fx_mul. by destruct (fits U128 _).
Qed.

Lemma mul_spec {E} x y s :
  in_width U128 x → in_width U128 y →
  (mul x y : M E S _) s =
    match fx_mul U128 x y with
    | Some z => (Ok z, s)
    | None => (Panic "attempt to multiply with overflow", s)
    end.
Proof.
  intros Hx Hy. unfold mul. destruct (product_spec (E := E) x y s Hx Hy) as [Hp Hw].
  rewrite (bind_Ok _ _ _ _ _ Hp), try_into_spec by done.
  unfold fx_mul. by destruct (fits U128 _).
Qed.

(** *** Powers *)
Lemma pow_loop_spec fuel n x y s :
  in_width U128 x → in_width U128 y → Z.pos n < 2 ^ Z.of_nat (Datatypes.S fuel) →
  agrees (pow_loop fuel x y (Z.pos n)) (fx_pow U128 x y n) s.
Proof.
  apply (squaring_agrees U128 checked_mul mul pow_loop).
  - by intros [].
  - intros a b t Ha Hb. rewrite checked_mul_spec by done. destruct (fx_mul U128 a b); eauto.
  - intros a b t. apply mul_spec.
Qed.

Lemma checked_pow_spec x n s :
  in_width U128 x → in_width U32 n →
  checked_pow x n s =
    reported (mkOverflowError OpPow (fx_print x) (pretty n)) (fx_checked_pow U128 x n) s.
Proof.
  intros Hx [Hn0 Hn]. unfold checked_pow, pow_inner, fx_checked_pow, reported, mbind, M_bind, attempt.
  destruct (Z.eqb_spec n 0) as [->|Hne]; [done|]. destruct n as [|n|]; [done| |lia].
  pose proof (pow_loop_spec 32 n x one s Hx ltac:(done) ltac:(unfold U32 in Hn; cbn; lia)) as H.
  unfold agrees in H. change one with FX in H |- *. cbn [Z.to_pos].
  destruct (fx_pow U128 x FX n s) as [[[z|]|e|p|] s']; [by rewrite H| |done|by rewrite H|done].
  destruct H as [e ->]. fold (mbind (M := M OverflowError S) (A := string) (B := Z)).
  by rewrite fmt_spec.
Qed.

(** *** Square roots *)
Lemma small_pow_fits b n : 0 ≤ b → 0 ≤ n → b ^ n <= FX → fits U128 (b ^ n) = Some (b ^ n).
Proof.
  intros Hb Hn Hle. apply fits_in. split; [by apply Z.pow_nonneg|]. unfold FX, U128 in *. lia.
Qed.

Lemma sqrt_with_precision_spec {E} x p s :
  (p ≤ 9)%nat →
  (sqrt_with_precision x (Z.of_nat p) : M E S _) s = fx_sqrt_at U128 x (Z.of_nat p) s.
Proof.
  intros Hp. unfold sqrt_with_precision, fx_sqrt_at, Uint128.pow, Uint128.checked_mul.
  rewrite !small_pow_fits; [|try lia..].
  - cbn [expect unwrap]. rewrite bind_ret_l. destruct (fits U128 (x * _)) as [m|]; [|done].
    cbn [overflow]. rewrite bind_ret_l. unfold mbind at 1 3, M_bind.
    destruct (isqrt U128 m s) as [[r|e|msg|] s']; [|done..].
    change (DECIMAL_PLACES / 2) with 9. by rewrite ok_overflow.
  - change FX with (100 ^ 9). apply Z.pow_le_mono_r; lia.
  - change (DECIMAL_PLACES / 2) with 9. lia.
  - change FX with (10 ^ 18). change (DECIMAL_PLACES / 2) with 9. apply Z.pow_le_mono_r; lia.
Qed.

Lemma sqrt_find_spec {E} x p s :
  (p ≤ 9)%nat → (sqrt_find x p : M E S _) s = fx_sqrt_from U128 x p s.
Proof.
  induction p as [|p IH]; intros Hp; cbn [sqrt_find fx_sqrt_from]; unfold mbind, M_bind;
    rewrite sqrt_with_precision_spec by done;
    destruct (fx_sqrt_at U128 x _ s) as [[[z|]|e|msg|] s'] eqn:Hr; try done.
  assert (s' = s) as ->; [|apply IH; lia].
  clear -Hr. unfold fx_sqrt_at in Hr. destruct (fits U128 _); [|by inversion Hr].
  unfold mbind, M_bind in Hr. destruct (isqrt _ _ _) as [[] ?]; [|done..].
  by destruct (fits U128 (_ * _)).
Qed.

Lemma sqrt_spec {E} x s : (sqrt x : M E S _) s = fx_sqrt U128 x s.
Proof.
  unfold sqrt, fx_sqrt, mbind, M_bind. change (Z.to_nat (DECIMAL_PLACES / 2)) with 9%nat.
  by rewrite sqrt_find_spec by done.
Qed.

(** *** Ratios *)
Lemma checked_from_ratio_spec n d s :
  in_width U128 n → in_width U128 d →
  checked_from_ratio n d s =
    (if d =? 0 then Err FromRatioDivideByZero
     else if n * FX / d <? U128 then Ok (n * FX / d) else Err FromRatioOverflow, s).
Proof.
  intros Hn Hd. unfold checked_from_ratio.
  rewrite (bind_Ok _ _ _ _ _ (checked_128 n DECIMAL_FRACTIONAL d s Hn ltac:(done) Hd)).
  unfold ratio. rewrite FX_FRACTIONAL. destruct (d =? 0); [done|]. by destruct (_ <? U128).
Qed.

(** *** Strings *)
Lemma uint128_from_str_ok t : ok (Uint128.from_str t) = parse_uint U128 t.
Proof. rewrite <-parse_int_ok. unfold Uint128.from_str. by destruct (parse_int U128 t). Qed.

Lemma parse_fraction_spec a t s :
  parse_fraction a t s = thrown (fx_fraction U128 (parse_uint U128) a [t]) s.
Proof.
  unfold parse_fraction, fx_fraction, thrown. rewrite bind_or_throw, uint128_from_str_ok.
  destruct (parse_uint U128 t) as [f|]; [|done].
  set (len := Z.of_nat (String.length t) mod U32).
  assert (0 ≤ len) by (by apply Z.mod_pos_bound). change DECIMAL_PLACES with FX_PLACES.
  destruct (Z.leb_spec len FX_PLACES) as [Hl|Hl]; [|done]. rewrite bind_ret_l.
  unfold Uint128.pow, Uint128.checked_mul, Uint128.checked_add.
  rewrite small_pow_fits; [|lia..|change FX with (10 ^ FX_PLACES); apply Z.pow_le_mono_r; lia].
  cbn [expect unwrap]. rewrite bind_ret_l, ok_overflow.
  destruct (fits U128 (f * _)) as [p|]; [|done]. cbn [unwrap]. rewrite !bind_ret_l.
  by destruct (fits U128 (a + p)).
Qed.

Lemma from_str_spec input s :
  from_str input s = thrown (fx_parse U128 (parse_uint U128) input) s.
Proof.
  unfold from_str, fx_parse, thrown. destruct (split_dot input) as [|t parts]; [done|].
  rewrite bind_or_throw, uint128_from_str_ok. destruct (parse_uint U128 t) as [x|]; [|done].
  rewrite bind_or_throw. unfold Uint128.checked_mul. rewrite ok_overflow, FX_FRACTIONAL.
  destruct (fits U128 (x * FX)) as [a|]; [|done].
  destruct parts as [|f rest]; [done|]. unfold mbind, M_bind.
  rewrite parse_fraction_spec. unfold thrown.
  change (fx_fraction U128 (parse_uint U128) a (f :: rest))
    with (fx_fraction (E := unit) (S := S) U128 (parse_uint U128) a [f]).
  destruct (fx_fraction U128 (parse_uint U128) a [f] s) as [[[msg|z]|e|m|] s']; by destruct rest.
Qed.

(** *** Rounding *)
Lemma floor_spec {E} x s : in_width U128 x → (floor x : M E S _) s = (Ok (x / FX * FX), s).
Proof.
  intros [Hx0 Hx]. unfold floor, uint128_div, uint128_mul. rewrite FX_FRACTIONAL.
  change (FX =? 0) with false. cbn [expect unwrap]. rewrite bind_ret_l.
  pose proof (Z.mul_div_le x FX ltac:(done)). pose proof (Z.div_pos x FX Hx0 ltac:(done)).
  rewrite fits_in; [done|]. split; [|lia]. apply Z.mul_nonneg_nonneg; [done|done].
Qed.

(** The least whole number not below [x]. *)
Lemma checked_ceil_spec x s :
  in_width U128 x →
  let c := (x + FX - 1) / FX * FX in
  checked_ceil x s = (if c <? U128 then Ok c else Err mkRoundUpOverflowError, s).
Proof.
  intros Hx c. unfold checked_ceil. rewrite (bind_Ok _ _ _ _ _ (floor_spec x s Hx)).
  destruct Hx as [Hx0 Hx]. assert (0 < FX) as HF by done.
  pose proof (Z.div_mod x FX ltac:(lia)) as Hd. pose proof (Z.mod_pos_bound x FX HF) as Hm.
  destruct (Z.eqb_spec (x / FX * FX) x) as [He|He].
  - assert (c = x) as ->.
    { unfold c. replace ((x + FX - 1) / FX) with (x / FX); [done|].
      apply (Z.div_unique _ _ _ (FX - 1)); lia. }
    rewrite He. by destruct (Z.ltb_spec x U128); [|lia].
  - assert (c = x / FX * FX + FX) as ->.
    { unfold c. replace ((x + FX - 1) / FX) with (x / FX + 1); [ring|].
      apply (Z.div_unique _ _ _ (x mod FX - 1)); lia. }
    pose proof (Z.div_pos x FX Hx0 HF) as Hq. set (q := x / FX) in *. clearbody q.
    unfold map_err, checked_add. rewrite or_overflow_spec.
    unfold Uint128.checked_add, fits. change one with FX.
    rewrite (proj2 (Z.leb_le 0 (q * FX + FX))) by nia. cbn [andb]. by destruct (_ <? U128).
Qed.

(** Atomic units at any number of places, rounded down. *)
Lemma from_atomics_spec a p s :
  in_width U128 a → in_width U32 p →
  from_atomics a p s =
    (if a * FX / 10 ^ p <? U128 then Ok (a * FX / 10 ^ p) else Err mkDecimalRangeExceeded, s).
Proof.
  intros [Ha0 Ha] [Hp0 Hp]. unfold from_atomics. change DECIMAL_PLACES with FX_PLACES.
  pose proof (Z.pow_pos_nonneg 10 p ltac:(lia) Hp0) as Hpp.
  destruct (Z.compare_spec p FX_PLACES) as [->|Hlt|Hgt].
  - change FX with (10 ^ FX_PLACES). rewrite Z.div_mul by done.
    by destruct (Z.ltb_spec a U128); [|lia].
  - unfold Uint128.checked_pow, Uint128.checked_mul.
    rewrite small_pow_fits; [|lia..|change FX with (10 ^ FX_PLACES); apply Z.pow_le_mono_r; lia].
    cbn [overflow ok unwrap]. rewrite bind_ret_l.
    assert (FX = 10 ^ (FX_PLACES - p) * 10 ^ p) as HFX
      by (rewrite <-Z.pow_add_r by lia; unfold FX; f_equal; unfold FX_PLACES; lia).
    rewrite HFX, Z.mul_assoc, Z.div_mul by lia.
    pose proof (Z.pow_pos_nonneg 10 (FX_PLACES - p) ltac:(lia) ltac:(lia)).
    unfold fits. rewrite (proj2 (Z.leb_le 0 (a * _))) by nia. cbn [andb]. by destruct (_ <? U128).
  - assert (10 ^ p = 10 ^ (p - FX_PLACES) * FX) as HFX
      by (change FX with (10 ^ FX_PLACES); rewrite <-Z.pow_add_r by (unfold FX_PLACES in *; lia); f_equal; lia).
    rewrite HFX, Z.div_mul_cancel_r; [|apply Z.pow_nonzero; unfold FX_PLACES in *; lia|done].
    pose proof (Z.pow_pos_nonneg 10 (p - FX_PLACES) ltac:(lia) ltac:(lia)) as Hk.
    set (k := 10 ^ (p - FX_PLACES)) in *. unfold Uint128.checked_pow. fold k.
    assert (0 ≤ a / k ≤ a) as Hq.
    { split; [by apply Z.div_pos|]. apply Z.div_le_upper_bound; nia. }
    destruct (Z.ltb_spec (a / k) U128); [|lia]. unfold fits.
    rewrite (proj2 (Z.leb_le 0 k)) by lia. destruct (Z.ltb_spec k U128) as [Hs|Hb]; cbn [andb overflow].
    + unfold Uint128.checked_div. by rewrite (proj2 (Z.eqb_neq k 0)) by lia.
    + by rewrite (Z.div_small a k) by lia.
Qed.
End facts.
