(* ===== verification/Decimal256.v ===== *)
(** * Large decimals ([cosmwasm/packages/std/src/math/decimal256.rs])

    [Decimal256(Uint256)]: the operations of [Decimal] on 256 bits, with products in
    [Uint512]. Comparisons, printing and parsing go through the [uint] crate; its parser
    accepts no sign. *)

From S2P Require Import Prelude.
From S2P Require Import Bytes.
From S2P Require Import Digits.
From S2P Require Import CwStd.
From S2P Require Import StdError.
From S2P Require Import Uint128.
From S2P Require Import UintCrate.
From S2P Require Import Uint256.
From S2P Require Import Uint512.
From S2P Require Import Ratio.
From S2P Require Import Fixed.
From S2P Require Import Decimal.

Open Scope Z_scope.

Definition bytes_of (l : list Z) : bytes := byte_of_Z <$> l.

Definition DECIMAL_FRACTIONAL : Z :=
  Uint256.from_be_bytes (bytes_of
    [0; 0; 0; 0; 0; 0; 0; 0; 0; 0; 0; 0; 0; 0; 0; 0; 0; 0; 0; 0; 0; 0; 0; 0; 13; 224; 182;
     179; 167; 100; 0; 0]).
Definition DECIMAL_FRACTIONAL_SQUARED : Z :=
  Uint256.from_be_bytes (bytes_of
    [0; 0; 0; 0; 0; 0; 0; 0; 0; 0; 0; 0; 0; 0; 0; 0; 0; 192; 151; 206; 123; 201; 7; 21; 179;
     75; 159; 16; 0; 0; 0; 0]).
Definition DECIMAL_PLACES : Z := 18.
Definition MAX : Z := Uint256.MAX.
Definition MIN : Z := Uint256.MIN.

Inductive Decimal256RangeExceeded := mkDecimal256RangeExceeded.

(** ** Constructors and parts *)
Definition new (value : Z) : Z := value.
Definition raw (value : Z) : Z := Uint256.from_u128 value.
Definition one : Z := DECIMAL_FRACTIONAL.
Definition zero : Z := Uint256.zero.
Definition is_zero (self : Z) : bool := Uint256.is_zero self.
Definition atomics (self : Z) : Z := self.
Definition decimal_places (self : Z) : Z := DECIMAL_PLACES.
Definition numerator (self : Z) : Z := self.
Definition denominator (self : Z) : Z := DECIMAL_FRACTIONAL.

Section decimal.
Context `{UintCrate U256, UintCrate U512} {S : Type}.

Definition percent {E} (x : Z) : M E S Z := Uint256.mul (Uint256.from x) (Uint256.from 10000000000000000).
Definition permille {E} (x : Z) : M E S Z := Uint256.mul (Uint256.from x) (Uint256.from 1000000000000000).

Definition from_atomics (atomics decimal_places : Z) : M Decimal256RangeExceeded S Z :=
  match decimal_places ?= DECIMAL_PLACES with
  | Lt =>
      let digits := DECIMAL_PLACES - decimal_places in
      factor ← unwrap unwrap_err (ok (Uint256.checked_pow (Uint256.from 10) digits));
      or_throw mkDecimal256RangeExceeded (Uint256.checked_mul atomics factor)
  | Eq => mret atomics
  | Gt =>
      let digits := decimal_places - DECIMAL_PLACES in
      match Uint256.checked_pow (Uint256.from 10) digits with
      | inr factor => unwrap unwrap_err (ok (Uint256.checked_div atomics factor))
      | inl _ => mret Uint256.zero
      end
  end.

Definition checked_from_ratio (numerator denominator : Z) : M CheckedFromRatioError S Z :=
  r ← Ratio256.checked_multiply_ratio numerator DECIMAL_FRACTIONAL denominator;
  match r with
  | inr ratio => mret ratio
  | inl RatioOverflow => throw FromRatioOverflow
  | inl RatioDivideByZero => throw FromRatioDivideByZero
  end.

Definition from_ratio {E} (numerator denominator : Z) : M E S Z :=
  r ← attempt (checked_from_ratio numerator denominator);
  match r with
  | inr value => mret value
  | inl FromRatioDivideByZero => panic "Denominator must not be zero"
  | inl FromRatioOverflow => panic "Multiplication overflow"
  end.

(** ** [Display] *)
Definition fmt {E} (self : Z) : M E S string :=
  whole ← Uint256.div self DECIMAL_FRACTIONAL;
  fractional ← unwrap unwrap_err (ok (Uint256.checked_rem self DECIMAL_FRACTIONAL));
  if Uint256.is_zero fractional then mret (Uint256.to_string whole)
  else
    let fractional_string := pad_zeros (Z.to_nat DECIMAL_PLACES) (Uint256.to_string fractional) in
    mret (Uint256.to_string whole +:+ "." +:+ trim_zeros fractional_string).

(** [map_err(|_| OverflowError { .. })] with the two operands printed. *)
Definition or_overflow {F} (op : OverflowOperation) (self other : Z) (r : F + Z) : M OverflowError S Z :=
  match r with
  | inr z => mret z
  | inl _ => x ← fmt self; y ← fmt other; throw (mkOverflowError op x y)
  end.

(** ** Rounding *)
Definition floor {E} (self : Z) : M E S Z :=
  q ← Uint256.div self DECIMAL_FRACTIONAL; Uint256.mul q DECIMAL_FRACTIONAL.

Definition checked_add (self other : Z) : M OverflowError S Z :=
  or_overflow OpAdd self other (Uint256.checked_add self other).
Definition checked_sub (self other : Z) : M OverflowError S Z :=
  or_overflow OpSub self other (Uint256.checked_sub self other).

Definition checked_ceil (self : Z) : M RoundUpOverflowError S Z :=
  f ← floor self;
  if f =? self then mret f else map_err (λ _, mkRoundUpOverflowError) (checked_add f one).

Definition ceil {E} (self : Z) : M E S Z :=
  r ← attempt (checked_ceil self);
  match r with inr value => mret value | inl _ => panic "attempt to ceil with overflow" end.

(** ** Products and powers *)
Definition product {E} (self other : Z) : M E S Z :=
  p ← Ratio256.full_mul (numerator self) (numerator other);
  Uint512.div p (Uint512.from_uint256 DECIMAL_FRACTIONAL).

Definition checked_mul (self other : Z) : M OverflowError S Z :=
  result_as_uint512 ← product self other;
  or_overflow OpMul self other (Uint512.try_into_uint256 result_as_uint512).

Definition mul {E} (self other : Z) : M E S Z :=
  result_as_uint512 ← product self other;
  match Uint512.try_into_uint256 result_as_uint512 with
  | inr result => mret result
  | inl _ => panic "attempt to multiply with overflow"
  end.

(** The loop of [checked_pow]; [n] is a [u32], so it is halved at most 32 times. *)
Fixpoint pow_loop (fuel : nat) (x y n : Z) : M OverflowError S Z :=
  if 1 <? n then
    match fuel with
    | O => out_of_fuel
    | Datatypes.S fuel =>
        if n mod 2 =? 0 then x ← checked_mul x x; pow_loop fuel x y (n / 2)
        else y ← checked_mul x y; x ← checked_mul x x; pow_loop fuel x y ((n - 1) / 2)
    end
  else mul x y.

Definition pow_inner (x n : Z) : M OverflowError S Z :=
  if n =? 0 then mret one else pow_loop 32 x one n.

Definition checked_pow (self exp : Z) : M OverflowError S Z :=
  r ← attempt (pow_inner self exp);
  match r with
  | inr z => mret z
  | inl _ => x ← fmt self; throw (mkOverflowError OpPow x (pretty exp))
  end.

Definition pow {E} (self exp : Z) : M E S Z :=
  r ← attempt (checked_pow self exp);
  match r with inr value => mret value | inl _ => panic "Multiplication overflow" end.

Definition checked_div (self other : Z) : M CheckedFromRatioError S Z :=
  checked_from_ratio (numerator self) (numerator other).

Definition checked_rem (self other : Z) : M DivideByZeroError S Z :=
  match Uint256.checked_rem self other with
  | inr z => mret z
  | inl _ => x ← fmt self; throw (mkDivideByZeroError x)
  end.

(** ** Square roots *)
Definition sqrt_with_precision {E} (self precision : Z) : M E S (option Z) :=
  inner_mul ← Uint256.pow (Uint256.from 100) precision;
  match Uint256.checked_mul self inner_mul with
  | inl _ => mret None
  | inr inner =>
      outer_mul ← Uint256.pow (Uint256.from 10) (DECIMAL_PLACES / 2 - precision);
      root ← isqrt U256 inner;
      z ← unwrap unwrap_err (ok (Uint256.checked_mul root outer_mul));
      mret (Some z)
  end.

(** [(0..=p).rev().find_map(..)]. *)
Fixpoint sqrt_find {E} (self : Z) (precision : nat) : M E S (option Z) :=
  r ← sqrt_with_precision self (Z.of_nat precision);
  match r, precision with
  | Some z, _ => mret (Some z)
  | None, O => mret None
  | None, Datatypes.S p => sqrt_find self p
  end.

Definition sqrt {E} (self : Z) : M E S Z :=
  r ← sqrt_find self (Z.to_nat (DECIMAL_PLACES / 2));
  unwrap "called `Option::unwrap()` on a `None` value" r.

(** ** Saturating operations *)
Definition saturating_add {E} (self other : Z) : M E S Z := or_bound MAX (checked_add self other).
Definition saturating_sub {E} (self other : Z) : M E S Z := or_bound zero (checked_sub self other).
Definition saturating_mul {E} (self other : Z) : M E S Z := or_bound MAX (checked_mul self other).
Definition saturating_pow {E} (self exp : Z) : M E S Z := or_bound MAX (checked_pow self exp).

(** [Fraction::inv]. *)
Definition inv {E} (self : Z) : M E S (option Z) :=
  if is_zero self then mret None
  else z ← Uint256.div DECIMAL_FRACTIONAL_SQUARED self; mret (Some z).

(** [From<Decimal> for Decimal256]. *)
Definition from_decimal {E} (input : Z) : M E S Z :=
  r ← attempt (from_atomics (Uint256.from (Decimal.atomics input)) (Decimal.decimal_places input));
  unwrap unwrap_err (ok r).

(** ** [FromStr] *)
Definition parse_fraction (atomics : Z) (fractional_part : string) : M StdError S Z :=
  fractional ← or_throw (StdGenericErr "Error parsing fractional") (Uint256.from_str fractional_part);
  let len := Z.of_nat (String.length fractional_part) mod U32 in
  exp ← (if len <=? DECIMAL_PLACES then mret (DECIMAL_PLACES - len)
         else throw (StdGenericErr ("Cannot parse more than " +:+ pretty DECIMAL_PLACES
                                    +:+ " fractional digits")));
  fractional_factor ← Uint256.pow (Uint256.from 10) exp;
  p ← unwrap unwrap_err (ok (Uint256.checked_mul fractional fractional_factor));
  or_throw (StdGenericErr "Value too big") (Uint256.checked_add atomics p).

Definition from_str (input : string) : M StdError S Z :=
  match split_dot input with
  | [] => panic "called `Option::unwrap()` on a `None` value"
  | whole_part :: parts =>
      whole ← or_throw (StdGenericErr "Error parsing whole") (Uint256.from_str whole_part);
      atomics ← or_throw (StdGenericErr "Value too big")
                  (Uint256.checked_mul whole DECIMAL_FRACTIONAL);
      atomics ← match parts with
                | [] => mret atomics
                | fractional_part :: _ => parse_fraction atomics fractional_part
                end;
      match parts with
      | _ :: _ :: _ => throw (StdGenericErr "Unexpected number of dots")
      | _ => mret atomics
      end
  end.

(** The visitor of [Deserialize]; [Serialize] writes [fmt]. *)
Definition visit_str (v : string) : M string S Z :=
  map_err (λ e, "Error parsing decimal '" +:+ v +:+ "': " +:+ StdError_to_string e) (from_str v).

(** ** Operators *)
Section operators.
Context {E : Type}.
Abbreviation P := (M E S Z).

Definition add (self other : Z) : P := Uint256.add self other.
Definition sub (self other : Z) : P := Uint256.sub self other.
Definition div (self other : Z) : P :=
  r ← attempt (checked_from_ratio (numerator self) (numerator other));
  match r with
  | inr ratio => mret ratio
  | inl FromRatioDivideByZero => panic "Division failed - denominator must not be zero"
  | inl FromRatioOverflow => panic "Division failed - multiplication overflow"
  end.
Definition rem (self rhs : Z) : P := Uint256.rem self rhs.
Definition abs_diff (self other : Z) : P :=
  if u_ltb (w := U256) self other then sub other self else sub self other.

(** [Mul<Decimal256> for Uint256] and [Div<Uint256> for Decimal256]. *)
Definition mul_uint (self rhs : Z) : P :=
  if Uint256.is_zero self || is_zero rhs then mret Uint256.zero
  else Ratio256.multiply_ratio self rhs DECIMAL_FRACTIONAL.
Definition div_uint (self rhs : Z) : P := Uint256.div self rhs.

Definition sum (l : list Z) : P := fold_ops add zero l.
End operators.
End decimal.

Section assigning.
Context `{UintCrate U256, UintCrate U512} {E : Type}.

Definition add_assign : Z → M E Z unit := assign add.
Definition sub_assign : Z → M E Z unit := assign sub.
Definition mul_assign : Z → M E Z unit := assign mul.
Definition div_assign : Z → M E Z unit := assign div.
Definition rem_assign : Z → M E Z unit := assign rem.
Definition div_uint_assign : Z → M E Z unit := assign div_uint.
End assigning.

(** ** The operations are those of fixed-point numbers at 256 bits *)
Lemma FX_FRACTIONAL_256 : DECIMAL_FRACTIONAL = FX.
Proof. by vm_compute. Qed.
Lemma FX_SQUARED_256 : DECIMAL_FRACTIONAL_SQUARED = FX * FX.
Proof. by vm_compute. Qed.

Section facts.
Context `{!UintCrate U256, !UintCrateSpec U256, !UintCrate U512, !UintCrateSpec U512} {S : Type}.
Implicit Types (s : S).

Lemma ok_or_overflow op x y o : ok (Uint256.or_overflow op x y o) = o.
Proof. by destruct o. Qed.

(** The operations of [Uint256] on numbers in range. *)
Lemma checked_mul_256 a b :
  in_width U256 a → in_width U256 b → ok (Uint256.checked_mul a b) = fits U256 (a * b).
Proof. intros Ha Hb. unfold Uint256.checked_mul. by rewrite ok_or_overflow, u_checked_mul_spec. Qed.
Lemma checked_add_256 a b :
  in_width U256 a → in_width U256 b → ok (Uint256.checked_add a b) = fits U256 (a + b).
Proof. intros Ha Hb. unfold Uint256.checked_add. by rewrite ok_or_overflow, u_checked_add_spec. Qed.
Lemma checked_pow_256 b n :
  in_width U128 b → in_width U32 n →
  ok (Uint256.checked_pow (Uint256.from b) n) = fits U256 (b ^ n).
Proof.
  intros Hb Hn. unfold Uint256.checked_pow, Uint256.from.
  rewrite ok_or_overflow, u_from_u128_spec by done.
  apply u_checked_pow_spec; [by apply (in_width_le U128)|done].
Qed.
Lemma small_pow_256 {E} b n s :
  in_width U128 b → in_width U32 n → b ^ n <= FX →
  (Uint256.pow (Uint256.from b) n : M E S _) s = (Ok (b ^ n), s).
Proof.
  intros Hb Hn Hle. unfold Uint256.pow, Uint256.from.
  rewrite u_from_u128_spec, u_pow_spec by (done || by apply (in_width_le U128)).
  rewrite fits_in; [done|]. split; [apply Z.pow_nonneg, Hb|]. unfold FX, U256 in *. lia.
Qed.
Lemma div_FX {E} x s :
  in_width U256 x → (Uint256.div x DECIMAL_FRACTIONAL : M E S _) s = (Ok (x / FX), s).
Proof.
  intros Hx. unfold Uint256.div. by rewrite FX_FRACTIONAL_256, u_checked_div_spec.
Qed.
Lemma mod_FX_width x : in_width U256 (x mod FX).
Proof.
  pose proof (Z.mod_pos_bound x FX ltac:(done)). unfold in_width, U256, FX in *. lia.
Qed.

Lemma fmt_256_spec {E} z s : in_width U256 z → (fmt z : M E S _) s = (Ok (fx_print z), s).
Proof.
  intros Hz. unfold fmt. rewrite (bind_Ok _ _ _ _ _ (div_FX z s Hz)).
  unfold Uint256.checked_rem, fx_print. rewrite FX_FRACTIONAL_256, u_checked_rem_spec by done.
  change (FX =? 0) with false. cbn [Uint256.or_divide_by_zero ok unwrap]. rewrite bind_ret_l.
  rewrite is_zero_spec by apply mod_FX_width. unfold Uint256.to_string.
  rewrite !u_to_string_spec; [by destruct (_ =? 0)|apply mod_FX_width|].
  by apply quotient_in_width.
Qed.

Lemma or_overflow_256_spec {F} op a b (r : F + Z) s :
  in_width U256 a → in_width U256 b →
  or_overflow op a b r s =
    match r with
    | inr z => (Ok z, s)
    | inl _ => (Err (mkOverflowError op (fx_print a) (fx_print b)), s)
    end.
Proof.
  intros Ha Hb. destruct r; [|done]. unfold or_overflow.
  by rewrite (bind_Ok _ _ _ _ _ (fmt_256_spec a s Ha)), (bind_Ok _ _ _ _ _ (fmt_256_spec b s Hb)).
Qed.

(** *** Products *)
Lemma product_256_spec {E} x y s :
  in_width U256 x → in_width U256 y →
  (product x y : M E S _) s = (Ok (x * y / FX), s) ∧ in_width U512 (x * y / FX).
Proof.
  intros Hx Hy. unfold product, numerator, Ratio256.full_mul, Uint512.checked_mul.
  assert (∀ z, in_width U256 z → in_width U512 z) as Hw by (intros z; by apply in_width_le).
  pose proof (product_in_width U256 x y Hx Hy) as Hp. change (U256 * U256) with U512 in Hp.
  rewrite !of_uint256_spec by done. rewrite u_checked_mul_spec by auto. rewrite fits_in by done.
  cbn [Uint256.or_overflow ok unwrap]. rewrite bind_ret_l. unfold Uint512.div.
  rewrite ?from_uint256_spec, FX_FRACTIONAL_256, u_checked_div_spec by done.
  split; [done|]. by apply quotient_in_width.
Qed.

Lemma try_into_fits z :
  in_width U512 z → ok (Uint512.try_into_uint256 z) = fits U256 z.
Proof.
  intros Hz. rewrite try_into_uint256_spec by done. unfold fits.
  rewrite (proj2 (Z.leb_le _ _) (proj1 Hz)). cbn. by destruct (z <? U256).
Qed.

Lemma checked_mul_256_spec x y s :
  in_width U256 x → in_width U256 y →
  checked_mul x y s =
    match fx_mul U256 x y with
    | Some z => (Ok z, s)
    | None => (Err (mkOverflowError OpMul (fx_print x) (fx_print y)), s)
    end.
Proof.
  intros Hx Hy. unfold checked_mul. destruct (product_256_spec (E := OverflowError) x y s Hx Hy) as [Hp Hw].
  rewrite (bind_Ok _ _ _ _ _ Hp), or_overflow_256_spec by done. unfold fx_mul.
  rewrite <-try_into_fits by done. by destruct (Uint512.try_into_uint256 _).
Qed.

Lemma mul_256_spec {E} x y s :
  in_width U256 x → in_width U256 y →
  (mul x y : M E S _) s =
    match fx_mul U256 x y with
    | Some z => (Ok z, s)
    | None => (Panic "attempt to multiply with overflow", s)
    end.
Proof.
  intros Hx Hy. unfold mul. destruct (product_256_spec (E := E) x y s Hx Hy) as [Hp Hw].
  rewrite (bind_Ok _ _ _ _ _ Hp). unfold fx_mul. rewrite <-try_into_fits by done.
  by destruct (Uint512.try_into_uint256 _).
Qed.

(** *** Powers *)
Lemma pow_loop_256_spec fuel n x y s :
  in_width U256 x → in_width U256 y → Z.pos n < 2 ^ Z.of_nat (Datatypes.S fuel) →
  agrees (pow_loop fuel x y (Z.pos n)) (fx_pow U256 x y n) s.
Proof.
  apply (squaring_agrees U256 checked_mul mul pow_loop).
  - by intros [].
  - intros a b t Ha Hb. rewrite checked_mul_256_spec by done. destruct (fx_mul U256 a b); eauto.
  - intros a b t. apply mul_256_spec.
Qed.

Lemma checked_pow_256_spec x n s :
  in_width U256 x → in_width U32 n →
  checked_pow x n s =
    reported (mkOverflowError OpPow (fx_print x) (pretty n)) (fx_checked_pow U256 x n) s.
Proof.
  intros Hx [Hn0 Hn]. unfold checked_pow, pow_inner, fx_checked_pow, reported, mbind, M_bind, attempt.
  assert (one = FX) as -> by apply FX_FRACTIONAL_256.
  destruct (Z.eqb_spec n 0) as [->|Hne]; [done|]. destruct n as [|n|]; [done| |lia].
  pose proof (pow_loop_256_spec 32 n x FX s Hx ltac:(done) ltac:(unfold U32 in Hn; cbn; lia)) as H.
  unfold agrees in H. cbn [Z.to_pos].
  destruct (fx_pow U256 x FX n s) as [[[z|]|e|p|] s'] eqn:Hp; [by rewrite H| |done|by rewrite H|done].
  destruct H as [e ->]. by rewrite fmt_256_spec.
Qed.

(** *** Square roots *)
Lemma sqrt_with_precision_256_spec {E} x p s :
  in_width U256 x → (p ≤ 9)%nat →
  (sqrt_with_precision x (Z.of_nat p) : M E S _) s = fx_sqrt_at U256 x (Z.of_nat p) s.
Proof.
  intros Hx Hp. unfold sqrt_with_precision, fx_sqrt_at. change (DECIMAL_PLACES / 2) with 9.
  assert (100 ^ Z.of_nat p <= FX) as H1 by (change FX with (100 ^ 9); apply Z.pow_le_mono_r; lia).
  assert (10 ^ (9 - Z.of_nat p) <= FX) as H2 by (change FX with (10 ^ 18); apply Z.pow_le_mono_r; lia).
  pose proof (Z.pow_nonneg 100 (Z.of_nat p) ltac:(lia)) as P1.
  pose proof (Z.pow_nonneg 10 (9 - Z.of_nat p) ltac:(lia)) as P2.
  assert (∀ z, 0 ≤ z ≤ FX → in_width U256 z) as Hw by (intros z; unfold in_width, FX, U256; lia).
  rewrite (bind_Ok _ _ _ _ _ (small_pow_256 100 (Z.of_nat p) s ltac:(done)
    ltac:(unfold in_width, U32; lia) H1)).
  pose proof (checked_mul_256 x (100 ^ Z.of_nat p) Hx ltac:(auto)) as Hm.
  destruct (Uint256.checked_mul x _) as [e|m]; cbn [ok] in Hm; [by rewrite <-Hm|].
  rewrite <-Hm. symmetry in Hm. apply fits_Some in Hm as [-> Hm].
  rewrite (bind_Ok _ _ _ _ _ (small_pow_256 10 (9 - Z.of_nat p) s ltac:(done)
    ltac:(unfold in_width, U32; lia) H2)).
  assert (16 ≤ U256) as H16 by done.
  rewrite (bind_Ok _ _ _ _ _ (isqrt_run s U256 _ H16 Hm)).
  rewrite (bind_Ok _ _ _ _ _ (isqrt_run s U256 _ H16 Hm)).
  set (m := x * _) in *. rewrite checked_mul_256; [done| |by auto].
  pose proof (Z.sqrt_nonneg m). pose proof (Z.sqrt_le_lin m ltac:(apply Hm)).
  unfold in_width in *. lia.
Qed.

Lemma fx_sqrt_at_state {E} w x p s r s' :
  in_width w x → 16 ≤ w → (fx_sqrt_at w x p : M E S _) s = (r, s') → s' = s.
Proof.
  intros Hx Hw. unfold fx_sqrt_at. destruct (fits w _) as [m|] eqn:Hm; [|by intros [= <- <-]].
  apply fits_Some in Hm as [-> Hm]. rewrite (bind_Ok _ _ _ _ _ (isqrt_run s w _ Hw Hm)).
  destruct (fits w (_ * _)); by intros [= <- <-].
Qed.

Lemma sqrt_find_256_spec {E} x p s :
  in_width U256 x → (p ≤ 9)%nat → (sqrt_find x p : M E S _) s = fx_sqrt_from U256 x p s.
Proof.
  intros Hx. induction p as [|p IH]; intros Hp; cbn [sqrt_find fx_sqrt_from]; unfold mbind, M_bind;
    rewrite sqrt_with_precision_256_spec by done;
    destruct (fx_sqrt_at U256 x _ s) as [[[z|]|e|msg|] s'] eqn:Hr; try done.
  apply fx_sqrt_at_state in Hr as ->; [|done..]. apply IH. lia.
Qed.

Lemma sqrt_256_spec {E} x s : in_width U256 x → (sqrt x : M E S _) s = fx_sqrt U256 x s.
Proof.
  intros Hx. unfold sqrt, fx_sqrt, mbind, M_bind. change (Z.to_nat (DECIMAL_PLACES / 2)) with 9%nat.
  by rewrite sqrt_find_256_spec by done.
Qed.

(** *** Ratios *)
Lemma checked_from_ratio_256_spec n d s :
  in_width U256 n → in_width U256 d →
  checked_from_ratio n d s =
    (if d =? 0 then Err FromRatioDivideByZero
     else if n * FX / d <? U256 then Ok (n * FX / d) else Err FromRatioOverflow, s).
Proof.
  intros Hn Hd. unfold checked_from_ratio. rewrite FX_FRACTIONAL_256.
  rewrite (bind_Ok _ _ _ _ _ (checked_256 n FX d s Hn ltac:(done) Hd)).
  unfold ratio. destruct (d =? 0); [done|]. by destruct (_ <? U256).
Qed.

(** *** Strings *)
Definition parse_256 (t : string) : option Z := ok (Uint256.from_str t).

Lemma parse_256_exact : exact_parser U256 parse_256.
Proof.
  intros t Ht Hd. unfold parse_256, Uint256.from_str. destruct t as [|c t]; [done|].
  pose proof (u_from_dec_str_spec (w := U256) _ Ht Hd) as H. unfold fits in H.
  rewrite (proj2 (Z.leb_le _ _) (proj1 (value_bound _ Hd))) in H. cbn [andb] in H. rewrite <-H.
  by destruct (u_from_dec_str _).
Qed.

Lemma parse_256_width t z : parse_256 t = Some z → in_width U256 z.
Proof.
  intros H. destruct (decide (t = EmptyString)) as [->|Ht]; [done|].
  destruct (digits t) eqn:Hd.
  - rewrite parse_256_exact in H by done. pose proof (value_bound t Hd).
    destruct (Z.ltb_spec (value t) U256); simplify_eq. unfold in_width. lia.
  - pose proof (u_from_dec_str_invalid (w := U256) t Hd) as Hi. revert H.
    unfold parse_256, Uint256.from_str. destruct t; [done|]. by destruct (u_from_dec_str _).
Qed.

Lemma parse_fraction_256_spec a t s :
  in_width U256 a →
  parse_fraction a t s = thrown (fx_fraction U256 parse_256 a [t]) s.
Proof.
  intros Ha. unfold parse_fraction, fx_fraction, thrown. rewrite bind_or_throw. fold (parse_256 t).
  destruct (parse_256 t) as [f|] eqn:Hf; [|done]. apply parse_256_width in Hf.
  set (len := Z.of_nat (String.length t) mod U32).
  assert (0 ≤ len) by (by apply Z.mod_pos_bound). change DECIMAL_PLACES with FX_PLACES.
  destruct (Z.leb_spec len FX_PLACES) as [Hl|Hl]; [|done]. rewrite bind_ret_l.
  assert (10 ^ (FX_PLACES - len) <= FX) as H2
    by (change FX with (10 ^ FX_PLACES); apply Z.pow_le_mono_r; lia).
  pose proof (Z.pow_nonneg 10 (FX_PLACES - len) ltac:(lia)) as P2.
  rewrite (bind_Ok _ _ _ _ _ (small_pow_256 10 (FX_PLACES - len) s ltac:(done)
    ltac:(unfold in_width, U32, FX_PLACES in *; lia) H2)).
  rewrite checked_mul_256 by (done || (unfold in_width, FX, U256 in *; lia)).
  destruct (fits U256 (f * _)) as [p|] eqn:Hp; [|done]. apply fits_Some in Hp as [-> Hp].
  cbn [unwrap]. rewrite !bind_ret_l. rewrite <-checked_add_256 by done.
  by destruct (Uint256.checked_add a _).
Qed.

Lemma from_str_256_spec input s : from_str input s = thrown (fx_parse U256 parse_256 input) s.
Proof.
  unfold from_str, fx_parse, thrown. destruct (split_dot input) as [|t parts]; [done|].
  rewrite bind_or_throw. fold (parse_256 t). destruct (parse_256 t) as [x|] eqn:Hx; [|done].
  apply parse_256_width in Hx. rewrite bind_or_throw, FX_FRACTIONAL_256, checked_mul_256 by done.
  destruct (fits U256 (x * FX)) as [a|] eqn:Ha; [|done]. apply fits_Some in Ha as [-> Ha].
  destruct parts as [|f rest]; [done|]. unfold mbind, M_bind.
  rewrite parse_fraction_256_spec by done. unfold thrown.
  change (fx_fraction U256 parse_256 (x * FX) (f :: rest))
    with (fx_fraction (E := unit) (S := S) U256 parse_256 (x * FX) [f]).
  destruct (fx_fraction U256 parse_256 (x * FX) [f] s) as [[[msg|z]|e|m|] s']; by destruct rest.
Qed.

(** *** Rounding *)
Lemma floor_256_spec {E} x s : in_width U256 x → (floor x : M E S _) s = (Ok (x / FX * FX), s).
Proof.
  intros Hx. unfold floor. rewrite (bind_Ok _ _ _ _ _ (div_FX x s Hx)).
  pose proof (quotient_in_width _ _ FX Hx ltac:(done) ltac:(done)) as Hq.
  destruct Hx as [Hx0 Hx]. pose proof (Z.mul_div_le x FX ltac:(done)).
  unfold Uint256.mul. rewrite FX_FRACTIONAL_256, u_checked_mul_spec by done.
  rewrite fits_in; [done|]. split; [apply Z.mul_nonneg_nonneg; [apply Hq|done]|lia].
Qed.

Lemma checked_ceil_256_spec x s :
  in_width U256 x →
  let c := (x + FX - 1) / FX * FX in
  checked_ceil x s = (if c <? U256 then Ok c else Err mkRoundUpOverflowError, s).
Proof.
  intros Hx c. unfold checked_ceil. rewrite (bind_Ok _ _ _ _ _ (floor_256_spec x s Hx)).
  pose proof (quotient_in_width _ _ FX Hx ltac:(done) ltac:(done)) as Hq.
  destruct Hx as [Hx0 Hx]. assert (0 < FX) as HF by done.
  pose proof (Z.div_mod x FX ltac:(lia)) as Hd. pose proof (Z.mod_pos_bound x FX HF) as Hm.
  destruct (Z.eqb_spec (x / FX * FX) x) as [He|He].
  - assert (c = x) as ->.
    { unfold c. replace ((x + FX - 1) / FX) with (x / FX); [done|].
      apply (Z.div_unique _ _ _ (FX - 1)); lia. }
    rewrite He. by destruct (Z.ltb_spec x U256); [|lia].
  - assert (c = x / FX * FX + FX) as ->.
    { unfold c. replace ((x + FX - 1) / FX) with (x / FX + 1); [ring|].
      apply (Z.div_unique _ _ _ (x mod FX - 1)); lia. }
    set (q := x / FX) in *. assert (in_width U256 (q * FX)) as Hqf by (unfold in_width in *; nia).
    clearbody q. unfold map_err, checked_add. change one with DECIMAL_FRACTIONAL.
    rewrite FX_FRACTIONAL_256, or_overflow_256_spec by done.
    pose proof (checked_add_256 (q * FX) FX Hqf ltac:(done)) as Ha. unfold fits in Ha.
    rewrite (proj2 (Z.leb_le 0 (q * FX + FX))) in Ha by (unfold in_width in *; lia).
    cbn [andb] in Ha. destruct (Uint256.checked_add _ _), (_ <? U256); by simplify_eq/=.
Qed.

Lemma from_atomics_256_spec a p s :
  in_width U256 a → in_width U32 p →
  from_atomics a p s =
    (if a * FX / 10 ^ p <? U256 then Ok (a * FX / 10 ^ p) else Err mkDecimal256RangeExceeded, s).
Proof.
  intros Ha [Hp0 Hp]. unfold from_atomics. change DECIMAL_PLACES with FX_PLACES.
  pose proof (Z.pow_pos_nonneg 10 p ltac:(lia) Hp0) as Hpp.
  destruct (Z.compare_spec p FX_PLACES) as [->|Hlt|Hgt].
  - change FX with (10 ^ FX_PLACES). rewrite Z.div_mul by done.
    by destruct (Z.ltb_spec a U256); [|unfold in_width in *; lia].
  - assert (10 ^ (FX_PLACES - p) <= FX) as Hle
      by (change FX with (10 ^ FX_PLACES); apply Z.pow_le_mono_r; lia).
    pose proof (Z.pow_pos_nonneg 10 (FX_PLACES - p) ltac:(lia) ltac:(lia)) as Hk.
    assert (FX = 10 ^ (FX_PLACES - p) * 10 ^ p) as HFX
      by (rewrite <-Z.pow_add_r by lia; unfold FX; f_equal; unfold FX_PLACES; lia).
    set (k := 10 ^ (FX_PLACES - p)) in *.
    assert (in_width U256 k) as Hkw by (unfold in_width, U256, FX in *; lia).
    rewrite checked_pow_256 by (done || (unfold in_width, U32, FX_PLACES in *; lia)). fold k.
    rewrite fits_in by done. cbn [unwrap]. rewrite bind_ret_l.
    rewrite HFX, Z.mul_assoc, Z.div_mul by lia.
    pose proof (checked_mul_256 a k Ha Hkw) as Hm. unfold fits in Hm.
    rewrite (proj2 (Z.leb_le 0 (a * k))) in Hm by (unfold in_width in *; nia). cbn [andb] in Hm.
    destruct (Uint256.checked_mul a k), (_ <? U256); by simplify_eq/=.
  - assert (10 ^ p = 10 ^ (p - FX_PLACES) * FX) as HFX
      by (change FX with (10 ^ FX_PLACES); rewrite <-Z.pow_add_r by (unfold FX_PLACES in *; lia); f_equal; lia).
    rewrite HFX, Z.div_mul_cancel_r; [|apply Z.pow_nonzero; unfold FX_PLACES in *; lia|done].
    pose proof (Z.pow_pos_nonneg 10 (p - FX_PLACES) ltac:(lia) ltac:(lia)) as Hk.
    pose proof (checked_pow_256 10 (p - FX_PLACES) ltac:(done)
      ltac:(unfold in_width, FX_PLACES, U32 in *; lia)) as Hc.
    set (k := 10 ^ (p - FX_PLACES)) in *.
    pose proof (quotient_in_width U256 a k Ha ltac:(lia) ltac:(lia)) as Hq.
    destruct (Z.ltb_spec (a / k) U256); [|unfold in_width in *; lia].
    destruct (Uint256.checked_pow _ _) as [e|f]; cbn [ok] in Hc; symmetry in Hc.
    + apply fits_None in Hc. rewrite (Z.div_small a k) by (unfold in_width in *; lia). done.
    + apply fits_Some in Hc as [-> Hc]. unfold Uint256.checked_div.
      rewrite u_checked_div_spec by done. by rewrite (proj2 (Z.eqb_neq k 0)) by lia.
Qed.

(** Every [Decimal] is a [Decimal256]. *)
Lemma from_decimal_spec {E} x s : in_width U128 x → (from_decimal x : M E S _) s = (Ok x, s).
Proof.
  intros Hx. unfold from_decimal, attempt, Uint256.from, Decimal.atomics, Decimal.decimal_places.
  assert (in_width U256 x) as Hw by (by apply (in_width_le U128)).
  unfold mbind, M_bind. rewrite u_from_u128_spec, from_atomics_256_spec by done.
  change (10 ^ Decimal.DECIMAL_PLACES) with FX. rewrite Z.div_mul by done.
  by destruct (Z.ltb_spec x U256); [|unfold in_width in *; lia].
Qed.
End facts.
