(* ===== verification/Decimals.v ===== *)
(** * Theorems on the decimal types

    Both types at once: what their documentation promises, from the specification in
    [Fixed] and the agreement lemmas of [Decimal] and [Decimal256]. *)

From S2P Require Import Prelude.
From S2P Require Import Bytes.
From S2P Require Import Digits.
From S2P Require Import StdError.
From S2P Require Import Uint128.
From S2P Require Import UintCrate.
From S2P Require Import Uint256.
From S2P Require Import Uint512.
From S2P Require Import Ratio.
From S2P Require Import Fixed.
From S2P Require Import Decimal.
From S2P Require Import Decimal256.

Open Scope Z_scope.

Section decimals.
Context `{!UintCrate U256, !UintCrateSpec U256, !UintCrate U512, !UintCrateSpec U512} {S : Type}.
Implicit Types (s : S).

(** ** Strings *)
Lemma parse_uint_exact w : 0 < w → exact_parser w (parse_uint w).
Proof. intros Hw t Ht Hd. by apply parse_uint_value. Qed.

(** C33: Decimals survive their decimal strings: what [Display] prints is read back by
    [FromStr] as the same number, for every value of both types, without a panic. *)
Theorem decimal_string_roundtrip x s :
  (in_width U128 x →
   (t ← Decimal.fmt x; Decimal.from_str t) s = (Ok x, s)) ∧
  (in_width U256 x →
   (t ← Decimal256.fmt x; Decimal256.from_str t) s = (Ok x, s)).
Proof.
  split; intros Hx.
  - rewrite (bind_Ok _ _ _ _ _ (Decimal.fmt_spec x s)), Decimal.from_str_spec. unfold thrown.
    by rewrite (fx_parse_print U128 _ x s (parse_uint_exact U128 eq_refl) ltac:(by vm_compute) Hx).
  - rewrite (bind_Ok _ _ _ _ _ (Decimal256.fmt_256_spec x s Hx)), Decimal256.from_str_256_spec. unfold thrown.
    by rewrite (fx_parse_print U256 _ x s parse_256_exact ltac:(by vm_compute) Hx).
Qed.

(** ** Arithmetic *)

(** What products, quotients and roundings of [x] and [y] are at width [w]: the exact
    values rounded towards zero, or the error the method returns. *)
Record exact_at (w x y : Z) (checked_mul : M OverflowError S Z) (checked_div : M CheckedFromRatioError S Z)
    (floor : M unit S Z) (checked_ceil : M RoundUpOverflowError S Z) (s : S) : Prop := {
  exact_mul : checked_mul s =
    (if x * y / FX <? w then Ok (x * y / FX)
     else Err (mkOverflowError OpMul (fx_print x) (fx_print y)), s);
  exact_div : checked_div s =
    (if y =? 0 then Err FromRatioDivideByZero
     else if x * FX / y <? w then Ok (x * FX / y) else Err FromRatioOverflow, s);
  exact_floor : floor s = (Ok (x - x mod FX), s);
  exact_ceil : checked_ceil s =
    (if (x + FX - 1) / FX * FX <? w then Ok ((x + FX - 1) / FX * FX)
     else Err mkRoundUpOverflowError, s)
}.

Lemma fits_ltb w z : 0 ≤ z → fits w z = if z <? w then Some z else None.
Proof. intros Hz. unfold fits. by rewrite (proj2 (Z.leb_le _ _) Hz). Qed.

Lemma floor_mod x : x / FX * FX = x - x mod FX.
Proof. rewrite Z.mod_eq by done. ring. Qed.

(** C34: Products and quotients of decimals are the exact values rounded towards zero,
    [floor] and [ceil] the neighbouring whole numbers. An operation fails only when that
    value does not fit or a divisor is zero: [checked_mul] with [OverflowError] on the two
    operands, [checked_div] with [DivideByZero] or [Overflow] of [CheckedFromRatioError],
    [checked_ceil] with [RoundUpOverflowError], the error of its signature (its doc comments
    name [OverflowError]). *)
Theorem decimal_arithmetic_exact x y s :
  (in_width U128 x → in_width U128 y →
   exact_at U128 x y (Decimal.checked_mul x y) (Decimal.checked_div x y) (Decimal.floor x)
     (Decimal.checked_ceil x) s) ∧
  (in_width U256 x → in_width U256 y →
   exact_at U256 x y (Decimal256.checked_mul x y) (Decimal256.checked_div x y)
     (Decimal256.floor x) (Decimal256.checked_ceil x) s).
Proof.
  assert (0 < FX) as HF by done. split; intros Hx Hy.
  - assert (0 ≤ x * y / FX) as H0 by (apply Z.div_pos; [apply Z.mul_nonneg_nonneg; [apply Hx|apply Hy]|done]).
    split.
    + rewrite Decimal.checked_mul_spec by done. unfold fx_mul. rewrite fits_ltb by done.
      by destruct (_ <? U128).
    + by apply Decimal.checked_from_ratio_spec.
    + by rewrite Decimal.floor_spec, floor_mod by done.
    + by apply Decimal.checked_ceil_spec.
  - assert (0 ≤ x * y / FX) as H0 by (apply Z.div_pos; [apply Z.mul_nonneg_nonneg; [apply Hx|apply Hy]|done]).
    split.
    + rewrite Decimal256.checked_mul_256_spec by done. unfold fx_mul. rewrite fits_ltb by done.
      by destruct (_ <? U256).
    + by apply Decimal256.checked_from_ratio_256_spec.
    + by rewrite Decimal256.floor_256_spec, floor_mod by done.
    + by apply Decimal256.checked_ceil_256_spec.
Qed.

(** [from_atomics] is exact at every number of places: [a / 10^p] rounded down to 18
    places, or the range error when that does not fit; it never panics, even for places
    whose power of ten is out of range. *)
Theorem from_atomics_exact a p s :
  in_width U32 p →
  (in_width U128 a →
   Decimal.from_atomics a p s =
     (if a * FX / 10 ^ p <? U128 then Ok (a * FX / 10 ^ p) else Err mkDecimalRangeExceeded, s)) ∧
  (in_width U256 a →
   Decimal256.from_atomics a p s =
     (if a * FX / 10 ^ p <? U256 then Ok (a * FX / 10 ^ p) else Err mkDecimal256RangeExceeded, s)).
Proof.
  intros Hp. split; intros Ha.
  - by apply Decimal.from_atomics_spec.
  - by apply Decimal256.from_atomics_256_spec.
Qed.

(** ** Square roots *)

(** [m] returns the root of [x] rounded down to the best precision [i] of 0 to 9 for
    which [x * 100^i] does not overflow: in steps of [10^(9 - i)] atomic units. *)
Definition root_at {E} (w x : Z) (m : M E S Z) (s : S) : Prop :=
  ∃ r i, m s = (Ok r, s) ∧ in_width w r ∧ 0 ≤ i ≤ 9 ∧
    r * r ≤ x * FX < (r + 10 ^ (9 - i)) * (r + 10 ^ (9 - i)) ∧
    (∀ j, i < j ≤ 9 → w ≤ x * 100 ^ j).

Lemma fx_sqrt_root {E} w x (m : M E S Z) s :
  FX ≤ w → in_width w x → m s = fx_sqrt w x s → root_at w x m s.
Proof.
  intros Hw Hx Hm. destruct (fx_sqrt_from_spec (E := E) w x 9 s Hw Hx ltac:(lia)) as (r & i & H1 & H2 & H3 & H4 & H5).
  exists r, (Z.of_nat i). split; [|split; [done|split; [lia|split; [exact H4|]]]].
  - rewrite Hm. unfold fx_sqrt. by rewrite (bind_Ok _ _ _ _ _ H1).
  - intros j Hj. replace j with (Z.of_nat (Z.to_nat j)) by lia. apply H5. lia.
Qed.

(** [sqrt] never panics, as its comment promises, and returns the root rounded
    down: exact to the last of the 18 places when the number is below [w / 10^18], and
    to the best precision that does not overflow otherwise. *)
Theorem decimal_sqrt_correct {E} x s :
  (in_width U128 x → root_at U128 x (Decimal.sqrt x : M E S Z) s) ∧
  (in_width U256 x → root_at U256 x (Decimal256.sqrt x : M E S Z) s).
Proof.
  split; intros Hx; apply fx_sqrt_root.
  - by vm_compute.
  - exact Hx.
  - apply Decimal.sqrt_spec.
  - by vm_compute.
  - exact Hx.
  - by apply Decimal256.sqrt_256_spec.
Qed.

(** ** Powers *)
Lemma fx_checked_pow_fits {F} w x n (e : F) s :
  0 ≤ x → FX < w → 0 ≤ n → x ^ n * FX < w * FX ^ n →
  ∃ v, reported e (fx_checked_pow w x n) s = (Ok v, s) ∧ 0 ≤ v ∧ v * FX ^ n ≤ FX * x ^ n.
Proof.
  intros Hx Hw Hn Hfit. unfold reported, fx_checked_pow. destruct n as [|n|]; [| |lia].
  - exists FX. split; [done|]. apply (at_most_pow_0 x).
  - cbn [Z.eqb Z.to_pos].
    destruct (fx_pow_fits (E := unit) w x (Z.pos n) Hx Hw Hfit n x FX 1 0 s) as (v & H1 & H2); try lia.
    + by apply at_most_pow_1.
    + apply at_most_pow_0.
    + exists v. rewrite H1. by split.
Qed.

(** [checked_pow] has no false overflow: when the exact power is in the range of the
    type it is returned, rounded down, for every exponent; no intermediate square of the
    algorithm overflows. *)
Theorem decimal_pow_no_false_overflow x n s :
  in_width U32 n →
  (in_width U128 x → x ^ n * FX < U128 * FX ^ n →
   ∃ v, Decimal.checked_pow x n s = (Ok v, s) ∧ 0 ≤ v ∧ v * FX ^ n ≤ FX * x ^ n) ∧
  (in_width U256 x → x ^ n * FX < U256 * FX ^ n →
   ∃ v, Decimal256.checked_pow x n s = (Ok v, s) ∧ 0 ≤ v ∧ v * FX ^ n ≤ FX * x ^ n).
Proof.
  intros Hn. split; intros Hx Hfit.
  - rewrite Decimal.checked_pow_spec by done.
    apply fx_checked_pow_fits; [apply Hx|done|apply Hn|done].
  - rewrite Decimal256.checked_pow_256_spec by done.
    apply fx_checked_pow_fits; [apply Hx|done|apply Hn|done].
Qed.

Lemma reported_panic {F A} (e : F) (spec : M unit S (option A)) s p :
  spec s = (Panic p, s) → reported e spec s = (Panic p, s).
Proof. unfold reported. by intros ->. Qed.

(** [checked_pow] is documented to return an error on overflow, but the last product
    is the panicking operator: whenever the square of [x] fits and the cube does not,
    [x.checked_pow(3)] panics instead of returning the error. *)
Theorem checked_pow_panics x y s :
  (in_width U128 x → fx_mul U128 x x = Some y → fx_mul U128 y x = None →
   Decimal.checked_pow x 3 s = (Panic "attempt to multiply with overflow", s)) ∧
  (in_width U256 x → fx_mul U256 x x = Some y → fx_mul U256 y x = None →
   Decimal256.checked_pow x 3 s = (Panic "attempt to multiply with overflow", s)).
Proof.
  split; intros Hx H1 H2.
  - rewrite Decimal.checked_pow_spec by done. apply reported_panic. by apply (fx_pow_3 _ _ _ y).
  - rewrite Decimal256.checked_pow_256_spec by done. apply reported_panic. by apply (fx_pow_3 _ _ _ y).
Qed.
End decimals.

(** ** Bytes of the large integers *)

(** Large integers survive their bytes, in both byte orders and both ways, and the
    512-bit numbers that convert to 256 bits are exactly those that came from there. *)
Theorem uint_bytes_roundtrip `{!UintCrate U512} z b :
  (in_width U256 z →
   Uint256.from_be_bytes (Uint256.to_be_bytes z) = z ∧
   Uint256.from_le_bytes (Uint256.to_le_bytes z) = z ∧
   Uint512.try_into_uint256 (Uint512.of_uint256 z) = inr z) ∧
  (in_width U512 z →
   Uint512.from_be_bytes (Uint512.to_be_bytes z) = z ∧
   Uint512.from_le_bytes (Uint512.to_le_bytes z) = z ∧
   (U256 ≤ z → ∃ e, Uint512.try_into_uint256 z = inl e)) ∧
  (length b = 32%nat → Uint256.to_be_bytes (Uint256.from_be_bytes b) = b) ∧
  (length b = 64%nat → Uint512.to_be_bytes (Uint512.from_be_bytes b) = b).
Proof.
  split_and!; intros Hz.
  - rewrite Uint256.to_be_bytes_value, Uint256.to_le_bytes_value, of_uint256_spec by done.
    rewrite Uint256.from_be_bytes_value by apply length_be_bytes.
    rewrite Uint256.from_le_bytes_value by apply length_le_bytes.
    rewrite be_value_be_bytes, le_value_le_bytes, Z.mod_small by done.
    rewrite try_into_uint256_spec by (by apply (in_width_le U256)).
    by destruct (Z.ltb_spec z U256); [|unfold in_width in *; lia].
  - rewrite Uint512.to_be_bytes_512, Uint512.to_le_bytes_512.
    rewrite Uint512.from_be_bytes_512 by apply length_be_bytes.
    rewrite Uint512.from_le_bytes_512 by apply length_le_bytes.
    rewrite be_value_be_bytes, le_value_le_bytes, Z.mod_small by done. do 2 (split; [done|]).
    intros Hge. rewrite try_into_uint256_spec by done. destruct (Z.ltb_spec z U256); [lia|eauto].
  - rewrite Uint256.from_be_bytes_value, Uint256.to_be_bytes_value, <-Hz by done.
    apply be_bytes_be_value.
  - rewrite Uint512.from_be_bytes_512, Uint512.to_be_bytes_512, <-Hz by done.
    apply be_bytes_be_value.
Qed.
