(* ===== verification/Namespaces.v ===== *)
(** * The storage of a contract, as the contract sees it ([cosmwasm/packages/std/src/storage.rs],
      [traits.rs])

    The trait [Storage] as a class of operations on a state, what its documentation
    promises as a class of laws ([StorageSpec]), and [MemoryStorage], which keeps them.
    A range is collected into the list of its records; an iterator that panics on the way
    is a panic of the range.

    The second part has the namespaces of [cosmwasm-storage]. *)

From S2P Require Import Prelude.
From S2P Require Import Bytes.
From S2P Require Import CwStd.
From S2P Require Import Storage.

Open Scope Z_scope.

(** ** [trait Storage] *)
Class StorageTrait (St : Type) := {
  t_get : bytes → St → option bytes;
  t_range : ∀ {E}, option bytes → option bytes → Order → M E St (list StoreRecord);
  t_set : ∀ {E}, bytes → bytes → M E St unit;
  t_remove : ∀ {E}, bytes → M E St unit
}.

(** [l] holds the records of the range, in order. *)
Definition lists (read : bytes → option bytes) (start stop : option bytes) (o : Order)
    (l : list StoreRecord) : Prop :=
  StronglySorted (order_rel o) l ∧
  ∀ k v, (k, v) ∈ l ↔ read k = Some v ∧ in_range start stop k = true.

(** The contract of the trait: a storage is a map from keys to values, of which [t_get]
    is the abstraction. Values must not be empty. [t_ok] is the implementation's own
    invariant. *)
Class StorageSpec (St : Type) `{StorageTrait St} := {
  t_ok : St → Prop;
  t_set_spec {E} k v s : t_ok s → v ≠ [] →
    ∃ s', (t_set k v : M E St unit) s = (Ok tt, s') ∧ t_ok s' ∧
      ∀ k', t_get k' s' = if decide (k' = k) then Some v else t_get k' s;
  t_remove_spec {E} k s : t_ok s →
    ∃ s', (t_remove k : M E St unit) s = (Ok tt, s') ∧ t_ok s' ∧
      ∀ k', t_get k' s' = if decide (k' = k) then None else t_get k' s;
  t_range_spec {E} start stop o s : t_ok s →
    ∃ l, (t_range start stop o : M E St _) s = (Ok l, s) ∧
      lists (λ k, t_get k s) start stop o l
}.

(** ** [MemoryStorage] *)
Record MemoryStorage := mkMemoryStorage { data : gmap bytes bytes }.

Definition MemoryStorage_new : MemoryStorage := mkMemoryStorage ∅.

Definition empty_value : string := "TL;DR: Value must not be empty in Storage::set but in most cases you can use Storage::remove instead. Long story: Getting empty values from storage is not well supported at the moment. Some of our internal interfaces cannot differentiate between a non-existent key and an empty value. Right now, you cannot rely on the behaviour of empty values. To protect you from trouble later on, we stop here. Sorry for the inconvenience! We highly welcome you to contribute to CosmWasm, making this more solid one way or the other.".

Definition memory_get (key : bytes) (self : MemoryStorage) : option bytes := data self !! key.

Definition memory_set {E} (key value : bytes) : M E MemoryStorage unit :=
  match value with
  | [] => panic empty_value
  | _ => modify (λ self, mkMemoryStorage (<[key := value]> (data self)))
  end.

Definition memory_remove {E} (key : bytes) : M E MemoryStorage unit :=
  modify (λ self, mkMemoryStorage (delete key (data self))).

(** [BTreeMap::range] panics on a start above the end, so that case returns first. *)
Definition memory_range {E} (start stop : option bytes) (order : Order)
    : M E MemoryStorage (list StoreRecord) :=
  self ← get;
  match start, stop with
  | Some s, Some e =>
      if bytes_ltb e s then mret []
      else mret (match order with
                 | Ascending => range (data self) start stop
                 | Descending => reverse (range (data self) start stop)
                 end)
  | _, _ =>
      mret (match order with
            | Ascending => range (data self) start stop
            | Descending => reverse (range (data self) start stop)
            end)
  end.

#[export] Instance memory_trait : StorageTrait MemoryStorage := {|
  t_get := memory_get;
  t_range := @memory_range;
  t_set := @memory_set;
  t_remove := @memory_remove
|}.

(** [Order] crosses the boundary to the host as an [i32]. *)
Definition order_to_i32 (o : Order) : Z := match o with Ascending => 1 | Descending => 2 end.
Definition order_try_from (value : Z) : string + Order :=
  if value =? 1 then inr Ascending
  else if value =? 2 then inr Descending
  else inl "Order must be 1 or 2".

(** ** Facts *)
Lemma memory_range_run {E} start stop o s :
  (memory_range start stop o : M E _ _) s = (Ok (scan_records (data s) start stop o), s).
Proof.
  unfold memory_range, scan_records. rewrite bind_get.
  destruct start as [a|], stop as [b|]; try done.
  destruct (bytes_ltb b a) eqn:Hab; [|done]. rewrite (range_empty _ _ _ Hab). by destruct o.
Qed.

#[export] Program Instance memory_spec : StorageSpec MemoryStorage := {| t_ok := λ _, True |}.
Next Obligation.
  intros E k v s _ Hv. destruct v as [|b v]; [done|]. eexists. do 2 (split; [done|]).
  intros k'. cbn. unfold memory_get; cbn. case_decide as Hk; [subst; apply lookup_insert_eq|].
  by apply lookup_insert_ne.
Qed.
Next Obligation.
  intros E k s _. eexists. do 2 (split; [done|]).
  intros k'. cbn. unfold memory_get; cbn. case_decide as Hk; [subst; apply lookup_delete_eq|].
  by apply lookup_delete_ne.
Qed.
Next Obligation.
  intros E start stop o s _. eexists. split; [apply memory_range_run|].
  split; [apply scan_records_sorted|]. intros k v. apply elem_of_scan_records.
Qed.

Lemma order_i32_roundtrip o : order_try_from (order_to_i32 o) = inr o.
Proof. by destruct o. Qed.

Lemma memory_ok (st : MemoryStorage) : t_ok st.
Proof. exact I. Qed.

(** * Namespaces in a storage ([cosmwasm/packages/storage/src/length_prefixed.rs],
      [namespace_helpers.rs])

    A namespace owns the keys that start with its prefix: its length in two bytes and
    its name. The helpers read, write and iterate over such keys of any [Storage]. *)

(** ** [length_prefixed.rs] *)
Section length_prefixed.
Context {E S : Type}.

Definition encode_length (namespace : bytes) : M E S bytes :=
  if 0xFFFF <? Z.of_nat (length namespace)
  then panic "only supports namespaces up to length 0xFFFF"
  else mret (slice 2 2 (be_bytes 4 (Z.of_nat (length namespace)))).

Definition to_length_prefixed (namespace : bytes) : M E S bytes :=
  l ← encode_length namespace; mret (l ++ namespace).

Fixpoint to_length_prefixed_nested (namespaces : list bytes) : M E S bytes :=
  match namespaces with
  | [] => mret []
  | namespace :: rest =>
      l ← encode_length namespace;
      out ← to_length_prefixed_nested rest;
      mret (l ++ namespace ++ out)
  end.
End length_prefixed.

(** ** [namespace_helpers.rs] *)
Definition concat (namespace key : bytes) : bytes := namespace ++ key.

(** The loop from the last byte backwards, on the reversed copy. *)
Fixpoint bump (l : bytes) : bytes :=
  match l with
  | [] => []
  | b :: l => if Z_of_byte b =? 255 then byte_of_Z 0 :: bump l else byte_of_Z (Z_of_byte b + 1) :: l
  end.
Definition namespace_upper_bound (input : bytes) : bytes := rev (bump (rev input)).

(** [key[namespace.len()..].to_vec()]. *)
Definition trim {E S} (namespace key : bytes) : M E S bytes :=
  if (length key <? length namespace)%nat
  then panic ("range start index " +:+ pretty (Z.of_nat (length namespace))
              +:+ " out of range for slice of length " +:+ pretty (Z.of_nat (length key)))
  else mret (drop (length namespace) key).

Fixpoint trim_all {E S} (namespace : bytes) (l : list StoreRecord) : M E S (list StoreRecord) :=
  match l with
  | [] => mret []
  | (k, v) :: l => k ← trim namespace k; l ← trim_all namespace l; mret ((k, v) :: l)
  end.

Section helpers.
Context `{StorageTrait St}.

Definition get_with_prefix (namespace key : bytes) (storage : St) : option bytes :=
  t_get (concat namespace key) storage.

Definition set_with_prefix {E} (namespace key value : bytes) : M E St unit :=
  t_set (concat namespace key) value.

Definition remove_with_prefix {E} (namespace key : bytes) : M E St unit :=
  t_remove (concat namespace key).

Definition range_with_prefix {E} (namespace : bytes) (start stop : option bytes) (order : Order)
    : M E St (list StoreRecord) :=
  let start := match start with Some s => concat namespace s | None => namespace end in
  let stop := match stop with
              | Some e => concat namespace e
              | None => namespace_upper_bound namespace
              end in
  base ← t_range (Some start) (Some stop) order;
  trim_all namespace base.
End helpers.

(** ** Prefixes *)

(** The prefix of a namespace that is not too long. *)
Definition lp (ns : bytes) : bytes := be_bytes 2 (Z.of_nat (length ns)) ++ ns.
Arguments lp : simpl never.
Definition short (ns : bytes) : Prop := Z.of_nat (length ns) ≤ 0xFFFF.

Lemma encode_length_short {E S} ns (s : S) :
  short ns → (encode_length ns : M E S _) s = (Ok (be_bytes 2 (Z.of_nat (length ns))), s).
Proof.
  unfold short, encode_length. intros Hs. destruct (Z.ltb_spec 0xFFFF (Z.of_nat (length ns))); [lia|].
  unfold slice. rewrite (be_bytes_app 2 2), drop_app_length' by (by rewrite length_be_bytes).
  by rewrite take_ge by (rewrite length_be_bytes; lia).
Qed.

Lemma to_length_prefixed_short {E S} ns (s : S) :
  short ns → (to_length_prefixed ns : M E S _) s = (Ok (lp ns), s).
Proof.
  intros Hs. unfold to_length_prefixed. by rewrite (bind_Ok _ _ _ _ _ (encode_length_short ns s Hs)).
Qed.

Lemma length_lp ns : length (lp ns) = (2 + length ns)%nat.
Proof. unfold lp. by rewrite length_app, length_be_bytes. Qed.

Lemma lp_head_inj a b x y :
  short a → short b →
  be_bytes 2 (Z.of_nat (length a)) ++ x = be_bytes 2 (Z.of_nat (length b)) ++ y →
  length a = length b ∧ x = y.
Proof.
  unfold short. intros Ha Hb Heq. apply app_inj_1 in Heq as [Hl ->]; [|by rewrite !length_be_bytes].
  split; [|done]. apply (f_equal be_value) in Hl.
  rewrite !be_value_be_bytes in Hl by (cbn; lia). lia.
Qed.

(** Keys of different namespaces differ, and the key within one is determined. *)
Lemma lp_inj a b k l : short a → short b → lp a ++ k = lp b ++ l → a = b ∧ k = l.
Proof.
  intros Ha Hb. unfold lp. rewrite <-!app_assoc. intros Heq.
  apply lp_head_inj in Heq as [Hl Heq]; [|done..]. by apply app_inj_1.
Qed.

(** Two bytes compare as the number they make. *)
Lemma be_bytes_2 z : be_bytes 2 z = [byte_of_Z (z / 256); byte_of_Z z].
Proof. done. Qed.

(** ** The order of keys *)
Lemma bytes_leb_cons x y a b :
  bytes_leb (x :: a) (y :: b) =
    if Z_of_byte x <? Z_of_byte y then true
    else if Z_of_byte y <? Z_of_byte x then false else bytes_leb a b.
Proof.
  assert (∀ a b, (a <? b)%N = (Z.of_N a <? Z.of_N b)) as Hltb.
  { intros n m. apply eq_true_iff_eq. rewrite N.ltb_lt, Z.ltb_lt. lia. }
  cbn [bytes_leb]. by rewrite !Hltb.
Qed.

Lemma Z_of_byte_inj x y : Z_of_byte x = Z_of_byte y → x = y.
Proof. intros H. by rewrite <-(byte_of_Z_of_byte x), H, byte_of_Z_of_byte. Qed.

Lemma Z_of_byte_small z : 0 ≤ z < 256 → Z_of_byte (byte_of_Z z) = z.
Proof. intros Hz. by rewrite Z_of_byte_of_Z, Z.mod_small. Qed.

Lemma bytes_leb_app p a b : bytes_leb (p ++ a) (p ++ b) = bytes_leb a b.
Proof.
  induction p as [|x p IH]; [done|]. cbn [app]. rewrite bytes_leb_cons.
  by rewrite Z.ltb_irrefl.
Qed.

Lemma bytes_ltb_app p a b : bytes_ltb (p ++ a) (p ++ b) = bytes_ltb a b.
Proof. unfold bytes_ltb. by rewrite bytes_leb_app. Qed.

Lemma bytes_ltb_cons x y a b :
  bytes_ltb (x :: a) (y :: b) = true ↔
  Z_of_byte x < Z_of_byte y ∨ Z_of_byte x = Z_of_byte y ∧ bytes_ltb a b = true.
Proof.
  unfold bytes_ltb. rewrite bytes_leb_cons.
  destruct (Z.ltb_spec (Z_of_byte y) (Z_of_byte x)); cbn; [naive_solver lia|].
  destruct (Z.ltb_spec (Z_of_byte x) (Z_of_byte y)); cbn; naive_solver lia.
Qed.

Lemma bytes_leb_cons_true x y a b :
  bytes_leb (x :: a) (y :: b) = true ↔
  Z_of_byte x < Z_of_byte y ∨ Z_of_byte x = Z_of_byte y ∧ bytes_leb a b = true.
Proof.
  rewrite bytes_leb_cons.
  destruct (Z.ltb_spec (Z_of_byte x) (Z_of_byte y)); [naive_solver lia|].
  destruct (Z.ltb_spec (Z_of_byte y) (Z_of_byte x)); naive_solver lia.
Qed.

(** A key between two keys with a common prefix has the prefix. *)
Lemma between_prefix p a b k :
  bytes_leb (p ++ a) k = true → bytes_ltb k (p ++ b) = true → p `prefix_of` k.
Proof.
  revert k. induction p as [|x p IH]; intros k Ha Hb; [by exists k|].
  destruct k as [|y k]; [done|]. cbn [app] in Ha, Hb.
  apply bytes_leb_cons_true in Ha. apply bytes_ltb_cons in Hb.
  assert (Z_of_byte x = Z_of_byte y) as Hxy by lia.
  rewrite (Z_of_byte_inj _ _ Hxy). apply prefix_cons, IH; [naive_solver lia..].
Qed.

(** ** The upper bound *)
Definition all_255 (l : bytes) : bool := forallb (λ b, Z_of_byte b =? 255) l.

Lemma bump_snoc l x :
  bump (l ++ [x]) = if all_255 l then replicate (length l) (byte_of_Z 0) ++ bump [x] else bump l ++ [x].
Proof.
  induction l as [|b l IH]; [done|]. cbn [app bump all_255 forallb length replicate].
  destruct (Z_of_byte b =? 255); cbn [andb app]; [|done]. rewrite IH. fold (all_255 l).
  by destruct (all_255 l).
Qed.

Lemma all_255_rev l : all_255 (rev l) = all_255 l.
Proof.
  unfold all_255. apply eq_true_iff_eq. rewrite !forallb_forall.
  split; intros H x Hx; apply H; [by apply in_rev in Hx|by apply in_rev].
Qed.

Lemma rev_replicate {A} n (x : A) : rev (replicate n x) = replicate n x.
Proof.
  induction n as [|n IH]; [done|]. cbn [replicate rev]. rewrite IH.
  clear. induction n as [|n IH]; [done|]. cbn. by rewrite IH.
Qed.

Lemma upper_bound_cons x p :
  namespace_upper_bound (x :: p) =
    if all_255 p then bump [x] ++ replicate (length p) (byte_of_Z 0)
    else x :: namespace_upper_bound p.
Proof.
  unfold namespace_upper_bound. cbn [rev]. rewrite bump_snoc, all_255_rev, length_rev.
  destruct (all_255 p).
  - rewrite rev_app_distr, rev_replicate. f_equal. cbn [bump]. by destruct (_ =? 255).
  - by rewrite rev_app_distr.
Qed.

(** Nothing is above 255, and nothing below zero but a shorter key. *)
Lemma above_255 p k : all_255 p = true → bytes_leb p k = true → p `prefix_of` k.
Proof.
  revert k. induction p as [|x p IH]; intros k; cbn [all_255 forallb]; [by exists k|].
  intros [Hx Hp]%andb_true_iff Hle. apply Z.eqb_eq in Hx.
  destruct k as [|y k]; [done|]. apply bytes_leb_cons_true in Hle. pose proof (Z_of_byte_bound y).
  assert (Z_of_byte x = Z_of_byte y) as Hxy by lia. rewrite (Z_of_byte_inj _ _ Hxy).
  apply prefix_cons, IH; [done|]. naive_solver lia.
Qed.

Lemma below_zeros n k : bytes_ltb k (replicate n (byte_of_Z 0)) = true → (length k < n)%nat.
Proof.
  revert k. induction n as [|n IH]; intros k Hk; [by destruct k|].
  destruct k as [|y k]; [cbn; lia|]. cbn [replicate] in Hk. apply bytes_ltb_cons in Hk.
  pose proof (Z_of_byte_bound y). rewrite Z_of_byte_small in Hk by lia.
  destruct Hk as [Hk|[_ Hk]]; [lia|]. apply IH in Hk. cbn. lia.
Qed.

(** A key from the prefix up to its upper bound has the prefix, or is shorter. *)
Lemma below_upper_bound p k :
  all_255 p = false → bytes_leb p k = true → bytes_ltb k (namespace_upper_bound p) = true →
  p `prefix_of` k ∨ (length k < length p)%nat.
Proof.
  revert k. induction p as [|x p IH]; intros k Hp Hle Hlt; [done|].
  destruct k as [|y k]; [done|]. rewrite upper_bound_cons in Hlt.
  apply bytes_leb_cons_true in Hle. cbn [all_255 forallb] in Hp. fold (all_255 p) in Hp.
  destruct (all_255 p) eqn:Hall; cbn [app] in Hlt.
  - rewrite andb_true_r in Hp. cbn [bump] in Hlt. rewrite Hp in Hlt. cbn [app] in Hlt.
    apply Z.eqb_neq in Hp. pose proof (Z_of_byte_bound x). apply bytes_ltb_cons in Hlt.
    rewrite Z_of_byte_small in Hlt by lia.
    destruct (decide (Z_of_byte y = Z_of_byte x)) as [Hxy|Hxy].
    + left. apply Z_of_byte_inj in Hxy as ->. apply prefix_cons, above_255; [done|]. naive_solver lia.
    + right. destruct Hlt as [Hlt|[_ Hlt]]; [lia|]. apply below_zeros in Hlt. cbn. lia.
  - apply bytes_ltb_cons in Hlt. assert (Z_of_byte y = Z_of_byte x) as Hxy by lia.
    apply Z_of_byte_inj in Hxy as ->. destruct (IH k) as [H|H]; [done|naive_solver lia..| |].
    + left. by apply prefix_cons.
    + right. cbn. lia.
Qed.

(** Every key with the prefix is in between. *)
Lemma prefix_upper_bound p k :
  all_255 p = false → bytes_ltb (p ++ k) (namespace_upper_bound p) = true.
Proof.
  induction p as [|x p IH]; intros Hp; [done|]. rewrite upper_bound_cons. cbn [app].
  cbn [all_255 forallb] in Hp. fold (all_255 p) in Hp. destruct (all_255 p) eqn:Hall.
  - rewrite andb_true_r in Hp. cbn [bump]. rewrite Hp. cbn [app]. apply bytes_ltb_cons. left.
    apply Z.eqb_neq in Hp. pose proof (Z_of_byte_bound x). rewrite Z_of_byte_small by lia. lia.
  - apply bytes_ltb_cons. right. split; [done|]. by apply IH.
Qed.

Lemma prefix_leb p k : bytes_leb p (p ++ k) = true.
Proof. rewrite <-(app_nil_r p) at 1. by rewrite bytes_leb_app. Qed.

Lemma be_bytes_2_le a b x y :
  0 ≤ a < 65536 → 0 ≤ b < 65536 → bytes_leb (be_bytes 2 a ++ x) (be_bytes 2 b ++ y) = true → a ≤ b.
Proof.
  intros Ha Hb. rewrite !be_bytes_2. cbn [app]. intros H.
  apply bytes_leb_cons_true in H. rewrite bytes_leb_cons_true, !Z_of_byte_of_Z in H.
  pose proof (Z.div_mod a 256 ltac:(lia)). pose proof (Z.div_mod b 256 ltac:(lia)).
  assert (∀ z, 0 ≤ z < 65536 → 0 ≤ z / 256 < 256) as Hd
    by (intros z Hz; split; [apply Z.div_pos; lia|apply Z.div_lt_upper_bound; lia]).
  rewrite (Z.mod_small (a / 256)), (Z.mod_small (b / 256)) in H by auto.
  pose proof (Z.mod_pos_bound a 256 eq_refl). pose proof (Z.mod_pos_bound b 256 eq_refl). lia.
Qed.

(** Among keys that carry the prefix of some namespace, one that is not below the prefix
    of [ns] is not shorter. *)
Lemma lp_le_length ns ns' rest :
  short ns → short ns' → bytes_leb (lp ns) (lp ns' ++ rest) = true →
  (length (lp ns) ≤ length (lp ns' ++ rest))%nat.
Proof.
  unfold short. intros Hs Hs' Hle. unfold lp in Hle. rewrite <-app_assoc in Hle.
  apply be_bytes_2_le in Hle; [|lia..]. rewrite length_app, !length_lp. lia.
Qed.
