(* ===== verification/PrefixedStorage.v ===== *)
(** * Prefixed storages ([cosmwasm/packages/storage/src/prefixed_storage.rs])

    A view of a storage through a namespace, itself a [Storage], so that views nest. The
    main result: over a lawful storage whose keys all carry namespaces, a view is lawful,
    and views of different namespaces do not see each other. *)

From S2P Require Import Prelude.
From S2P Require Import Bytes.
From S2P Require Import CwStd.
From S2P Require Import Storage.
From S2P Require Import Namespaces.

Open Scope Z_scope.

Record PrefixedStorage (St : Type) := mkPrefixed { ps_storage : St; ps_prefix : bytes }.
Arguments mkPrefixed {St} ps_storage ps_prefix.
Arguments ps_storage {St} _.
Arguments ps_prefix {St} _.

Record ReadonlyPrefixedStorage (St : Type) := mkReadonly { ro_storage : St; ro_prefix : bytes }.
Arguments mkReadonly {St} ro_storage ro_prefix.
Arguments ro_storage {St} _.
Arguments ro_prefix {St} _.

(** ** Constructors *)
Section constructors.
Context {E S St : Type}.

Definition PrefixedStorage_new (storage : St) (namespace : bytes) : M E S (PrefixedStorage St) :=
  prefix ← to_length_prefixed namespace; mret (mkPrefixed storage prefix).
Definition PrefixedStorage_multilevel (storage : St) (namespaces : list bytes)
    : M E S (PrefixedStorage St) :=
  prefix ← to_length_prefixed_nested namespaces; mret (mkPrefixed storage prefix).
Definition prefixed (storage : St) (namespace : bytes) : M E S (PrefixedStorage St) :=
  PrefixedStorage_new storage namespace.

Definition ReadonlyPrefixedStorage_new (storage : St) (namespace : bytes)
    : M E S (ReadonlyPrefixedStorage St) :=
  prefix ← to_length_prefixed namespace; mret (mkReadonly storage prefix).
Definition ReadonlyPrefixedStorage_multilevel (storage : St) (namespaces : list bytes)
    : M E S (ReadonlyPrefixedStorage St) :=
  prefix ← to_length_prefixed_nested namespaces; mret (mkReadonly storage prefix).
Definition prefixed_read (storage : St) (namespace : bytes) : M E S (ReadonlyPrefixedStorage St) :=
  ReadonlyPrefixedStorage_new storage namespace.
End constructors.

(** ** [impl Storage] *)
Section implementation.
Context `{StorageTrait St}.
Abbreviation PS := (PrefixedStorage St).
Abbreviation RO := (ReadonlyPrefixedStorage St).

(** A call on [self.storage] with [self.prefix]. *)
Definition on_storage {E A} (f : bytes → M E St A) : M E PS A :=
  self ← get; zoom ps_storage (λ st self, mkPrefixed st (ps_prefix self)) (f (ps_prefix self)).

Definition prefixed_get (key : bytes) (self : PS) : option bytes :=
  get_with_prefix (ps_prefix self) key (ps_storage self).
Definition prefixed_set {E} (key value : bytes) : M E PS unit :=
  on_storage (λ prefix, set_with_prefix prefix key value).
Definition prefixed_remove {E} (key : bytes) : M E PS unit :=
  on_storage (λ prefix, remove_with_prefix prefix key).
Definition prefixed_range {E} (start stop : option bytes) (order : Order)
    : M E PS (list StoreRecord) :=
  on_storage (λ prefix, range_with_prefix prefix start stop order).

#[export] Instance prefixed_trait : StorageTrait PS := {|
  t_get := prefixed_get;
  t_range := @prefixed_range;
  t_set := @prefixed_set;
  t_remove := @prefixed_remove
|}.

Definition readonly_get (key : bytes) (self : RO) : option bytes :=
  get_with_prefix (ro_prefix self) key (ro_storage self).
Definition readonly_set {E} (key value : bytes) : M E RO unit := panic "not implemented".
Definition readonly_remove {E} (key : bytes) : M E RO unit := panic "not implemented".
Definition readonly_range {E} (start stop : option bytes) (order : Order)
    : M E RO (list StoreRecord) :=
  self ← get;
  zoom ro_storage (λ st self, mkReadonly st (ro_prefix self))
    (range_with_prefix (ro_prefix self) start stop order).

#[export] Instance readonly_trait : StorageTrait RO := {|
  t_get := readonly_get;
  t_range := @readonly_range;
  t_set := @readonly_set;
  t_remove := @readonly_remove
|}.
End implementation.

(** ** A view of a lawful storage *)
Section views.
Context `{StorageSpec St}.

(** What a view needs of the storage below it: the prefix has an upper bound, and the
    storage holds no key of the prefix's interval that does not carry the prefix. *)
Definition viewable (p : bytes) (st : St) : Prop :=
  t_ok st ∧ all_255 p = false ∧
  ∀ k v, t_get k st = Some v →
    in_range (Some p) (Some (namespace_upper_bound p)) k = true → p `prefix_of` k.

Lemma trim_prefixed {E S} p k (s : S) : (trim p (p ++ k) : M E S _) s = (Ok k, s).
Proof.
  unfold trim. rewrite length_app. destruct (Nat.ltb_spec (length p + length k) (length p)); [lia|].
  by rewrite drop_app_length.
Qed.

Lemma trim_all_prefixed {E S} p l (s : S) :
  (trim_all p ((λ r, (p ++ r.1, r.2)) <$> l) : M E S _) s = (Ok l, s).
Proof.
  induction l as [|[k v] l IH]; [done|]. rewrite fmap_cons. cbn [trim_all fst snd].
  rewrite (bind_Ok _ _ _ _ _ (trim_prefixed p k s)), (bind_Ok _ _ _ _ _ IH). done.
Qed.

(** Records that all carry the prefix. *)
Lemma unprefix p (l : list StoreRecord) :
  (∀ k v, (k, v) ∈ l → p `prefix_of` k) → ∃ l', l = (λ r, (p ++ r.1, r.2)) <$> l'.
Proof.
  induction l as [|[k v] l IH]; intros Hp; [by exists []|].
  destruct (Hp k v) as [k' ->]; [by left|].
  destruct IH as [l' ->]; [intros k2 v2 Hin; apply (Hp k2 v2); by right|].
  by exists ((k', v) :: l').
Qed.

Lemma prefixed_sorted p o (l : list StoreRecord) :
  StronglySorted (order_rel o) ((λ r, (p ++ r.1, r.2)) <$> l) → StronglySorted (order_rel o) l.
Proof.
  induction l as [|r l IH]; [constructor|]. rewrite fmap_cons, !StronglySorted_cons.
  intros [Hr Hl]. split; [|by apply IH]. rewrite Forall_fmap in Hr.
  eapply Forall_impl; [exact Hr|]. intros r'. destruct o; cbn; by rewrite bytes_ltb_app.
Qed.

(** The bounds [range_with_prefix] hands to the storage select the keys of the view. *)
Definition view_range (p : bytes) (start stop : option bytes) (k : bytes) : bool :=
  in_range (Some (match start with Some a => p ++ a | None => p end))
    (Some (match stop with Some b => p ++ b | None => namespace_upper_bound p end)) k.

Lemma view_range_app p start stop k :
  all_255 p = false → view_range p start stop (p ++ k) = in_range start stop k.
Proof.
  intros Hp. unfold view_range, in_range.
  f_equal; [destruct start; [apply bytes_leb_app|apply prefix_leb]|].
  destruct stop; [apply bytes_ltb_app|by apply prefix_upper_bound].
Qed.

Lemma view_range_prefix p start stop k v st :
  viewable p st → t_get k st = Some v → view_range p start stop k = true → p `prefix_of` k.
Proof.
  intros (_ & Hp & Hv) Hk [Ha Hb]%andb_true_iff.
  assert (bytes_leb p k = true) as Hpk.
  { destruct start as [a|]; [|done]. apply (bytes_le_trans p (p ++ a) k); [apply prefix_leb|done]. }
  destruct stop as [b|].
  - apply (between_prefix p [] b); [by rewrite app_nil_r|done].
  - apply (Hv k v Hk). by apply andb_true_iff.
Qed.

Lemma view_range_run {E} p start stop o st :
  viewable p st →
  ∃ l, (range_with_prefix p start stop o : M E St _) st = (Ok l, st) ∧
    lists (λ k, get_with_prefix p k st) start stop o l.
Proof.
  intros Hview. pose proof Hview as (Hok & Hp & _). unfold range_with_prefix, concat.
  destruct (t_range_spec (E := E) (Some (match start with Some a => p ++ a | None => p end))
    (Some (match stop with Some b => p ++ b | None => namespace_upper_bound p end)) o st Hok)
    as (base & Hbase & Hsort & Hin).
  destruct (unprefix p base) as [l ->].
  { intros k v [Hk Hr]%Hin. by eapply view_range_prefix. }
  exists l. rewrite (bind_Ok _ _ _ _ _ Hbase), trim_all_prefixed. split; [done|].
  split; [by eapply prefixed_sorted|]. intros k v. unfold get_with_prefix, concat.
  rewrite <-(view_range_app p start stop k Hp). fold (view_range p start stop (p ++ k)) in Hin |- *.
  unfold view_range. rewrite <-(Hin (p ++ k) v). rewrite list_elem_of_fmap. split.
  - intros Hkv. by exists (k, v).
  - intros ([k' v'] & Heq & Hkv). cbn in Heq. injection Heq as Hk ->.
    by apply app_inv_head in Hk as ->.
Qed.

(** Writing through a view does not disturb it. *)
Lemma viewable_write p st st' k (o : option bytes) :
  t_ok st' → (∀ k', t_get k' st' = if decide (k' = p ++ k) then o else t_get k' st) →
  viewable p st → viewable p st'.
Proof.
  intros Hok' Hget (_ & Hp & Hv). split; [done|]. split; [done|]. intros k' v'. rewrite Hget.
  case_decide as Hk; [|by apply Hv]. intros _ _. subst. by exists k.
Qed.

Lemma view_key (p k k' : bytes) (a b : option bytes) :
  (if decide (p ++ k' = p ++ k) then a else b) = if decide (k' = k) then a else b.
Proof. repeat case_decide; try done; [by simplify_list_eq|by subst]. Qed.

#[export] Program Instance prefixed_spec : StorageSpec (PrefixedStorage St) := {|
  t_ok := λ self, viewable (ps_prefix self) (ps_storage self)
|}.
Next Obligation.
  intros E k v [st p] Hview Hv. cbn in *. pose proof Hview as (Hok & _).
  destruct (t_set_spec (E := E) (p ++ k) v st Hok Hv) as (st' & Hrun & Hok' & Hget).
  exists (mkPrefixed st' p). split; [|split; [by eapply viewable_write|]].
  - unfold prefixed_set, on_storage, set_with_prefix, concat. rewrite bind_get. unfold zoom. cbn.
    by rewrite Hrun.
  - intros k'. cbn. unfold prefixed_get, get_with_prefix, concat. cbn. by rewrite Hget, view_key.
Qed.
Next Obligation.
  intros E k [st p] Hview. cbn in *. pose proof Hview as (Hok & _).
  destruct (t_remove_spec (E := E) (p ++ k) st Hok) as (st' & Hrun & Hok' & Hget).
  exists (mkPrefixed st' p). split; [|split; [by eapply viewable_write|]].
  - unfold prefixed_remove, on_storage, remove_with_prefix, concat. rewrite bind_get. unfold zoom. cbn.
    by rewrite Hrun.
  - intros k'. cbn. unfold prefixed_get, get_with_prefix, concat. cbn. by rewrite Hget, view_key.
Qed.
Next Obligation.
  intros E start stop o [st p] Hview. cbn in *.
  destruct (view_range_run (E := E) p start stop o st Hview) as (l & Hrun & Hl).
  exists l. split; [|done]. unfold prefixed_range, on_storage. rewrite bind_get. unfold zoom. cbn.
  by rewrite Hrun.
Qed.
End views.

(** ** Namespaces in one storage *)
Section namespaces.
Context `{StorageSpec St}.

(** Every key of the storage carries the prefix of some namespace. *)
Definition keyed (st : St) : Prop :=
  ∀ k v, t_get k st = Some v → ∃ ns rest, short ns ∧ k = lp ns ++ rest.

(** The view of a namespace, as [PrefixedStorage::new] makes it. *)
Definition view (st : St) (ns : bytes) : PrefixedStorage St := mkPrefixed st (lp ns).

Lemma new_view {E S} (st : St) ns (s : S) :
  short ns → (PrefixedStorage_new st ns : M E S _) s = (Ok (view st ns), s).
Proof.
  intros Hs. unfold PrefixedStorage_new.
  by rewrite (bind_Ok _ _ _ _ _ (to_length_prefixed_short ns s Hs)).
Qed.

(** Only the longest namespace of bytes 255 has no upper bound. *)
Lemma all_255_lp ns : Z.of_nat (length ns) < 0xFFFF → all_255 (lp ns) = false.
Proof.
  intros Hs. apply not_true_is_false. unfold lp. rewrite be_bytes_2. cbn [app all_255 forallb].
  intros [H1 [H2 _]%andb_true_iff]%andb_true_iff. apply Z.eqb_eq in H1, H2.
  rewrite Z_of_byte_of_Z in H1, H2. pose proof (Z.div_mod (Z.of_nat (length ns)) 256 ltac:(lia)).
  assert (0 ≤ Z.of_nat (length ns) / 256 < 256)
    by (split; [apply Z.div_pos; lia|apply Z.div_lt_upper_bound; lia]).
  rewrite Z.mod_small in H1 by done. lia.
Qed.

(** Keys that carry namespaces are no obstacle to a view. *)
Lemma keyed_viewable st ns :
  t_ok st → keyed st → Z.of_nat (length ns) < 0xFFFF → viewable (lp ns) st.
Proof.
  intros Hok Hkeyed Hs. split; [done|]. split; [by apply all_255_lp|].
  intros k v Hk [Hle Hlt]%andb_true_iff. destruct (Hkeyed k v Hk) as (ns' & rest & Hs' & ->).
  destruct (below_upper_bound (lp ns) (lp ns' ++ rest)) as [Hp|Hlen]; [by apply all_255_lp|done..|].
  apply lp_le_length in Hle; [lia|unfold short; lia|done].
Qed.

Lemma keyed_write st st' ns k (o : option bytes) :
  short ns → (∀ k', t_get k' st' = if decide (k' = lp ns ++ k) then o else t_get k' st) →
  keyed st → keyed st'.
Proof.
  intros Hs Hget Hkeyed k' v'. rewrite Hget. case_decide as Hk; [|by apply Hkeyed].
  intros _. subst. eauto.
Qed.

Lemma other_view st st' a b k (o : option bytes) :
  short a → short b → a ≠ b →
  (∀ k', t_get k' st' = if decide (k' = lp a ++ k) then o else t_get k' st) →
  ∀ k', t_get k' (view st' b) = t_get k' (view st b).
Proof.
  intros Ha Hb Hne Hget k'. cbn. unfold prefixed_get, get_with_prefix, concat. cbn. rewrite Hget.
  case_decide as Hk; [|done]. by apply lp_inj in Hk as [-> _].
Qed.

(** [prefixed(storage, namespace)] for one call: the view borrows the storage, and what
    the call did to it stays when the borrow ends. *)
Definition through {E A} (namespace : bytes) (call : M E (PrefixedStorage St) A) : M E St A :=
  storage ← get;
  p ← prefixed storage namespace;
  zoom (λ _, p) (λ p' _, ps_storage p') call.

(** A read through [prefixed_read(storage, namespace)]. *)
Definition read_in {E} (namespace key : bytes) : M E St (option bytes) :=
  storage ← get;
  p ← prefixed_read storage namespace;
  mret (t_get key p).

Lemma through_short {E A} ns (call : M E (PrefixedStorage St) A) st :
  short ns → through ns call st = let '(r, p') := call (view st ns) in (r, ps_storage p').
Proof.
  intros Hs. unfold through, prefixed. rewrite bind_get, (bind_Ok _ _ _ _ _ (new_view st ns st Hs)).
  unfold zoom. by destruct (call (view st ns)) as [[]].
Qed.

Lemma read_in_short {E} ns k st :
  short ns → (read_in ns k : M E St _) st = (Ok (t_get k (view st ns)), st).
Proof.
  intros Hs. unfold read_in, prefixed_read, ReadonlyPrefixedStorage_new.
  by rewrite bind_get, bind_assoc, (bind_Ok _ _ _ _ _ (to_length_prefixed_short ns st Hs)), bind_ret_l.
Qed.

Lemma through_long {E A} ns (call : M E (PrefixedStorage St) A) st :
  ¬ short ns → through ns call st = (Panic "only supports namespaces up to length 0xFFFF", st).
Proof.
  intros Hs. unfold through, prefixed, PrefixedStorage_new, to_length_prefixed, encode_length.
  unfold short in Hs. rewrite bind_get. by destruct (Z.ltb_spec 0xFFFF (Z.of_nat (length ns))); [|lia].
Qed.

(** What a write or removal through [prefixed] does, from what the storage below does. *)
Lemma through_isolated {E} (call : bytes → M E St unit) (act : M E (PrefixedStorage St) unit)
    st st' a b k (o : option bytes) :
  (∀ st0 p, act (mkPrefixed st0 p) = let '(r, st1) := call (p ++ k) st0 in (r, mkPrefixed st1 p)) →
  short a → short b → a ≠ b →
  call (lp a ++ k) st = (Ok tt, st') →
  (∀ k', t_get k' st' = if decide (k' = lp a ++ k) then o else t_get k' st) →
  through a act st = (Ok tt, st') ∧
  ∀ k' : bytes,
    (read_in a k' : M E St _) st' =
      (if decide (k' = k) then Ok o else ((read_in a k' : M E St _) st).1, st') ∧
    (read_in b k' : M E St _) st' = (((read_in b k' : M E St _) st).1, st').
Proof.
  intros Hact Ha Hb Hne Hrun Hget. split.
  - rewrite through_short by done. unfold view. by rewrite Hact, Hrun.
  - intros k'. rewrite !read_in_short by done. cbn [fst].
    rewrite (other_view st st' a b k o Ha Hb Hne Hget k'). split; [|done].
    cbn. unfold prefixed_get, get_with_prefix, concat. cbn. rewrite Hget, view_key. by case_decide.
Qed.

(** C12: Namespaces of one storage are isolated, whatever the lawful storage below and
    whatever else it holds: a (non-empty) value written through [prefixed] with one
    namespace is what [prefixed_read] with that namespace reads at that key from then on,
    and a removed one is gone; every other key of the namespace and every key of every
    other namespace reads as before. A namespace of more than 65535 bytes panics and
    writes nothing. *)
Theorem namespaces_isolated {E} st a b k v :
  t_ok st → short a → short b → a ≠ b → v ≠ [] →
  (∃ st', (through a (t_set k v) : M E St unit) st = (Ok tt, st') ∧ t_ok st' ∧ (keyed st → keyed st') ∧
     ∀ k' : bytes,
       (read_in a k' : M E St _) st' =
         (if decide (k' = k) then Ok (Some v) else ((read_in a k' : M E St _) st).1, st') ∧
       (read_in b k' : M E St _) st' = (((read_in b k' : M E St _) st).1, st')) ∧
  (∃ st', (through a (t_remove k) : M E St unit) st = (Ok tt, st') ∧ t_ok st' ∧ (keyed st → keyed st') ∧
     ∀ k' : bytes,
       (read_in a k' : M E St _) st' =
         (if decide (k' = k) then Ok None else ((read_in a k' : M E St _) st).1, st') ∧
       (read_in b k' : M E St _) st' = (((read_in b k' : M E St _) st).1, st')) ∧
  ∀ c, ¬ short c →
    (through c (t_set k v) : M E St unit) st = (Panic "only supports namespaces up to length 0xFFFF", st).
Proof.
  intros Hok Ha Hb Hne Hv. split_and!; [..|intros c; by apply through_long].
  - destruct (t_set_spec (E := E) (lp a ++ k) v st Hok Hv) as (st' & Hrun & Hok' & Hget).
    exists st'. destruct (through_isolated (E := E) (λ key, t_set key v) (t_set k v) st st' a b k (Some v)) as [Ht Hr]; try done.
    split_and!; [done..|exact (keyed_write _ _ _ _ _ Ha Hget)|done].
  - destruct (t_remove_spec (E := E) (lp a ++ k) st Hok) as (st' & Hrun & Hok' & Hget).
    exists st'. destruct (through_isolated (E := E) t_remove (t_remove k) st st' a b k None) as [Ht Hr]; try done.
    split_and!; [done..|exact (keyed_write _ _ _ _ _ Ha Hget)|done].
Qed.

(** A range over the view of a namespace returns exactly the view's records in the
    interval, in the order asked for and without the prefix, and leaves the storage
    alone: the interval of the raw keys is neither too wide nor too narrow, as long as
    every key of the storage carries a namespace. *)
Theorem prefixed_range_exact {E} st ns start stop o :
  t_ok st → keyed st → Z.of_nat (length ns) < 0xFFFF →
  ∃ l, (t_range start stop o : M E _ _) (view st ns) = (Ok l, view st ns) ∧
    StronglySorted (order_rel o) l ∧
    ∀ k v, (k, v) ∈ l ↔ t_get k (view st ns) = Some v ∧ in_range start stop k = true.
Proof.
  intros Hok Hkeyed Hs.
  apply (t_range_spec (St := PrefixedStorage St) (E := E) start stop o (view st ns)).
  by apply keyed_viewable.
Qed.

Lemma trim_all_short {E S} p (l : list StoreRecord) k v (s : S) :
  (k, v) ∈ l → (length k < length p)%nat → ∃ msg, (trim_all p l : M E S _) s = (Panic msg, s).
Proof.
  intros Hin Hlen. induction l as [|[k1 v1] l IH]; [set_solver|].
  cbn [trim_all]. unfold trim at 1. destruct (Nat.ltb_spec (length k1) (length p)) as [Hl|Hl].
  - eexists. by apply bind_Panic.
  - rewrite bind_ret_l. apply elem_of_cons in Hin as [[= <- <-]|Hin]; [lia|].
    destruct (IH Hin) as [msg Hmsg]. exists msg. by apply bind_Panic.
Qed.

(** The upper bound of a prefix that ends in bytes 255 is too high: a key that is
    shorter than the prefix can lie below it, and then a range over the namespace panics
    while it cuts the prefix off, although the key is none of the namespace's. *)
Theorem range_panics_on_bare_key {E} p k v o st :
  t_ok st → t_get k st = Some v →
  in_range (Some p) (Some (namespace_upper_bound p)) k = true → (length k < length p)%nat →
  ∃ msg, (range_with_prefix p None None o : M E St _) st = (Panic msg, st).
Proof.
  intros Hok Hk Hr Hlen. unfold range_with_prefix.
  destruct (t_range_spec (E := E) (Some p) (Some (namespace_upper_bound p)) o st Hok) as (l & Hrun & _ & Hin).
  rewrite (bind_Ok _ _ _ _ _ Hrun). apply (trim_all_short _ _ k v); [by apply Hin|done].
Qed.
End namespaces.

(** ** Nesting *)
Section nesting.
Context `{StorageTrait St}.

Lemma nested_short {E S} nss (s : S) :
  Forall short nss → (to_length_prefixed_nested nss : M E S _) s = (Ok (mjoin (lp <$> nss)), s).
Proof.
  induction 1 as [|ns nss Hs _ IH]; [done|]. cbn [to_length_prefixed_nested].
  rewrite (bind_Ok _ _ _ _ _ (encode_length_short ns s Hs)), (bind_Ok _ _ _ _ _ IH).
  cbn. unfold lp at 2. by rewrite <-app_assoc.
Qed.

(** What a view of a view is over the storage at the bottom. *)
Definition flatten (self : PrefixedStorage (PrefixedStorage St)) : PrefixedStorage St :=
  mkPrefixed (ps_storage (ps_storage self)) (ps_prefix (ps_storage self) ++ ps_prefix self).

(** A multilevel view is the nesting of views it is documented to be: building it
    from a list of namespaces gives the view of the rest within the view of the first,
    with the same reads, writes and removals of the storage below. *)
Theorem multilevel_is_nesting {E S} (st : St) ns nss (s : S) :
  short ns → Forall short nss →
  ∃ outer inner,
    (PrefixedStorage_new st ns : M E S _) s = (Ok outer, s) ∧
    (PrefixedStorage_multilevel outer nss : M E S _) s = (Ok inner, s) ∧
    (PrefixedStorage_multilevel st (ns :: nss) : M E S _) s = (Ok (flatten inner), s) ∧
    (∀ k, t_get k inner = t_get k (flatten inner)) ∧
    (∀ k v r inner', (t_set k v : M E _ unit) inner = (r, inner') →
       (t_set k v : M E _ unit) (flatten inner) = (r, flatten inner')) ∧
    (∀ k r inner', (t_remove k : M E _ unit) inner = (r, inner') →
       (t_remove k : M E _ unit) (flatten inner) = (r, flatten inner')).
Proof.
  intros Hs Hss. exists (mkPrefixed st (lp ns)), (mkPrefixed (mkPrefixed st (lp ns)) (mjoin (lp <$> nss))).
  split_and!.
  - unfold PrefixedStorage_new. by rewrite (bind_Ok _ _ _ _ _ (to_length_prefixed_short ns s Hs)).
  - unfold PrefixedStorage_multilevel. by rewrite (bind_Ok _ _ _ _ _ (nested_short nss s Hss)).
  - unfold PrefixedStorage_multilevel.
    by rewrite (bind_Ok _ _ _ _ _ (nested_short (ns :: nss) s (Forall_cons_2 _ _ _ Hs Hss))).
  - intros k. cbn. unfold prefixed_get, get_with_prefix, concat; cbn.
    unfold prefixed_get, get_with_prefix, concat; cbn. by rewrite <-app_assoc.
  - intros k v r inner'. cbn. unfold prefixed_set, on_storage, set_with_prefix, concat; cbn.
    rewrite !bind_get. unfold zoom; cbn. unfold prefixed_set, on_storage, set_with_prefix, concat; cbn.
    rewrite bind_get. unfold zoom; cbn. rewrite <-app_assoc.
    destruct (t_set _ _ st) as [o st'] eqn:Hrun. by intros [= <- <-].
  - intros k r inner'. cbn. unfold prefixed_remove, on_storage, remove_with_prefix, concat; cbn.
    rewrite !bind_get. unfold zoom; cbn. unfold prefixed_remove, on_storage, remove_with_prefix, concat; cbn.
    rewrite bind_get. unfold zoom; cbn. rewrite <-app_assoc.
    destruct (t_remove _ st) as [o st'] eqn:Hrun. by intros [= <- <-].
Qed.
End nesting.
