(* ===== verification/TypedStorage.v ===== *)
(** * Typed storage ([cosmwasm/packages/storage/src]: [type_helpers.rs], [singleton.rs],
      [bucket.rs], [sequence.rs]; [std/src/serde.rs])

    One value under a key, many values under a namespace, and a counter, each kept as
    JSON. The JSON library is a parameter, one codec per type.

    The second part is how contract code borrows such stores. *)

From S2P Require Import Prelude.
From S2P Require Import Bytes.
From S2P Require Import CwStd.
From S2P Require Import StdError.
From S2P Require Import Storage.
From S2P Require Import Namespaces.
From S2P Require Import PrefixedStorage.

Open Scope Z_scope.

(** ** [std/src/serde.rs] over [serde_json_wasm] *)
Class Json (T : Type) := {
  json_from_slice : bytes → string + T;
  json_to_vec : T → string + bytes;
  type_name : string
}.

(** What the code relies on: a value that is written can be read back, and its text is
    not empty. *)
Class JsonSpec (T : Type) `{Json T} : Prop := {
  json_roundtrip x b : json_to_vec x = inr b → json_from_slice b = inr x;
  json_not_empty x b : json_to_vec x = inr b → b ≠ []
}.

Section serde.
Context `{Json T}.

Definition from_slice (value : bytes) : StdError + T :=
  match json_from_slice value with
  | inr x => inr x
  | inl e => inl (StdParseErr (type_name (T := T)) e)
  end.
Definition to_vec (data : T) : StdError + bytes :=
  match json_to_vec data with
  | inr b => inr b
  | inl e => inl (StdSerializeErr (type_name (T := T)) e)
  end.

(** ** [type_helpers.rs] *)
Definition may_deserialize (value : option bytes) : StdError + option T :=
  match value with
  | Some data => match from_slice data with inr x => inr (Some x) | inl e => inl e end
  | None => inr None
  end.
Definition must_deserialize (value : option bytes) : StdError + T :=
  match value with
  | Some data => from_slice data
  | None => inl (StdNotFound (type_name (T := T)))
  end.
Definition deserialize_kv (kv : bytes * bytes) : StdError + bytes * T :=
  let '(k, v) := kv in
  match from_slice v with inr t => inr (k, t) | inl e => inl e end.
End serde.

(** ** [singleton.rs] *)
Record Singleton (St : Type) := mkSingleton { sg_storage : St; sg_key : bytes }.
Arguments mkSingleton {St} sg_storage sg_key.
Arguments sg_storage {St} _.
Arguments sg_key {St} _.

Definition Singleton_new {E S St} (storage : St) (key : bytes) : M E S (Singleton St) :=
  k ← to_length_prefixed key; mret (mkSingleton storage k).
Definition singleton {E S St} (storage : St) (key : bytes) : M E S (Singleton St) :=
  Singleton_new storage key.

Module SingletonOps.
Section singleton.
Context `{StorageTrait St} `{Json T}.
Abbreviation Sg := (Singleton St).

Definition on_storage {E A} (f : bytes → M E St A) : M E Sg A :=
  self ← get; zoom sg_storage (λ st self, mkSingleton st (sg_key self)) (f (sg_key self)).

Definition save (data : T) : M StdError Sg unit :=
  b ← of_sum (to_vec data); on_storage (λ key, t_set key b).
Definition remove {E} : M E Sg unit := on_storage (λ key, t_remove key).
Definition load (self : Sg) : StdError + T := must_deserialize (t_get (sg_key self) (sg_storage self)).
Definition may_load (self : Sg) : StdError + option T :=
  may_deserialize (t_get (sg_key self) (sg_storage self)).

(** [E: From<StdError>] is the function [from]. *)
Definition update {E} (from : StdError → E) (action : T → E + T) : M E Sg T :=
  input ← map_err from (self ← get; of_sum (load self));
  output ← of_sum (action input);
  _ ← map_err from (save output);
  mret output.
End singleton.
End SingletonOps.

(** [ReadonlySingleton] has the same key, [load] and [may_load]. *)
Definition ReadonlySingleton_new {E S St} (storage : St) (key : bytes) : M E S (Singleton St) :=
  k ← to_length_prefixed key; mret (mkSingleton storage k).
Definition singleton_read {E S St} (storage : St) (key : bytes) : M E S (Singleton St) :=
  ReadonlySingleton_new storage key.

(** ** [sequence.rs] *)
Section sequence.
Context `{StorageTrait St} `{!Json Z}.

Definition sequence {E S} (storage : St) (key : bytes) : M E S (Singleton St) :=
  Singleton_new storage key.

Definition currval (seq : Singleton St) : StdError + Z :=
  match SingletonOps.may_load (T := Z) seq with
  | inr o => inr (default 0 o)
  | inl e => inl e
  end.

Definition nextval : M StdError (Singleton St) Z :=
  cur ← (seq ← get; of_sum (currval seq));
  val ← add_or_panic U64 cur 1;
  _ ← SingletonOps.save val;
  mret val.
End sequence.

(** ** [bucket.rs] *)
Record Bucket (St : Type) := mkBucket { bk_storage : St; bk_prefix : bytes }.
Arguments mkBucket {St} bk_storage bk_prefix.
Arguments bk_storage {St} _.
Arguments bk_prefix {St} _.

Definition Bucket_new {E S St} (storage : St) (namespace : bytes) : M E S (Bucket St) :=
  p ← to_length_prefixed namespace; mret (mkBucket storage p).
Definition Bucket_multilevel {E S St} (storage : St) (namespaces : list bytes) : M E S (Bucket St) :=
  p ← to_length_prefixed_nested namespaces; mret (mkBucket storage p).
Definition bucket {E S St} (storage : St) (namespace : bytes) : M E S (Bucket St) :=
  Bucket_new storage namespace.

(** [ReadonlyBucket]: the same prefix, and the reading methods of [Bucket]. *)
Definition ReadonlyBucket_new {E S St} (storage : St) (namespace : bytes) : M E S (Bucket St) :=
  p ← to_length_prefixed namespace; mret (mkBucket storage p).
Definition ReadonlyBucket_multilevel {E S St} (storage : St) (namespaces : list bytes)
    : M E S (Bucket St) :=
  p ← to_length_prefixed_nested namespaces; mret (mkBucket storage p).
Definition bucket_read {E S St} (storage : St) (namespace : bytes) : M E S (Bucket St) :=
  ReadonlyBucket_new storage namespace.

Module BucketOps.
Section bucket.
Context `{StorageTrait St} `{Json T}.
Abbreviation Bk := (Bucket St).

Definition on_storage {E A} (f : bytes → M E St A) : M E Bk A :=
  self ← get; zoom bk_storage (λ st self, mkBucket st (bk_prefix self)) (f (bk_prefix self)).

Definition save (key : bytes) (data : T) : M StdError Bk unit :=
  b ← of_sum (to_vec data); on_storage (λ prefix, set_with_prefix prefix key b).
Definition remove {E} (key : bytes) : M E Bk unit :=
  on_storage (λ prefix, remove_with_prefix prefix key).
Definition load (key : bytes) (self : Bk) : StdError + T :=
  must_deserialize (get_with_prefix (bk_prefix self) key (bk_storage self)).
Definition may_load (key : bytes) (self : Bk) : StdError + option T :=
  may_deserialize (get_with_prefix (bk_prefix self) key (bk_storage self)).

(** The items of the iterator are results of their own. *)
Definition range {E} (start stop : option bytes) (order : Order) : M E Bk (list (StdError + bytes * T)) :=
  l ← on_storage (λ prefix, range_with_prefix prefix start stop order);
  mret (deserialize_kv <$> l).

Definition update {E} (from : StdError → E) (key : bytes) (action : option T → E + T) : M E Bk T :=
  input ← map_err from (self ← get; of_sum (may_load key self));
  output ← of_sum (action input);
  _ ← map_err from (save key output);
  mret output.
End bucket.
End BucketOps.

(** ** Laws *)
Lemma to_vec_ok `{Json T} (x : T) b : to_vec x = inr b ↔ json_to_vec x = inr b.
Proof. unfold to_vec. destruct (json_to_vec x); naive_solver. Qed.

Lemma from_to `{JsonSpec T} (x : T) b : to_vec x = inr b → from_slice b = inr x ∧ b ≠ [].
Proof.
  intros Hb%to_vec_ok. split; [|by eapply json_not_empty].
  unfold from_slice. by rewrite (json_roundtrip x b Hb).
Qed.

(** [load] is [may_load] with an error for a missing value. *)
Lemma must_may `{Json T} (value : option bytes) :
  must_deserialize (T := T) value =
    match may_deserialize value with
    | inr (Some x) => inr x
    | inr None => inl (StdNotFound type_name)
    | inl e => inl e
    end.
Proof. destruct value as [b|]; [|done]. cbn. by destruct (from_slice b). Qed.

Section singletons.
Context `{!StorageTrait St, !StorageSpec St, !Json T, !JsonSpec T}.
Implicit Types (self : Singleton St).

Lemma save_spec self (x : T) b :
  t_ok (sg_storage self) → to_vec x = inr b →
  ∃ self', SingletonOps.save x self = (Ok tt, self') ∧ t_ok (sg_storage self') ∧
    SingletonOps.may_load self' = inr (Some x) ∧
    sg_key self' = sg_key self ∧
    ∀ k, k ≠ sg_key self → t_get k (sg_storage self') = t_get k (sg_storage self).
Proof.
  destruct self as [st key]. cbn. intros Hok Hb. destruct (from_to x b Hb) as [Hfrom Hne].
  destruct (t_set_spec (E := StdError) key b st Hok Hne) as (st' & Hrun & Hok' & Hget).
  exists (mkSingleton st' key). split_and!; [|done| |done|].
  - unfold SingletonOps.save. rewrite Hb. cbn [of_sum]. rewrite bind_ret_l.
    unfold SingletonOps.on_storage. rewrite bind_get. unfold zoom. cbn. by rewrite Hrun.
  - unfold SingletonOps.may_load. cbn. rewrite Hget, decide_True by done. cbn. by rewrite Hfrom.
  - intros k Hk. cbn. by rewrite Hget, decide_False by done.
Qed.
End singletons.

Section sequences.
Context `{!StorageTrait St, !StorageSpec St, !Json Z, !JsonSpec Z}.
Hypothesis u64_to_vec : ∀ n, in_width U64 n → ∃ b, to_vec n = inr b.

Lemma nextval_spec (seq : Singleton St) n :
  t_ok (sg_storage seq) → currval seq = inr n → 0 ≤ n →
  if n + 1 <? U64 then
    ∃ seq', nextval seq = (Ok (n + 1), seq') ∧ t_ok (sg_storage seq') ∧ currval seq' = inr (n + 1)
  else nextval seq = (Panic "attempt to add with overflow", seq).
Proof.
  intros Hok Hcur Hn. unfold nextval. rewrite bind_assoc, bind_get, Hcur. cbn [of_sum].
  rewrite bind_ret_l. unfold add_or_panic. destruct (Z.ltb_spec (n + 1) U64) as [Hlt|Hge]; [|done].
  rewrite bind_ret_l. destruct (u64_to_vec (n + 1)) as [b Hb]; [unfold in_width; lia|].
  destruct (save_spec seq (n + 1) b Hok Hb) as (seq' & Hrun & Hok' & Hload & _).
  exists seq'. rewrite (bind_Ok _ _ _ _ _ Hrun). split; [done|]. split; [done|].
  unfold currval. by rewrite Hload.
Qed.

(** [n] calls of [nextval], collecting the answers. *)
Fixpoint nextvals (n : nat) : M StdError (Singleton St) (list Z) :=
  match n with
  | O => mret []
  | S n => x ← nextval; xs ← nextvals n; mret (x :: xs)
  end.

(** A sequence counts: from a current value [m], [n] calls of [nextval] return
    [m + 1], [m + 2], ..., [m + n] and leave [m + n] as the current value, so a number is
    never handed out twice, as long as the counter stays below 2^64. *)
Theorem nextval_counts n (seq : Singleton St) m :
  t_ok (sg_storage seq) → currval seq = inr m → 0 ≤ m → m + Z.of_nat n < U64 →
  ∃ seq', nextvals n seq = (Ok ((λ i, m + 1 + Z.of_nat i) <$> List.seq 0 n), seq') ∧
    currval seq' = inr (m + Z.of_nat n).
Proof.
  revert seq m. induction n as [|n IH]; intros s m Hok Hcur Hm Hlt.
  - exists s. by rewrite Z.add_0_r.
  - pose proof (nextval_spec s m Hok Hcur Hm) as Hn. destruct (Z.ltb_spec (m + 1) U64); [|lia].
    destruct Hn as (s1 & H1 & Hok1 & Hcur1).
    destruct (IH s1 (m + 1) Hok1 Hcur1) as (s2 & H2 & Hcur2); [lia..|].
    exists s2. cbn [nextvals]. rewrite (bind_Ok _ _ _ _ _ H1), (bind_Ok _ _ _ _ _ H2).
    split; [|by rewrite Hcur2; f_equal; lia].
    cbn [List.seq]. rewrite fmap_cons, <-seq_shift, <-list_fmap_compose. unfold mret, M_ret.
    do 3 f_equal; [lia|]. apply list_fmap_ext. intros i x _. cbn. lia.
Qed.
End sequences.

(** ** Buckets *)
Section buckets.
Context `{!StorageTrait St, !StorageSpec St, !Json T, !JsonSpec T}.
Implicit Types (self : Bucket St).

Lemma bucket_save_run self k (x : T) b :
  t_ok (bk_storage self) → to_vec x = inr b →
  ∃ self', BucketOps.save k x self = (Ok tt, self') ∧ t_ok (bk_storage self') ∧
    bk_prefix self' = bk_prefix self ∧
    ∀ k', t_get k' (bk_storage self') =
      if decide (k' = bk_prefix self ++ k) then Some b else t_get k' (bk_storage self).
Proof.
  destruct self as [st p]. cbn. intros Hok Hb. destruct (from_to x b Hb) as [_ Hne].
  destruct (t_set_spec (E := StdError) (p ++ k) b st Hok Hne) as (st' & Hrun & Hok' & Hget).
  exists (mkBucket st' p). split_and!; [|done..].
  unfold BucketOps.save. rewrite Hb. cbn [of_sum]. rewrite bind_ret_l.
  unfold BucketOps.on_storage, set_with_prefix, concat. rewrite bind_get. unfold zoom. cbn.
  by rewrite Hrun.
Qed.

Lemma bucket_remove_run {E} self k :
  t_ok (bk_storage self) →
  ∃ self', (BucketOps.remove k : M E _ unit) self = (Ok tt, self') ∧ t_ok (bk_storage self') ∧
    bk_prefix self' = bk_prefix self ∧
    ∀ k', t_get k' (bk_storage self') =
      if decide (k' = bk_prefix self ++ k) then None else t_get k' (bk_storage self).
Proof.
  destruct self as [st p]. cbn. intros Hok.
  destruct (t_remove_spec (E := E) (p ++ k) st Hok) as (st' & Hrun & Hok' & Hget).
  exists (mkBucket st' p). split_and!; [|done..].
  unfold BucketOps.remove, BucketOps.on_storage, remove_with_prefix, concat. rewrite bind_get. unfold zoom.
  cbn. by rewrite Hrun.
Qed.

(** Reading after a write of [o] at [k]. *)
Lemma bucket_read_after self self' k (o : option bytes) k' :
  bk_prefix self' = bk_prefix self →
  (∀ q, t_get q (bk_storage self') =
     if decide (q = bk_prefix self ++ k) then o else t_get q (bk_storage self)) →
  BucketOps.may_load (T := T) k' self' =
    if decide (k' = k) then may_deserialize o else BucketOps.may_load k' self.
Proof.
  intros Hp Hget. unfold BucketOps.may_load, get_with_prefix, concat. rewrite Hp, Hget, view_key.
  by case_decide.
Qed.

Lemma bucket_load_saved self self' k (x : T) b :
  to_vec x = inr b → bk_prefix self' = bk_prefix self →
  (∀ q, t_get q (bk_storage self') =
     if decide (q = bk_prefix self ++ k) then Some b else t_get q (bk_storage self)) →
  BucketOps.load k self' = inr x.
Proof.
  intros Hb Hp Hget. unfold BucketOps.load. rewrite must_may.
  pose proof (bucket_read_after self self' k (Some b) k Hp Hget) as Hr.
  rewrite decide_True in Hr by done. unfold BucketOps.may_load in Hr. rewrite Hr. cbn.
  by rewrite (proj1 (from_to x b Hb)).
Qed.

(** C18: A bucket is a map from keys to values of its type: a saved value is read back
    under its key, a removed one is missing, every other key is left alone, and [load]
    reports a missing value as not found. *)
Theorem bucket_is_a_typed_map {E} self k (x : T) b :
  t_ok (bk_storage self) → to_vec x = inr b →
  (∃ self', BucketOps.save k x self = (Ok tt, self') ∧ t_ok (bk_storage self') ∧
     BucketOps.load k self' = inr x ∧
     ∀ k', k' ≠ k → BucketOps.may_load (T := T) k' self' = BucketOps.may_load k' self) ∧
  (∃ self', (BucketOps.remove k : M E _ unit) self = (Ok tt, self') ∧ t_ok (bk_storage self') ∧
     BucketOps.load (T := T) k self' = inl (StdNotFound type_name) ∧
     ∀ k', k' ≠ k → BucketOps.may_load (T := T) k' self' = BucketOps.may_load k' self).
Proof.
  intros Hok Hb. split.
  - destruct (bucket_save_run self k x b Hok Hb) as (self' & Hrun & Hok' & Hp & Hget).
    exists self'. split_and!; [done..|by eapply bucket_load_saved|].
    intros k' Hk'. rewrite (bucket_read_after self self' k (Some b) k' Hp Hget).
    by rewrite decide_False.
  - destruct (bucket_remove_run (E := E) self k Hok) as (self' & Hrun & Hok' & Hp & Hget).
    exists self'. split_and!; [done..| |].
    + unfold BucketOps.load. rewrite must_may.
      pose proof (bucket_read_after self self' k None k Hp Hget) as Hr.
      rewrite decide_True in Hr by done. unfold BucketOps.may_load in Hr. by rewrite Hr.
    + intros k' Hk'. rewrite (bucket_read_after self self' k None k' Hp Hget).
      by rewrite decide_False.
Qed.

(** [update] of a bucket is all or nothing: it hands the stored value, or none, to
    the action and stores exactly what the action returns; when the stored bytes do not
    parse, the action fails or its result does not serialize, the error is returned and
    the storage is unchanged. *)
Theorem bucket_update_all_or_nothing {E} (from : StdError → E) self k action :
  t_ok (bk_storage self) →
  match BucketOps.may_load (T := T) k self with
  | inl e => BucketOps.update from k action self = (Err (from e), self)
  | inr input =>
      match action input with
      | inl e => BucketOps.update from k action self = (Err e, self)
      | inr x =>
          match to_vec x with
          | inl e => BucketOps.update from k action self = (Err (from e), self)
          | inr b =>
              ∃ self', BucketOps.update from k action self = (Ok x, self') ∧
                BucketOps.save k x self = (Ok tt, self') ∧ BucketOps.load k self' = inr x
          end
      end
  end.
Proof.
  intros Hok. unfold BucketOps.update, mbind, M_bind, map_err, get.
  destruct (BucketOps.may_load k self) as [e|input]; [done|]. cbn.
  destruct (action input) as [e|x]; [done|]. cbn.
  destruct (to_vec x) as [e|b] eqn:Hb; [unfold BucketOps.save; by rewrite Hb|].
  destruct (bucket_save_run self k x b Hok Hb) as (self' & Hrun & _ & Hp & Hget).
  exists self'. rewrite Hrun. split_and!; [done..|]. by eapply bucket_load_saved.
Qed.
End buckets.

(** * Typed storage in contracts

    How contract code uses buckets and singletons: [bucket(deps.storage, ..)] borrows the
    storage, an operation runs on it, and the storage is given back. *)

Section access.
Context `{StorageTrait St}.
Abbreviation DEPS := (M StdError St).

(** A bucket or singleton borrows the storage for a while. *)
Definition give_back {E A B} (storage : B → St) (r : outcome E A * B) : M E St A :=
  λ _, (r.1, storage r.2).
Definition on_bucket {E A} (namespace : bytes) (f : M E (Bucket St) A) : M E St A :=
  st ← get;
  self ← bucket st namespace;
  give_back bk_storage (f self).
Definition on_singleton {E A} (key : bytes) (f : M E (Singleton St) A) : M E St A :=
  st ← get;
  self ← singleton st key;
  give_back sg_storage (f self).
Definition read_singleton {T} `{Json T} (key : bytes) : DEPS T :=
  st ← get; self ← singleton_read st key; of_sum (SingletonOps.load self).
Definition read_bucket {T} `{Json T} (namespace key : bytes) : DEPS (option T) :=
  st ← get; self ← bucket_read st namespace; of_sum (BucketOps.may_load key self).

(** [update] with an action that can panic and assigns a variable of the caller. *)
Definition update_bucket {T X} `{Json T} (key : bytes) (action : option T → M StdError (Bucket St) (X * T))
    : M StdError (Bucket St) X :=
  input ← (self ← get; of_sum (BucketOps.may_load key self));
  r ← action input;
  _ ← BucketOps.save key r.2;
  mret r.1.
Definition update_singleton {T X} `{Json T} (action : T → M StdError (Singleton St) (X * T))
    : M StdError (Singleton St) X :=
  input ← (self ← get; of_sum (SingletonOps.load self));
  r ← action input;
  _ ← SingletonOps.save r.2;
  mret r.1.

(** [load] of a bucket that is borrowed for it. *)
Definition load_bucket {T} `{Json T} (namespace key : bytes) : DEPS T :=
  on_bucket namespace (self ← get; of_sum (BucketOps.load key self)).
End access.

(** ** Runs *)
Lemma of_sum_Ok {E S A} (r : E + A) (s s' : S) a : of_sum r s = (Ok a, s') → r = inr a ∧ s' = s.
Proof. destruct r; cbn; [intros [=]|intros [= -> ->]]. by split. Qed.

Section runs.
Context `{!StorageTrait St}.

Lemma on_bucket_run {E A} ns (f : M E (Bucket St) A) st r self' :
  short ns → f (mkBucket st (lp ns)) = (r, self') → on_bucket ns f st = (r, bk_storage self').
Proof.
  intros Hns Hf. unfold on_bucket. rewrite bind_get. unfold bucket, Bucket_new. rewrite bind_assoc.
  rewrite (bind_Ok _ _ _ _ _ (to_length_prefixed_short ns st Hns)), bind_ret_l, Hf. done.
Qed.
Lemma on_singleton_run {E A} key (f : M E (Singleton St) A) st r self' :
  short key → f (mkSingleton st (lp key)) = (r, self') → on_singleton key f st = (r, sg_storage self').
Proof.
  intros Hns Hf. unfold on_singleton. rewrite bind_get. unfold singleton, Singleton_new. rewrite bind_assoc.
  rewrite (bind_Ok _ _ _ _ _ (to_length_prefixed_short key st Hns)), bind_ret_l, Hf. done.
Qed.


Lemma read_singleton_run {T} `{!Json T} key (st : St) :
  short key → read_singleton (T := T) key st = of_sum (must_deserialize (t_get (lp key) st)) st.
Proof.
  intros Hk. unfold read_singleton. rewrite bind_get. unfold singleton_read, ReadonlySingleton_new. rewrite bind_assoc.
  by rewrite (bind_Ok _ _ _ _ _ (to_length_prefixed_short key st Hk)), bind_ret_l.
Qed.
Lemma load_bucket_run {T} `{!Json T} ns k (st : St) :
  short ns → load_bucket (T := T) ns k st = of_sum (must_deserialize (t_get (lp ns ++ k) st)) st.
Proof.
  intros Hns. unfold load_bucket.
  assert (∀ r : StdError + T, BucketOps.load k (mkBucket st (lp ns)) = r →
    on_bucket ns (self ← get; of_sum (BucketOps.load (T := T) k self)) st = of_sum r st) as H.
  { intros r Hr. destruct r as [e|x]; erewrite on_bucket_run with (self' := mkBucket st (lp ns)); try done;
      rewrite bind_get, Hr; done. }
  by apply H.
Qed.

Context `{!StorageSpec St} `{!Json T, !JsonSpec T}.

Lemma on_bucket_save ns k (x : T) b st :
  short ns → t_ok st → to_vec x = inr b →
  ∃ st', on_bucket ns (BucketOps.save k x) st = (Ok tt, st') ∧ t_ok st' ∧
    ∀ q, t_get q st' = if decide (q = lp ns ++ k) then Some b else t_get q st.
Proof.
  intros Hns Hok Hb. destruct (bucket_save_run (mkBucket st (lp ns)) k x b Hok Hb) as (self' & Hrun & Hok' & _ & Hget).
  exists (bk_storage self'). split_and!; [|done..]. by apply on_bucket_run.
Qed.
Lemma on_bucket_update ns k (action : option T → StdError + T) old x b st :
  short ns → t_ok st → may_deserialize (t_get (lp ns ++ k) st) = inr old → action old = inr x → to_vec x = inr b →
  ∃ st', on_bucket ns (BucketOps.update (λ e, e) k action) st = (Ok x, st') ∧ t_ok st' ∧
    ∀ q, t_get q st' = if decide (q = lp ns ++ k) then Some b else t_get q st.
Proof.
  intros Hns Hok Hold Hact Hb.
  destruct (bucket_save_run (mkBucket st (lp ns)) k x b Hok Hb) as (self' & Hrun & Hok' & _ & Hget).
  exists (bk_storage self'). split_and!; [|done..]. apply on_bucket_run; [done|].
  unfold BucketOps.update. unfold map_err, mbind, M_bind, get.
  change (BucketOps.may_load k (mkBucket st (lp ns))) with (may_deserialize (T := T) (t_get (lp ns ++ k) st)).
  rewrite Hold. cbn. rewrite Hact. cbn. by rewrite Hrun.
Qed.
End runs.
