(* ===== verification/Analyzer.v ===== *)
(** * The schema analyzer ([core/src/analyzer.rs])

    [Analyzer] reads the JSON schema files of a contract and collects its base
    types, its structures and the members of its messages. A JSON object is the
    list of its entries in the order of [serde_json::Map], which is the order of
    the keys. *)

From Stdlib Require Import Ascii.
From S2P Require Import Prelude.
From S2P Require Import Errors.

Open Scope Z_scope.

(** Chains of [match .. { None => continue, Some(x) => .. }]. *)
Definition and_then {A B} (o : option A) (f : A → option B) : option B :=
  match o with Some a => f a | None => None end.
Infix "?>" := and_then (at level 61, left associativity).

(** ** [serde_json::Value] *)
Inductive Json :=
| JNull
| JBool (b : bool)
| JNumber (z : Z)
| JString (s : string)
| JArray (l : list Json)
| JObject (l : list (string * Json)).

Definition as_array (v : Json) : option (list Json) :=
  match v with JArray l => Some l | _ => None end.
Definition as_str (v : Json) : option string :=
  match v with JString s => Some s | _ => None end.
Definition as_object (v : Json) : option (list (string * Json)) :=
  match v with JObject l => Some l | _ => None end.

Definition map_get (k : string) (l : list (string * Json)) : option Json :=
  snd <$> List.find (λ kv, String.eqb kv.1 k) l.

(** [Value::get] with a string key. *)
Definition json_get (k : string) (v : Json) : option Json :=
  match v with JObject l => map_get k l | _ => None end.

(** [v["key"]] and [v[0]]: [Null] when there is nothing. *)
Definition json_index (k : string) (v : Json) : Json := default JNull (json_get k v).
Definition json_first (v : Json) : Json :=
  match v with JArray (x :: _) => x | _ => JNull end.

(** ** Names *)

(** What follows the last slash, if there is one. *)
Fixpoint after_last_slash (s : string) : option string :=
  match s with
  | EmptyString => None
  | String c s' =>
      match after_last_slash s' with
      | Some t => Some t
      | None => if Ascii.eqb c "/" then Some s' else None
      end
  end.

(** [s.split_at(s.rfind('/').unwrap_or(0) + 1).1]: without a slash the first
    character is cut off, which panics when there is none or when it is longer
    than one byte. *)
Definition short_name {S} (s : string) : M Error S string :=
  match after_last_slash s with
  | Some t => mret t
  | None =>
      match s with
      | EmptyString => panic "byte index 1 is out of bounds"
      | String c s' =>
          if (nat_of_ascii c <? 128)%nat then mret s'
          else panic "byte index 1 is not a char boundary"
      end
  end.

(** ** Analyzer *)
Record Member := mkMember { member_name : string; member_def : string }.

Record Analyzer := mkAnalyzer {
  map_of_basetype : gmap string string;
  map_of_struct : gmap string (gmap string string);
  map_of_member : gmap string (gmap string (list Member))
}.

Definition Analyzer_default : Analyzer := mkAnalyzer ∅ ∅ ∅.

Definition definitions_prefix : string := "#/definitions".

(** One entry of [required]; [None] is the [continue] of the loop. *)
Definition member_of {S} (properties req : Json) : M Error S (option Member) :=
  match as_str req with
  | None => mret None
  | Some req_str =>
      match json_get req_str properties with
      | None => mret None
      | Some proper =>
          let type_name := match json_get "type" proper with
                           | Some s => Some s
                           | None => json_get "$ref" proper
                           end in
          match type_name ?> as_str with
          | None => mret None
          | Some name =>
              if String.eqb name "array" then
                match json_get "items" proper ?> json_get "$ref" ?> as_str with
                | None => mret None
                | Some item => sn ← short_name item; mret (Some (mkMember req_str sn))
                end
              else if String.prefix definitions_prefix name then
                sn ← short_name name; mret (Some (mkMember req_str sn))
              else mret (Some (mkMember req_str name))
          end
      end
  end.

Fixpoint members_of {S} (properties : Json) (reqs : list Json) : M Error S (list Member) :=
  match reqs with
  | [] => mret []
  | req :: rest =>
      o ← member_of properties req;
      ms ← members_of properties rest;
      mret (match o with Some m => m :: ms | None => ms end)
  end.

(** [build_member], on the map of one schema. *)
Definition build_member (required properties : Json) (mem_name : string)
    : M Error (gmap string (list Member)) bool :=
  match as_array required with
  | None => mret false
  | Some req_arr =>
      _ ← modify (<[mem_name := []]>);
      vec_mem ← members_of properties req_arr;
      _ ← modify (<[mem_name := vec_mem]>);
      mret true
  end.

(** The inner loop of [prepare_definitions]: the referenced types of a structure
    are added to [vec_struct]. *)
Fixpoint struct_fields {S} (prop_map : list (string * Json)) (vec_struct : gmap string string)
    : M Error S (gmap string string) :=
  match prop_map with
  | [] => mret vec_struct
  | (p, v) :: rest =>
      match json_get "$ref" v ?> as_str with
      | None => struct_fields rest vec_struct
      | Some def_str =>
          sn ← short_name def_str;
          struct_fields rest (<[p := sn]> vec_struct)
      end
  end.

(** The outer loop: [vec_struct] is made once, before the loop, and is not
    emptied between structures. *)
Fixpoint definitions_loop (def_arr : list (string * Json)) (vec_struct : gmap string string)
    : M Error Analyzer unit :=
  match def_arr with
  | [] => mret tt
  | (d, v) :: rest =>
      match json_get "type" v with
      | None => definitions_loop rest vec_struct
      | Some type_def =>
          if bool_decide (as_str type_def = Some "object") then
            match json_get "properties" v ?> as_object with
            | None => definitions_loop rest vec_struct
            | Some prop_map =>
                vec_struct ← struct_fields prop_map vec_struct;
                _ ← modify (λ a, mkAnalyzer (map_of_basetype a)
                              (<[d := vec_struct]> (map_of_struct a)) (map_of_member a));
                definitions_loop rest vec_struct
            end
          else
            match as_str type_def with
            | None => definitions_loop rest vec_struct
            | Some def =>
                _ ← modify (λ a, mkAnalyzer (<[d := def]> (map_of_basetype a))
                              (map_of_struct a) (map_of_member a));
                definitions_loop rest vec_struct
            end
      end
  end.

Definition prepare_definitions (def : Json) : M Error Analyzer bool :=
  match as_object def with
  | None => mret false
  | Some def_arr => _ ← definitions_loop def_arr ∅; mret true
  end.

(** [build_member] on the entry of [map_of_member] for [title]. *)
Definition build_member_at (title : string) (required properties : Json) (name : string)
    : M Error Analyzer unit :=
  a ← get;
  match build_member required properties name (default ∅ (map_of_member a !! title)) with
  | (Ok _, m) => put (mkAnalyzer (map_of_basetype a) (map_of_struct a)
                        (<[title := m]> (map_of_member a)))
  | (Err e, m) => throw e
  | (Panic p, m) => panic p
  | (OutOfFuel, m) => out_of_fuel
  end.

(** One alternative of [anyOf]. *)
Definition any_of_item (title : string) (sub_item : Json) : M Error Analyzer unit :=
  match json_get "required" sub_item with
  | None => mret tt
  | Some requreid =>
      match as_str (json_first requreid) with
      | None => mret tt
      | Some name =>
          match json_get "properties" sub_item ?> json_get name with
          | None => mret tt
          | Some required =>
              match json_get "properties" required with
              | None => mret tt
              | Some properties =>
                  match as_object required ?> map_get "required" with
                  | None => mret tt
                  | Some target_required =>
                      if String.eqb name "null" then mret tt
                      else build_member_at title target_required properties name
                  end
              end
          end
      end
  end.

Fixpoint any_of_loop (title : string) (array : list Json) : M Error Analyzer unit :=
  match array with
  | [] => mret tt
  | sub_item :: rest => _ ← any_of_item title sub_item; any_of_loop title rest
  end.

Fixpoint schema_loop (title : string) (mapping : list (string * Json))
    (entries : list (string * Json)) : M Error Analyzer unit :=
  match entries with
  | [] => mret tt
  | (k, v) :: rest =>
      _ ← (if String.eqb k "definitions" then _ ← prepare_definitions v; mret tt
           else if String.eqb k "required" then
             match map_get "properties" mapping with
             | None => mret tt
             | Some properties => build_member_at title v properties title
             end
           else if String.eqb k "anyOf" then
             match as_array v with
             | None => mret tt
             | Some array => any_of_loop title array
             end
           else mret tt);
      schema_loop title mapping rest
  end.

Section files.
(** The file and the JSON parser. *)
Context (load_data_from_file : string → option bytes) (json_from_slice : bytes → option Json).

Definition analyze_schema (path : string) : M Error Analyzer bool :=
  match load_data_from_file path ?> json_from_slice with
  | None => mret false
  | Some translated =>
      match as_str (json_index "title" translated) with
      | None => mret false
      | Some title =>
          match as_object translated with
          | None => mret false
          | Some mapping =>
              _ ← modify (λ a, mkAnalyzer (map_of_basetype a) (map_of_struct a)
                            (<[title := ∅]> (map_of_member a)));
              _ ← schema_loop title mapping mapping;
              mret true
          end
      end
  end.

(** [try_load_json_schema]: every file of the directory, whatever its analysis
    says; [read_dir] gives the paths. *)
Fixpoint load_all (paths : list string) : M Error Analyzer unit :=
  match paths with
  | [] => mret tt
  | p :: rest => _ ← analyze_schema p; load_all rest
  end.

Definition try_load_json_schema (read_dir : string → option (list string)) (dir : string)
    : M Error Analyzer bool :=
  match read_dir dir with
  | None => mret false
  | Some paths => _ ← load_all paths; mret true
  end.
End files.

(** ** What the structures of a schema are *)

(** The fields of a structure that refer to a type by a path with a slash. *)
Fixpoint own_fields (prop_map : list (string * Json)) : gmap string string :=
  match prop_map with
  | [] => ∅
  | (p, v) :: rest =>
      match json_get "$ref" v ?> as_str ?> after_last_slash with
      | None => own_fields rest
      | Some sn => own_fields rest ∪ {[p := sn]}
      end
  end.

(** A schema as the generator writes it: references are paths. *)
Definition refs_ok (prop_map : list (string * Json)) : Prop :=
  Forall (λ pv, ∀ s, json_get "$ref" pv.2 ?> as_str = Some s → is_Some (after_last_slash s)) prop_map.

(** The structures of [definitions], with their properties. *)
Definition struct_of (dv : string * Json) : option (list (string * Json)) :=
  match json_get "type" dv.2 with
  | Some type_def =>
      if bool_decide (as_str type_def = Some "object")
      then json_get "properties" dv.2 ?> as_object else None
  | None => None
  end.

Lemma struct_fields_run {S} prop_map vec (s : S) :
  refs_ok prop_map → struct_fields prop_map vec s = (Ok (own_fields prop_map ∪ vec), s).
Proof.
  intros Hok. revert vec. induction Hok as [|[p v] rest Hv _ IH]; intros vec; cbn.
  - by rewrite (left_id ∅ (∪)).
  - cbn in Hv. destruct (json_get "$ref" v ?> as_str) as [d|] eqn:Hd; [|apply IH].
    destruct (Hv d eq_refl) as [t Ht]. cbn. rewrite Ht. unfold short_name. rewrite Ht.
    rewrite bind_ret_l, IH. do 2 f_equal. by rewrite insert_union_singleton_l, (assoc (∪)).
Qed.

(** The fields that have piled up after some definitions. *)
Fixpoint piled_up (def_arr : list (string * Json)) (vec : gmap string string) : gmap string string :=
  match def_arr with
  | [] => vec
  | dv :: rest =>
      match struct_of dv with
      | Some props => piled_up rest (own_fields props ∪ vec)
      | None => piled_up rest vec
      end
  end.

Definition struct_vec (dv : string * Json) (vec : gmap string string) : gmap string string :=
  match struct_of dv with Some props => own_fields props ∪ vec | None => vec end.

(** One round of the outer loop. *)
Lemma definitions_loop_cons d v rest vec a :
  (∀ props, struct_of (d, v) = Some props → refs_ok props) →
  ∃ a1, definitions_loop ((d, v) :: rest) vec a = definitions_loop rest (struct_vec (d, v) vec) a1 ∧
    map_of_struct a1 =
      match struct_of (d, v) with
      | Some props => <[d := own_fields props ∪ vec]> (map_of_struct a)
      | None => map_of_struct a
      end.
Proof.
  unfold struct_vec, struct_of. cbn. intros Hok.
  destruct (json_get "type" v) as [t|]; [|by exists a].
  destruct (bool_decide (as_str t = Some "object")).
  - destruct (json_get "properties" v ?> as_object) as [props|]; [|by exists a].
    rewrite (bind_Ok _ _ _ _ _ (struct_fields_run props vec a (Hok props eq_refl))).
    by eexists.
  - destruct (as_str t) as [def|]; [by eexists|by exists a].
Qed.

Lemma definitions_loop_struct def_arr vec a :
  (∀ dv props, dv ∈ def_arr → struct_of dv = Some props → refs_ok props) →
  ∃ a', definitions_loop def_arr vec a = (Ok tt, a') ∧
    (∀ d, d ∉ def_arr.*1 → map_of_struct a' !! d = map_of_struct a !! d) ∧
    (∀ pre d v props post, def_arr = pre ++ (d, v) :: post → d ∉ post.*1 →
       struct_of (d, v) = Some props →
       map_of_struct a' !! d = Some (own_fields props ∪ piled_up pre vec)).
Proof.
  revert vec a. induction def_arr as [|[d v] rest IH]; intros vec a Hok.
  { exists a. split_and!; [done|done|]. by intros [|? ?] * [=]. }
  destruct (definitions_loop_cons d v rest vec a) as (a1 & Hstep & Ha1).
  { intros props. apply Hok. set_solver. }
  destruct (IH (struct_vec (d, v) vec) a1) as (a' & Hrun & Hout & Hin).
  { intros dv props Hdv. apply Hok. set_solver. }
  exists a'. rewrite Hstep. split_and!; [done| |].
  - intros d' Hd'. cbn in Hd'. apply not_elem_of_cons in Hd' as [Hne Hd'].
    rewrite Hout, Ha1 by done. destruct (struct_of (d, v)); [|done]. by rewrite lookup_insert_ne.
  - intros [|dv pre] d' v' props post Heq Hd' Hs; simplify_eq/=.
    + rewrite Hout, Ha1, Hs by done. by rewrite lookup_insert_eq.
    + rewrite (Hin pre d' v' props post eq_refl Hd' Hs). unfold struct_vec.
      by destruct (struct_of (d, v)).
Qed.

(** In a schema whose references are paths, the structure the analyzer
    records under a name has the fields of its definition, but also those of
    every structure defined before it: the table of fields is not emptied
    between structures. *)
Theorem struct_fields_pile_up def_arr a pre d v props post :
  (∀ dv props, dv ∈ def_arr → struct_of dv = Some props → refs_ok props) →
  def_arr = pre ++ (d, v) :: post → d ∉ post.*1 →
  struct_of (d, v) = Some props →
  ∃ a', prepare_definitions (JObject def_arr) a = (Ok true, a') ∧
    map_of_struct a' !! d = Some (own_fields props ∪ piled_up pre ∅).
Proof.
  intros Hok Heq Hd Hs. destruct (definitions_loop_struct def_arr ∅ a Hok) as (a' & Hrun & _ & Hin).
  exists a'. split; [|by eapply Hin]. unfold prepare_definitions. cbn.
  by rewrite (bind_Ok _ _ _ _ _ Hrun).
Qed.
