(* ===== verification/Rpc.v ===== *)
(** * The RPC client ([core/src/fork/rpc.rs])

    [CwRpcClient] answers the simulator's questions about the chain by ABCI
    queries to a node, and keeps the answers in a cache that is stored in a file
    per node and block. The node and its message formats are parameters
    ([Node]); the file system is modelled as far as the cache uses it. *)

From S2P Require Import Prelude.
From S2P Require Import Bytes.
From S2P Require Import CwStd.
From S2P Require Import Errors.
From S2P Require Import Client.
From S2P Require Import Storage.
From S2P Require Import States.
From S2P Require Import Bank.

Open Scope Z_scope.

(** ** The files the cache uses *)
Record FileSystem := mkFileSystem {
  home : option string;            (* the environment variable HOME *)
  dirs : gset string;
  files : gmap string bytes;
  io_fault : string → option string (* operations on this path fail *)
}.

Definition set_files (m : gmap string bytes) (fs : FileSystem) : FileSystem :=
  mkFileSystem (home fs) (dirs fs) m (io_fault fs).

Section io.
Abbreviation IO := (M string FileSystem).

Definition io_check (path : string) : IO unit :=
  fs ← get;
  match io_fault fs path with Some e => throw e | None => mret tt end.

Definition create_dir (path : string) : IO unit :=
  _ ← io_check path;
  modify (λ fs, mkFileSystem (home fs) ({[path]} ∪ dirs fs) (files fs) (io_fault fs)).

(** [OpenOptions::new().read(true).write(true).create(true)]: no truncation. *)
Definition rwopen (path : string) : IO unit :=
  _ ← io_check path;
  modify (λ fs, set_files (<[path := default [] (files fs !! path)]> (files fs)) fs).

Definition read_to_end (path : string) : IO bytes :=
  _ ← io_check path;
  gets (λ fs, default [] (files fs !! path)).

(** [seek(Start(0))] and [write]: what was longer keeps its tail. A short write,
    which the call allows and whose count the code does not look at, is left out. *)
Definition write_at_start (path : string) (data : bytes) : IO unit :=
  _ ← io_check path;
  modify (λ fs, set_files
    (<[path := data ++ drop (length data) (default [] (files fs !! path))]> (files fs)) fs).
End io.

(** ** The node and its formats *)
Inductive NodeError := NTokio (s : string) | NRpc (s : string).

Record AbciQuery := mkAbciQuery { abci_ok : bool; abci_log : string; abci_value : bytes }.

(** [RpcCacheInner], what is written to the file. *)
Record RpcCacheInner := mkRpcCacheInner {
  db : gmap (string * bytes) bytes;
  cache_chain_id : string;
  cache_timestamp : Z
}.
Definition RpcCacheInner_default : RpcCacheInner := mkRpcCacheInner ∅ "" 0.

Class Node := {
  Http : Type;
  http_new : string → string + Http;
  http_abci_query : string → bytes → Z → M NodeError Http AbciQuery;
  (** network and latest height *)
  http_status : M NodeError Http (string * Z);
  (** nanoseconds from the epoch to the time of a block *)
  http_block : Z → M NodeError Http (string + Z);
  (** [abci::Path::from_str] and [Height::try_from] *)
  abci_path : string → string + unit;
  height_try_from : Z → string + Z;
  (** prost *)
  enc_balances_request : string → string + bytes;
  enc_smart_request : string → bytes → string + bytes;
  enc_state_request : string → string + bytes;
  enc_info_request : string → string + bytes;
  enc_code_request : Z → string + bytes;
  dec_balances_response : bytes → string + list (string * string);
  dec_smart_response : bytes → string + bytes;
  dec_state_response : bytes → string + list (bytes * bytes);
  dec_info_response : bytes → string + option Z;
  dec_code_response : bytes → string + bytes;
  (** hex and bincode *)
  sha256hex : string → string;
  bincode_serialize : RpcCacheInner → string + bytes;
  bincode_deserialize : bytes → string + RpcCacheInner
}.

(** ** RpcCache *)
Inductive RpcCache :=
| CacheEmpty
| FileBacked (inner : RpcCacheInner) (initialized : bool) (file_name : string).

Definition RPC_CACHE_DIRNAME : string := ".cw-rpc-cache".

Section cache.
Context {HN : Node}.

Definition cache_file_name (h : string) (url : string) (block_number : Z) : string :=
  h +:+ "/" +:+ RPC_CACHE_DIRNAME +:+ "/" +:+
  sha256hex (url +:+ "||" +:+ pretty block_number).

Definition file_backed (url : string) (block_number : Z) : M Error FileSystem RpcCache :=
  fs ← get;
  let homedir := default "/tmp/" (home fs) in
  let cachedir := homedir +:+ "/" +:+ RPC_CACHE_DIRNAME in
  let cachefile := cache_file_name homedir url block_number in
  _ ← (if bool_decide (cachedir ∈ dirs fs) then mret tt else map_err IoError (create_dir cachedir));
  if bool_decide (is_Some (files fs !! cachefile)) then
    _ ← map_err IoError (rwopen cachefile);
    file_contents ← map_err IoError (read_to_end cachefile);
    match bincode_deserialize file_contents with
    | inl e => throw (FormatError e)
    | inr inner => mret (FileBacked inner true cachefile)
    end
  else
    _ ← map_err IoError (rwopen cachefile);
    mret (FileBacked RpcCacheInner_default false cachefile).

Definition cache_read (c : RpcCache) (path : string) (data : bytes) : option bytes :=
  match c with
  | CacheEmpty => None
  | FileBacked inner _ _ => db inner !! (path, data)
  end.

Definition cache_get_chain_id (c : RpcCache) : option string :=
  match c with FileBacked inner _ _ => Some (cache_chain_id inner) | CacheEmpty => None end.
Definition cache_get_timestamp (c : RpcCache) : option Z :=
  match c with FileBacked inner _ _ => Some (cache_timestamp inner) | CacheEmpty => None end.

Definition cache_write (path : string) (data response : bytes) (c : RpcCache) : RpcCache :=
  match c with
  | CacheEmpty => CacheEmpty
  | FileBacked inner i f =>
      FileBacked (mkRpcCacheInner (<[(path, data) := response]> (db inner))
                    (cache_chain_id inner) (cache_timestamp inner)) i f
  end.

(** [save], which [Drop] calls and whose result it ignores. *)
Definition cache_save (c : RpcCache) : M Error FileSystem unit :=
  match c with
  | CacheEmpty => mret tt
  | FileBacked inner _ f =>
      serialized ← of_sum (match bincode_serialize inner with
                           | inl e => inl (FormatError e) | inr b => inr b end);
      map_err IoError (write_at_start f serialized)
  end.

(** [Clone for RpcCache]: the copy opens the file again and counts as initialized. *)
Definition cache_clone (c : RpcCache) : M Error FileSystem RpcCache :=
  match c with
  | CacheEmpty => mret CacheEmpty
  | FileBacked inner _ f => λ fs,
      match rwopen f fs with
      | (Ok _, fs') => (Ok (FileBacked inner true f), fs')
      | (_, fs') => (Panic "called `Result::unwrap()` on an `Err` value", fs')
      end
  end.

Definition cache_initialized (c : RpcCache) : bool :=
  match c with CacheEmpty => true | FileBacked _ i _ => i end.

Definition set_cache_chain_id (s : string) (c : RpcCache) : RpcCache :=
  match c with
  | CacheEmpty => CacheEmpty
  | FileBacked inner i f =>
      FileBacked (mkRpcCacheInner (db inner) s (cache_timestamp inner)) i f
  end.
Definition set_cache_timestamp (t : Z) (c : RpcCache) : RpcCache :=
  match c with
  | CacheEmpty => CacheEmpty
  | FileBacked inner i f =>
      FileBacked (mkRpcCacheInner (db inner) (cache_chain_id inner) t) i f
  end.
End cache.

(** ** CwRpcClient *)
Record CwRpcClient {HN : Node} := mkCwRpcClient {
  rpc_inner : Http;
  rpc_block_number : Z;
  rpc_cache : RpcCache
}.
Arguments CwRpcClient : clear implicits.
Arguments mkCwRpcClient {HN}.

Section client.
Context {HN : Node}.
Abbreviation CL := (M Error (CwRpcClient HN)).

Definition set_inner (h : Http) (c : CwRpcClient HN) : CwRpcClient HN :=
  mkCwRpcClient h (rpc_block_number c) (rpc_cache c).
Definition set_cache (k : RpcCache) (c : CwRpcClient HN) : CwRpcClient HN :=
  mkCwRpcClient (rpc_inner c) (rpc_block_number c) k.

(** [wait_future(..)?.map_err(Error::rpc_error)?]. *)
Definition node_error (e : NodeError) : Error :=
  match e with NTokio s => TokioError s | NRpc s => RpcError s end.
Definition on_node {A} (m : M NodeError Http A) : CL A :=
  map_err node_error (zoom rpc_inner set_inner m).

Definition tendermint {A} (r : string + A) : CL A :=
  of_sum (match r with inl e => inl (TendermintError e) | inr a => inr a end).
Definition format_err {A} (r : string + A) : CL A :=
  of_sum (match r with inl e => inl (FormatError e) | inr a => inr a end).

Definition abci_query_raw (path_ : string) (data : bytes) : CL bytes :=
  c ← get;
  match cache_read (rpc_cache c) path_ data with
  | Some in_db => mret in_db
  | None =>
      _ ← tendermint (abci_path path_);
      height ← tendermint (height_try_from (rpc_block_number c));
      result ← on_node (http_abci_query path_ data height);
      if abci_ok result then
        _ ← modify (λ c, set_cache (cache_write path_ data (abci_value result) (rpc_cache c)) c);
        mret (abci_value result)
      else throw (TendermintError (abci_log result))
  end.

Definition rpc_chain_id : CL string :=
  c ← get;
  match cache_get_chain_id (rpc_cache c) with
  | Some chain_id => mret chain_id
  | None => status ← on_node http_status; mret status.1
  end.

Definition rpc_timestamp : CL Z :=
  c ← get;
  match cache_get_timestamp (rpc_cache c) with
  | Some timestamp_ns => mret timestamp_ns
  | None =>
      height ← tendermint (height_try_from (rpc_block_number c));
      time ← on_node (http_block height);
      nanos ← tendermint time;
      if nanos <? U64 then mret nanos
      else throw (TendermintError "out of range integral type conversion attempted")
  end.

Definition rpc_block_height : CL Z := status ← on_node http_status; mret status.2.

(** [serialize(&request).unwrap()], the query, the decoder. *)
Definition rpc_call {A} (path : string) (request : string + bytes) (decode : bytes → string + A)
    : CL A :=
  match request with
  | inl _ => panic "called `Result::unwrap()` on an `Err` value"
  | inr data => out ← abci_query_raw path data; format_err (decode out)
  end.

(** [u128::from_str(&x.amount).unwrap()] for every coin. *)
Fixpoint parse_balances (l : list (string * string)) : option (list (string * Z)) :=
  match l with
  | [] => Some []
  | (d, a) :: l' =>
      match parse_uint U128 a, parse_balances l' with
      | Some n, Some r => Some ((d, n) :: r)
      | _, _ => None
      end
  end.

Definition rpc_query_bank_all_balances (address : string) : CL (list (string * Z)) :=
  balances ← rpc_call "/cosmos.bank.v1beta1.Query/AllBalances" (enc_balances_request address)
               dec_balances_response;
  unwrap "called `Result::unwrap()` on an `Err` value" (parse_balances balances).

Definition rpc_query_wasm_contract_smart (address : string) (query_data : bytes) : CL bytes :=
  rpc_call "/cosmwasm.wasm.v1.Query/SmartContractState" (enc_smart_request address query_data)
    dec_smart_response.

Definition insert_models (models : list (bytes * bytes)) : gmap bytes bytes :=
  foldl (λ out kv, <[kv.1 := kv.2]> out) ∅ models.

Definition rpc_query_wasm_contract_state_all (address : string) : CL (gmap bytes bytes) :=
  models ← rpc_call "/cosmwasm.wasm.v1.Query/AllContractState" (enc_state_request address)
             dec_state_response;
  mret (insert_models models).

Definition rpc_query_wasm_contract_info (address : string) : CL RpcContractInfo :=
  info ← rpc_call "/cosmwasm.wasm.v1.Query/ContractInfo" (enc_info_request address)
           dec_info_response;
  match info with
  | Some code_id => mret (mkRpcContractInfo code_id)
  | None => throw (InvalidArg ("address " +:+ address +:+ " is most likely not a contract address"))
  end.

Definition rpc_query_wasm_contract_code (code_id : Z) : CL bytes :=
  rpc_call "/cosmwasm.wasm.v1.Query/Code" (enc_code_request code_id) dec_code_response.

#[export] Instance CwRpcClient_backend : CwClientBackend (CwRpcClient HN) := {|
  cb_block_number := rpc_block_number;
  cb_chain_id := rpc_chain_id;
  cb_timestamp := rpc_timestamp;
  cb_block_height := rpc_block_height;
  cb_query_bank_all_balances := rpc_query_bank_all_balances;
  cb_query_wasm_contract_smart := rpc_query_wasm_contract_smart;
  cb_query_wasm_contract_state_all := rpc_query_wasm_contract_state_all;
  cb_query_wasm_contract_info := rpc_query_wasm_contract_info;
  cb_query_wasm_contract_code := rpc_query_wasm_contract_code
|}.

(** A method of the client called while [new] builds it: the file system is not
    touched. (An error of such a call drops the client, and [Drop] saves its
    cache; at the calls of [new] that can fail the cache is still empty, and saving it
    writes nothing.) *)
Definition on_fs {A} (m : CL A) (rv : CwRpcClient HN)
    : M Error FileSystem (A * CwRpcClient HN) := λ fs,
  match m rv with
  | (Ok a, rv') => (Ok (a, rv'), fs)
  | (Err e, _) => (Err e, fs)
  | (Panic p, _) => (Panic p, fs)
  | (OutOfFuel, _) => (OutOfFuel, fs)
  end.

(** [CwRpcClient::new]. In the first branch the block number of the new client is
    not set. *)
Definition CwRpcClient_new (url : string) (block_number : option Z)
    : M Error FileSystem (CwRpcClient HN) :=
  match http_new url with
  | inl e => throw (RpcError e)
  | inr h =>
      let rv := mkCwRpcClient h 0 CacheEmpty in
      match block_number with
      | Some bn =>
          cache ← file_backed url bn;
          let rv := set_cache cache rv in
          if negb (cache_initialized (rpc_cache rv)) then
            tr ← on_fs rpc_timestamp rv;
            let '(timestamp, rv) := tr in
            cr ← on_fs rpc_chain_id rv;
            let '(chain_id, rv) := cr in
            mret (set_cache (set_cache_timestamp timestamp
                    (set_cache_chain_id chain_id (rpc_cache rv))) rv)
          else mret rv
      | None =>
          hr ← on_fs rpc_block_height rv;
          let '(block_height, rv) := hr in
          cr ← on_fs rpc_chain_id rv;
          let '(chain_id, rv) := cr in
          let rv := mkCwRpcClient (rpc_inner rv) block_height (rpc_cache rv) in
          tr ← on_fs rpc_timestamp rv;
          let '(timestamp, rv) := tr in
          cache ← file_backed url block_height;
          mret (set_cache (set_cache_timestamp timestamp (set_cache_chain_id chain_id cache)) rv)
      end
  end.
End client.

(** ** The client shows one chain *)
Section chain.
Context {HN : Node}.
Abbreviation CL := (M Error (CwRpcClient HN)).
Implicit Types c : CwRpcClient HN.

(** What the chain answers at a block number, and the node's promise to answer with it
    when it is asked for a block, that is a height above 0 (0 means the latest block). *)
Context (chain : Z → string → bytes → option bytes).
Context (Hchain : ∀ p d n h s q s', 0 < n →
  height_try_from n = inr h → http_abci_query p d h s = (Ok q, s') → abci_ok q = true →
  chain n p d = Some (abci_value q)).

(** The client is at a block, and what is in the cache came from the chain at that block. *)
Definition rpc_inv c : Prop :=
  0 < rpc_block_number c ∧
  ∀ p d v, cache_read (rpc_cache c) p d = Some v → chain (rpc_block_number c) p d = Some v.

Definition rpc_stable c c' : Prop :=
  rpc_inv c → rpc_inv c' ∧ rpc_block_number c' = rpc_block_number c.

Local Instance rpc_stable_refl : Reflexive rpc_stable.
Proof. by intros c. Qed.
Local Instance rpc_stable_trans : Transitive rpc_stable.
Proof.
  intros c1 c2 c3 H12 H23 H1. destruct (H12 H1) as [H2 E2]. destruct (H23 H2) as [H3 E3].
  split; [done|congruence].
Qed.

Lemma cache_read_write p d v k p' d' :
  cache_read (cache_write p d v k) p' d' =
    match k with
    | CacheEmpty => None
    | FileBacked inner _ _ => if decide ((p', d') = (p, d)) then Some v else db inner !! (p', d')
    end.
Proof.
  destruct k as [|inner i f]; cbn; [done|]. rewrite lookup_insert.
  repeat case_decide; congruence.
Qed.

(** Every way an ABCI query can go. *)
Lemma abci_query_raw_run p d c :
  rpc_stable c (abci_query_raw p d c).2 ∧
  ∀ v c', abci_query_raw p d c = (Ok v, c') → rpc_inv c → chain (rpc_block_number c) p d = Some v.
Proof.
  unfold abci_query_raw. rewrite bind_get.
  destruct (cache_read (rpc_cache c) p d) as [v|] eqn:Hr.
  { split; [done|]. intros v' c' [= <- <-] Hinv. by apply Hinv. }
  unfold tendermint, on_node, mbind, M_bind. destruct (abci_path p); [done|cbn].
  destruct (height_try_from (rpc_block_number c)) as [e|h] eqn:Hh; [done|cbn].
  unfold map_err, zoom. destruct (http_abci_query p d h (rpc_inner c)) as [[q|e|s|] s'] eqn:Hq; [|done..].
  destruct (abci_ok q) eqn:Hok; [|done]. cbn.
  assert (rpc_inv c → chain (rpc_block_number c) p d = Some (abci_value q)) as Hv by (intros [? _]; by eapply Hchain).
  split; [|by intros v c' [= <- <-]]. intros Hinv. split; [|done]. split; [apply Hinv|].
  intros p' d' v'. cbn. rewrite cache_read_write.
  destruct (rpc_cache c) as [|inner i f] eqn:Hc; [done|].
  case_decide; [simplify_eq; intros [= <-]; by apply Hv|]. intros Hl. apply Hinv. by rewrite Hc.
Qed.

Lemma rpc_call_stable {A} p req (dec : bytes → string + A) : preserves rpc_stable (rpc_call p req dec).
Proof.
  unfold rpc_call, format_err. pres. intros c. apply abci_query_raw_run.
Qed.

Lemma rpc_call_ok {A} p req (dec : bytes → string + A) c a c' :
  rpc_inv c → rpc_call p req dec c = (Ok a, c') →
  ∃ data v, req = inr data ∧ chain (rpc_block_number c) p data = Some v ∧ dec v = inr a.
Proof.
  intros Hinv H. unfold rpc_call in H. destruct req as [|data]; [done|].
  apply bind_Ok_inv in H as (v & c1 & H1 & H2).
  destruct (abci_query_raw_run p data c) as [_ Hok].
  exists data, v. split_and!; [done|by eapply Hok|].
  unfold format_err in H2. destruct (dec v); [done|]. by injection H2 as ->.
Qed.

(** The answer of the chain to a request, decoded. *)
Definition chain_answer {A} (n : Z) (p : string) (req : string + bytes) (dec : bytes → string + A)
    : option A :=
  match req with
  | inl _ => None
  | inr data =>
      match chain n p data with
      | Some v => match dec v with inr a => Some a | inl _ => None end
      | None => None
      end
  end.

Lemma rpc_call_answer {A} p req (dec : bytes → string + A) c a c' :
  rpc_inv c → rpc_call p req dec c = (Ok a, c') →
  chain_answer (rpc_block_number c) p req dec = Some a.
Proof.
  intros Hinv H. destruct (rpc_call_ok _ _ _ _ _ _ Hinv H) as (data & v & -> & Hv & Hd).
  cbn. by rewrite Hv, Hd.
Qed.

Definition rpc_view c : ChainView :=
  let n := rpc_block_number c in
  mkChainView
    (λ a, default [] (chain_answer n "/cosmos.bank.v1beta1.Query/AllBalances"
                        (enc_balances_request a) dec_balances_response ≫= parse_balances))
    (λ a, insert_models (default [] (chain_answer n "/cosmwasm.wasm.v1.Query/AllContractState"
                        (enc_state_request a) dec_state_response)))
    (λ a, mkRpcContractInfo (default 0 (default None
            (chain_answer n "/cosmwasm.wasm.v1.Query/ContractInfo" (enc_info_request a)
               dec_info_response))))
    (λ i, default [] (chain_answer n "/cosmwasm.wasm.v1.Query/Code" (enc_code_request i)
                        dec_code_response)).

Lemma rpc_stable_view c c' :
  rpc_stable c c' → rpc_inv c → rpc_inv c' ∧ rpc_view c' = rpc_view c.
Proof. intros H Hinv. destruct (H Hinv) as [H' E]. split; [done|]. unfold rpc_view. by rewrite E. Qed.

(** The promise of [ChainClient], kept by the RPC client. *)
Program Definition rpc_chain_client : ChainClient (CwRpcClient HN) := {|
  cc_inv := rpc_inv;
  cc_view := rpc_view
|}.
Next Obligation.
  intros a c. apply rpc_stable_view. revert c. unfold cb_query_bank_all_balances; cbn.
  change (preserves rpc_stable (rpc_query_bank_all_balances a)).
  unfold rpc_query_bank_all_balances. pres. apply rpc_call_stable.
Qed.
Next Obligation.
  intros a c. apply rpc_stable_view. revert c.
  change (preserves rpc_stable (rpc_query_wasm_contract_state_all a)).
  unfold rpc_query_wasm_contract_state_all. pres. apply rpc_call_stable.
Qed.
Next Obligation.
  intros a c. apply rpc_stable_view. revert c.
  change (preserves rpc_stable (rpc_query_wasm_contract_info a)).
  unfold rpc_query_wasm_contract_info. pres. apply rpc_call_stable.
Qed.
Next Obligation.
  intros i c. apply rpc_stable_view. apply rpc_call_stable.
Qed.
Next Obligation.
  intros a c l c' Hinv H. cbn in H. unfold rpc_query_bank_all_balances in H.
  apply bind_Ok_inv in H as (bs & c1 & H1 & H2). apply rpc_call_answer in H1; [|done].
  cbn. rewrite H1. cbn. destruct (parse_balances bs); [by injection H2 as ->|done].
Qed.
Next Obligation.
  intros a c m c' Hinv H. cbn in H. unfold rpc_query_wasm_contract_state_all in H.
  apply bind_Ok_inv in H as (ms & c1 & H1 & H2). apply rpc_call_answer in H1; [|done].
  cbn. rewrite H1. by injection H2 as <-.
Qed.
Next Obligation.
  intros a c i c' Hinv H. cbn in H. unfold rpc_query_wasm_contract_info in H.
  apply bind_Ok_inv in H as (o & c1 & H1 & H2). apply rpc_call_answer in H1; [|done].
  cbn. rewrite H1. cbn. destruct o; [by injection H2 as <-|done].
Qed.
Next Obligation.
  intros i c b c' Hinv H. cbn in H. apply rpc_call_answer in H; [|done]. cbn. by rewrite H.
Qed.
End chain.

Section claims.
Context {HN : Node} {HX : Externals}.

(** A client that is asked for a past block does not look at that block: its
    block number is 0 (for a node: the latest block), and on its first use, when
    there is no cache file yet, it reports the empty chain id and time 0. *)
Lemma pinned_client url bn fs (c : CwRpcClient HN) fs' :
  CwRpcClient_new url (Some bn) fs = (Ok c, fs') →
  rpc_block_number c = 0 ∧
  (files fs !! cache_file_name (default "/tmp/" (home fs)) url bn = None →
   rpc_chain_id c = (Ok "", c) ∧ rpc_timestamp c = (Ok 0, c)).
Proof.
  unfold CwRpcClient_new. destruct (http_new url) as [e|h]; [done|]. intros H.
  apply bind_Ok_inv in H as (cache & fs1 & H1 & H).
  assert (rpc_block_number c = 0 ∧
          (cache = FileBacked RpcCacheInner_default false
                     (cache_file_name (default "/tmp/" (home fs)) url bn) →
           cache_get_chain_id (rpc_cache c) = Some "" ∧ cache_get_timestamp (rpc_cache c) = Some 0))
    as [Hn Hc].
  { destruct cache as [|inner [] f]; cbn in H; [by injection H as <-..|].
    unfold on_fs, rpc_timestamp, rpc_chain_id, mbind, M_bind in H. cbn in H.
    injection H as <-. split; [done|]. by intros [= -> ->]. }
  split; [done|]. intros Hnone. unfold rpc_chain_id, rpc_timestamp. rewrite !bind_get.
  destruct Hc as [-> ->]; [|done]. unfold file_backed in H1. rewrite bind_get in H1.
  apply bind_Ok_inv in H1 as (u & fs2 & _ & H1). rewrite Hnone in H1.
  rewrite bool_decide_false in H1 by (by intros []).
  apply bind_Ok_inv in H1 as (u' & fs3 & _ & H1). by injection H1 as <-.
Qed.
(** Asking for the time leaves the block number alone. *)
Definition same_block (c c' : CwRpcClient HN) : Prop := rpc_block_number c' = rpc_block_number c.
Local Instance same_block_refl : Reflexive same_block.
Proof. by intros c. Qed.
Local Instance same_block_trans : Transitive same_block.
Proof. intros c1 c2 c3 H12 H23. unfold same_block in *. congruence. Qed.
Lemma rpc_timestamp_block : preserves same_block rpc_timestamp.
Proof.
  unfold rpc_timestamp, tendermint. pres.
  apply preserves_map_err. intros c. unfold zoom. by destruct (http_block _ (rpc_inner c)).
Qed.

(** A client without a block number for whose block there was no cache file. *)
Lemma latest_client url fs (c : CwRpcClient HN) fs' p d :
  CwRpcClient_new url None fs = (Ok c, fs') →
  files fs !! cache_file_name (default "/tmp/" (home fs)) url (rpc_block_number c) = None →
  cache_read (rpc_cache c) p d = None.
Proof.
  unfold CwRpcClient_new. destruct (http_new url) as [e|h]; [done|]. intros H Hnone.
  apply bind_Ok_inv in H as ([n rv] & fs1 & H1 & H). apply bind_Ok_inv in H as ([id rv1] & fs2 & H2 & H).
  apply bind_Ok_inv in H as ([t rv2] & fs3 & H3 & H). apply bind_Ok_inv in H as (cache & fs4 & H4 & H).
  assert (rpc_block_number rv2 = n ∧ fs3 = fs) as [Hn ->].
  { pose proof (rpc_timestamp_block (mkCwRpcClient (rpc_inner rv1) n (rpc_cache rv1))) as Hb.
    unfold on_fs in H1, H2, H3. split.
    - destruct (rpc_timestamp _) as [[] ?]; simplify_eq/=. exact Hb.
    - repeat case_match; by simplify_eq/=. }
  injection H as <- _. cbn [set_cache rpc_block_number rpc_cache] in *. rewrite Hn in Hnone.
  unfold file_backed in H4. rewrite bind_get in H4. apply bind_Ok_inv in H4 as (u & fs5 & _ & H4).
  rewrite bool_decide_false in H4 by (rewrite Hnone; by intros []).
  apply bind_Ok_inv in H4 as (u' & fs6 & _ & H4). injection H4 as <- _. cbn. apply lookup_empty.
Qed.

(** C32: A balance that the simulator reads for the first time through an RPC client at a
    block is the one the chain reports at that block, decoded from the node's answer or
    from the cached one, if the node answers truthfully for blocks (heights above 0). "At a
    block" is the invariant [rpc_inv]: a height above 0, and a cache that holds answers of
    that height. It stays, and it holds of a client made without a block number when the
    node's height is above 0 and no cache file of that height existed. It does not hold of
    a client made for a given block: that block number is not stored, the client keeps
    height 0. *)
Theorem rpc_balance_is_on_chain (chain : Z → string → bytes → option bytes) :
  (∀ p data n h s q s', 0 < n → height_try_from n = inr h →
     http_abci_query p data h s = (Ok q, s') → abci_ok q = true →
     chain n p data = Some (abci_value q)) →
  (∀ o d (st : AllStates (CwRpcClient HN)) b st',
     rpc_inv chain (client st) → bank_states st !! o = None →
     get_balance o d st = (Ok b, st') →
     rpc_inv chain (client st') ∧
     b = default 0 (collect_map (cv_balances (rpc_view chain (client st)) o) !! d)) ∧
  (∀ url fs (c : CwRpcClient HN) fs', CwRpcClient_new url None fs = (Ok c, fs') →
     0 < rpc_block_number c →
     files fs !! cache_file_name (default "/tmp/" (home fs)) url (rpc_block_number c) = None →
     rpc_inv chain c) ∧
  (∀ url bn fs (c : CwRpcClient HN) fs', CwRpcClient_new url (Some bn) fs = (Ok c, fs') →
     ¬ rpc_inv chain c).
Proof.
  intros Hchain. pose (HV := rpc_chain_client chain Hchain). split_and!.
  - intros o d st b st' Hinv Ho H.
    destruct (get_balance_Ok o d st b st' H) as (-> & _ & Hle). split.
    + by apply (bf_client _ _ (le_frame _ _ Hle)).
    + rewrite (ledger_eq_bal st st' o d Hle Hinv). unfold bal, account. by rewrite Ho.
  - intros url fs c fs' Hnew Hpos Hnone. split; [done|]. intros p d v Hr.
    by rewrite (latest_client url fs c fs' p d Hnew Hnone) in Hr.
  - intros url bn fs c fs' Hnew [Hpos _]. destruct (pinned_client url bn fs c fs' Hnew) as [Hz _]. lia.
Qed.

(** An answer that was obtained once is given again without asking the node,
    whatever happened to the connection since. *)
Theorem cached_answer_is_reused p d (c c1 c2 : CwRpcClient HN) inner i f v :
  rpc_cache c = FileBacked inner i f →
  abci_query_raw p d c = (Ok v, c1) →
  rpc_cache c2 = rpc_cache c1 →
  abci_query_raw p d c2 = (Ok v, c2).
Proof.
  intros Hc H H2.
  assert (cache_read (rpc_cache c1) p d = Some v) as Hr.
  { unfold abci_query_raw in H. rewrite bind_get in H.
    destruct (cache_read (rpc_cache c) p d) as [v'|] eqn:Hr; [by injection H as <- <-|].
    apply bind_Ok_inv in H as (? & s1 & H1 & H). apply bind_Ok_inv in H as (h & s2 & H3 & H).
    apply bind_Ok_inv in H as (q & s3 & H4 & H).
    assert (rpc_cache s3 = rpc_cache c) as E.
    { unfold tendermint, of_sum in *. destruct (abci_path p), (height_try_from _); simplify_eq/=.
      injection H1 as _ <-. injection H3 as _ <-. unfold on_node, map_err, zoom in H4.
      destruct (http_abci_query p d h (rpc_inner c)) as [[]]; by simplify_eq/=. }
    destruct (abci_ok q); [|done]. injection H as <- <-. cbn. rewrite cache_read_write, E, Hc.
    by case_decide. }
  unfold abci_query_raw. by rewrite bind_get, H2, Hr.
Qed.

(** A cache that was saved is found again by the next client of the same
    node and block, with the same answers, chain id and timestamp, if bincode
    reads back what it wrote (whatever follows it in the file: the file is
    overwritten in place). *)
Theorem cache_survives_restart url bn inner i fs fs' :
  (∀ x b rest, bincode_serialize x = inr b → bincode_deserialize (b ++ rest) = inr x) →
  let f := cache_file_name (default "/tmp/" (home fs)) url bn in
  (default "/tmp/" (home fs) +:+ "/" +:+ RPC_CACHE_DIRNAME) ∈ dirs fs →
  cache_save (FileBacked inner i f) fs = (Ok tt, fs') →
  ∃ fs'', file_backed url bn fs' = (Ok (FileBacked inner true f), fs'') ∧ files fs'' = files fs'.
Proof.
  intros Hbin f Hdir Hsave. unfold cache_save in Hsave.
  destruct (bincode_serialize inner) as [e|b] eqn:Hs; [done|].
  unfold write_at_start, io_check in Hsave. munfold. cbn in Hsave.
  destruct (io_fault fs f) as [e|] eqn:Hf; [done|]. injection Hsave as <-.
  unfold file_backed. rewrite bind_get. cbv zeta. cbn [home files dirs set_files].
  change (cache_file_name (default "/tmp/" (home fs)) url bn) with f.
  rewrite (bool_decide_true (_ ∈ _)) by exact Hdir. rewrite bind_ret_l.
  rewrite bool_decide_true by (rewrite lookup_insert_eq; by eexists).
  unfold rwopen, read_to_end, io_check. munfold. cbn. rewrite Hf. cbn.
  rewrite !lookup_insert_eq. cbn. rewrite Hf. cbn. rewrite lookup_insert_eq. cbn.
  rewrite (Hbin _ _ _ Hs). eexists. split; [done|]. cbn. by rewrite insert_insert_eq.
Qed.

End claims.
