(* ===== verification/Lcd.v ===== *)
(** * The LCD client ([core/src/fork/lcd.rs])

    [CwLcdClient] asks the REST interface of a node. It keeps no cache and always
    asks for the latest state. The HTTP client and the decoders are parameters
    ([LcdNode]). *)

From S2P Require Import Prelude.
From S2P Require Import Bytes.
From S2P Require Import CwStd.
From S2P Require Import Errors.
From S2P Require Import Client.

Open Scope Z_scope.

(** [BlockHeaderRaw]. *)
Record BlockHeaderRaw := mkBlockHeaderRaw { bh_chain_id : string; bh_height : string; bh_time : string }.

Class LcdNode := {
  Lcd : Type;
  (** [Url::parse], [Client::request] with the status and the body *)
  url_parse : string → string + string;
  http_get : string → M string Lcd (bool * (string + string));
  (** serde_json, by the type of the answer *)
  dec_error_body : string → string + string;
  dec_latest_block : string → string + BlockHeaderRaw;
  dec_bank_balances : string → string + list (string * string);
  dec_smart_data : string → string + option string;
  dec_contract_state : string → string + list (string * string);
  dec_contract_info : string → string + string;
  dec_code : string → string + string;
  (** chrono ([timestamp_nanos], an [i64]), base64, hex *)
  parse_rfc3339 : string → string + Z;
  base64_encode : bytes → string;
  base64_decode : string → string + bytes;
  hex_decode : string → string + bytes
}.

Record CwLcdClient {HL : LcdNode} := mkCwLcdClient {
  lcd_url : string;
  lcd_block_number : Z;
  lcd_node : Lcd
}.
Arguments CwLcdClient : clear implicits.
Arguments mkCwLcdClient {HL}.

Section client.
Context {HL : LcdNode}.
Abbreviation CL := (M Error (CwLcdClient HL)).

Definition set_node (n : Lcd) (c : CwLcdClient HL) : CwLcdClient HL :=
  mkCwLcdClient (lcd_url c) (lcd_block_number c) n.

Definition lcd_format {A} (r : string + A) : CL A :=
  of_sum (match r with inl e => inl (FormatError e) | inr a => inr a end).
Definition lcd_http {A} (r : string + A) : CL A :=
  of_sum (match r with inl e => inl (HttpError e) | inr a => inr a end).

Definition request_inner (uri : string) : CL string :=
  c ← get;
  request_url ← lcd_format (url_parse (lcd_url c +:+ uri));
  response ← map_err HttpError (zoom lcd_node set_node (http_get request_url));
  let '(status_ok, body) := response in
  body_str ← lcd_http body;
  if status_ok : bool then mret body_str
  else
    message ← lcd_format (dec_error_body body_str);
    throw (HttpError message).

Definition get_latest_block_header : CL BlockHeaderRaw :=
  body_str ← request_inner "/blocks/latest";
  lcd_format (dec_latest_block body_str).

Definition lcd_chain_id : CL string :=
  block_header ← get_latest_block_header; mret (bh_chain_id block_header).

(** [date_time.timestamp_nanos() as u64]. *)
Definition lcd_timestamp : CL Z :=
  block_header ← get_latest_block_header;
  nanos ← lcd_format (parse_rfc3339 (bh_time block_header));
  mret (nanos `mod` U64).

Definition lcd_block_height : CL Z :=
  block_header ← get_latest_block_header;
  unwrap "called `Result::unwrap()` on an `Err` value" (parse_uint U64 (bh_height block_header)).

(** The loop over the coins: an amount that is not a number panics. *)
Fixpoint lcd_balances (coins : list (string * string)) : CL (list (string * Z)) :=
  match coins with
  | [] => mret []
  | (d, a) :: rest =>
      n ← unwrap "called `Result::unwrap()` on an `Err` value" (parse_uint U128 a);
      out ← lcd_balances rest;
      mret ((d, n) :: out)
  end.

Definition lcd_query_bank_all_balances (address : string) : CL (list (string * Z)) :=
  body_str ← request_inner ("/cosmos/bank/v1beta1/balances/" +:+ address);
  balances ← lcd_format (dec_bank_balances body_str);
  lcd_balances balances.

Definition lcd_query_wasm_contract_smart (address : string) (query_data : bytes) : CL bytes :=
  body_str ← request_inner ("/cosmwasm/wasm/v1/contract/" +:+ address +:+ "/smart/" +:+
                            base64_encode query_data);
  data ← lcd_format (dec_smart_data body_str);
  match data with
  | Some d => mret (as_bytes d)
  | None => throw (FormatError "key 'data' not present in response")
  end.

(** The loop over the records: keys are hexadecimal, values base64. *)
Fixpoint lcd_models (models : list (string * string)) (out : gmap bytes bytes)
    : CL (gmap bytes bytes) :=
  match models with
  | [] => mret out
  | (k, v) :: rest =>
      key ← lcd_format (hex_decode k);
      value ← lcd_format (base64_decode v);
      lcd_models rest (<[key := value]> out)
  end.

Definition lcd_query_wasm_contract_state_all (address : string) : CL (gmap bytes bytes) :=
  body_str ← request_inner ("/cosmwasm/wasm/v1/contract/" +:+ address +:+ "/state");
  models ← lcd_format (dec_contract_state body_str);
  lcd_models models ∅.

Definition lcd_query_wasm_contract_info (address : string) : CL RpcContractInfo :=
  body_str ← request_inner ("/cosmwasm/wasm/v1/contract/" +:+ address);
  code_id_ ← lcd_format (dec_contract_info body_str);
  n ← unwrap "called `Result::unwrap()` on an `Err` value" (parse_uint U64 code_id_);
  mret (mkRpcContractInfo n).

Definition lcd_query_wasm_contract_code (code_id : Z) : CL bytes :=
  body_str ← request_inner ("/cosmwasm/wasm/v1/code/" +:+ pretty code_id);
  data ← lcd_format (dec_code body_str);
  lcd_format (base64_decode data).

(** [CwLcdClient::new]: the block number is the latest height. *)
Definition CwLcdClient_new (url : string) (node : Lcd) : outcome Error (CwLcdClient HL) :=
  match lcd_block_height (mkCwLcdClient url 0 node) with
  | (Ok h, rv) => Ok (mkCwLcdClient (lcd_url rv) h (lcd_node rv))
  | (Err e, _) => Err e
  | (Panic p, _) => Panic p
  | (OutOfFuel, _) => OutOfFuel
  end.

#[export] Instance CwLcdClient_backend : CwClientBackend (CwLcdClient HL) := {|
  cb_block_number := lcd_block_number;
  cb_chain_id := lcd_chain_id;
  cb_timestamp := lcd_timestamp;
  cb_block_height := lcd_block_height;
  cb_query_bank_all_balances := lcd_query_bank_all_balances;
  cb_query_wasm_contract_smart := lcd_query_wasm_contract_smart;
  cb_query_wasm_contract_state_all := lcd_query_wasm_contract_state_all;
  cb_query_wasm_contract_info := lcd_query_wasm_contract_info;
  cb_query_wasm_contract_code := lcd_query_wasm_contract_code
|}.

(** ** Decoding a contract's state *)

(** The decoded record of an entry. *)
Definition decoded (kv : string * string) (r : bytes * bytes) : Prop :=
  hex_decode kv.1 = inr r.1 ∧ base64_decode kv.2 = inr r.2.

Lemma lcd_models_Ok models out c m c' :
  lcd_models models out c = (Ok m, c') →
  c' = c ∧ ∃ rs, Forall2 decoded models rs ∧ m = foldl (λ out kv, <[kv.1 := kv.2]> out) out rs.
Proof.
  revert out. induction models as [|[k v] models IH]; intros out H; cbn [lcd_models] in H.
  - injection H as <- <-. split; [done|]. exists []. by split.
  - unfold lcd_format in H.
    destruct (hex_decode k) as [e|key] eqn:Hk; cbn in H; [done|]. rewrite bind_ret_l in H.
    destruct (base64_decode v) as [e|value] eqn:Hv; cbn in H; [done|]. rewrite bind_ret_l in H.
    apply IH in H as (-> & rs & Hrs & ->). split; [done|]. exists ((key, value) :: rs).
    split; [|done]. constructor; [by split|done].
Qed.

Lemma foldl_insert_lookup (rs : list (bytes * bytes)) (out : gmap bytes bytes) k :
  NoDup rs.*1 →
  foldl (λ out kv, <[kv.1 := kv.2]> out) out rs !! k =
    match list_to_map (M := gmap bytes bytes) rs !! k with Some v => Some v | None => out !! k end.
Proof.
  revert out. induction rs as [|[k' v'] rs IH]; intros out Hnd; cbn; [by rewrite lookup_empty|].
  apply NoDup_cons in Hnd as [Hk Hnd]. rewrite IH by done. cbn.
  rewrite !lookup_insert. case_decide as E; [|done]. subst.
  by rewrite not_elem_of_list_to_map_1.
Qed.

(** The storage the LCD client returns holds exactly the records of the
    node's answer, with hexadecimal keys and base64 values decoded, if the keys
    of the answer are distinct; one record that does not decode makes the whole
    query fail. *)
Theorem lcd_state_all_decodes models out_c (c : CwLcdClient HL) m k v :
  lcd_models models ∅ c = (Ok m, out_c) →
  NoDup (hex_decode <$> models.*1) →
  m !! k = Some v ↔ ∃ kv, kv ∈ models ∧ decoded kv (k, v).
Proof.
  intros H Hnd. apply lcd_models_Ok in H as (_ & rs & Hrs & ->).
  assert (NoDup rs.*1) as Hnd'.
  { assert (hex_decode <$> models.*1 = inr <$> rs.*1) as E.
    { clear Hnd. induction Hrs as [|kv r ms rs' [Hk _] _ IH]; cbn; [done|]. by rewrite Hk, IH. }
    rewrite E in Hnd. by eapply NoDup_fmap_1. }
  rewrite foldl_insert_lookup, lookup_empty by done.
  transitivity ((k, v) ∈ rs).
  - rewrite elem_of_list_to_map by done. by destruct (list_to_map rs !! k).
  - clear Hnd Hnd'. induction Hrs as [|kv r ms rs' Hd _ IH]; [set_solver|].
    rewrite elem_of_cons, IH. setoid_rewrite elem_of_cons. split.
    + intros [->|(kv' & ? & ?)]; eauto.
    + intros (kv' & [->|?] & Hd'); [left|eauto].
      destruct Hd as [H1 H2], Hd' as [H3 H4], r; cbn in *. congruence.
Qed.
End client.
