(* ===== verification/Memory.v ===== *)
(** * Regions of Wasm memory ([cosmwasm/packages/vm/src/memory.rs])

    Guest and host exchange byte strings through the linear memory of the
    guest: a pointer leads to a [Region] (three 32-bit words, little-endian, as
    [repr(C)] lays them out), which leads to a buffer. The guest writes both, so
    the host checks everything it follows.

    Linear memory is a byte string. [WasmPtr] of the wasmer crate, which turns a
    guest pointer into an address of that memory or refuses it, is a parameter
    ([WasmPtr]) with the behaviour it documents ([WasmPtrSpec]). *)

From S2P Require Import Prelude.
From S2P Require Import Bytes.
From S2P Require Import CwStd.
From S2P Require Import Errors.
From S2P Require Import Sections.

Open Scope Z_scope.

(** [mem::size_of::<Region>()]. *)
Definition REGION_SIZE : Z := 12.

(** ** wasmer's pointers

    Both operations take the size of the memory. [deref_struct] is
    [WasmPtr::<Region>::deref]: the address of the cell, a pointer that is not
    aligned being rounded; [deref_array] is [WasmPtr::<u8, Array>::deref] at
    index 0. *)
Class WasmPtr := {
  deref_struct : Z → Z → option Z;
  deref_array : Z → Z → Z → option Z
}.

Class WasmPtrSpec `{WasmPtr} : Prop := {
  (** A cell lies inside the memory. *)
  deref_struct_inside size ptr a :
    deref_struct size ptr = Some a → 0 ≤ a ∧ a + REGION_SIZE ≤ size;
  (** An aligned pointer to enough bytes is followed as it is. *)
  deref_struct_aligned size ptr :
    0 ≤ ptr → ptr mod 4 = 0 → ptr + REGION_SIZE ≤ size → deref_struct size ptr = Some ptr;
  (** An array is followed exactly when it lies inside the memory. *)
  deref_array_spec size offset len :
    0 ≤ offset → 0 ≤ len →
    deref_array size offset len =
    if (offset + len <=? size) && (offset <? size) then Some offset else None
}.

(** ** Regions *)
Record Region := mkRegion {
  r_offset : Z;
  r_capacity : Z;
  r_length : Z
}.

#[export] Instance Region_eq_dec : EqDecision Region.
Proof. solve_decision. Defined.

(** The [Debug] of a [Region]. *)
Definition Region_debug (r : Region) : string :=
  "Region { offset: " +:+ pretty (r_offset r) +:+ ", capacity: " +:+ pretty (r_capacity r) +:+
  ", length: " +:+ pretty (r_length r) +:+ " }".

(** The cell of a region in memory. *)
Definition Region_bytes (r : Region) : bytes :=
  le_bytes 4 (r_offset r) ++ le_bytes 4 (r_capacity r) ++ le_bytes 4 (r_length r).
Definition Region_of_bytes (b : bytes) : Region :=
  mkRegion (le_value (slice 0 4 b)) (le_value (slice 4 4 b)) (le_value (slice 8 4 b)).

Definition validate_region (region : Region) : RegionValidationError + unit :=
  if r_offset region =? 0 then inl ZeroOffset
  else if r_capacity region <? r_length region then
    inl (LengthExceedsCapacity (r_length region) (r_capacity region))
  else if U32 - 1 - r_offset region <? r_capacity region then
    inl (OutOfRange (r_offset region) (r_capacity region))
  else inr tt.

(** ** Access to memory *)
Definition mem_size (memory : bytes) : Z := Z.of_nat (length memory).

(** The cells from address [a] on, and setting them. *)
Definition load (a : Z) (n : nat) (memory : bytes) : bytes := slice (Z.to_nat a) n memory.
Definition store (a : Z) (data memory : bytes) : bytes := list_inserts (Z.to_nat a) data memory.

Section Memory.
Context {HP : WasmPtr}.
Abbreviation MEM := (M VmError bytes).

Definition get_region (ptr : Z) : M CommunicationError bytes Region :=
  memory ← get;
  match deref_struct (mem_size memory) ptr with
  | Some cell =>
      let region := Region_of_bytes (load cell 12 memory) in
      match validate_region region with
      | inl e => throw (InvalidRegion e)
      | inr _ => mret region
      end
  | None => throw (DerefErr ptr "Could not dereference this pointer to a Region")
  end.

Definition set_region (ptr : Z) (data : Region) : M CommunicationError bytes unit :=
  memory ← get;
  match deref_struct (mem_size memory) ptr with
  | Some cell => put (store cell (Region_bytes data) memory)
  | None => throw (DerefErr ptr "Could not dereference this pointer to a Region")
  end.

(** The error for a buffer that is not inside the memory. *)
Definition region_deref_err (region : Region) (memory : bytes) : CommunicationError :=
  DerefErr (r_offset region)
    ("Tried to access memory of region " +:+ Region_debug region +:+ " in wasm memory of size " +:+
     pretty (mem_size memory) +:+ " bytes. This typically happens when the given Region pointer " +:+
     "does not point to a proper Region struct.").

Definition read_region (ptr max_length : Z) : MEM bytes :=
  region ← map_err CommunicationErr (get_region ptr);
  max ← of_sum (to_u32 max_length);
  if max <? r_length region then
    throw (CommunicationErr (RegionLengthTooBig (r_length region) max_length))
  else
    memory ← get;
    match deref_array (mem_size memory) (r_offset region) (r_length region) with
    | Some cells => mret (load cells (Z.to_nat (r_length region)) memory)
    | None => throw (CommunicationErr (region_deref_err region memory))
    end.

Definition maybe_read_region (ptr max_length : Z) : MEM (option bytes) :=
  if ptr =? 0 then mret None else result ← read_region ptr max_length; mret (Some result).

Definition write_region (ptr : Z) (data : bytes) : MEM unit :=
  region ← map_err CommunicationErr (get_region ptr);
  let len := Z.of_nat (length data) in
  if r_capacity region <? len then
    throw (CommunicationErr (RegionTooSmall (r_capacity region) len))
  else
    memory ← get;
    match deref_array (mem_size memory) (r_offset region) (r_capacity region) with
    | Some cells =>
        put (store cells data memory);;
        map_err CommunicationErr
          (set_region ptr (mkRegion (r_offset region) (r_capacity region) (len mod U32)))
    | None => throw (CommunicationErr (region_deref_err region memory))
    end.
End Memory.

(** ** Facts about memory *)
Lemma validate_region_ok r :
  validate_region r = inr tt ↔
  r_offset r ≠ 0 ∧ r_length r ≤ r_capacity r ∧ r_offset r + r_capacity r < U32.
Proof.
  unfold validate_region.
  destruct (Z.eqb_spec (r_offset r) 0); [naive_solver|].
  destruct (Z.ltb_spec (r_capacity r) (r_length r)); [split; [done|lia]|].
  destruct (Z.ltb_spec (U32 - 1 - r_offset r) (r_capacity r)); [split; [done|lia]|].
  split; [|done]. lia.
Qed.

(** The three words of a region fit 32 bits. *)
Definition region_fits (r : Region) : Prop :=
  in_width U32 (r_offset r) ∧ in_width U32 (r_capacity r) ∧ in_width U32 (r_length r).

Lemma Region_roundtrip r : region_fits r → Region_of_bytes (Region_bytes r) = r.
Proof.
  destruct r as [o c l]. intros (Ho & Hc & Hl). cbn in *.
  assert (∀ z, in_width U32 z → le_value (le_bytes 4 z) = z) as Hw.
  { intros z Hz. rewrite le_value_le_bytes. by apply Z.mod_small. }
  unfold Region_of_bytes, Region_bytes. cbn [r_offset r_capacity r_length].
  change (mkRegion (le_value (le_bytes 4 o)) (le_value (le_bytes 4 c)) (le_value (le_bytes 4 l)) =
    mkRegion o c l). by rewrite !Hw.
Qed.

Lemma le_value_slice i b : in_width U32 (le_value (slice i 4 b)).
Proof.
  pose proof (le_value_bound (slice i 4 b)) as Hb. unfold in_width, U32.
  assert (length (slice i 4 b) ≤ 4)%nat as Hl by (unfold slice; rewrite length_take; lia).
  assert (256 ^ Z.of_nat (length (slice i 4 b)) ≤ 256 ^ 4) by (apply Z.pow_le_mono_r; lia).
  change (2 ^ 32) with (256 ^ 4). lia.
Qed.

Lemma Region_of_bytes_fits b : region_fits (Region_of_bytes b).
Proof. split_and!; apply le_value_slice. Qed.

Lemma length_Region_bytes r : length (Region_bytes r) = 12%nat.
Proof. done. Qed.

Lemma length_store a d m : length (store a d m) = length m.
Proof. apply length_inserts. Qed.

Lemma mem_size_store a d m : mem_size (store a d m) = mem_size m.
Proof. unfold mem_size. by rewrite length_store. Qed.

Lemma lookup_store_outside a d m i :
  (i < Z.to_nat a ∨ Z.to_nat a + length d ≤ i)%nat → store a d m !! i = m !! i.
Proof. intros [?|?]; [by apply list_lookup_inserts_lt|by apply list_lookup_inserts_ge]. Qed.

Lemma lookup_load a n m i :
  load a n m !! i = if (i <? n)%nat then m !! (Z.to_nat a + i)%nat else None.
Proof.
  unfold load, slice. destruct (Nat.ltb_spec i n).
  - by rewrite lookup_take_lt, lookup_drop by lia.
  - by apply lookup_take_ge.
Qed.

Lemma load_store_same a d m :
  0 ≤ a → a + Z.of_nat (length d) ≤ mem_size m → load a (length d) (store a d m) = d.
Proof.
  intros Ha Hm. unfold mem_size in Hm. apply list_eq. intros i. rewrite lookup_load.
  destruct (Nat.ltb_spec i (length d)); [|by rewrite lookup_ge_None_2].
  unfold store. rewrite list_lookup_inserts by lia. f_equal. lia.
Qed.

Lemma load_store_other a d b n m :
  0 ≤ a → 0 ≤ b → b + Z.of_nat n ≤ a ∨ a + Z.of_nat (length d) ≤ b →
  load b n (store a d m) = load b n m.
Proof.
  intros Ha Hb Hd. apply list_eq. intros i. rewrite !lookup_load.
  destruct (Nat.ltb_spec i n); [|done]. apply lookup_store_outside. lia.
Qed.

Lemma length_load a n m : 0 ≤ a → a + Z.of_nat n ≤ mem_size m → length (load a n m) = n.
Proof. intros. unfold mem_size in *. apply length_slice. lia. Qed.

(** ** Correctness of the accesses *)
Section MemoryFacts.
Context `{HPS : WasmPtrSpec}.

(** What it takes for [get_region] to return a region. *)
Lemma get_region_ok ptr m r m' :
  get_region ptr m = (Ok r, m') ↔
  m' = m ∧ ∃ cell, deref_struct (mem_size m) ptr = Some cell ∧
    r = Region_of_bytes (load cell 12 m) ∧ validate_region r = inr tt.
Proof.
  unfold get_region. rewrite bind_get.
  destruct (deref_struct (mem_size m) ptr) as [cell|].
  - destruct (validate_region (Region_of_bytes (load cell 12 m))) as [e|[]] eqn:Hv; cbn.
    + split; [done|]. intros (_ & cell' & [= <-] & -> & ?). congruence.
    + split; [intros [= <- <-]; eauto|]. by intros (-> & cell' & [= <-] & -> & _).
  - cbn. split; [done|]. naive_solver.
Qed.

Lemma get_region_pure ptr m : (get_region ptr m).2 = m.
Proof. unfold get_region. rewrite bind_get. by repeat case_match. Qed.

Lemma get_region_total ptr m :
  (∃ r, get_region ptr m = (Ok r, m)) ∨ ∃ e, get_region ptr m = (Err e, m).
Proof. unfold get_region. rewrite bind_get. repeat case_match; cbn; eauto. Qed.

(** A buffer that is followed lies inside the memory. *)
Lemma deref_array_inside size o l a :
  0 ≤ o → 0 ≤ l → deref_array size o l = Some a → a = o ∧ o + l ≤ size.
Proof.
  intros Ho Hl. rewrite deref_array_spec by done.
  destruct (Z.leb_spec (o + l) size), (Z.ltb_spec o size); cbn; try done. by intros [= ->].
Qed.

(** Reading, all cases: the memory is left alone, and there is a result or an
    error, never a panic. *)
Lemma read_region_cases ptr max_length m :
  (∃ r d, read_region ptr max_length m = (Ok d, m) ∧ get_region ptr m = (Ok r, m) ∧
     d = load (r_offset r) (Z.to_nat (r_length r)) m ∧ r_length r ≤ max_length ∧
     r_offset r + r_length r ≤ mem_size m) ∨
  ∃ e, read_region ptr max_length m = (Err e, m).
Proof.
  unfold read_region.
  destruct (get_region_total ptr m) as [[r Hr]|[e He]].
  2: { right. eexists. by rewrite (bind_Err _ _ _ _ _ (map_err_Err _ _ _ _ _ He)). }
  pose proof (proj1 (get_region_ok _ _ _ _) Hr) as (_ & cell & _ & Hreg & _).
  assert (region_fits r) as (Ho & _ & Hl) by (rewrite Hreg; apply Region_of_bytes_fits).
  rewrite (bind_Ok _ _ _ _ _ (map_err_Ok _ _ _ _ _ Hr)). unfold to_u32.
  destruct (Z.ltb_spec max_length U32); cbn [of_sum]; [|right; eexists; reflexivity].
  rewrite bind_ret_l. destruct (Z.ltb_spec max_length (r_length r)); [right; eexists; reflexivity|].
  rewrite bind_get.
  destruct (deref_array (mem_size m) (r_offset r) (r_length r)) as [a|] eqn:Ha; [|right; eexists; reflexivity].
  apply deref_array_inside in Ha as [-> ?]; [|apply Ho|apply Hl].
  left. exists r, (load (r_offset r) (Z.to_nat (r_length r)) m). by split_and!.
Qed.

(** A write that the region can take: what it does to the memory. *)
Lemma write_region_run ptr data m r cell :
  get_region ptr m = (Ok r, m) →
  deref_struct (mem_size m) ptr = Some cell →
  Z.of_nat (length data) ≤ r_capacity r →
  r_offset r + r_capacity r ≤ mem_size m → r_offset r < mem_size m →
  write_region ptr data m =
    (Ok tt, store cell
       (Region_bytes (mkRegion (r_offset r) (r_capacity r) (Z.of_nat (length data))))
       (store (r_offset r) data m)).
Proof.
  intros Hr Hcell Hlen Hin Hoff. unfold write_region.
  pose proof (proj1 (get_region_ok _ _ _ _) Hr) as (_ & cell' & _ & Hreg & _).
  assert (region_fits r) as (Ho & Hc & _) by (rewrite Hreg; apply Region_of_bytes_fits).
  unfold in_width in *.
  rewrite (bind_Ok _ _ _ _ _ (map_err_Ok _ _ _ _ _ Hr)).
  destruct (Z.ltb_spec (r_capacity r) (Z.of_nat (length data))); [lia|].
  rewrite bind_get, deref_array_spec by lia.
  destruct (Z.leb_spec (r_offset r + r_capacity r) (mem_size m)); [|lia].
  destruct (Z.ltb_spec (r_offset r) (mem_size m)); [|lia]. cbn [andb].
  rewrite Z.mod_small by lia.
  erewrite bind_Ok by done. apply map_err_Ok.
  unfold set_region. by rewrite bind_get, mem_size_store, Hcell.
Qed.

(** A write that fails leaves the memory as it was: every check comes before
    the first byte is written. *)
Lemma write_region_error_clean ptr data m e m' :
  write_region ptr data m = (Err e, m') → m' = m.
Proof.
  unfold write_region.
  destruct (get_region_total ptr m) as [[r Hr]|[e' He]].
  2: { rewrite (bind_Err _ _ _ _ _ (map_err_Err _ _ _ _ _ He)). by intros [= _ <-]. }
  pose proof (proj1 (get_region_ok _ _ _ _) Hr) as (_ & cell & Hcell & _).
  rewrite (bind_Ok _ _ _ _ _ (map_err_Ok _ _ _ _ _ Hr)).
  case_match; [by intros [= _ <-]|]. rewrite bind_get.
  case_match; [|by intros [= _ <-]]. erewrite bind_Ok by done.
  erewrite map_err_Ok; [done|]. unfold set_region. by rewrite bind_get, mem_size_store, Hcell.
Qed.

(** A region whose buffer lies inside the memory is read. *)
Lemma read_region_run ptr max_length m r :
  get_region ptr m = (Ok r, m) →
  r_length r ≤ max_length < U32 →
  r_offset r + r_length r ≤ mem_size m → r_offset r < mem_size m →
  read_region ptr max_length m = (Ok (load (r_offset r) (Z.to_nat (r_length r)) m), m).
Proof.
  intros Hr Hmax Hin Hoff. unfold read_region.
  pose proof (proj1 (get_region_ok _ _ _ _) Hr) as (_ & cell' & _ & Hreg & _).
  assert (region_fits r) as (Ho & _ & Hl) by (rewrite Hreg; apply Region_of_bytes_fits).
  unfold in_width in *.
  rewrite (bind_Ok _ _ _ _ _ (map_err_Ok _ _ _ _ _ Hr)). unfold to_u32.
  destruct (Z.ltb_spec max_length U32); [|lia]. cbn [of_sum]. rewrite bind_ret_l.
  destruct (Z.ltb_spec max_length (r_length r)); [lia|].
  rewrite bind_get, deref_array_spec by lia.
  destruct (Z.leb_spec (r_offset r + r_length r) (mem_size m)); [|lia].
  by destruct (Z.ltb_spec (r_offset r) (mem_size m)); [|lia].
Qed.

(** A region written to its cell is the region the pointer leads to. *)
Lemma get_region_stored ptr m r cell :
  deref_struct (mem_size m) ptr = Some cell →
  region_fits r → validate_region r = inr tt →
  get_region ptr (store cell (Region_bytes r) m) = (Ok r, store cell (Region_bytes r) m).
Proof.
  intros Hcell Hfit Hval. destruct (deref_struct_inside _ _ _ Hcell) as [Hc0 Hc1].
  apply get_region_ok. split; [done|]. exists cell. rewrite mem_size_store. split_and!; [done| |done].
  change 12%nat with (length (Region_bytes r)).
  rewrite load_store_same; [by rewrite Region_roundtrip|done..].
Qed.

(** C25: Whatever pointer and memory contents a guest supplies, [read_region]
    does not touch the memory and returns an error or a byte string of at most
    [max_length] bytes, copied from an address range inside the memory: the one
    of a valid region that the guest wrote in its memory. *)
Theorem read_region_safe ptr max_length memory :
  (∃ e, read_region ptr max_length memory = (Err e, memory)) ∨
  (∃ region data, read_region ptr max_length memory = (Ok data, memory) ∧
     (∃ cell, 0 ≤ cell ∧ cell + REGION_SIZE ≤ mem_size memory ∧
        region = Region_of_bytes (load cell 12 memory)) ∧
     validate_region region = inr tt ∧
     Z.of_nat (length data) = r_length region ∧ r_length region ≤ max_length ∧
     r_offset region + r_length region ≤ mem_size memory ∧
     data = load (r_offset region) (length data) memory).
Proof.
  destruct (read_region_cases ptr max_length memory)
    as [(r & d & Hd & Hr & Hload & Hmax & Hin)|He]; [right|by left].
  apply get_region_ok in Hr as (_ & cell & Hcell & Hreg & Hval).
  apply deref_struct_inside in Hcell as [? ?].
  assert (region_fits r) as ((? & _) & _ & (? & _)) by (rewrite Hreg; apply Region_of_bytes_fits).
  assert (Z.of_nat (length d) = r_length r) as Hlen.
  { rewrite Hload, length_load; lia. }
  exists r, d. split_and!; eauto. rewrite Hload at 1. f_equal. lia.
Qed.

(** What the host writes to a region it reads back: when the guest provides
    a valid region whose buffer lies in its memory, apart from the cell of the
    region, and has room for the data, [write_region] succeeds, a read with any
    limit that admits the data returns exactly the data, and no byte outside the
    cell and the written part of the buffer changes. *)
Theorem write_region_roundtrip ptr data memory region cell max_length :
  get_region ptr memory = (Ok region, memory) →
  deref_struct (mem_size memory) ptr = Some cell →
  Z.of_nat (length data) ≤ r_capacity region →
  r_offset region + r_capacity region ≤ mem_size memory → r_offset region < mem_size memory →
  cell + REGION_SIZE ≤ r_offset region ∨ r_offset region + r_capacity region ≤ cell →
  Z.of_nat (length data) ≤ max_length < U32 →
  ∃ memory', write_region ptr data memory = (Ok tt, memory') ∧
    read_region ptr max_length memory' = (Ok data, memory') ∧
    length memory' = length memory ∧
    ∀ i : nat, ¬ (cell ≤ Z.of_nat i < cell + REGION_SIZE) →
      ¬ (r_offset region ≤ Z.of_nat i < r_offset region + Z.of_nat (length data)) →
      memory' !! i = memory !! i.
Proof.
  intros Hr Hcell Hlen Hin Hoff Hdisj Hmax.
  eexists. split; [by apply write_region_run|].
  pose proof (proj1 (get_region_ok _ _ _ _) Hr) as (_ & cell' & _ & Hreg & Hval).
  assert (region_fits region) as (Ho & Hc & _) by (rewrite Hreg; apply Region_of_bytes_fits).
  destruct (deref_struct_inside _ _ _ Hcell) as [Hc0 Hc1]. unfold in_width, REGION_SIZE in *.
  set (r' := mkRegion _ _ _). set (m1 := store _ data memory).
  assert (mem_size m1 = mem_size memory) as Hm1 by apply mem_size_store.
  assert (length (Region_bytes r') = 12%nat) as Hlr by done.
  split_and!.
  - rewrite (read_region_run _ _ _ r'); rewrite ?mem_size_store, ?Hm1; [|..|cbn; lia].
    + unfold r'. cbn [r_offset r_length]. rewrite Nat2Z.id, load_store_other by (cbn; lia).
      unfold m1. by rewrite load_store_same by lia.
    + apply get_region_stored; [by rewrite Hm1|split_and!; cbn; unfold in_width; lia|].
      apply validate_region_ok in Hval. apply validate_region_ok. cbn. lia.
    + cbn. lia.
    + cbn. lia.
  - rewrite length_store. apply length_store.
  - intros i Hi1 Hi2. rewrite lookup_store_outside by lia. apply lookup_store_outside. lia.
Qed.
End MemoryFacts.
