(* ===== verification/Crypto.v ===== *)
(** * Signatures ([cosmwasm/packages/crypto])

    The checks that surround the curve libraries: lengths and formats of hashes,
    signatures and keys, the shapes of a batch, and the mapping of failures to
    error values. The libraries themselves (k256, ed25519-zebra) are the class
    [Curves]; [CurvesSpec] states what they document. *)

From S2P Require Import Prelude.
From S2P Require Import CwStd.
From S2P Require Import StdError.

Open Scope Z_scope.

Class Curves := {
  (** k256: signatures, verifying keys, recoverable signatures. *)
  EcSignature : Type;
  EcKey : Type;
  EcRecoverable : Type;
  signature_from_bytes : bytes → string + EcSignature;
  normalize_s : EcSignature → option EcSignature;
  key_from_sec1_bytes : bytes → string + EcKey;
  verify_digest : EcKey → bytes → EcSignature → bool;
  recovery_id_new : Z → bool;
  recoverable_new : EcSignature → Z → string + EcRecoverable;
  recover_verifying_key : EcRecoverable → bytes → string + EcKey;
  to_encoded_point : EcKey → bytes;
  (** ed25519-zebra: verification keys, single and batch verification (of keys,
      signatures and messages). *)
  EdKey : Type;
  ed_key_try_from : bytes → option EdKey;
  ed_verify : EdKey → bytes → bytes → bool;
  ed_batch_verify : list (bytes * bytes * bytes) → bool
}.

(** A batch is accepted when each of its members is (the agreement of single and
    batch verification that ZIP 215 fixes). *)
Class CurvesSpec `{Curves} : Prop := {
  batch_is_all items :
    ed_batch_verify items =
    forallb (λ '(key, signature, message),
      match ed_key_try_from key with
      | Some vk => ed_verify vk signature message
      | None => false
      end) items
}.

(** ** [identity_digest.rs]: a digest that returns what it was given *)
Record Identity256 := mkIdentity256 { array : bytes }.

Definition identity_default : Identity256 := mkIdentity256 (replicate 32 Byte.x00).

Definition identity_update {E} (hash : bytes) : M E Identity256 unit :=
  if (length hash =? 32)%nat then put (mkIdentity256 hash)
  else panic "assertion failed: `(left == right)`".

Definition identity_finalize_into (self : Identity256) : bytes := array self.

Definition identity_reset {E} : M E Identity256 unit := put identity_default.

(** [Identity256::new().chain(hash)], finalized by the user of the digest. *)
Definition identity_digest {E S} (hash : bytes) : M E S bytes := λ s,
  match identity_update (E := E) hash identity_default with
  | (Ok _, d) => (Ok (identity_finalize_into d), s)
  | (Err e, _) => (Err e, s)
  | (Panic p, _) => (Panic p, s)
  | (OutOfFuel, _) => (OutOfFuel, s)
  end.

(** ** [secp256k1.rs] *)
Definition MESSAGE_HASH_MAX_LEN : Z := 32.
Definition ECDSA_SIGNATURE_LEN : Z := 64.
Definition ECDSA_COMPRESSED_PUBKEY_LEN : Z := 33.
Definition ECDSA_UNCOMPRESSED_PUBKEY_LEN : Z := 65.
Definition ECDSA_PUBKEY_MAX_LEN : Z := ECDSA_UNCOMPRESSED_PUBKEY_LEN.

(** [data.try_into()] for an array of [n] bytes, with the error that follows. *)
Definition read_array (n : Z) (e : CryptoError) (data : bytes) : CryptoError + bytes :=
  if Z.of_nat (length data) =? n then inr data else inl e.

Definition read_hash (data : bytes) : CryptoError + bytes :=
  read_array 32 CryptoInvalidHashFormat data.

Definition read_signature (data : bytes) : CryptoError + bytes :=
  read_array 64 CryptoInvalidSignatureFormat data.

Definition check_pubkey (data : bytes) : CryptoError + unit :=
  let ok :=
    match data with
    | Byte.x02 :: _ | Byte.x03 :: _ => Z.of_nat (length data) =? ECDSA_COMPRESSED_PUBKEY_LEN
    | Byte.x04 :: _ => Z.of_nat (length data) =? ECDSA_UNCOMPRESSED_PUBKEY_LEN
    | _ => false
    end in
  if ok then inr tt else inl CryptoInvalidPubkeyFormat.

(** [map_err(|e| CryptoError::generic_err(e.to_string()))]. *)
Definition generic {A} (r : string + A) : CryptoError + A :=
  match r with inl e => inl (CryptoGenericErr e) | inr a => inr a end.

(** ** [ed25519.rs] *)
Definition EDDSA_PUBKEY_LEN : Z := 32.

Definition read_pubkey (data : bytes) : CryptoError + bytes :=
  read_array 32 CryptoInvalidPubkeyFormat data.

Section Crypto.
Context {HCv : Curves} {S : Type}.
Abbreviation CR := (M CryptoError S).

Definition secp256k1_verify (message_hash signature public_key : bytes) : CR bool :=
  message_hash ← of_sum (read_hash message_hash);
  signature ← of_sum (read_signature signature);
  _ ← of_sum (check_pubkey public_key);
  message_digest ← identity_digest message_hash;
  signature ← of_sum (generic (signature_from_bytes signature));
  let signature := default signature (normalize_s signature) in
  public_key ← of_sum (generic (key_from_sec1_bytes public_key));
  mret (verify_digest public_key message_digest signature).

Definition secp256k1_recover_pubkey (message_hash signature : bytes) (recovery_param : Z)
    : CR bytes :=
  message_hash ← of_sum (read_hash message_hash);
  signature ← of_sum (read_signature signature);
  _ ← (if recovery_id_new recovery_param then mret tt else throw CryptoInvalidRecoveryParam);
  signature ← of_sum (generic (signature_from_bytes signature));
  extended_signature ← of_sum (generic (recoverable_new signature recovery_param));
  message_digest ← identity_digest message_hash;
  pubkey ← of_sum (generic (recover_verifying_key extended_signature message_digest));
  mret (to_encoded_point pubkey).

Definition ed25519_verify (message signature public_key : bytes) : CR bool :=
  signature ← of_sum (read_signature signature);
  pubkey ← of_sum (read_pubkey public_key);
  mret (match ed_key_try_from pubkey with
        | Some vk => ed_verify vk signature message
        | None => false
        end).

(** [debug_assert_eq!]. *)
Definition debug_assert (b : bool) : CR unit :=
  if b then mret tt else panic "assertion failed: `(left == right)`".

(** The structural checks: messages and keys, replicated to the common length. *)
Definition batch_shape (messages signatures public_keys : list bytes)
    : CryptoError + (list bytes * list bytes) :=
  let messages_len := length messages in
  let signatures_len := length signatures in
  let public_keys_len := length public_keys in
  if (messages_len =? signatures_len)%nat && (messages_len =? public_keys_len)%nat then
    inr (messages, public_keys)
  else if (messages_len =? 1)%nat && (signatures_len =? public_keys_len)%nat then
    inr (mjoin (replicate signatures_len messages), public_keys)
  else if (public_keys_len =? 1)%nat && (messages_len =? signatures_len)%nat then
    inr (messages, mjoin (replicate messages_len public_keys))
  else inl (CryptoBatchErr "Mismatched / erroneous number of messages / signatures / public keys").

(** The loop that checks and enqueues. *)
Fixpoint batch_queue (items : list (bytes * bytes * bytes)) (batch : list (bytes * bytes * bytes))
    : CR (list (bytes * bytes * bytes)) :=
  match items with
  | [] => mret batch
  | (message, signature, public_key) :: items =>
      signature ← of_sum (read_signature signature);
      pubkey ← of_sum (read_pubkey public_key);
      batch_queue items (batch ++ [(pubkey, signature, message)])
  end.

Definition ed25519_batch_verify (messages signatures public_keys : list bytes) : CR bool :=
  '(messages, public_keys) ← of_sum (batch_shape messages signatures public_keys);
  _ ← debug_assert (length messages =? length signatures)%nat;
  _ ← debug_assert (length messages =? length public_keys)%nat;
  batch ← batch_queue (zip (zip messages signatures) public_keys) [];
  mret (ed_batch_verify batch).

(** ** The batch, one signature at a time

    The reference for batch verification: [ed25519_verify] on each member. *)
Fixpoint verify_each (items : list (bytes * bytes * bytes)) : CR bool :=
  match items with
  | [] => mret true
  | (message, signature, public_key) :: items =>
      valid ← ed25519_verify message signature public_key;
      rest ← verify_each items;
      mret (valid && rest)
  end.

(** What the curve libraries say of a queue. *)
Definition queue_valid (batch : list (bytes * bytes * bytes)) : bool :=
  forallb (λ '(key, signature, message),
    match ed_key_try_from key with
    | Some vk => ed_verify vk signature message
    | None => false
    end) batch.

Lemma batch_queue_verifies items batch s :
  (batch ← batch_queue items batch; mret (queue_valid batch)) s =
  (rest ← verify_each items; mret (queue_valid batch && rest)) s.
Proof.
  revert batch. induction items as [|[[m sg] k] items IH]; intros batch; cbn [batch_queue verify_each].
  - rewrite !bind_ret_l. by rewrite andb_true_r.
  - rewrite !bind_assoc. unfold ed25519_verify. rewrite !bind_assoc.
    destruct (read_signature sg) as [e|sg']; cbn [of_sum]; [done|]. rewrite !bind_ret_l, !bind_assoc.
    destruct (read_pubkey k) as [e|k']; cbn [of_sum]; [done|]. rewrite !bind_ret_l, IH.
    rewrite bind_assoc. unfold mbind, M_bind. destruct (verify_each items s) as [[b|e|p|] s']; try done.
    cbn. unfold queue_valid. rewrite forallb_app. cbn. by rewrite andb_true_r, andb_assoc.
Qed.

Lemma read_array_cases n e d : read_array n e d = inr d ∨ read_array n e d = inl e.
Proof. unfold read_array. case_match; auto. Qed.

Lemma mjoin_replicate_one {A} n (x : A) : mjoin (replicate n [x]) = replicate n x.
Proof. induction n as [|n IH]; cbn; [done|]. by f_equal. Qed.
End Crypto.

Section CryptoFacts.
Context `{HCS : CurvesSpec} {S : Type}.

(** A batch of one length is verified one by one. *)
Lemma batch_of_shape messages signatures public_keys ms ks s :
  batch_shape messages signatures public_keys = inr (ms, ks) →
  length ms = length signatures → length ks = length signatures →
  ed25519_batch_verify (S := S) messages signatures public_keys s =
  verify_each (zip (zip ms signatures) ks) s.
Proof.
  intros Hs Hm Hk. unfold ed25519_batch_verify. rewrite Hs. cbn [of_sum]. rewrite bind_ret_l.
  unfold debug_assert. rewrite Hm, Hk, !Nat.eqb_refl, !bind_ret_l.
  transitivity ((batch ← batch_queue (zip (zip ms signatures) ks) []; mret (queue_valid batch)) s).
  { unfold mbind, M_bind. case_match. case_match; try done. by rewrite batch_is_all. }
  rewrite batch_queue_verifies. cbn [queue_valid forallb andb]. apply bind_ret_r.
Qed.

(** Batch verification is single verification of every member, in the three
    shapes its documentation lists (equal numbers; one message for all keys; one
    key for all messages), errors included, and every other shape is a batch
    error. *)
Theorem batch_verify_is_each signatures s :
  let n := length signatures in
  (∀ messages public_keys, length messages = n → length public_keys = n →
     ed25519_batch_verify (S := S) messages signatures public_keys s =
     verify_each (zip (zip messages signatures) public_keys) s) ∧
  (∀ message public_keys, length public_keys = n →
     ed25519_batch_verify (S := S) [message] signatures public_keys s =
     verify_each (zip (zip (replicate n message) signatures) public_keys) s) ∧
  (∀ messages public_key, length messages = n →
     ed25519_batch_verify (S := S) messages signatures [public_key] s =
     verify_each (zip (zip messages signatures) (replicate n public_key)) s) ∧
  (∀ messages public_keys,
     ¬ (length messages = n ∧ length public_keys = n) →
     ¬ (length messages = 1%nat ∧ length public_keys = n) →
     ¬ (length messages = n ∧ length public_keys = 1%nat) →
     ed25519_batch_verify (S := S) messages signatures public_keys s =
     (Err (CryptoBatchErr "Mismatched / erroneous number of messages / signatures / public keys"), s)).
Proof.
  cbv zeta. split_and!.
  - intros ms ks Hm Hk. apply batch_of_shape; [|done..].
    unfold batch_shape. by rewrite Hm, Hk, !Nat.eqb_refl.
  - intros m ks Hk. apply batch_of_shape; [|apply length_replicate|done].
    unfold batch_shape. cbn [length]. rewrite Hk, Nat.eqb_refl, mjoin_replicate_one, andb_diag. cbn.
    destruct signatures as [|? [|]]; cbn; [done..|by rewrite Nat.eqb_refl].
  - intros ms k Hm. apply batch_of_shape; [|done|apply length_replicate].
    unfold batch_shape. cbn [length]. rewrite Hm, Nat.eqb_refl, mjoin_replicate_one. cbn [andb].
    by destruct signatures as [|? [|]]; cbn; rewrite ?Nat.eqb_refl.
  - intros ms ks H1 H2 H3. unfold ed25519_batch_verify, batch_shape.
    destruct (Nat.eqb_spec (length ms) (length signatures)),
      (Nat.eqb_spec (length ms) (length ks)), (Nat.eqb_spec (length ms) 1),
      (Nat.eqb_spec (length signatures) (length ks)), (Nat.eqb_spec (length ks) 1); cbn; try done; lia.
Qed.
End CryptoFacts.

(** ** Errors of the two curves

    Which errors the callers in the VM have to expect. *)
Definition verify_error (e : CryptoError) : Prop :=
  match e with CryptoBatchErr _ | CryptoInvalidRecoveryParam => False | _ => True end.
Definition recover_error (e : CryptoError) : Prop :=
  match e with CryptoBatchErr _ | CryptoInvalidPubkeyFormat => False | _ => True end.
Definition ed_error (e : CryptoError) : Prop :=
  match e with
  | CryptoBatchErr _ | CryptoInvalidHashFormat | CryptoInvalidRecoveryParam => False
  | _ => True
  end.
Definition ed_batch_error (e : CryptoError) : Prop :=
  match e with CryptoInvalidHashFormat | CryptoInvalidRecoveryParam => False | _ => True end.

(** [pure_with P m]: [m] does not touch the state and either returns or fails with
    an error of [P]; it does not panic. *)
Definition pure_with {E S A} (P : E → Prop) (m : M E S A) : Prop :=
  ∀ s, (∃ a, m s = (Ok a, s)) ∨ ∃ e, m s = (Err e, s) ∧ P e.

Section pure_with.
Context {E S : Type} (P : E → Prop).

Lemma pure_with_ret {A} (a : A) : pure_with P (mret a : M E S A).
Proof. intros s. left. by eexists. Qed.
Lemma pure_with_throw {A} (e : E) : P e → pure_with P (throw e : M E S A).
Proof. intros He s. right. by eexists. Qed.
Lemma pure_with_bind {A B} (m : M E S A) (k : A → M E S B) :
  pure_with P m → (∀ a, pure_with P (k a)) → pure_with P (m ≫= k).
Proof.
  intros Hm Hk s. unfold mbind, M_bind.
  destruct (Hm s) as [[a ->]|(e & -> & He)]; [apply Hk|right; by eexists].
Qed.
(** The value of a [Result] is known where the run goes on. *)
Lemma pure_with_of_sum {A B} (r : E + A) (k : A → M E S B) :
  (∀ e, r = inl e → P e) → (∀ a, r = inr a → pure_with P (k a)) →
  pure_with P (of_sum r ≫= k).
Proof.
  intros He Hk s. destruct r as [e|a]; cbn; [right|by apply Hk].
  eexists. split; [done|by apply He].
Qed.
End pure_with.

Lemma read_array_inl n e d e' : read_array n e d = inl e' → e' = e.
Proof. unfold read_array. case_match; congruence. Qed.
Lemma read_hash_length d h : read_hash d = inr h → length h = 32%nat.
Proof. unfold read_hash, read_array. case_match; [intros [= ->]|done]. lia. Qed.
Lemma generic_inl {A} (r : string + A) e : generic r = inl e → ∃ m, e = CryptoGenericErr m.
Proof. destruct r; cbn; [intros [= <-]; eauto|done]. Qed.

Ltac pure_sum :=
  apply pure_with_of_sum;
  [intros ? Hsum; first [apply read_array_inl in Hsum as -> | apply generic_inl in Hsum as [? ->]
                        |unfold check_pubkey in Hsum; repeat case_match; simplify_eq]; done
  |intros ? ?].

Lemma identity_digest_pure {E S} (P : E → Prop) h :
  length h = 32%nat → pure_with P (identity_digest h : M E S bytes).
Proof.
  intros Hh s. left. unfold identity_digest, identity_update. rewrite Hh. by eexists.
Qed.

Section CryptoErrors.
Context {HCv : Curves} {S : Type}.

Lemma secp256k1_verify_pure h sg k :
  pure_with verify_error (secp256k1_verify h sg k : M CryptoError S bool).
Proof.
  unfold secp256k1_verify. do 3 pure_sum.
  apply pure_with_bind; [by eapply identity_digest_pure, read_hash_length|intros d].
  do 2 pure_sum. apply pure_with_ret.
Qed.

Lemma secp256k1_recover_pubkey_pure h sg p :
  pure_with recover_error (secp256k1_recover_pubkey h sg p : M CryptoError S bytes).
Proof.
  unfold secp256k1_recover_pubkey. do 2 pure_sum.
  apply pure_with_bind; [case_match; [apply pure_with_ret|by apply pure_with_throw]|intros []].
  do 2 pure_sum.
  apply pure_with_bind; [by eapply identity_digest_pure, read_hash_length|intros d].
  pure_sum. apply pure_with_ret.
Qed.

Lemma ed25519_verify_pure m sg k : pure_with ed_error (ed25519_verify m sg k : M CryptoError S bool).
Proof. unfold ed25519_verify. do 2 pure_sum. apply pure_with_ret. Qed.

Lemma batch_queue_pure items batch :
  pure_with ed_batch_error (batch_queue items batch : M CryptoError S _).
Proof.
  revert batch. induction items as [|[[m sg] k] items IH]; intros batch; cbn [batch_queue].
  - apply pure_with_ret.
  - do 2 pure_sum. apply IH.
Qed.

(** The shapes that pass are padded to one length. *)
Lemma batch_shape_lengths ms ss ks ms' ks' :
  batch_shape ms ss ks = inr (ms', ks') → length ms' = length ss ∧ length ks' = length ss.
Proof.
  unfold batch_shape.
  destruct (Nat.eqb_spec (length ms) (length ss)), (Nat.eqb_spec (length ms) (length ks)),
    (Nat.eqb_spec (length ms) 1), (Nat.eqb_spec (length ss) (length ks)),
    (Nat.eqb_spec (length ks) 1); cbn; intros [= <- <-]; try (split; congruence).
  all: repeat match goal with H : length ?l = 1%nat |- _ => destruct l as [|? [|]]; try discriminate H; clear H end.
  all: rewrite mjoin_replicate_one, length_replicate; cbn in *; split; congruence.
Qed.

Lemma ed25519_batch_verify_pure ms ss ks :
  pure_with ed_batch_error (ed25519_batch_verify ms ss ks : M CryptoError S bool).
Proof.
  unfold ed25519_batch_verify. apply pure_with_of_sum.
  - intros e. unfold batch_shape. repeat case_match; by intros [= <-].
  - intros [ms' ks'] [Hm Hk]%batch_shape_lengths. unfold debug_assert.
    rewrite Hm, Hk, Nat.eqb_refl. do 2 (apply pure_with_bind; [apply pure_with_ret|intros _]).
    apply pure_with_bind; [apply batch_queue_pure|intros b]. apply pure_with_ret.
Qed.
End CryptoErrors.
