(* ===== verification/Compatibility.v ===== *)
(** * Text of a bounded length ([cosmwasm/packages/vm/src/limited.rs])

    Contract authors choose names, so lists of names in error messages are cut.
    A string is its bytes, as [len] counts them.

    The second part has the static checks of codes, [compatibility.rs] and [static_analysis.rs]. *)

From S2P Require Import Prelude.
From S2P Require Import Digits.
From S2P Require Import Errors.

Open Scope nat_scope.

(** [BTreeSet<String>]: the names in the order of their bytes, once each. *)
Definition string_le (a b : string) : Prop := bytes_le (as_bytes a) (as_bytes b).
#[export] Instance string_le_dec a b : Decision (string_le a b) :=
  decide (bytes_le (as_bytes a) (as_bytes b)).
Definition btree_set (names : list string) : list string :=
  merge_sort string_le (remove_dups names).

Definition quote : string := String (Ascii.ascii_of_nat 34) EmptyString.

(** One element as it is appended. *)
Definition element_text (first : bool) (element : string) : string :=
  (if first then quote else ", " +:+ quote) +:+ element +:+ quote.

(** The first loop: the text so far and the stack of lengths (top first). *)
Fixpoint push_elements (max_length : nat) (first : bool) (elements : list string)
    (out : string) (lengths_stack : list nat) : string * list nat :=
  match elements with
  | [] => (out, lengths_stack)
  | element :: rest =>
      let lengths_stack := String.length out :: lengths_stack in
      let out := out +:+ element_text first element in
      if max_length <? String.length out then (out, lengths_stack)
      else push_elements max_length false rest out lengths_stack
  end.

(** The text for the elements that are left out. *)
Definition skipped_text (elements_count stack_len : nat) : string :=
  let skipped := elements_count - stack_len in
  let remaining := elements_count - skipped in
  if remaining =? 0 then "... " +:+ pretty skipped +:+ " elements"
  else ", ... " +:+ pretty skipped +:+ " more".

(** The second loop: elements are dropped until the text fits; [None] is the panic
    when nothing is left to drop. *)
Fixpoint drop_elements (max_length elements_count : nat) (out closing : string)
    (lengths_stack : list nat) : option string :=
  match lengths_stack with
  | [] => None
  | previous_length :: lengths_stack =>
      let text := skipped_text elements_count (length lengths_stack) in
      if previous_length + String.length text + String.length closing <=? max_length then
        Some (String.substring 0 previous_length out +:+ text +:+ closing)
      else drop_elements max_length elements_count out closing lengths_stack
  end.

Definition collection_to_string_limited (elements : list string) (max_length : nat)
    (opening closing : string) : option string :=
  let '(out, lengths_stack) := push_elements max_length true elements opening [] in
  if String.length out + String.length closing <=? max_length then Some (out +:+ closing)
  else drop_elements max_length (length elements) out closing lengths_stack.

(** [to_string_limited] of sets and of vectors. *)
Definition set_to_string_limited (names : list string) (max_length : nat) : option string :=
  collection_to_string_limited (btree_set names) max_length "{" "}".
Definition vec_to_string_limited (names : list string) (max_length : nat) : option string :=
  collection_to_string_limited names max_length "[" "]".

(** ** The limit is kept *)
Lemma length_substring n s : n ≤ String.length s → String.length (String.substring 0 n s) = n.
Proof.
  revert s. induction n as [|n IH]; intros [|c s] H; cbn in *; [done..|lia|]. rewrite IH; lia.
Qed.

(** The stack holds lengths of prefixes of the text, the lowest one that of the
    opening. *)
Definition stack_ok (opening out : string) (stack : list nat) : Prop :=
  (stack = [] ∧ out = opening) ∨
  (last stack = Some (String.length opening) ∧ Forall (λ n, n ≤ String.length out) stack).

Lemma push_elements_ok opening max first elements out stack out' stack' :
  push_elements max first elements out stack = (out', stack') →
  stack_ok opening out stack → stack_ok opening out' stack'.
Proof.
  revert first out stack. induction elements as [|element rest IH]; intros first out stack H Hok; cbn in H.
  { by injection H as <- <-. }
  set (out1 := out +:+ element_text first element) in *.
  assert (String.length out ≤ String.length out1) as Hle by (unfold out1; rewrite length_app_string; lia).
  assert (stack_ok opening out1 (String.length out :: stack)) as Hok1.
  { right. destruct Hok as [[-> ->]|[Hl Hf]].
    - split; [done|]. constructor; [done|constructor].
    - split; [by destruct stack|]. constructor; [done|].
      eapply Forall_impl; [exact Hf|]. cbn. lia. }
  case_match; [by injection H as <- <-|by eapply IH].
Qed.

Lemma drop_elements_bounded max count out closing stack :
  Forall (λ n, n ≤ String.length out) stack →
  (∃ r, drop_elements max count out closing stack = Some r ∧ String.length r ≤ max) ∨
  (drop_elements max count out closing stack = None ∧
   ∀ n, last stack = Some n →
     max < n + String.length (skipped_text count 0) + String.length closing).
Proof.
  induction stack as [|n stack IH]; intros Hf; cbn [drop_elements]; [right; by split|].
  apply Forall_cons in Hf as [Hn Hf].
  destruct (Nat.leb_spec (n + String.length (skipped_text count (length stack)) + String.length closing) max).
  - left. eexists. split; [done|]. rewrite !length_app_string, length_substring by done. lia.
  - destruct (IH Hf) as [?|[Hnone Hlast]]; [by left|]. right. split; [done|].
    intros m. destruct stack as [|n' stack']; [|exact (Hlast m)]. cbn [last length] in *. by intros [= <-].
Qed.

Lemma app_string_nil s : s +:+ EmptyString = s.
Proof. induction s as [|c s IH]; [done|]. by rewrite append_cons, IH. Qed.
Lemma app_string_assoc s t u : s +:+ (t +:+ u) = (s +:+ t) +:+ u.
Proof. induction s as [|c s IH]; [done|]. by rewrite !append_cons, IH. Qed.

(** The text of all elements. *)
Fixpoint elements_text (first : bool) (elements : list string) : string :=
  match elements with
  | [] => EmptyString
  | element :: rest => element_text first element +:+ elements_text false rest
  end.

Lemma push_elements_all max first elements out stack :
  String.length (out +:+ elements_text first elements) ≤ max →
  (push_elements max first elements out stack).1 = out +:+ elements_text first elements.
Proof.
  revert first out stack. induction elements as [|element rest IH]; intros first out stack Hmax; cbn [push_elements elements_text fst] in *.
  { symmetry. apply app_string_nil. }
  rewrite app_string_assoc in *. destruct (Nat.ltb_spec max (String.length (out +:+ element_text first element)));
    [rewrite length_app_string in Hmax; lia|]. by apply IH.
Qed.

(** Names of any number and length are printed within the limit: as soon as it
    leaves room for the number of elements, the result exists (the panic of the
    source cannot happen) and is at most [max_length] bytes long; names that fit
    are printed in full. *)
Theorem to_string_limited_bounded elements max_length opening closing :
  String.length opening + String.length ("... " +:+ pretty (length elements) +:+ " elements") +
    String.length closing ≤ max_length →
  ∃ text, collection_to_string_limited elements max_length opening closing = Some text ∧
    String.length text ≤ max_length ∧
    (String.length (opening +:+ elements_text true elements +:+ closing) ≤ max_length →
     text = opening +:+ elements_text true elements +:+ closing).
Proof.
  intros Hmax.
  destruct (Nat.leb_spec (String.length (opening +:+ elements_text true elements +:+ closing)) max_length)
    as [Hfit|Hno].
  { eexists. split; [|split; [exact Hfit|done]]. unfold collection_to_string_limited.
    rewrite app_string_assoc, length_app_string in Hfit. rewrite app_string_assoc.
    pose proof (push_elements_all max_length true elements opening []) as Hall.
    destruct (push_elements max_length true elements opening []) as [out stack]. cbn in Hall.
    rewrite Hall by lia. by destruct (Nat.leb_spec (String.length (opening +:+ elements_text true elements) +
      String.length closing) max_length); [|lia]. }
  assert (∃ text, collection_to_string_limited elements max_length opening closing = Some text ∧
    String.length text ≤ max_length) as (text & ? & ?); [|exists text; split_and!; [done..|lia]].
  unfold collection_to_string_limited.
  destruct (push_elements max_length true elements opening []) as [out stack] eqn:Hp.
  apply (push_elements_ok opening) in Hp; [|by left].
  destruct (Nat.leb_spec (String.length out + String.length closing) max_length).
  { eexists. split; [done|]. by rewrite length_app_string. }
  clear Hno. destruct Hp as [[-> ->]|[Hl Hf]]; [lia|].
  destruct (drop_elements_bounded max_length (length elements) out closing stack Hf) as [?|[_ Hno]]; [done|].
  exfalso. specialize (Hno _ Hl). unfold skipped_text in Hno.
  rewrite Nat.sub_0_r, Nat.sub_diag in Hno. cbn [Nat.eqb] in Hno. lia.
Qed.

(** * Static checks of a contract ([cosmwasm/packages/vm/src]: [compatibility.rs],
      [capabilities.rs], [static_analysis.rs]; [instance.rs] for the imports it links)

    What a code has to look like to be stored: one memory of a bounded size, the
    marker of the interface version, the required exports, no import the host does
    not provide, no capability the chain does not have. parity-wasm, which reads
    the binary format, is the parameter [deserialize_buffer]. *)

Open Scope Z_scope.

(** ** [parity_wasm::elements], as far as the checks look *)
Record ResizableLimits := mkLimits { initial : Z; maximum : option Z }.
Inductive Internal := IFunction | ITable | IMemory | IGlobal.
Inductive External := EFunction | ETable | EMemory | EGlobal.
Record ImportEntry := mkImport { ie_module : string; ie_field : string; ie_external : External }.
Record WasmModule := mkWasmModule {
  memory_section : option (list ResizableLimits);
  export_section : option (list (string * Internal));
  import_section : option (list ImportEntry)
}.

Class ParityWasm := { deserialize_buffer : bytes → string + WasmModule }.

(** ** [static_analysis.rs] *)
Definition REQUIRED_IBC_EXPORTS : list string :=
  ["ibc_channel_open"; "ibc_channel_connect"; "ibc_channel_close"; "ibc_packet_receive";
   "ibc_packet_ack"; "ibc_packet_timeout"].

Definition deserialize_wasm {PW : ParityWasm} (wasm_code : bytes) : VmError + WasmModule :=
  match deserialize_buffer wasm_code with
  | inl err => inl (StaticValidationErr
      ("Wasm bytecode could not be deserialized. Deserialization error: " +:+ quote +:+ err +:+ quote))
  | inr m => inr m
  end.

(** [name.starts_with(prefix)] for an optional prefix. *)
Definition has_prefix (prefix : option string) (name : string) : bool :=
  match prefix with Some p => String.prefix p name | None => true end.

Definition is_function (entry : string * Internal) : bool :=
  match entry.2 with IFunction => true | _ => false end.

Definition exported_function_names (module : WasmModule) (prefix : option string) : gset string :=
  match export_section module with
  | None => ∅
  | Some entries =>
      list_to_set (List.filter (has_prefix prefix) (fst <$> List.filter is_function entries))
  end.

Definition has_ibc_entry_points (module : WasmModule) : bool :=
  let available_exports := exported_function_names module None in
  forallb (λ required, bool_decide (required ∈ available_exports)) REQUIRED_IBC_EXPORTS.

(** ** [capabilities.rs] *)
Definition REQUIRES_PREFIX : string := "requires_".

(** [split_at] behind the prefix; a bare prefix requires nothing. *)
Definition capability_of (name : string) : option string :=
  let n := String.length REQUIRES_PREFIX in
  if (n <? String.length name)%nat
  then Some (String.substring n (String.length name - n) name) else None.

Definition required_capabilities_from_module (module : WasmModule) : gset string :=
  list_to_set (omap capability_of (elements (exported_function_names module (Some REQUIRES_PREFIX)))).

(** ** [compatibility.rs] *)
Definition SUPPORTED_IMPORTS : list string :=
  ["env.abort"; "env.db_read"; "env.db_write"; "env.db_remove"; "env.addr_validate";
   "env.addr_canonicalize"; "env.addr_humanize"; "env.secp256k1_verify";
   "env.secp256k1_recover_pubkey"; "env.ed25519_verify"; "env.ed25519_batch_verify";
   "env.debug"; "env.query_chain"; "env.db_scan"; "env.db_next"].

Definition REQUIRED_EXPORTS : list string := ["allocate"; "deallocate"; "instantiate"].
Definition INTERFACE_VERSION_PREFIX : string := "interface_version_".
Definition SUPPORTED_INTERFACE_VERSIONS : list string := ["interface_version_8"].
Definition MEMORY_LIMIT : Z := 512.

(** The [Debug] of a slice of strings without special characters. *)
Definition debug_strings (l : list string) : string :=
  "[" +:+ elements_text true l +:+ "]".

Section checks.
Context {S : Type}.
Abbreviation CHECK := (M VmError S).

Definition check_wasm_memories (module : WasmModule) : CHECK unit :=
  match memory_section module with
  | None => throw (StaticValidationErr "Wasm contract doesn't have a memory section")
  | Some [limits] =>
      if MEMORY_LIMIT <? initial limits then
        throw (StaticValidationErr ("Wasm contract memory's minimum must not exceed " +:+
          pretty MEMORY_LIMIT +:+ " pages."))
      else match maximum limits with
      | Some _ => throw (StaticValidationErr
          "Wasm contract memory's maximum must be unset. The host will set it for you.")
      | None => mret tt
      end
  | Some _ => throw (StaticValidationErr "Wasm contract must contain exactly one memory")
  end.

Definition check_interface_version (module : WasmModule) : CHECK unit :=
  match elements (exported_function_names module (Some INTERFACE_VERSION_PREFIX)) with
  | [] => throw (StaticValidationErr
      "Wasm contract missing a required marker export: interface_version_*")
  | [version_str] =>
      if existsb (String.eqb version_str) SUPPORTED_INTERFACE_VERSIONS then mret tt
      else throw (StaticValidationErr
        "Wasm contract has unknown interface_version_* marker export (see https://github.com/CosmWasm/cosmwasm/blob/main/packages/vm/README.md)")
  | _ => throw (StaticValidationErr
      "Wasm contract contains more than one marker export: interface_version_*")
  end.

Fixpoint check_required (available_exports : gset string) (required : list string) : CHECK unit :=
  match required with
  | [] => mret tt
  | required_export :: rest =>
      if bool_decide (required_export ∈ available_exports) then check_required available_exports rest
      else throw (StaticValidationErr ("Wasm contract doesn't have required export: " +:+ quote +:+
        required_export +:+ quote +:+ ". Exports required by VM: " +:+
        debug_strings REQUIRED_EXPORTS +:+ "."))
  end.

Definition check_wasm_exports (module : WasmModule) : CHECK unit :=
  check_required (exported_function_names module None) REQUIRED_EXPORTS.

Definition full_import_name (ie : ImportEntry) : string := ie_module ie +:+ "." +:+ ie_field ie.

Fixpoint check_imports (supported_imports required_import_names : list string)
    (required_imports : list ImportEntry) : CHECK unit :=
  match required_imports with
  | [] => mret tt
  | required_import :: rest =>
      let full_name := full_import_name required_import in
      if negb (existsb (String.eqb full_name) supported_imports) then
        names ← unwrap "Cannot remove hide enough elements to fit in length limit."
                  (set_to_string_limited required_import_names 200);
        throw (StaticValidationErr ("Wasm contract requires unsupported import: " +:+ quote +:+
          full_name +:+ quote +:+ ". Required imports: " +:+ names +:+
          ". Available imports: " +:+ debug_strings supported_imports +:+ "."))
      else match ie_external required_import with
      | EFunction => check_imports supported_imports required_import_names rest
      | _ => throw (StaticValidationErr ("Wasm contract requires non-function import: " +:+ quote +:+
          full_name +:+ quote +:+ ". Right now, all supported imports are functions."))
      end
  end.

Definition check_wasm_imports (module : WasmModule) (supported_imports : list string) : CHECK unit :=
  let required_imports := default [] (import_section module) in
  check_imports supported_imports (full_import_name <$> required_imports) required_imports.

Definition check_wasm_capabilities (module : WasmModule) (available_capabilities : gset string)
    : CHECK unit :=
  let required_capabilities := required_capabilities_from_module module in
  if bool_decide (required_capabilities ⊆ available_capabilities) then mret tt
  else
    names ← unwrap "Cannot remove hide enough elements to fit in length limit."
              (set_to_string_limited (elements (required_capabilities ∖ available_capabilities)) 200);
    throw (StaticValidationErr ("Wasm contract requires unavailable capabilities: " +:+ names)).

Definition check_wasm {PW : ParityWasm} (wasm_code : bytes) (available_capabilities : gset string)
    : CHECK unit :=
  module ← of_sum (deserialize_wasm wasm_code);
  _ ← check_wasm_memories module;
  _ ← check_interface_version module;
  _ ← check_wasm_exports module;
  _ ← check_wasm_imports module SUPPORTED_IMPORTS;
  _ ← check_wasm_capabilities module available_capabilities;
  mret tt.
End checks.

(** ** The imports that [Instance::from_module] links *)
Definition linked_imports : list string :=
  ["db_read"; "db_write"; "db_remove"; "addr_validate"; "addr_canonicalize"; "addr_humanize";
   "secp256k1_verify"; "secp256k1_recover_pubkey"; "ed25519_verify"; "ed25519_batch_verify";
   "debug"; "abort"; "query_chain"; "db_scan"; "db_next"].

(** ** What an accepted code looks like *)
Record acceptable (module : WasmModule) (available_capabilities : gset string) : Prop := {
  (** one memory, small enough, its maximum left to the host *)
  acc_memory : ∃ n, memory_section module = Some [mkLimits n None] ∧ n ≤ MEMORY_LIMIT;
  (** one interface marker, for a version the host speaks *)
  acc_version : exported_function_names module (Some INTERFACE_VERSION_PREFIX) =
    {["interface_version_8"]};
  acc_exports : ∀ name, name ∈ ["allocate"; "deallocate"; "instantiate"] →
    name ∈ exported_function_names module None;
  (** every import is a function the host links *)
  acc_imports : ∀ ie, ie ∈ default [] (import_section module) →
    ie_external ie = EFunction ∧ ∃ f, f ∈ linked_imports ∧ full_import_name ie = "env." +:+ f;
  acc_capabilities : required_capabilities_from_module module ⊆ available_capabilities
}.

(** The list of supported imports is the list of linked ones. *)
Lemma supported_are_linked name :
  existsb (String.eqb name) SUPPORTED_IMPORTS = true ↔ ∃ f, f ∈ linked_imports ∧ name = "env." +:+ f.
Proof.
  assert (forallb (λ n, existsb (String.eqb n) ((String.append "env.") <$> linked_imports))
    SUPPORTED_IMPORTS = true) as H1 by reflexivity.
  assert (forallb (λ f, existsb (String.eqb ("env." +:+ f)) SUPPORTED_IMPORTS)
    linked_imports = true) as H2 by reflexivity.
  rewrite forallb_forall in H1, H2. split.
  - rewrite existsb_exists. intros (x & Hx & <-%String.eqb_eq). apply H1 in Hx.
    apply existsb_exists in Hx as (y & Hy & ->%String.eqb_eq).
    apply list_elem_of_In, list_elem_of_fmap in Hy as (f & -> & Hf). eauto.
  - intros (f & Hf & ->). by apply H2, list_elem_of_In.
Qed.

Section facts.
Context {S : Type}.

(** Each check passes exactly on the codes with its property. *)
Lemma check_wasm_memories_ok module (s : S) s' :
  check_wasm_memories module s = (Ok tt, s') ↔
  s' = s ∧ ∃ n, memory_section module = Some [mkLimits n None] ∧ n ≤ MEMORY_LIMIT.
Proof.
  unfold check_wasm_memories. destruct (memory_section module) as [[|[n mx] [|]]|]; cbn; try naive_solver.
  destruct (Z.ltb_spec MEMORY_LIMIT n); cbn.
  - split; [done|]. intros (_ & m & [= -> ->] & ?). lia.
  - destruct mx; cbn; [naive_solver|]. split; [intros [= <-]; eauto|]. by intros [-> _].
Qed.

Lemma check_interface_version_ok module (s : S) s' :
  check_interface_version module s = (Ok tt, s') ↔
  s' = s ∧ exported_function_names module (Some INTERFACE_VERSION_PREFIX) = {["interface_version_8"]}.
Proof.
  unfold check_interface_version.
  destruct (elements (exported_function_names _ _)) as [|v [|v' l]] eqn:He.
  - cbn. split; [done|]. intros [_ Hs]. rewrite Hs, elements_singleton in He. done.
  - assert (exported_function_names module (Some INTERFACE_VERSION_PREFIX) = {[v]}) as ->.
    { apply set_eq. intros x. rewrite <-elem_of_elements, He. set_solver. }
    unfold SUPPORTED_INTERFACE_VERSIONS. cbn [existsb]. rewrite orb_false_r.
    destruct (String.eqb_spec v "interface_version_8") as [->|Hv]; cbn.
    + split; [by intros [= <-]|by intros [-> _]].
    + split; [done|]. intros [_ Hs]. set_solver.
  - cbn. split; [done|]. intros [_ Hs]. rewrite Hs, elements_singleton in He. done.
Qed.

Lemma check_required_ok available required (s : S) s' :
  check_required available required s = (Ok tt, s') ↔
  s' = s ∧ ∀ name, name ∈ required → name ∈ available.
Proof.
  induction required as [|x required IH]; cbn [check_required].
  - cbn. split; [intros [= <-]; set_solver|by intros [-> _]].
  - case_bool_decide as Hx.
    + rewrite IH. set_solver.
    + cbn. split; [done|]. intros [_ Hall]. set_solver.
Qed.

Lemma check_imports_ok names required (s : S) s' :
  check_imports SUPPORTED_IMPORTS names required s = (Ok tt, s') ↔
  s' = s ∧ ∀ ie, ie ∈ required →
    ie_external ie = EFunction ∧ ∃ f, f ∈ linked_imports ∧ full_import_name ie = "env." +:+ f.
Proof.
  induction required as [|ie required IH]; cbn [check_imports].
  { cbn. split; [intros [= <-]; set_solver|by intros [-> _]]. }
  pose proof (supported_are_linked (full_import_name ie)) as Hs.
  destruct (existsb (String.eqb (full_import_name ie)) SUPPORTED_IMPORTS); cbn [negb].
  - destruct Hs as [Hs _]. specialize (Hs eq_refl). destruct (ie_external ie) eqn:Hx; cbn.
    2-4: split; [done|]; intros [_ Hall]; destruct (Hall ie) as [Hf _]; [left|congruence].
    rewrite IH. split; intros [-> Hall]; (split; [done|]); intros ie' Hie'.
    + apply elem_of_cons in Hie' as [->|]; auto.
    + apply Hall. by right.
  - split.
    + unfold unwrap. case_match; cbn; done.
    + intros [_ Hall]. destruct (Hall ie) as [_ Hf]; [left|]. by apply Hs in Hf.
Qed.

Lemma check_wasm_capabilities_ok module available (s : S) s' :
  check_wasm_capabilities module available s = (Ok tt, s') ↔
  s' = s ∧ required_capabilities_from_module module ⊆ available.
Proof.
  unfold check_wasm_capabilities. case_bool_decide; cbn.
  - split; [by intros [= <-]|by intros [-> _]].
  - split; [|naive_solver]. unfold unwrap. by case_match.
Qed.

(** The checks together. *)
Lemma check_wasm_ok {PW : ParityWasm} wasm_code available_capabilities (s : S) :
  check_wasm wasm_code available_capabilities s = (Ok tt, s) ↔
  ∃ module, deserialize_buffer wasm_code = inr module ∧ acceptable module available_capabilities.
Proof.
  unfold check_wasm, deserialize_wasm.
  destruct (deserialize_buffer wasm_code) as [err|module]; cbn [of_sum].
  { split; [done|]. by intros (? & [=] & _). }
  rewrite bind_ret_l. split.
  - intros H. minv. repeat match goal with u : unit |- _ => destruct u end.
    exists module. split; [done|].
    repeat match goal with
    | H : check_wasm_memories _ _ = _ |- _ => apply check_wasm_memories_ok in H as [-> ?]
    | H : check_interface_version _ _ = _ |- _ => apply check_interface_version_ok in H as [-> ?]
    | H : check_wasm_exports _ _ = _ |- _ => apply check_required_ok in H as [-> ?]
    | H : check_wasm_imports _ _ _ = _ |- _ => apply check_imports_ok in H as [-> ?]
    | H : check_wasm_capabilities _ _ _ = _ |- _ => apply check_wasm_capabilities_ok in H as [-> ?]
    end. by constructor.
  - intros (m & [= <-] & [Hm Hv He Hi Hc]).
    erewrite bind_Ok by (by apply check_wasm_memories_ok).
    erewrite bind_Ok by (by apply check_interface_version_ok).
    erewrite bind_Ok by (by apply check_required_ok).
    erewrite bind_Ok by (by apply check_imports_ok).
    by erewrite bind_Ok by (by apply check_wasm_capabilities_ok).
Qed.
(** C28: A code passes [check_wasm] exactly when it is acceptable: one memory of at
    most 512 pages without a maximum, one marker of a supported interface version,
    the required exports as functions, only function imports and only those that
    [Instance::from_module] links, and no capability beyond the available ones. *)
Theorem check_wasm_exact {PW : ParityWasm} wasm_code available_capabilities (s : S) :
  check_wasm wasm_code available_capabilities s = (Ok tt, s) ↔
  ∃ module, deserialize_buffer wasm_code = inr module ∧ acceptable module available_capabilities.
Proof. apply check_wasm_ok. Qed.
End facts.
