(* ===== verification/WasmBackend.v ===== *)
(** * Memory limits of an instance ([cosmwasm/packages/vm/src]: [size.rs],
      [wasm_backend/store.rs], [wasm_backend/limiting_tunables.rs])

    The limit on the memory of an instance, in bytes, becomes a limit in pages of
    64 KiB; [LimitingTunables] puts it on every memory that wasmer creates. The base
    tunables of wasmer are the parameter [Tunables]. *)

From S2P Require Import Prelude.
From S2P Require Import CwStd.
From S2P Require Import Errors.
From S2P Require Import Compatibility.

Open Scope Z_scope.

(** ** [size.rs]: the products overflow like [usize] products do *)
Section size.
Context {E S : Type}.
Definition Size_kilo (n : Z) : M E S Z := mul_or_panic U64 n 1000.
Definition Size_kibi (n : Z) : M E S Z := mul_or_panic U64 n 1024.
Definition Size_mega (n : Z) : M E S Z := x ← mul_or_panic U64 n 1000; mul_or_panic U64 x 1000.
Definition Size_mebi (n : Z) : M E S Z := x ← mul_or_panic U64 n 1024; mul_or_panic U64 x 1024.
Definition Size_giga (n : Z) : M E S Z :=
  x ← mul_or_panic U64 n 1000; y ← mul_or_panic U64 x 1000; mul_or_panic U64 y 1000.
Definition Size_gibi (n : Z) : M E S Z :=
  x ← mul_or_panic U64 n 1024; y ← mul_or_panic U64 x 1024; mul_or_panic U64 y 1024.
End size.

(** ** [store.rs] *)
Definition MAX_WASM_PAGES : Z := 65536.
Definition WASM_PAGE_SIZE : Z := 65536.

(** The flat fee per Wasm operation. *)
Definition operator_cost : Z := 150000.

Definition limit_to_pages (limit : Z) : Z :=
  let limit_in_pages := limit / WASM_PAGE_SIZE in
  if limit_in_pages <? U32 then Z.min limit_in_pages MAX_WASM_PAGES else MAX_WASM_PAGES.

(** ** [limiting_tunables.rs] *)
Record MemoryType := mkMemoryType { mt_minimum : Z; mt_maximum : option Z; mt_shared : bool }.
Inductive MemoryError := MemoryGeneric (msg : string) | MemoryOther (msg : string).

(** The base tunables: styles and memories. *)
Class Tunables := {
  MemoryStyle : Type;
  TableStyle : Type;
  TableType : Type;
  VmMemory : Type;
  VmTable : Type;
  base_memory_style : MemoryType → MemoryStyle;
  base_table_style : TableType → TableStyle;
  base_create_host_memory : MemoryType → MemoryStyle → MemoryError + VmMemory;
  base_create_vm_memory : MemoryType → MemoryStyle → Z → MemoryError + VmMemory;
  base_create_host_table : TableType → TableStyle → string + VmTable;
  base_create_vm_table : TableType → TableStyle → Z → string + VmTable
}.

Record LimitingTunables := mkLimiting { lt_limit : Z }.

Section tunables.
Context {HT : Tunables}.

Definition adjust_memory (self : LimitingTunables) (requested : MemoryType) : MemoryType :=
  match mt_maximum requested with
  | None => mkMemoryType (mt_minimum requested) (Some (lt_limit self)) (mt_shared requested)
  | Some _ => requested
  end.

Definition validate_memory (self : LimitingTunables) (ty : MemoryType) : MemoryError + unit :=
  if lt_limit self <? mt_minimum ty then
    inl (MemoryGeneric "Minimum exceeds the allowed memory limit")
  else match mt_maximum ty with
  | Some max =>
      if lt_limit self <? max then inl (MemoryGeneric "Maximum exceeds the allowed memory limit")
      else inr tt
  | None => inl (MemoryGeneric "Maximum unset")
  end.

Definition memory_style (self : LimitingTunables) (memory : MemoryType) : MemoryStyle :=
  base_memory_style (adjust_memory self memory).

Definition table_style (self : LimitingTunables) (table : TableType) : TableStyle :=
  base_table_style table.

Definition create_host_memory (self : LimitingTunables) (ty : MemoryType) (style : MemoryStyle)
    : MemoryError + VmMemory :=
  let adjusted := adjust_memory self ty in
  match validate_memory self adjusted with
  | inl e => inl e
  | inr _ => base_create_host_memory adjusted style
  end.

Definition create_vm_memory (self : LimitingTunables) (ty : MemoryType) (style : MemoryStyle)
    (vm_definition_location : Z) : MemoryError + VmMemory :=
  let adjusted := adjust_memory self ty in
  match validate_memory self adjusted with
  | inl e => inl e
  | inr _ => base_create_vm_memory adjusted style vm_definition_location
  end.

Definition create_host_table (self : LimitingTunables) (ty : TableType) (style : TableStyle)
    : string + VmTable := base_create_host_table ty style.

Definition create_vm_table (self : LimitingTunables) (ty : TableType) (style : TableStyle)
    (vm_definition_location : Z) : string + VmTable :=
  base_create_vm_table ty style vm_definition_location.

(** [make_store_with_engine]: the tunables of a store with a limit. *)
Definition store_tunables (memory_limit : option Z) : option LimitingTunables :=
  (λ limit, mkLimiting (limit_to_pages limit)) <$> memory_limit.

(** ** Limits hold *)
Lemma limit_to_pages_spec limit :
  0 ≤ limit →
  limit_to_pages limit = Z.min (limit / WASM_PAGE_SIZE) MAX_WASM_PAGES.
Proof.
  intros Hl. unfold limit_to_pages. destruct (Z.ltb_spec (limit / WASM_PAGE_SIZE) U32); [done|].
  unfold U32, MAX_WASM_PAGES in *. lia.
Qed.

(** What passes: a memory type with a maximum, within the limit. *)
Lemma validate_adjusted self ty u :
  validate_memory self (adjust_memory self ty) = inr u →
  ∃ max, adjust_memory self ty = mkMemoryType (mt_minimum ty) (Some max) (mt_shared ty) ∧
    mt_minimum ty ≤ lt_limit self ∧ max ≤ lt_limit self ∧
    (mt_maximum ty = Some max ∨ mt_maximum ty = None ∧ max = lt_limit self).
Proof.
  unfold validate_memory, adjust_memory. destruct ty as [mn [mx|] sh]; cbn.
  - destruct (Z.ltb_spec (lt_limit self) mn); [done|]. destruct (Z.ltb_spec (lt_limit self) mx); [done|].
    intros _. exists mx. auto.
  - destruct (Z.ltb_spec (lt_limit self) mn); [done|]. rewrite Z.ltb_irrefl. intros _.
    exists (lt_limit self). split_and!; [done..|lia|auto].
Qed.
End tunables.

Section limits.
Context {HT : Tunables} {PW : ParityWasm}.

(** The type of the memory that a request is passed on with: the declared minimum, and
    a maximum within the limit: the declared one, or else the whole limit. *)
Definition within (limit : Z) (ty passed : MemoryType) : Prop :=
  ∃ max, passed = mkMemoryType (mt_minimum ty) (Some max) (mt_shared ty) ∧
    mt_minimum ty * WASM_PAGE_SIZE ≤ limit ∧ max * WASM_PAGE_SIZE ≤ limit ∧ max * WASM_PAGE_SIZE ≤ 2 ^ 32 ∧
    (mt_maximum ty = Some max ∨ mt_maximum ty = None ∧ max = limit_to_pages limit).

(** C30: The memory of an instance respects its limit: whatever memory is created under
    a limit of [limit] bytes, for the host or for the VM, was requested from wasmer with
    a maximum of at most that many bytes (and at most 4 GiB). A code that passed
    [check_wasm] declares one memory without a maximum and of at most 512 pages; under a
    limit of at least the declared minimum (so under any limit of 512 pages or more) its
    request is passed on with the whole limit, and under a smaller one it is refused. *)
Theorem memory_limit_enforced limit style loc :
  0 ≤ limit →
  let tunables := mkLimiting (limit_to_pages limit) in
  (∀ ty m, create_vm_memory tunables ty style loc = inr m →
     ∃ passed, within limit ty passed ∧ base_create_vm_memory passed style loc = inr m) ∧
  (∀ ty m, create_host_memory tunables ty style = inr m →
     ∃ passed, within limit ty passed ∧ base_create_host_memory passed style = inr m) ∧
  (∀ wasm_code capabilities,
     check_wasm (S := unit) wasm_code capabilities tt = (Ok tt, tt) →
     ∃ module n, deserialize_buffer wasm_code = inr module ∧
       memory_section module = Some [mkLimits n None] ∧ n ≤ MEMORY_LIMIT ∧
       create_vm_memory tunables (mkMemoryType n None false) style loc =
         (if n <=? limit_to_pages limit
          then base_create_vm_memory (mkMemoryType n (Some (limit_to_pages limit)) false) style loc
          else inl (MemoryGeneric "Minimum exceeds the allowed memory limit")) ∧
       (MEMORY_LIMIT * WASM_PAGE_SIZE ≤ limit → n ≤ limit_to_pages limit)).
Proof.
  intros Hl tunables. pose proof (limit_to_pages_spec limit Hl) as Hp.
  assert (limit_to_pages limit * WASM_PAGE_SIZE ≤ limit ∧ limit_to_pages limit ≤ MAX_WASM_PAGES) as [Hb Hm].
  { unfold WASM_PAGE_SIZE, MAX_WASM_PAGES in *. pose proof (Z.mul_div_le limit 65536 eq_refl). lia. }
  assert (∀ ty u, validate_memory tunables (adjust_memory tunables ty) = inr u →
    within limit ty (adjust_memory tunables ty)) as Hin.
  { intros ty u (max & -> & Hmin & Hmax & Hcase)%validate_adjusted. cbn [lt_limit tunables] in *. exists max.
    unfold WASM_PAGE_SIZE, MAX_WASM_PAGES in *. split_and!; [done|lia..|done]. }
  split_and!.
  - intros ty m. unfold create_vm_memory. destruct (validate_memory _ _) as [|u] eqn:Hv; [done|]. eauto.
  - intros ty m. unfold create_host_memory. destruct (validate_memory _ _) as [|u] eqn:Hv; [done|]. eauto.
  - intros code caps Hc. apply check_wasm_ok in Hc as (module & Hd & [(n & Hs & Hn) _ _ _ _]).
    exists module, n. split_and!; [done..| |].
    + unfold create_vm_memory, adjust_memory, validate_memory. cbn.
      destruct (Z.ltb_spec (limit_to_pages limit) n), (Z.leb_spec n (limit_to_pages limit)); try lia; [done|].
      by rewrite Z.ltb_irrefl.
    + intros Hlim. unfold WASM_PAGE_SIZE, MAX_WASM_PAGES, MEMORY_LIMIT in *.
      assert (512 ≤ limit / 65536) by (apply Z.div_le_lower_bound; lia). lia.
Qed.
End limits.
