(* ===== verification/Cache.v ===== *)
(** * The module cache ([cosmwasm/packages/vm/src]: [cache.rs], [checksum.rs], [modules/])

    Codes are stored on disk under their SHA-256 checksum, compiled modules in three
    caches: pinned in memory, in memory with eviction, and on disk. Parameters:
    wasmer's compiler and serializer ([WasmerModules]), the CLru cache ([Lru]), and
    the failures of the file system ([fault]). A path is the list of its components.

    A wasmer [Module] is an artifact in a store; all that matters of the store is its
    memory limit. *)

From S2P Require Import Prelude.
From S2P Require Import Bytes.
From S2P Require Import CwStd.
From S2P Require Import Errors.
From S2P Require Import Client.
From S2P Require Import Compatibility.
From S2P Require Import WasmBackend.

Open Scope Z_scope.

(** ** [checksum.rs] *)
Abbreviation Checksum := bytes.

Definition Checksum_generate {HX : Externals} (wasm : bytes) : Checksum := sha256 wasm.

Definition hex_digit (n : Z) : Ascii.ascii :=
  Ascii.ascii_of_nat (Z.to_nat (if n <? 10 then 48 + n else 87 + n)).

(** [Display], [to_hex]: two lowercase digits per byte. *)
Fixpoint to_hex (data : bytes) : string :=
  match data with
  | [] => EmptyString
  | b :: data =>
      String (hex_digit (Z_of_byte b / 16)) (String (hex_digit (Z_of_byte b mod 16)) (to_hex data))
  end.

Definition Checksum_try_from (value : bytes) : VmError + Checksum :=
  if (length value =? 32)%nat then inr value else inl (CacheErr "Checksum not of length 32").

(** ** Interfaces *)
Class WasmerModules := {
  Artifact : Type;
  artifact_compile : bytes → string + Artifact;
  artifact_serialize : Artifact → string + bytes;
  artifact_deserialize : bytes → string + Artifact;
  artifact_size : Artifact → Z;
  (** [Module::exports().functions()]. *)
  artifact_functions : Artifact → list string
}.

Class WasmerModulesSpec `{WasmerModules} : Prop := {
  deserialize_serialize a b : artifact_serialize a = inr b → artifact_deserialize b = inr a
}.

Record Module `{WasmerModules} := mkModule { m_artifact : Artifact; m_limit : option Z }.
Record SizedModule `{WasmerModules} := mkSized { sm_module : Module; sm_size : Z }.
Arguments mkModule {_}.
Arguments m_artifact {_}.
Arguments m_limit {_}.
Arguments mkSized {_}.
Arguments sm_module {_}.
Arguments sm_size {_}.

(** [CLruCache<Checksum, SizedModule>] with the scale [SizeScale]: [lru_put] fails
    with a text when the value is heavier than the cache. *)
Class Lru `{WasmerModules} := {
  LruT : Type;
  lru_new : Z → LruT;
  lru_put : Checksum → SizedModule → LruT → string + LruT;
  lru_get : Checksum → LruT → option SizedModule * LruT;
  lru_len : LruT → Z;
  lru_weight : LruT → Z;
  (** the content *)
  lru_find : LruT → Checksum → option SizedModule
}.

Class LruSpec `{Lru} : Prop := {
  lru_new_empty n c : lru_find (lru_new n) c = None;
  lru_get_finds c l : (lru_get c l).1 = lru_find l c;
  lru_get_keeps c l c' : lru_find (lru_get c l).2 c' = lru_find l c';
  (** what is put is found; nothing else appears *)
  lru_put_new c v l l' : lru_put c v l = inr l' → lru_find l' c = Some v;
  lru_put_old c v l l' c' : lru_put c v l = inr l' → c' ≠ c →
    lru_find l' c' = lru_find l c' ∨ lru_find l' c' = None
}.

(** ** Disk *)
Abbreviation path := (list string).
Inductive FsOp := CreateDir | Metadata | OpenWrite | WriteAll | OpenRead | ReadToEnd | Deserialize | Serialize.

Record Disk := mkDisk {
  files : gmap path bytes;
  dirs : gset path;
  readonly_dirs : gset path
}.

Definition display (p : path) : string := String.concat "/" p.

(** The text of [io::ErrorKind::NotFound]. *)
Definition not_found : string := "No such file or directory (os error 2)".

(** ** State *)
Record Stats := mkStats {
  hits_pinned_memory_cache : Z;
  hits_memory_cache : Z;
  hits_fs_cache : Z;
  misses : Z
}.
Definition Stats_default : Stats := mkStats 0 0 0 0.

Record Metrics := mkMetrics {
  mx_stats : Stats;
  elements_pinned_memory_cache : Z;
  elements_memory_cache : Z;
  size_pinned_memory_cache : Z;
  size_memory_cache : Z
}.

Record FileSystemCache := mkFsCache { base_path : path; wasmer_module_version : Z }.

Record CacheOptions := mkCacheOptions {
  base_dir : path;
  o_available_capabilities : gset string;
  memory_cache_size : Z;
  o_instance_memory_limit : Z
}.

(** [Cache] with its [CacheInner], and the disk below it. *)
Record Cache `{Lru} := mkCache {
  available_capabilities : gset string;
  wasm_path : path;
  instance_memory_limit : Z;
  pinned_memory_cache : gmap Checksum SizedModule;
  memory_cache : option LruT;
  fs_cache : FileSystemCache;
  stats : Stats;
  disk : Disk
}.
Arguments mkCache {_ _}.
Arguments available_capabilities {_ _}.
Arguments wasm_path {_ _}.
Arguments instance_memory_limit {_ _}.
Arguments pinned_memory_cache {_ _}.
Arguments memory_cache {_ _}.
Arguments fs_cache {_ _}.
Arguments stats {_ _}.
Arguments disk {_ _}.

Record AnalysisReport := mkAnalysis {
  ar_has_ibc_entry_points : bool;
  ar_required_capabilities : gset string
}.

Definition STATE_DIR : string := "state".
Definition WASM_DIR : string := "wasm".
Definition CACHE_DIR : string := "cache".
Definition MODULES_DIR : string := "modules".
Definition MODULE_SERIALIZATION_VERSION : string := "v4".

Section Cache.
Context {HX : Externals} {PW : ParityWasm}.
Context `{HWM : WasmerModules} `{HL : !Lru}.
(** The error, if any, of an operation on a path. *)
Context (fault : FsOp → path → option string).
Abbreviation CACHE := (M VmError Cache).

(** *** Fields *)
Definition set_pinned (m : gmap Checksum SizedModule) (s : Cache) : Cache :=
  mkCache (available_capabilities s) (wasm_path s) (instance_memory_limit s) m (memory_cache s)
    (fs_cache s) (stats s) (disk s).
Definition set_memory (m : option LruT) (s : Cache) : Cache :=
  mkCache (available_capabilities s) (wasm_path s) (instance_memory_limit s) (pinned_memory_cache s) m
    (fs_cache s) (stats s) (disk s).
Definition set_stats (x : Stats) (s : Cache) : Cache :=
  mkCache (available_capabilities s) (wasm_path s) (instance_memory_limit s) (pinned_memory_cache s)
    (memory_cache s) (fs_cache s) x (disk s).
Definition set_disk (d : Disk) (s : Cache) : Cache :=
  mkCache (available_capabilities s) (wasm_path s) (instance_memory_limit s) (pinned_memory_cache s)
    (memory_cache s) (fs_cache s) (stats s) d.

Definition set_file (p : path) (b : bytes) (d : Disk) : Disk :=
  mkDisk (<[p := b]> (files d)) (dirs d) (readonly_dirs d).
Definition add_dir (p : path) (d : Disk) : Disk :=
  mkDisk (files d) ({[p]} ∪ dirs d) (readonly_dirs d).

(** [map_err(|e| VmError::cache_err(format!("..: {}", e)))?] on a file operation. *)
Definition try_io (op : FsOp) (p : path) (context : string) : CACHE unit :=
  match fault op p with Some e => throw (CacheErr (context +:+ e)) | None => mret tt end.

(** ** [wasm_backend/compile.rs] *)
Definition compile (code : bytes) (memory_limit : option Z) : VmError + Module :=
  match artifact_compile code with
  | inl e => inl (CompileErr ("Could not compile: " +:+ e))
  | inr a => inr (mkModule a memory_limit)
  end.

(** ** [versioning.rs] *)
Definition EXPECTED_MODULE_HEADER_PREFIX : bytes :=
  as_bytes "wasmer-universalWASMER" ++ [Byte.x00; Byte.x00].
Definition ENGINE_TYPE_LEN : nat := 16.
Definition METADATA_HEADER_LEN : nat := 16.

(** The empty module, "\0asm" and the version. *)
Definition EMPTY_WASM : bytes :=
  [Byte.x00; Byte.x61; Byte.x73; Byte.x6d; Byte.x01; Byte.x00; Byte.x00; Byte.x00].

Definition current_wasmer_module_header {E S} : M E S bytes :=
  match compile EMPTY_WASM None with
  | inl _ => panic "called `Result::unwrap()` on an `Err` value"
  | inr module =>
      let b := match artifact_serialize (m_artifact module) with inr b => b | inl _ => [] end in
      mret (take (ENGINE_TYPE_LEN + METADATA_HEADER_LEN) b)
  end.

Definition current_wasmer_module_version {E S} : M E S Z :=
  header ← current_wasmer_module_header;
  if bool_decide (take (length EXPECTED_MODULE_HEADER_PREFIX) header = EXPECTED_MODULE_HEADER_PREFIX) then
    let metadata := drop (length header - METADATA_HEADER_LEN) header in
    if (length metadata <? 12)%nat then panic "range end index 12 out of range for slice"
    else mret (le_value (slice 8 4 metadata))
  else panic "Wasmer module format changed. Please update the expected version accordingly and bump MODULE_SERIALIZATION_VERSION.".

(** ** [file_system_cache.rs] *)

(** [FileSystemCache::new], an [io::Result]; it may create the directory. *)
Definition FileSystemCache_new (p : path) : M string Disk FileSystemCache :=
  version ← current_wasmer_module_version;
  d ← get;
  if bool_decide (p ∈ dirs d) || bool_decide (is_Some (files d !! p)) then
    match fault Metadata p with
    | Some e => throw e
    | None =>
        if bool_decide (p ∈ dirs d) then
          if bool_decide (p ∈ readonly_dirs d) then
            throw ("the supplied path is readonly: " +:+ display p)
          else mret (mkFsCache p version)
        else throw ("the supplied path already points to a file: " +:+ display p)
    end
  else
    match fault CreateDir p with
    | Some e => throw e
    | None => _ ← modify (add_dir p); mret (mkFsCache p version)
    end.

Definition latest_modules_path (self : FileSystemCache) : path :=
  base_path self ++ [MODULE_SERIALIZATION_VERSION +:+ "-wasmer" +:+ pretty (wasmer_module_version self)].

Definition module_file (self : FileSystemCache) (checksum : Checksum) : path :=
  latest_modules_path self ++ [to_hex checksum].

Definition fs_load (checksum : Checksum) (store_limit : option Z) : CACHE (option Module) :=
  s ← get;
  let file_path := module_file (fs_cache s) checksum in
  match fault Deserialize file_path with
  | Some e => throw (CacheErr ("Error opening module file: " +:+ e))
  | None =>
      match files (disk s) !! file_path with
      | None => mret None
      | Some b =>
          match artifact_deserialize b with
          | inl e => throw (CacheErr ("Error deserializing module: " +:+ e))
          | inr a => mret (Some (mkModule a store_limit))
          end
      end
  end.

Definition fs_store (checksum : Checksum) (module : Module) : CACHE unit :=
  s ← get;
  let modules_dir := latest_modules_path (fs_cache s) in
  _ ← try_io CreateDir modules_dir "Error creating directory: ";
  _ ← modify (λ s, set_disk (add_dir modules_dir (disk s)) s);
  let p := module_file (fs_cache s) checksum in
  match artifact_serialize (m_artifact module) with
  | inl e => throw (CacheErr ("Error writing module to disk: " +:+ e))
  | inr b =>
      _ ← try_io Serialize p "Error writing module to disk: ";
      modify (λ s, set_disk (set_file p b (disk s)) s)
  end.

(** ** [pinned_memory_cache.rs] *)
Definition pinned_store (checksum : Checksum) (module : Module) (size : Z) : CACHE unit :=
  modify (λ s, set_pinned (<[checksum := mkSized module size]> (pinned_memory_cache s)) s).
Definition pinned_remove (checksum : Checksum) : CACHE unit :=
  modify (λ s, set_pinned (delete checksum (pinned_memory_cache s)) s).
Definition pinned_load (checksum : Checksum) : CACHE (option Module) :=
  gets (λ s, sm_module <$> pinned_memory_cache s !! checksum).
Definition pinned_has (checksum : Checksum) : CACHE bool :=
  gets (λ s, bool_decide (is_Some (pinned_memory_cache s !! checksum))).
Definition pinned_len (s : Cache) : Z := Z.of_nat (size (pinned_memory_cache s)).
Definition pinned_size (s : Cache) : Z :=
  map_fold (λ _ m acc, sm_size m + acc) 0 (pinned_memory_cache s).

(** ** [in_memory_cache.rs] *)
Definition InMemoryCache_new (size : Z) : option LruT := if 0 <? size then Some (lru_new size) else None.

Definition memory_store (checksum : Checksum) (module : Module) (size : Z) : CACHE unit :=
  s ← get;
  match memory_cache s with
  | None => mret tt
  | Some modules =>
      match lru_put checksum (mkSized module size) modules with
      | inl e => throw (CacheErr e)
      | inr modules => modify (set_memory (Some modules))
      end
  end.

Definition memory_load (checksum : Checksum) : CACHE (option SizedModule) :=
  s ← get;
  match memory_cache s with
  | None => mret None
  | Some modules =>
      let '(m, modules) := lru_get checksum modules in
      _ ← modify (set_memory (Some modules));
      mret m
  end.

Definition memory_len (s : Cache) : Z := from_option lru_len 0 (memory_cache s).
Definition memory_size (s : Cache) : Z := from_option lru_weight 0 (memory_cache s).

(** ** [cache.rs] *)

(** The loop of [new] over the needed directories, for one of them. *)
Definition ensure_dir (p : path) : M VmError Disk unit :=
  match fault CreateDir p with
  | Some e => throw (CacheErr ("Error creating directory " +:+ display p +:+ ": " +:+ e))
  | None => modify (add_dir p)
  end.

Definition Cache_new (options : CacheOptions) : M VmError Disk Cache :=
  let state_path := base_dir options ++ [STATE_DIR] in
  let cache_path := base_dir options ++ [CACHE_DIR] in
  let wasm_path := state_path ++ [WASM_DIR] in
  _ ← ensure_dir state_path;
  _ ← ensure_dir cache_path;
  _ ← ensure_dir wasm_path;
  fs ← map_err (λ e, CacheErr ("Error file system cache: " +:+ e))
         (FileSystemCache_new (cache_path ++ [MODULES_DIR]));
  d ← get;
  mret (mkCache (o_available_capabilities options) wasm_path (o_instance_memory_limit options) ∅
          (InMemoryCache_new (memory_cache_size options)) fs Stats_default d).

Definition get_stats : CACHE Stats := gets stats.
Definition metrics : CACHE Metrics :=
  gets (λ s, mkMetrics (stats s) (pinned_len s) (memory_len s) (pinned_size s) (memory_size s)).

(** The file is opened without truncation: a longer old content keeps its tail. *)
Definition save_wasm_to_disk (dir : path) (wasm : bytes) : CACHE Checksum :=
  let checksum := Checksum_generate wasm in
  let filepath := dir ++ [to_hex checksum] in
  _ ← try_io OpenWrite filepath "Error opening Wasm file for writing: ";
  _ ← modify (λ s, set_disk (set_file filepath (default [] (files (disk s) !! filepath)) (disk s)) s);
  _ ← try_io WriteAll filepath "Error writing Wasm file: ";
  _ ← modify (λ s,
        let old := default [] (files (disk s) !! filepath) in
        set_disk (set_file filepath (wasm ++ drop (length wasm) old) (disk s)) s);
  mret checksum.

Definition load_wasm_from_disk (dir : path) (checksum : Checksum) : CACHE bytes :=
  s ← get;
  let p := dir ++ [to_hex checksum] in
  match files (disk s) !! p with
  | None => throw (CacheErr ("Error opening Wasm file for reading: " +:+ not_found))
  | Some wasm =>
      _ ← try_io OpenRead p "Error opening Wasm file for reading: ";
      _ ← try_io ReadToEnd p "Error reading Wasm file: ";
      mret wasm
  end.

Definition save_wasm (wasm : bytes) : CACHE Checksum :=
  s ← get;
  _ ← check_wasm wasm (available_capabilities s);
  module ← of_sum (compile wasm None);
  checksum ← save_wasm_to_disk (wasm_path s) wasm;
  _ ← fs_store checksum module;
  mret checksum.

Definition load_wasm (checksum : Checksum) : CACHE bytes :=
  s ← get;
  code ← load_wasm_from_disk (wasm_path s) checksum;
  if bool_decide (Checksum_generate code = checksum) then mret code else throw IntegrityErr.

Definition analyze (checksum : Checksum) : CACHE AnalysisReport :=
  wasm ← load_wasm checksum;
  module ← of_sum (deserialize_wasm wasm);
  mret (mkAnalysis (has_ibc_entry_points module) (required_capabilities_from_module module)).

(** [cache.stats.x += 1] on a [u32]. *)
Definition hit_pinned : CACHE unit :=
  s ← get; let x := stats s in
  n ← add_or_panic U32 (hits_pinned_memory_cache x) 1;
  modify (set_stats (mkStats n (hits_memory_cache x) (hits_fs_cache x) (misses x))).
Definition hit_memory : CACHE unit :=
  s ← get; let x := stats s in
  n ← add_or_panic U32 (hits_memory_cache x) 1;
  modify (set_stats (mkStats (hits_pinned_memory_cache x) n (hits_fs_cache x) (misses x))).
Definition hit_fs : CACHE unit :=
  s ← get; let x := stats s in
  n ← add_or_panic U32 (hits_fs_cache x) 1;
  modify (set_stats (mkStats (hits_pinned_memory_cache x) (hits_memory_cache x) n (misses x))).
Definition miss : CACHE unit :=
  s ← get; let x := stats s in
  n ← add_or_panic U32 (misses x) 1;
  modify (set_stats (mkStats (hits_pinned_memory_cache x) (hits_memory_cache x) (hits_fs_cache x) n)).

Definition pin (checksum : Checksum) : CACHE unit :=
  pinned ← pinned_has checksum;
  if pinned : bool then mret tt
  else
    found ← memory_load checksum;
    match found with
    | Some m => _ ← hit_memory; pinned_store checksum (sm_module m) (sm_size m)
    | None =>
        s ← get;
        found ← fs_load checksum (Some (instance_memory_limit s));
        match found with
        | Some m => _ ← hit_fs; pinned_store checksum m (artifact_size (m_artifact m))
        | None =>
            code ← load_wasm checksum;
            module ← of_sum (compile code (Some (instance_memory_limit s)));
            _ ← fs_store checksum module;
            pinned_store checksum module (artifact_size (m_artifact module))
        end
    end.

Definition unpin (checksum : Checksum) : CACHE unit := pinned_remove checksum.

Definition get_module (checksum : Checksum) : CACHE Module :=
  found ← pinned_load checksum;
  match found with
  | Some m => _ ← hit_pinned; mret m
  | None =>
      found ← memory_load checksum;
      match found with
      | Some m => _ ← hit_memory; mret (sm_module m)
      | None =>
          s ← get;
          found ← fs_load checksum (Some (instance_memory_limit s));
          match found with
          | Some m =>
              _ ← hit_fs;
              _ ← memory_store checksum m (artifact_size (m_artifact m));
              mret m
          | None =>
              wasm ← load_wasm checksum;
              _ ← miss;
              module ← of_sum (compile wasm (Some (instance_memory_limit s)));
              _ ← fs_store checksum module;
              _ ← memory_store checksum module (artifact_size (m_artifact module));
              mret module
          end
      end
  end.
End Cache.
