(* ===== verification/CacheFacts.v ===== *)
(** * Theorems on the module cache

    Whatever mix of storing, pinning, unpinning and evicting led to it, the cache
    hands out a module compiled from a code with the requested checksum, limited to
    the memory of the cache's options. *)

From S2P Require Import Prelude.
From S2P Require Import Bytes.
From S2P Require Import CwStd.
From S2P Require Import Errors.
From S2P Require Import Client.
From S2P Require Import Compatibility.
From S2P Require Import WasmBackend.
From S2P Require Import Cache.

Open Scope Z_scope.

(** ** Hexadecimal names are unique *)
Lemma hex_digit_inj a b : 0 ≤ a < 16 → 0 ≤ b < 16 → hex_digit a = hex_digit b → a = b.
Proof.
  intros Ha Hb H. apply (f_equal Ascii.nat_of_ascii) in H. unfold hex_digit in H.
  destruct (Z.ltb_spec a 10), (Z.ltb_spec b 10);
    rewrite !Ascii.nat_ascii_embedding in H by lia; lia.
Qed.

#[export] Instance to_hex_inj : Inj (=) (=) to_hex.
Proof.
  intros x. induction x as [|a x IH]; intros [|b y]; cbn; try done. intros [= H1 H2 Hr].
  pose proof (Z_of_byte_bound a). pose proof (Z_of_byte_bound b).
  assert (0 ≤ Z_of_byte a mod 16 < 16 ∧ 0 ≤ Z_of_byte b mod 16 < 16) as [] by (split; apply Z.mod_pos_bound; lia).
  assert (0 ≤ Z_of_byte a / 16 < 16 ∧ 0 ≤ Z_of_byte b / 16 < 16) as [].
  { split; (split; [apply Z.div_pos; lia|apply Z.div_lt_upper_bound; lia]). }
  apply hex_digit_inj in H1; [|done..]. apply hex_digit_inj in H2; [|done..].
  f_equal; [|by apply IH]. rewrite <-(byte_of_Z_of_byte a), <-(byte_of_Z_of_byte b). f_equal.
  rewrite (Z.div_mod (Z_of_byte a) 16), (Z.div_mod (Z_of_byte b) 16) by lia. congruence.
Qed.

(** ** Coherence *)
Section CacheFacts.
Context {HX : Externals} {PW : ParityWasm}.
Context {HWM : WasmerModules} {HWS : WasmerModulesSpec} {HL : Lru} {HLS : LruSpec}.
Context (fault : FsOp → path → option string).
Abbreviation CACHE := (M VmError Cache).

(** A code of a checksum, and an artifact compiled from one. *)
Definition artifact_of (c : Checksum) (a : Artifact) : Prop :=
  ∃ code, Checksum_generate code = c ∧ artifact_compile code = inr a.

(** The parts of a cache that stay as they are made. *)
Context (L : Z) (F : FileSystemCache) (P : path).
Hypothesis paths_differ : ∀ c c', P ++ [to_hex c] ≠ module_file F c'.

(** A module the cache may hand out for [c]. *)
Definition good (c : Checksum) (m : Module) : Prop :=
  artifact_of c (m_artifact m) ∧ m_limit m = Some L.

(** Every copy of a module, in memory or on disk, is one of the code it is filed
    under; those in memory carry the limit. *)
Record coherent (s : Cache) : Prop := {
  co_limit : instance_memory_limit s = L;
  co_fs : fs_cache s = F;
  co_path : wasm_path s = P;
  co_pinned c m : pinned_memory_cache s !! c = Some m → good c (sm_module m);
  co_memory l c m : memory_cache s = Some l → lru_find l c = Some m → good c (sm_module m);
  co_files c b a : files (disk s) !! module_file F c = Some b → artifact_deserialize b = inr a →
    artifact_of c a
}.

(** [keeps m Q]: [m] keeps the cache coherent, whatever its outcome, and its result
    satisfies [Q]. *)
Definition keeps {A} (m : CACHE A) (Q : A → Prop) : Prop :=
  ∀ s, coherent s → coherent (m s).2 ∧ ∀ a s', m s = (Ok a, s') → Q a.

Lemma keeps_ret {A} (a : A) (Q : A → Prop) : Q a → keeps (mret a) Q.
Proof. intros Ha s Hs. split; [done|]. by intros ? ? [= <- <-]. Qed.
Lemma keeps_throw {A} e (Q : A → Prop) : keeps (throw e) Q.
Proof. intros s Hs. by split. Qed.
Lemma keeps_panic {A} p (Q : A → Prop) : keeps (panic p) Q.
Proof. intros s Hs. by split. Qed.
Lemma keeps_get : keeps get coherent.
Proof. intros s Hs. split; [done|]. by intros ? ? [= <- <-]. Qed.
Lemma keeps_gets {A} (f : Cache → A) (Q : A → Prop) : (∀ s, coherent s → Q (f s)) → keeps (gets f) Q.
Proof. intros Hf s Hs. split; [done|]. intros ? ? [= <- <-]. by apply Hf. Qed.
Lemma keeps_modify f : (∀ s, coherent s → coherent (f s)) → keeps (modify f) (λ _, True).
Proof. intros Hf s Hs. split; [by apply Hf|done]. Qed.
Lemma keeps_of_sum {A} (r : VmError + A) (Q : A → Prop) :
  (∀ a, r = inr a → Q a) → keeps (of_sum r) Q.
Proof. destruct r; intros Ha; [apply keeps_throw|by apply keeps_ret, Ha]. Qed.
Lemma keeps_bind {A B} (m : CACHE A) (k : A → CACHE B) (R : A → Prop) (Q : B → Prop) :
  keeps m R → (∀ a, R a → keeps (k a) Q) → keeps (m ≫= k) Q.
Proof.
  intros Hm Hk s Hs. destruct (Hm s Hs) as [Hc HR]. unfold mbind, M_bind.
  destruct (m s) as [[a|e|p|] s1]; cbn in *; [|by split..].
  by apply (Hk a (HR a s1 eq_refl) s1).
Qed.
Lemma keeps_weaken {A} (m : CACHE A) (Q R : A → Prop) :
  keeps m Q → (∀ a, Q a → R a) → keeps m R.
Proof. intros Hm HQR s Hs. destruct (Hm s Hs) as [? HQ]. split; [done|]. eauto. Qed.
Lemma keeps_any {A} (m : CACHE A) Q : keeps m Q → keeps m (λ _, True).
Proof. intros. by eapply keeps_weaken. Qed.

(** Changes that touch no module. *)
Lemma coherent_stats x s : coherent s → coherent (set_stats x s).
Proof. by intros []. Qed.

Lemma coherent_disk d s :
  (∀ c, files d !! module_file F c = files (disk s) !! module_file F c) →
  coherent s → coherent (set_disk d s).
Proof. intros Hd []. constructor; try done. cbn. intros c b a. rewrite Hd. eauto. Qed.

Lemma keeps_try_io op p t : keeps (try_io fault op p t) (λ _, True).
Proof. unfold try_io. case_match; [apply keeps_throw|by apply keeps_ret]. Qed.

Lemma keeps_add w x y : keeps (add_or_panic w x y) (λ _, True).
Proof. unfold add_or_panic. case_match; [by apply keeps_ret|apply keeps_panic]. Qed.

(** Statistics. *)
Ltac keeps_hit := eapply keeps_bind; [apply keeps_get|intros ? _];
  eapply keeps_bind; [apply keeps_add|intros ? _]; apply keeps_modify, coherent_stats.
Lemma keeps_hit_pinned : keeps hit_pinned (λ _, True). Proof. keeps_hit. Qed.
Lemma keeps_hit_memory : keeps hit_memory (λ _, True). Proof. keeps_hit. Qed.
Lemma keeps_hit_fs : keeps hit_fs (λ _, True). Proof. keeps_hit. Qed.
Lemma keeps_miss : keeps miss (λ _, True). Proof. keeps_hit. Qed.

(** ** The three caches *)
Lemma module_file_inj c c' : module_file F c = module_file F c' → c = c'.
Proof. unfold module_file. intros H. simplify_list_eq. by apply to_hex_inj. Qed.

Lemma compile_artifact code l m :
  compile code l = inr m → artifact_of (Checksum_generate code) (m_artifact m) ∧ m_limit m = l.
Proof.
  unfold compile. destruct (artifact_compile code) eqn:Ha; [done|]. intros [= <-].
  split; [by exists code|done].
Qed.

Lemma keeps_fs_load c : keeps (fs_load fault c (Some L)) (λ o, ∀ m, o = Some m → good c m).
Proof.
  eapply keeps_bind; [apply keeps_get|intros s Hs]. cbv zeta.
  destruct (fault Deserialize _); [apply keeps_throw|].
  destruct (files (disk s) !! module_file (fs_cache s) c) as [b|] eqn:Hb; [|by apply keeps_ret].
  destruct (artifact_deserialize b) as [e|a] eqn:Ha; [apply keeps_throw|].
  apply keeps_ret. intros m [= <-]. split; [|done]. rewrite (co_fs _ Hs) in Hb.
  by eapply co_files.
Qed.

Lemma keeps_fs_store c m : artifact_of c (m_artifact m) → keeps (fs_store fault c m) (λ _, True).
Proof.
  intros Hm. eapply keeps_bind; [apply keeps_get|intros s0 Hs0].
  eapply keeps_bind; [apply keeps_try_io|intros _ _].
  eapply keeps_bind; [apply keeps_modify; intros s Hs; by apply coherent_disk|intros _ _].
  destruct (artifact_serialize (m_artifact m)) as [e|b] eqn:Hb; [apply keeps_throw|].
  eapply keeps_bind; [apply keeps_try_io|intros _ _]. rewrite (co_fs _ Hs0).
  apply keeps_modify. intros s Hs. destruct Hs. constructor; try done. cbn. intros c' b' a' Hb' Ha'.
  destruct (decide (c' = c)) as [->|Hne].
  - rewrite lookup_insert_eq in Hb'. injection Hb' as <-.
    rewrite (deserialize_serialize _ _ Hb) in Ha'. by injection Ha' as <-.
  - rewrite lookup_insert_ne in Hb' by (intros Heq%module_file_inj; congruence). eauto.
Qed.

Lemma keeps_memory_load c : keeps (memory_load c) (λ o, ∀ m, o = Some m → good c (sm_module m)).
Proof.
  eapply keeps_bind; [apply keeps_get|intros s0 Hs0].
  destruct (memory_cache s0) as [l|] eqn:Hl; [|by apply keeps_ret].
  pose proof (lru_get_finds c l) as Hg. pose proof (lru_get_keeps c l) as Hk.
  destruct (lru_get c l) as [o l'] eqn:Hlg. cbn in Hg, Hk.
  eapply keeps_bind; [apply keeps_modify|intros _ _; apply keeps_ret; intros m ->; by eapply co_memory].
  intros s Hs. destruct Hs. constructor; try done. cbn. intros l2 c' m [= <-]. rewrite Hk.
  by eapply co_memory.
Qed.

Lemma keeps_memory_store c m n : good c m → keeps (memory_store c m n) (λ _, True).
Proof.
  intros Hm. eapply keeps_bind; [apply keeps_get|intros s0 Hs0].
  destruct (memory_cache s0) as [l|] eqn:Hl; [|by apply keeps_ret].
  destruct (lru_put c (mkSized m n) l) as [e|l'] eqn:Hp; [apply keeps_throw|].
  apply keeps_modify. intros s Hs. destruct Hs. constructor; try done. cbn. intros l2 c' m' [= <-] Hf.
  destruct (decide (c' = c)) as [->|Hne].
  - rewrite (lru_put_new _ _ _ _ Hp) in Hf. by injection Hf as <-.
  - destruct (lru_put_old _ _ _ _ _ Hp Hne) as [H|H]; rewrite H in Hf; [by eapply co_memory|done].
Qed.

Lemma keeps_pinned_load c : keeps (pinned_load c) (λ o, ∀ m, o = Some m → good c m).
Proof.
  apply keeps_gets. intros s Hs m Hm. apply fmap_Some in Hm as (x & Hx & ->). by eapply co_pinned.
Qed.

Lemma keeps_pinned_store c m n : good c m → keeps (pinned_store c m n) (λ _, True).
Proof.
  intros Hm. apply keeps_modify. intros s []. constructor; try done. cbn. intros c' m' Hc.
  apply lookup_insert_Some in Hc as [[-> <-]|[_ Hc]]; eauto.
Qed.

Lemma keeps_pinned_remove c : keeps (pinned_remove c) (λ _, True).
Proof.
  apply keeps_modify. intros s []. constructor; try done. cbn. intros c' m' Hc.
  apply lookup_delete_Some in Hc as [_ Hc]. eauto.
Qed.

(** ** Codes on disk *)
Lemma keeps_file c b d s :
  d = set_file (P ++ [to_hex c]) b (disk s) → coherent s → coherent (set_disk d s).
Proof.
  intros -> Hs. apply coherent_disk; [|done]. intros c'. cbn. apply lookup_insert_ne.
  apply paths_differ.
Qed.

Lemma keeps_save_wasm_to_disk wasm :
  keeps (save_wasm_to_disk fault P wasm) (λ c, c = Checksum_generate wasm).
Proof.
  unfold save_wasm_to_disk. eapply keeps_bind; [apply keeps_try_io|intros _ _].
  eapply keeps_bind; [apply keeps_modify; intros s Hs; by eapply keeps_file|intros _ _].
  eapply keeps_bind; [apply keeps_try_io|intros _ _].
  eapply keeps_bind; [apply keeps_modify; intros s Hs; by eapply keeps_file|intros _ _].
  by apply keeps_ret.
Qed.

Lemma keeps_load_wasm c : keeps (load_wasm fault c) (λ code, Checksum_generate code = c).
Proof.
  eapply keeps_bind; [apply keeps_get|intros s Hs].
  eapply keeps_bind; [|intros code _; case_bool_decide; [by apply keeps_ret|apply keeps_throw]].
  eapply (keeps_any _ (λ _, True)). eapply keeps_bind; [apply keeps_get|intros s' Hs']. cbv zeta.
  destruct (files (disk s') !! _); [|apply keeps_throw]. do 2 (eapply keeps_bind; [apply keeps_try_io|intros _ _]).
  by apply keeps_ret.
Qed.

(** The checks leave the cache alone. *)
Lemma keeps_pure {A} (m : CACHE A) : (∀ s, (m s).2 = s) → keeps m (λ _, True).
Proof. intros Hm s Hs. split; [by rewrite Hm|done]. Qed.

Lemma check_wasm_pure wasm caps (s : Cache) : (check_wasm wasm caps s).2 = s.
Proof.
  apply (preserves_weaken eq (λ s s', s' = s)); [done|]. unfold check_wasm.
  assert (∀ available required, preserves eq (check_required (S := Cache) available required)) as H1.
  { intros available required. induction required; cbn [check_required]; pres. }
  assert (∀ sup names req, preserves eq (check_imports (S := Cache) sup names req)) as H2.
  { intros sup names req. induction req; cbn [check_imports]; pres. }
  unfold check_wasm_memories, check_interface_version, check_wasm_exports, check_wasm_imports,
    check_wasm_capabilities. pres.
Qed.

(** ** The operations *)
Lemma keeps_save_wasm wasm : keeps (save_wasm fault wasm) (λ c, c = Checksum_generate wasm).
Proof.
  eapply keeps_bind; [apply keeps_get|intros s Hs].
  eapply keeps_bind; [apply keeps_pure, check_wasm_pure|intros _ _].
  eapply (keeps_bind _ _ (λ m, artifact_of (Checksum_generate wasm) (m_artifact m))).
  { apply keeps_of_sum. intros m Hm. by apply compile_artifact in Hm as [? _]. }
  intros m Hm. rewrite (co_path _ Hs).
  eapply keeps_bind; [apply keeps_save_wasm_to_disk|intros c ->].
  eapply keeps_bind; [by apply keeps_fs_store|intros _ _]. by apply keeps_ret.
Qed.

(** Compiling the code of a checksum. *)
Lemma keeps_compile c code :
  Checksum_generate code = c → keeps (of_sum (compile code (Some L))) (good c).
Proof.
  intros <-. apply keeps_of_sum. intros m Hm. by apply compile_artifact in Hm as [? ?].
Qed.

Lemma keeps_get_module c : keeps (get_module fault c) (good c).
Proof.
  eapply keeps_bind; [apply keeps_pinned_load|intros [m|] Hm].
  { eapply keeps_bind; [apply keeps_hit_pinned|intros _ _]. by apply keeps_ret, Hm. }
  eapply keeps_bind; [apply keeps_memory_load|intros [sm|] Hsm].
  { eapply keeps_bind; [apply keeps_hit_memory|intros _ _]. by apply keeps_ret, Hsm. }
  eapply keeps_bind; [apply keeps_get|intros s Hs]. rewrite (co_limit _ Hs).
  eapply keeps_bind; [apply keeps_fs_load|intros [m|] Hf].
  { eapply keeps_bind; [apply keeps_hit_fs|intros _ _].
    eapply keeps_bind; [by apply keeps_memory_store, Hf|intros _ _]. by apply keeps_ret, Hf. }
  eapply keeps_bind; [apply keeps_load_wasm|intros code Hcode].
  eapply keeps_bind; [apply keeps_miss|intros _ _].
  eapply keeps_bind; [apply (keeps_compile c), Hcode|intros m Hgood].
  eapply keeps_bind; [apply keeps_fs_store, Hgood|intros _ _].
  eapply keeps_bind; [by apply keeps_memory_store|intros _ _]. by apply keeps_ret.
Qed.

Lemma keeps_pin c : keeps (pin fault c) (λ _, True).
Proof.
  eapply (keeps_bind _ _ (λ _, True)); [by apply keeps_gets|intros [] _; [by apply keeps_ret|]].
  eapply keeps_bind; [apply keeps_memory_load|intros [sm|] Hsm].
  { eapply keeps_bind; [apply keeps_hit_memory|intros _ _]. by apply keeps_pinned_store, Hsm. }
  eapply keeps_bind; [apply keeps_get|intros s Hs]. rewrite (co_limit _ Hs).
  eapply keeps_bind; [apply keeps_fs_load|intros [m|] Hf].
  { eapply keeps_bind; [apply keeps_hit_fs|intros _ _]. by apply keeps_pinned_store, Hf. }
  eapply keeps_bind; [apply keeps_load_wasm|intros code Hcode].
  eapply keeps_bind; [apply (keeps_compile c), Hcode|intros m Hgood].
  eapply keeps_bind; [apply keeps_fs_store, Hgood|intros _ _]. by apply keeps_pinned_store.
Qed.

Lemma keeps_analyze c : keeps (analyze fault c) (λ _, True).
Proof.
  eapply keeps_bind; [apply keeps_load_wasm|intros code _].
  eapply (keeps_bind _ _ (λ _, True)); [by apply keeps_of_sum|intros m _]. by apply keeps_ret.
Qed.
End CacheFacts.

(** ** Histories of a cache *)
Section Histories.
Context {HX : Externals} {PW : ParityWasm}.
Context {HWM : WasmerModules} {HWS : WasmerModulesSpec} {HL : Lru} {HLS : LruSpec}.
Context (fault : FsOp → path → option string).

(** The public operations, their results dropped. *)
Inductive CacheOp :=
| OpSaveWasm (wasm : bytes)
| OpLoadWasm (c : Checksum)
| OpAnalyze (c : Checksum)
| OpPin (c : Checksum)
| OpUnpin (c : Checksum)
| OpGetModule (c : Checksum)
| OpMetrics.

Definition cache_step (op : CacheOp) (s : Cache) : Cache :=
  match op with
  | OpSaveWasm wasm => (save_wasm fault wasm s).2
  | OpLoadWasm c => (load_wasm fault c s).2
  | OpAnalyze c => (analyze fault c s).2
  | OpPin c => (pin fault c s).2
  | OpUnpin c => (unpin c s).2
  | OpGetModule c => (get_module fault c s).2
  | OpMetrics => (metrics s).2
  end.

Definition cache_run (ops : list CacheOp) (s : Cache) : Cache := foldl (λ s op, cache_step op s) s ops.

Lemma cache_run_coherent L F P ops s :
  (∀ c c', P ++ [to_hex c] ≠ module_file F c') →
  coherent L F P s → coherent L F P (cache_run ops s).
Proof.
  intros Hp. revert s. induction ops as [|op ops IH]; intros s Hs; [done|]. apply IH.
  destruct op; cbn [cache_step].
  - by apply (keeps_save_wasm fault L F P Hp).
  - by apply (keeps_load_wasm fault L F P).
  - by apply (keeps_analyze fault L F P).
  - by apply (keeps_pin fault L F P).
  - by apply (keeps_pinned_remove L F P).
  - by apply (keeps_get_module fault L F P).
  - done.
Qed.

(** A new cache is coherent when the modules it finds on disk are. *)
Lemma ensure_dir_files p d u d' : ensure_dir fault p d = (Ok u, d') → files d' = files d.
Proof. unfold ensure_dir. case_match; by intros [= <- <-]. Qed.

Lemma FileSystemCache_new_inv p d fs d' :
  FileSystemCache_new fault p d = (Ok fs, d') → base_path fs = p ∧ files d' = files d.
Proof.
  unfold FileSystemCache_new, current_wasmer_module_version, current_wasmer_module_header. intros H.
  minv. repeat case_match; minv; by simplify_eq.
Qed.

Lemma Cache_new_coherent options d s d' :
  Cache_new fault options d = (Ok s, d') →
  (∀ c b a, files d !! module_file (fs_cache s) c = Some b →
     artifact_deserialize b = inr a → artifact_of c a) →
  coherent (o_instance_memory_limit options) (fs_cache s) (wasm_path s) s ∧
  ∀ c c', wasm_path s ++ [to_hex c] ≠ module_file (fs_cache s) c'.
Proof.
  intros Hnew Hd. unfold Cache_new in Hnew. minv.
  repeat match goal with H : ensure_dir _ _ _ = _ |- _ => apply ensure_dir_files in H end.
  match goal with H : map_err _ _ _ = _ |- _ => unfold map_err in H; case_match eqn:Hfs; case_match; simplify_eq end.
  apply FileSystemCache_new_inv in Hfs as [Hbase Hfiles].
  split.
  - constructor; [done..| | |].
    + intros c m Hc. change ((∅ : gmap Checksum SizedModule) !! c = Some m) in Hc.
      by rewrite lookup_empty in Hc.
    + intros l c m. cbn. unfold InMemoryCache_new. case_match; [|done]. intros [= <-]. by rewrite lru_new_empty.
    + intros c b a' Hb. apply (Hd c b). cbn in Hb |- *. congruence.
  - cbn. intros c c'. unfold module_file, latest_modules_path. rewrite Hbase.
    rewrite <-!app_assoc. cbn. intros H. by simplify_list_eq.
Qed.

(** C26: The module cache is coherent: started on a disk whose stored modules belong
    to their checksums (an empty one, or one left by an earlier run), after any
    sequence of operations and under any failures of the file system and evictions
    from memory, a module that is handed out for a checksum was compiled from a code
    with that checksum, and its memory is limited as the options say, although codes
    are compiled without a limit when they are saved. *)
Theorem get_module_of_checksum options d s d' ops checksum module s' :
  Cache_new fault options d = (Ok s, d') →
  (∀ c b a, files d !! module_file (fs_cache s) c = Some b →
     artifact_deserialize b = inr a → artifact_of c a) →
  get_module fault checksum (cache_run ops s) = (Ok module, s') →
  artifact_of checksum (m_artifact module) ∧
  m_limit module = Some (o_instance_memory_limit options).
Proof.
  intros Hnew Hd Hget. destruct (Cache_new_coherent _ _ _ _ Hnew Hd) as [Hco Hp].
  pose proof (cache_run_coherent _ _ _ ops _ Hp Hco) as Hrun.
  destruct (keeps_get_module fault _ _ _ checksum _ Hrun) as [_ Hgood].
  exact (Hgood _ _ Hget).
Qed.

(** ** Pinned modules stay *)
Definition pinned_kept (c : Checksum) (s s' : Cache) : Prop :=
  ∀ m, pinned_memory_cache s !! c = Some m → pinned_memory_cache s' !! c = Some m.

#[local] Instance pinned_kept_refl c : Reflexive (pinned_kept c).
Proof. by intros s m. Qed.
#[local] Instance pinned_kept_trans c : Transitive (pinned_kept c).
Proof. intros s1 s2 s3 H12 H23 m Hm. by apply H23, H12. Qed.

Lemma kept_same c f : (∀ s, pinned_memory_cache (f s) = pinned_memory_cache s) →
  preserves (E := VmError) (pinned_kept c) (modify f).
Proof. intros Hf s m. cbn. by rewrite Hf. Qed.

#[local] Hint Extern 1 (preserves (pinned_kept _) (modify _)) => by apply kept_same : pres.

Lemma kept_hit_pinned c : preserves (pinned_kept c) hit_pinned.
Proof. unfold hit_pinned. pres. Qed.
Lemma kept_hit_memory c : preserves (pinned_kept c) hit_memory.
Proof. unfold hit_memory. pres. Qed.
Lemma kept_hit_fs c : preserves (pinned_kept c) hit_fs.
Proof. unfold hit_fs. pres. Qed.
Lemma kept_miss c : preserves (pinned_kept c) miss.
Proof. unfold miss. pres. Qed.
Lemma kept_load_wasm c c' : preserves (pinned_kept c) (load_wasm fault c').
Proof. unfold load_wasm, load_wasm_from_disk, try_io. pres. Qed.
Lemma kept_fs_load c c' l : preserves (pinned_kept c) (fs_load fault c' l).
Proof. unfold fs_load. pres. Qed.
Lemma kept_fs_store c c' m : preserves (pinned_kept c) (fs_store fault c' m).
Proof. unfold fs_store, try_io. pres. Qed.
Lemma kept_memory_load c c' : preserves (pinned_kept c) (memory_load c').
Proof. unfold memory_load. pres. Qed.
Lemma kept_memory_store c c' m n : preserves (pinned_kept c) (memory_store c' m n).
Proof. unfold memory_store. pres. Qed.
#[local] Hint Resolve kept_hit_pinned kept_hit_memory kept_hit_fs kept_miss kept_load_wasm
  kept_fs_load kept_fs_store kept_memory_load kept_memory_store : pres.

Lemma kept_get_module c c' : preserves (pinned_kept c) (get_module fault c').
Proof. unfold get_module, pinned_load. pres. Qed.

Lemma kept_save_wasm c wasm : preserves (pinned_kept c) (save_wasm fault wasm).
Proof.
  unfold save_wasm, save_wasm_to_disk, try_io.
  assert (∀ caps, preserves (pinned_kept c) (check_wasm wasm caps)) as Hc.
  { intros caps s m. by rewrite check_wasm_pure. }
  pres.
Qed.

(** Pinning another code leaves the entry, pinning the same code finds it. *)
Lemma kept_pin c c' : preserves (pinned_kept c) (pin fault c').
Proof.
  destruct (decide (c' = c)) as [->|Hne].
  - intros s m Hm. unfold pin, pinned_has. rewrite bind_gets. case_bool_decide as Hb; [done|].
    exfalso. apply Hb. rewrite Hm. eauto.
  - assert (∀ m n, preserves (pinned_kept c) (pinned_store c' m n)) as Hst.
    { intros m n s x Hx. cbn. by rewrite lookup_insert_ne. }
    unfold pin, pinned_has. pres.
Qed.

Lemma pinned_run c ops s :
  OpUnpin c ∉ ops → pinned_kept c s (cache_run ops s).
Proof.
  revert s. induction ops as [|op ops IH]; intros s Hops; [done|].
  apply not_elem_of_cons in Hops as [Hop Hops].
  transitivity (cache_step op s); [|by apply IH]. destruct op; cbn [cache_step].
  - apply kept_save_wasm.
  - apply kept_load_wasm.
  - revert s. change (preserves (pinned_kept c) (analyze fault c0)). unfold analyze. pres.
  - apply kept_pin.
  - intros m Hm. cbn. rewrite lookup_delete_ne by congruence. done.
  - apply kept_get_module.
  - done.
Qed.

Lemma pin_pinned c s s' : pin fault c s = (Ok tt, s') → ∃ m, pinned_memory_cache s' !! c = Some m.
Proof.
  unfold pin, pinned_has. rewrite bind_gets. case_bool_decide as Hb.
  { intros [= <-]. by destruct Hb as [m Hm]; exists m. }
  clear Hb. unfold pinned_store. intros H. minv.
  repeat (case_match; minv);
    match goal with H : modify _ _ = _ |- _ => injection H as <- end; eexists; apply lookup_insert_eq.
Qed.

(** A pinned module is never evicted: after a successful [pin], whatever else is
    done with the cache, short of unpinning that code, the module is found in memory
    without touching the disk, and it is the same one each time. *)
Theorem pinned_stays checksum s s1 ops :
  pin fault checksum s = (Ok tt, s1) → OpUnpin checksum ∉ ops →
  ∃ m, pinned_memory_cache s1 !! checksum = Some m ∧
    let s2 := cache_run ops s1 in
    (hits_pinned_memory_cache (stats s2) + 1 < U32 →
     ∃ s3, get_module fault checksum s2 = (Ok (sm_module m), s3) ∧ disk s3 = disk s2).
Proof.
  intros Hpin Hops. destruct (pin_pinned _ _ _ Hpin) as [m Hm]. exists m. split; [done|].
  intros s2 Hhits. pose proof (pinned_run checksum ops s1 Hops m Hm) as Hm2.
  eexists. unfold get_module, pinned_load. rewrite bind_gets. fold s2 in Hm2 |- *. rewrite Hm2. cbn [fmap option_fmap option_map].
  unfold hit_pinned. rewrite bind_assoc, bind_get, bind_assoc. unfold add_or_panic.
  destruct (Z.ltb_spec (hits_pinned_memory_cache (stats s2) + 1) U32); [|lia]. by split.
Qed.

(** ** Saved codes are found *)

(** What a successful [save_wasm] leaves behind. *)
Lemma save_wasm_inv wasm s c s1 :
  save_wasm fault wasm s = (Ok c, s1) →
  c = Checksum_generate wasm ∧ ∃ a b, artifact_compile wasm = inr a ∧ artifact_serialize a = inr b ∧
    files (disk s1) !! module_file (fs_cache s1) c = Some b.
Proof.
  unfold save_wasm, save_wasm_to_disk, fs_store, try_io. intros H. minv.
  unfold compile in *. destruct (artifact_compile wasm) as [e|a] eqn:Ha; [done|]. cbn [of_sum] in *. minv.
  match goal with H : check_wasm _ _ _ = _ |- _ => clear H end.
  repeat (case_match; minv). simplify_eq. split; [done|]. eexists _, _. split_and!; [done..|].
  cbn. apply lookup_insert_eq.
Qed.

(** The counters of a cache are below their maximum. *)
Definition counters_ok (x : Stats) : Prop :=
  hits_pinned_memory_cache x + 1 < U32 ∧ hits_memory_cache x + 1 < U32 ∧
  hits_fs_cache x + 1 < U32 ∧ misses x + 1 < U32.

(** A module on disk is found, if not earlier, unless the memory cache does not take it. *)
Lemma get_module_found c s a b :
  (∀ op p, fault op p = None) → counters_ok (stats s) →
  files (disk s) !! module_file (fs_cache s) c = Some b → artifact_deserialize b = inr a →
  (∃ m s2, get_module fault c s = (Ok m, s2)) ∨
  (∃ l t s2, lru_put c (mkSized (mkModule a (Some (instance_memory_limit s))) (artifact_size a)) l = inl t ∧
     is_Some (memory_cache s) ∧ get_module fault c s = (Err (CacheErr t), s2)).
Proof.
  intros Hnf (H1 & H2 & H3 & H4) Hb Ha. unfold get_module, pinned_load. rewrite bind_gets.
  destruct (sm_module <$> pinned_memory_cache s !! c) as [m|].
  { left. unfold hit_pinned. rewrite bind_assoc, bind_get, bind_assoc. unfold add_or_panic.
    destruct (Z.ltb_spec (hits_pinned_memory_cache (stats s) + 1) U32); [|lia]. by eexists _, _. }
  assert (∃ o s1, memory_load c s = (Ok o, s1) ∧ stats s1 = stats s ∧ disk s1 = disk s ∧
    fs_cache s1 = fs_cache s ∧ instance_memory_limit s1 = instance_memory_limit s ∧
    (is_Some (memory_cache s1) → is_Some (memory_cache s))) as (o & s1 & Hml & Hst & Hdk & Hfs & Hlim & Hmem).
  { unfold memory_load. rewrite bind_get. destruct (memory_cache s) as [l|] eqn:Hmc; [|by exists None, s; rewrite Hmc].
    destruct (lru_get c l). by eexists _, _. }
  rewrite (bind_Ok _ _ _ _ _ Hml). destruct o as [m|].
  { left. unfold hit_memory. rewrite bind_assoc, bind_get, bind_assoc, Hst. unfold add_or_panic.
    destruct (Z.ltb_spec (hits_memory_cache (stats s) + 1) U32); [|lia]. by eexists _, _. }
  rewrite bind_get. unfold fs_load. rewrite bind_assoc, bind_get, Hnf, Hdk, Hfs, Hb, Ha, bind_ret_l.
  unfold hit_fs. rewrite bind_assoc, bind_get, bind_assoc, Hst. unfold add_or_panic.
  destruct (Z.ltb_spec (hits_fs_cache (stats s) + 1) U32); [|lia]. rewrite bind_ret_l.
  erewrite bind_Ok by done. unfold memory_store. rewrite bind_assoc, bind_get, Hlim.
  change (memory_cache (set_stats _ s1)) with (memory_cache s1).
  destruct (memory_cache s1) as [l|]; [|by left; eexists _, _].
  cbn [m_artifact]. destruct (lru_put c _ l) as [t|l'] eqn:Hput.
  - right. exists l, t. eexists. split; [exact Hput|]. split; [by apply Hmem|]. done.
  - left. by eexists _, _.
Qed.

(** C27: What is saved is found, unless the memory cache refuses it. After any history,
    on a working disk, [get_module] on the checksum of a code that [save_wasm] accepted
    returns a module compiled from that very code (whose checksum no other code has) with
    the memory limit; the only other outcome is the error of a memory cache that does not
    take the module, as one does when the module is heavier than the cache: then the code
    cannot be had although it is on disk. *)
Theorem saved_code_is_found options d s d' ops wasm checksum s1 :
  Cache_new fault options d = (Ok s, d') →
  (∀ c b a, files d !! module_file (fs_cache s) c = Some b →
     artifact_deserialize b = inr a → artifact_of c a) →
  (∀ op p, fault op p = None) →
  save_wasm fault wasm (cache_run ops s) = (Ok checksum, s1) →
  (∀ code, Checksum_generate code = checksum → code = wasm) → counters_ok (stats s1) →
  (∃ module s2, get_module fault checksum s1 = (Ok module, s2) ∧
     artifact_compile wasm = inr (m_artifact module) ∧
     m_limit module = Some (o_instance_memory_limit options)) ∨
  (∃ a limit l t s2, artifact_compile wasm = inr a ∧
     lru_put checksum (mkSized (mkModule a limit) (artifact_size a)) l = inl t ∧
     is_Some (memory_cache s1) ∧ get_module fault checksum s1 = (Err (CacheErr t), s2)).
Proof.
  intros Hnew Hd Hnf Hsave Huniq Hcnt.
  destruct (Cache_new_coherent _ _ _ _ Hnew Hd) as [Hco Hp].
  pose proof (cache_run_coherent _ _ _ ops _ Hp Hco) as Hrun.
  destruct (keeps_save_wasm fault _ _ _ Hp wasm _ Hrun) as [Hco1 _]. rewrite Hsave in Hco1. cbn in Hco1.
  destruct (save_wasm_inv _ _ _ _ Hsave) as (Hc & a & b & Ha & Hb & Hfile).
  destruct (get_module_found checksum s1 a b) as [(m & s2 & Hget)|(l & t & s2 & Hput & Hmem & Hget)];
    [done..|by apply deserialize_serialize| |].
  - left. exists m, s2. split; [done|].
    destruct (keeps_get_module fault _ _ _ checksum _ Hco1) as [_ Hgood].
    destruct (Hgood _ _ Hget) as [(code & Hcode & Hart) Hlim]. split; [|done].
    by rewrite <-(Huniq code Hcode).
  - right. by eexists a, _, l, t, s2.
Qed.

(** Storing on a working disk. *)
Lemma try_io_ok op p t s : fault op p = None → try_io fault op p t s = (Ok tt, s).
Proof. unfold try_io. by intros ->. Qed.

Lemma save_wasm_to_disk_run dir wasm s :
  (∀ op p, fault op p = None) →
  let c := Checksum_generate wasm in
  let p := dir ++ [to_hex c] in
  let old := default [] (files (disk s) !! p) in
  save_wasm_to_disk fault dir wasm s =
  (Ok c, set_disk (set_file p (wasm ++ drop (length wasm) old) (set_file p old (disk s))) s).
Proof.
  intros Hnf c p old. unfold save_wasm_to_disk.
  rewrite (bind_Ok _ _ _ _ _ (try_io_ok _ _ _ _ (Hnf _ _))). erewrite bind_Ok by done.
  rewrite (bind_Ok _ _ _ _ _ (try_io_ok _ _ _ _ (Hnf _ _))). erewrite bind_Ok by done.
  cbn. by rewrite lookup_insert_eq.
Qed.

Lemma fs_store_run c m b s :
  (∀ op p, fault op p = None) → artifact_serialize (m_artifact m) = inr b →
  fs_store fault c m s =
  (Ok tt, set_disk (set_file (module_file (fs_cache s) c) b
                      (add_dir (latest_modules_path (fs_cache s)) (disk s))) s).
Proof.
  intros Hnf Hb. unfold fs_store. rewrite bind_get. cbv zeta.
  rewrite (bind_Ok _ _ _ _ _ (try_io_ok _ _ _ _ (Hnf _ _))). erewrite bind_Ok by done.
  rewrite Hb. by rewrite (bind_Ok _ _ _ _ _ (try_io_ok _ _ _ _ (Hnf _ _))).
Qed.

(** Saving a code does not repair its file: the file is opened without
    truncation, so where a longer content is on disk, [save_wasm] succeeds and leaves
    its tail in place, and the code cannot be loaded. *)
Theorem save_wasm_keeps_old_tail wasm s a b old :
  (∀ op p, fault op p = None) →
  check_wasm wasm (available_capabilities s) s = (Ok tt, s) →
  artifact_compile wasm = inr a → artifact_serialize a = inr b →
  let c := Checksum_generate wasm in
  files (disk s) !! (wasm_path s ++ [to_hex c]) = Some old →
  wasm_path s ++ [to_hex c] ≠ module_file (fs_cache s) c →
  (length wasm < length old)%nat →
  Checksum_generate (wasm ++ drop (length wasm) old) ≠ c →
  ∃ s1, save_wasm fault wasm s = (Ok c, s1) ∧
    load_wasm fault c s1 = (Err IntegrityErr, s1).
Proof.
  intros Hnf Hcheck Ha Hb c Hold Hpath Hlen Hne.
  eexists. split.
  - unfold save_wasm. rewrite bind_get, (bind_Ok _ _ _ _ _ Hcheck). unfold compile. rewrite Ha.
    cbn [of_sum]. rewrite bind_ret_l, (bind_Ok _ _ _ _ _ (save_wasm_to_disk_run _ _ _ Hnf)).
    by erewrite bind_Ok by (by apply fs_store_run).
  - unfold load_wasm, load_wasm_from_disk. rewrite bind_get, bind_assoc, bind_get. cbn.
    rewrite lookup_insert_ne by done. fold c. rewrite Hold. cbn. rewrite lookup_insert_eq.
    rewrite bind_assoc, (bind_Ok _ _ _ _ _ (try_io_ok _ _ _ _ (Hnf _ _))).
    rewrite bind_assoc, (bind_Ok _ _ _ _ _ (try_io_ok _ _ _ _ (Hnf _ _))), bind_ret_l.
    by rewrite bool_decide_false.
Qed.
End Histories.
