(* ===== verification/Schema.v ===== *)
(** * Contract descriptions ([cosmwasm/packages/schema/src]: [query_response.rs], [idl.rs];
      [cosmwasm/packages/check/src/main.rs])

    A contract that exports its interface names the response type of every query; the
    names are checked against the JSON schema of the query message. The schema types are
    those of schemars, with the fields the code looks at; the others are the parameter
    [Other]. The second part is the program that checks Wasm files from the command line. *)

From S2P Require Import Prelude.
From S2P Require Import CwStd.
From S2P Require Import Errors.
From S2P Require Import Compatibility.
From S2P Require Import Cache.

Open Scope Z_scope.

(** ** Schemas *)
Inductive InstanceType := TNull | TBoolean | TObject | TArray | TNumber | TString | TInteger.
Inductive SingleOrVec := Single (t : InstanceType) | Several (ts : list InstanceType).
(** [serde_json::Value], as far as [as_str] tells. *)
Inductive EnumValue := TextValue (s : string) | OtherValue.
Definition as_str (v : EnumValue) : option string := match v with TextValue s => Some s | OtherValue => None end.

(** [SchemaObject], [SubschemaValidation] and [Schema] contain each other. [required] is
    [object.required], in the order of the set. *)
Inductive SchemaObject (Other : Type) :=
| mkSchemaObject (title : option (option string)) (instance_type : option SingleOrVec)
    (enum_values : option (list EnumValue)) (required : option (list string))
    (subschemas : option (SubschemaValidation Other)) (reference : option string) (other : Other)
with SubschemaValidation (Other : Type) :=
| mkSubschemas (one_of any_of : option (list (Schema Other)))
with Schema (Other : Type) :=
| SchemaBool (b : bool)
| SchemaOf (o : SchemaObject Other).
Arguments mkSchemaObject {Other}.
Arguments mkSubschemas {Other}.
Arguments SchemaBool {Other}.
Arguments SchemaOf {Other}.

Section fields.
Context {Other : Type}.
Definition title (o : SchemaObject Other) := let '(mkSchemaObject t _ _ _ _ _ _) := o in t.
Definition instance_type (o : SchemaObject Other) := let '(mkSchemaObject _ i _ _ _ _ _) := o in i.
Definition enum_values (o : SchemaObject Other) := let '(mkSchemaObject _ _ e _ _ _ _) := o in e.
Definition required (o : SchemaObject Other) := let '(mkSchemaObject _ _ _ r _ _ _) := o in r.
Definition subschemas (o : SchemaObject Other) := let '(mkSchemaObject _ _ _ _ s _ _) := o in s.
Definition reference (o : SchemaObject Other) := let '(mkSchemaObject _ _ _ _ _ r _) := o in r.
Definition other (o : SchemaObject Other) := let '(mkSchemaObject _ _ _ _ _ _ x) := o in x.
Definition one_of (s : SubschemaValidation Other) := let '(mkSubschemas o _) := s in o.
Definition any_of (s : SubschemaValidation Other) := let '(mkSubschemas _ a) := s in a.
End fields.

Record RootSchema (Other : Type) := mkRootSchema {
  root_schema : SchemaObject Other;
  definitions : gmap string (Schema Other)
}.
Arguments mkRootSchema {Other}.
Arguments root_schema {Other}.
Arguments definitions {Other}.

Inductive IntegrityError :=
| InvalidQueryMsgSchema
| ExternalReference (reference : string)
| InconsistentQueries (query_msg responses : gset string).

(** [collect::<Result<Vec<_>, _>>()]. *)
Fixpoint collect {A B} (l : list (A + B)) : A + list B :=
  match l with
  | [] => inr []
  | inl e :: _ => inl e
  | inr b :: l => match collect l with inl e => inl e | inr bs => inr (b :: bs) end
  end.

Section query_response.
Context {Other : Type}.
(** [Schema::into_object] of a boolean schema. *)
Context (bool_object : bool → SchemaObject Other).
Definition into_object (s : Schema Other) : SchemaObject Other :=
  match s with SchemaBool b => bool_object b | SchemaOf o => o end.

Definition combine_subqueries {E S R} (type_name : string) (subqueries : list (gmap string R)) : M E S (gmap string R) :=
  let sub_count := foldr (λ q n, (size q + n)%nat) 0%nat subqueries in
  let map := foldl (λ acc q, q ∪ acc) ∅ subqueries in
  if negb (size map =? sub_count)%nat then panic ("name collision in subqueries for " +:+ type_name) else mret map.

(** One element of the iterator of [enum_variants]. *)
Definition enum_variant (s : Schema Other) : IntegrityError + string :=
  let s := into_object s in
  match instance_type s with
  | Some (Single TObject) =>
      match required s with
      | Some (name :: _) => inr name
      | _ => inl InvalidQueryMsgSchema
      end
  | Some (Single TString) =>
      match enum_values s with
      | None => inl InvalidQueryMsgSchema
      | Some values =>
          if negb (length values =? 1)%nat then inl InvalidQueryMsgSchema
          else match as_str <$> head values with Some (Some name) => inr name | _ => inl InvalidQueryMsgSchema end
      end
  | _ => inl InvalidQueryMsgSchema
  end.
Definition enum_variants (subschemas : SubschemaValidation Other) : IntegrityError + list (IntegrityError + string) :=
  match one_of subschemas with
  | None => inl InvalidQueryMsgSchema
  | Some l => inr (enum_variant <$> l)
  end.

Definition verify_queries (query_msg responses : gset string) : IntegrityError + unit :=
  if bool_decide (query_msg = responses) then inr tt else inl (InconsistentQueries query_msg responses).

(** [str::strip_prefix]. *)
Fixpoint strip_prefix (p s : string) : option string :=
  match p, s with
  | String.EmptyString, _ => Some s
  | String.String c p, String.String d s => if Ascii.eqb c d then strip_prefix p s else None
  | _, _ => None
  end.

(** The subschemas of one alternative of an untagged enum: the closure of [filter_map]. *)
Definition alternative (schema : RootSchema Other) (obj : SchemaObject Other)
    : option (IntegrityError + SubschemaValidation Other) :=
  match reference obj with
  | Some r =>
      match strip_prefix "#/definitions/" r with
      | None => Some (inl (ExternalReference r))
      | Some name =>
          match definitions schema !! name with
          | None => Some (inl InvalidQueryMsgSchema)
          | Some s => inr <$> subschemas (into_object s)
          end
      end
  | None => inr <$> subschemas obj
  end.

(** [enum_variants( *subschema?)]. *)
Definition variants_of (subschema : IntegrityError + SubschemaValidation Other)
    : IntegrityError + list (IntegrityError + string) :=
  match subschema with inl e => inl e | inr s => enum_variants s end.

Definition check_api_integrity (schema : RootSchema Other) (generated_queries : gset string) : IntegrityError + unit :=
  match subschemas (root_schema schema) with
  | None => verify_queries ∅ generated_queries
  | Some subs =>
      let schema_queries :=
        match any_of subs with
        | Some alternatives =>
            match collect (variants_of <$> omap (λ s, alternative schema (into_object s)) alternatives) with
            | inl e => inl e
            | inr variants => collect (mjoin variants)
            end
        | None => match enum_variants subs with inl e => inl e | inr variants => collect variants end
        end in
      match schema_queries with
      | inl e => inl e
      | inr names => verify_queries (list_to_set names) generated_queries
      end
  end.

(** [QueryResponses::response_schemas], from what the derived implementation gives. *)
Definition response_schemas {R} (schema : RootSchema Other) (response_schemas_impl : gmap string R)
    : IntegrityError + gmap string R :=
  match check_api_integrity schema (dom response_schemas_impl) with
  | inl e => inl e
  | inr _ => inr response_schemas_impl
  end.

(** ** [idl.rs] *)
Record Api := mkApi {
  contract_name : string;
  contract_version : string;
  api_instantiate : RootSchema Other;
  api_execute : option (RootSchema Other);
  api_query : option (RootSchema Other);
  api_migrate : option (RootSchema Other);
  api_sudo : option (RootSchema Other);
  api_responses : option (gmap string (RootSchema Other))
}.
Record JsonApi := mkJsonApi { idl_version : string; json_api : Api }.
Definition IDL_VERSION : string := "1.0.0".

(** [metadata.title = Some(..)] where there is metadata. *)
Definition set_title (t : string) (s : RootSchema Other) : RootSchema Other :=
  let o := root_schema s in
  mkRootSchema (mkSchemaObject (match title o with Some _ => Some (Some t) | None => None end) (instance_type o)
    (enum_values o) (required o) (subschemas o) (reference o) (other o)) (definitions s).
Definition render (self : Api) : JsonApi :=
  mkJsonApi IDL_VERSION (mkApi (contract_name self) (contract_version self)
    (set_title "InstantiateMsg" (api_instantiate self))
    (set_title "ExecuteMsg" <$> api_execute self)
    (set_title "QueryMsg" <$> api_query self)
    (set_title "MigrateMsg" <$> api_migrate self)
    (set_title "SudoMsg" <$> api_sudo self)
    (api_responses self)).
End query_response.

(** ** What the check decides *)
Section facts.
Context {Other : Type} (bool_object : bool → SchemaObject Other).
Implicit Types (root : RootSchema Other) (s : Schema Other) (sub : SubschemaValidation Other).

(** The schemas schemars derives: an enum variant with fields is an object with one
    required field, a unit-like variant is a string with one value. *)
Definition shows s (name : string) : Prop :=
  ∃ o, s = SchemaOf o ∧
    ((instance_type o = Some (Single TObject) ∧ required o = Some [name]) ∨
     (instance_type o = Some (Single TString) ∧ enum_values o = Some [TextValue name])).
Definition lists sub (names : list string) : Prop := ∃ l, one_of sub = Some l ∧ Forall2 shows l names.
(** An alternative of an untagged enum is an enum in place or by reference. *)
Definition offers root s (names : list string) : Prop :=
  ∃ o sub, s = SchemaOf o ∧ lists sub names ∧
    ((reference o = None ∧ subschemas o = Some sub) ∨
     ∃ n o', reference o = Some ("#/definitions/" +:+ n) ∧ definitions root !! n = Some (SchemaOf o') ∧
       subschemas o' = Some sub).
Inductive describes root : list string → Prop :=
| no_queries : subschemas (root_schema root) = None → describes root []
| an_enum sub names : subschemas (root_schema root) = Some sub → any_of sub = None → lists sub names →
    describes root names
| untagged sub alternatives groups : subschemas (root_schema root) = Some sub → any_of sub = Some alternatives →
    Forall2 (offers root) alternatives groups → describes root (mjoin groups).

Lemma strip_prefix_app p n : strip_prefix p (p +:+ n) = Some n.
Proof. induction p as [|c p IH]; [done|].
  change (strip_prefix (String.String c p) (String.String c (p +:+ n)) = Some n). cbn.
  by rewrite Ascii.eqb_refl.
Qed.
Lemma collect_inr {A B} (l : list B) : collect (inr <$> l : list (A + B)) = inr l.
Proof. induction l as [|b l IH]; cbn; [done|]. by rewrite IH. Qed.
Definition found (names : list string) : list (IntegrityError + string) := inr <$> names.
Lemma shows_variants l names : Forall2 shows l names → enum_variant bool_object <$> l = found names.
Proof.
  induction 1 as [|s name l names (o & -> & Hs) _ IH]; cbn; [done|]. f_equal; [|done].
  unfold enum_variant. cbn. by destruct Hs as [[-> ->]|[-> ->]].
Qed.
Lemma lists_variants sub names : lists sub names → enum_variants bool_object sub = inr (found names).
Proof. intros (l & Hl & Hs). unfold enum_variants. by rewrite Hl, (shows_variants _ _ Hs). Qed.

Lemma offers_alternative root s names :
  offers root s names → ∃ sub, lists sub names ∧ alternative bool_object root (into_object bool_object s) = Some (inr sub).
Proof.
  intros (o & sub & -> & Hl & Ho). exists sub. split; [done|]. cbn. unfold alternative.
  destruct Ho as [[-> ->]|(n & o' & -> & Hd & Hs)]; [done|]. by rewrite strip_prefix_app, Hd; cbn; rewrite Hs.
Qed.
Lemma alternatives_names root alternatives groups :
  Forall2 (offers root) alternatives groups →
  ∃ subs, omap (λ s, alternative bool_object root (into_object bool_object s)) alternatives = inr <$> subs ∧
    Forall2 lists subs groups.
Proof.
  induction 1 as [|s names alternatives groups Ho _ (subs & Hsubs & Hl)]; [by exists []|].
  destruct (offers_alternative _ _ _ Ho) as (sub & Hsub & Halt). exists (sub :: subs).
  split; [|by constructor]. change (omap ?f (?x :: ?l)) with (match f x with Some y => y :: omap f l | None => omap f l end).
  cbv beta. by rewrite Halt, Hsubs.
Qed.
Lemma groups_names subs groups :
  Forall2 lists subs groups →
  collect (variants_of bool_object <$> (inr <$> subs : list (IntegrityError + SubschemaValidation Other))) =
    inr (found <$> groups).
Proof.
  induction 1 as [|sub names subs groups Hl _ IH]; cbn; [done|].
  rewrite (lists_variants _ _ Hl). fold (fmap (M := list) (variants_of bool_object)) in IH. cbn in IH. by rewrite IH.
Qed.
Lemma join_names groups : mjoin (found <$> groups) = found (mjoin groups).
Proof.
  induction groups as [|g groups IH]; [done|]. rewrite fmap_cons.
  change (mjoin (?x :: ?l)) with (x ++ mjoin l). rewrite IH. unfold found. by rewrite <-fmap_app.
Qed.

Lemma described_check root names generated :
  describes root names →
  check_api_integrity bool_object root generated = verify_queries (list_to_set names) generated.
Proof.
  unfold check_api_integrity. intros [Hs|sub ns Hs Ha Hl|sub alternatives groups Hs Ha Hg]; rewrite Hs; [done|..];
    rewrite Ha.
  - rewrite (lists_variants _ _ Hl). unfold found. by rewrite collect_inr.
  - destruct (alternatives_names _ _ _ Hg) as (subs & Hsubs & Hlists).
    rewrite Hsubs, (groups_names _ _ Hlists), join_names. unfold found. by rewrite collect_inr.
Qed.

(** Combined responses: nothing is lost, or the contract does not build. *)
Lemma combine_size {R} (qs : list (gmap string R)) acc :
  (size (foldl (λ acc q, q ∪ acc) acc qs) ≤ size acc + foldr (λ q n, size q + n) 0 qs)%nat ∧
  (size (foldl (λ acc q, q ∪ acc) acc qs) = size acc + foldr (λ q n, size q + n) 0 qs →
   ∀ q k r, q ∈ acc :: qs → q !! k = Some r → foldl (λ acc q, q ∪ acc) acc qs !! k = Some r)%nat.
Proof.
  revert acc. induction qs as [|q0 qs IH]; intros acc; cbn [foldl foldr].
  - split; [lia|]. intros _ q k r ->%list_elem_of_singleton. done.
  - assert (size (q0 ∪ acc) ≤ size q0 + size acc ∧ (size (q0 ∪ acc) = size q0 + size acc → q0 ##ₘ acc))%nat as [Hle Hdisj].
    { rewrite <-!size_dom, dom_union_L, size_union_alt. split.
      - pose proof (subseteq_size (dom acc ∖ dom q0) (dom acc) ltac:(set_solver)). lia.
      - intros Heq. apply map_disjoint_dom_2. assert (dom acc ∖ dom q0 = dom acc) as Hd.
        { apply set_subseteq_size_eq; [set_solver|lia]. }
        set_solver. }
    destruct (IH (q0 ∪ acc)) as [IHle IHall]. split; [lia|]. intros Heq q k r Hq Hk.
    assert (q0 ##ₘ acc) as Hd by (apply Hdisj; lia).
    assert (size (foldl (λ acc q, q ∪ acc) (q0 ∪ acc) qs) =
      size (q0 ∪ acc) + foldr (λ q n, size q + n) 0 qs)%nat as Heq' by lia.
    apply elem_of_cons in Hq as [->|[->|Hq]%elem_of_cons].
    + apply (IHall Heq' (q0 ∪ acc)); [by left|]. apply lookup_union_Some; [done|]. by right.
    + apply (IHall Heq' (q0 ∪ acc)); [by left|]. apply lookup_union_Some; [done|]. by left.
    + apply (IHall Heq' q); [by right|done].
Qed.
Lemma combine_subqueries_exact {E S R} ty (qs : list (gmap string R)) (st : S) all :
  (combine_subqueries ty qs : M E S (gmap string R)) st = (Ok all, st) →
  (∀ q k r, q ∈ qs → q !! k = Some r → all !! k = Some r) ∧ dom all = ⋃ (dom <$> qs).
Proof.
  unfold combine_subqueries. destruct (Nat.eqb_spec (size (foldl (λ acc q, q ∪ acc) ∅ qs)) (foldr (λ q n, size q + n)%nat 0%nat qs))
    as [Heq|]; [|done]. intros [= <-]. split.
  - intros q k r Hq Hk. apply (proj2 (combine_size qs ∅) Heq q); [by right|done].
  - clear Heq. enough (∀ acc : gmap string R, dom (foldl (λ acc q, q ∪ acc) acc qs) = dom acc ∪ ⋃ (dom <$> qs)) as H
      by (by rewrite H, dom_empty_L, (left_id_L ∅ (∪))).
    induction qs as [|q qs IH]; intros acc; cbn; [by rewrite (right_id_L ∅ (∪))|].
    rewrite IH, dom_union_L. clear. set_solver.
Qed.
End facts.

Section claims.
Context {Other R : Type} (bool_object : bool → SchemaObject Other).

(** C31: The export of a contract's interface succeeds exactly when the responses match
    the queries. For the schema of any query message (no queries, an enum, or an untagged
    enum of enums, in place or behind references), the responses are returned if they are
    given for all the queries of the message and nothing else, and otherwise the error
    reports both sets. *)
Theorem integrity_check_exact (root : RootSchema Other) names (impl : gmap string R) :
  describes root names →
  response_schemas bool_object root impl =
    if bool_decide (dom impl = list_to_set names) then inr impl
    else inl (InconsistentQueries (list_to_set names) (dom impl)).
Proof.
  intros Hd. unfold response_schemas. rewrite (described_check bool_object root names _ Hd). unfold verify_queries.
  case_bool_decide as H1; case_bool_decide as H2; congruence.
Qed.
End claims.

(** An untagged enum of an enum in place and one behind a reference. *)
Definition empty_object : SchemaObject unit := mkSchemaObject None None None None None None tt.
Definition object_variant (name : string) : Schema unit :=
  SchemaOf (mkSchemaObject None (Some (Single TObject)) None (Some [name]) None None tt).
Definition unit_variant (name : string) : Schema unit :=
  SchemaOf (mkSchemaObject None (Some (Single TString)) (Some [TextValue name]) None None None tt).
Definition enum_of (variants : list (Schema unit)) : SubschemaValidation unit := mkSubschemas (Some variants) None.
Definition in_place : Schema unit :=
  SchemaOf (mkSchemaObject None None None None (Some (enum_of [unit_variant "denoms"])) None tt).
Definition by_reference : Schema unit :=
  SchemaOf (mkSchemaObject None None None None None (Some "#/definitions/QueryB") tt).
Definition query_msg_schema : RootSchema unit :=
  mkRootSchema (mkSchemaObject None None None None (Some (mkSubschemas None (Some [in_place; by_reference]))) None tt)
    {[ "QueryB" := SchemaOf (mkSchemaObject None None None None (Some (enum_of [object_variant "account"])) None tt) ]}.

Lemma query_msg_described : describes query_msg_schema (mjoin [["denoms"]; ["account"]]).
Proof.
  eapply untagged; [reflexivity|reflexivity|]. constructor; [|constructor; [|constructor]].
  - eexists _, _. split; [reflexivity|]. split; [|left; split; reflexivity]. eexists. split; [reflexivity|].
    constructor; [|constructor]. eexists. split; [reflexivity|]. right. by split.
  - eexists _, (enum_of [object_variant "account"]). split; [reflexivity|]. split.
    + eexists. split; [reflexivity|]. constructor; [|constructor]. eexists. split; [reflexivity|]. left. by split.
    + right. eexists "QueryB", _. split_and!; reflexivity.
Qed.
Lemma integrity_check_exact_witness :
  response_schemas (λ _, empty_object) query_msg_schema {[ "denoms" := tt ]} =
    inl (InconsistentQueries {[ "denoms"; "account" ]} {[ "denoms" ]}) ∧
  response_schemas (λ _, empty_object) query_msg_schema {[ "denoms" := tt; "account" := tt ]} =
    inr {[ "denoms" := tt; "account" := tt ]}.
Proof.
  rewrite !(integrity_check_exact (λ _, empty_object) query_msg_schema _ _ query_msg_described).
  split; vm_compute; reflexivity.
Defined.

(** ** The program [cosmwasm-check] *)
Section check_program.
Context `{ParityWasm}.
(** Reading a file, and [compile] of the Wasm backend; the texts of their errors. *)
Context (read_file : string → string + bytes) (compile : bytes → string + unit).

Definition check_contract (path : string) (available_capabilities : gset string) : M string unit unit :=
  wasm ← of_sum (read_file path);
  _ ← map_err VmError_to_string (check_wasm wasm available_capabilities);
  of_sum (compile wasm).

(** The lines printed for the files, without their colours, and the exit status. *)
Fixpoint check_all (paths : list string) (available_capabilities : gset string) (passes failures : Z) (out : list string)
    : M string unit (list string * Z) :=
  match paths with
  | [] =>
      if failures =? 0 then mret (out ++ [""; "All contracts (" +:+ pretty passes +:+ ") passed checks!"], 0)
      else mret (out ++ [""; "Passes: " +:+ pretty passes +:+ ", failures: " +:+ pretty failures], 1)
  | p :: paths =>
      r ← catch (check_contract p available_capabilities);
      match r with
      | inr _ => check_all paths available_capabilities (passes + 1) failures (out ++ [p +:+ ": pass"])
      | inl e => check_all paths available_capabilities passes (failures + 1) (out ++ [p +:+ ": failure"; e])
      end
  end.

(** The exit status tells whether all the files passed. *)
Lemma check_all_status paths caps passes failures out r :
  0 ≤ failures → check_all paths caps passes failures out tt = (Ok r, tt) →
  (r.2 = 0 ↔ failures = 0 ∧ Forall (λ p, check_contract p caps tt = (Ok tt, tt)) paths).
Proof.
  revert passes failures out. induction paths as [|p paths IH]; intros passes failures out Hf; cbn [check_all].
  - destruct (Z.eqb_spec failures 0) as [->|Hne]; intros [= <-]; cbn; [by split; [split|]|]. split; [done|]. by intros [? _].
  - unfold mbind, M_bind, catch. destruct (check_contract p caps tt) as [[[]|e|t|] []] eqn:Hp; try done; intros Hrun.
    + apply IH in Hrun; [|done]. rewrite Hrun, Forall_cons. naive_solver.
    + apply IH in Hrun; [|lia]. rewrite Hrun, Forall_cons, Hp. split; [intros [? _]; lia|]. by intros (_ & ? & _).
Qed.
End check_program.
