(* ===== verification/Host.v ===== *)
(** * The host side of an instance ([cosmwasm/packages/vm/src/environment.rs], [instance.rs])

    An [Environment] with its [ContextData]: the gas account, the storage and the
    querier that were moved in, the read-only flag, and the link to the wasmer
    instance with its memory and its metering. [Vm] describes the same imports on
    byte strings; here they run on the linear memory of the guest and pay gas.

    Parameters: the backend ([VmBackend], the traits of [backend.rs]), wasmer
    ([WasmerInstance], with [WasmerSpec] for what it documents) and the exported
    functions of the guest ([guest_call]), which may do anything to the
    environment. The backend's storage and querier may share state with each
    other ([X]), as the simulator's do. *)

From S2P Require Import Prelude.
From S2P Require Import Bytes.
From S2P Require Import CwStd.
From S2P Require Import Errors.
From S2P Require Import Client.
From S2P Require Import Sections.
From S2P Require Import Memory.
From S2P Require Import Gas.

Open Scope Z_scope.

(** ** Interfaces *)

(** [BackendResult] of a call on the state [T]: the result with the gas it took. *)
Definition BackendCall (T A : Type) : Type := T → (outcome BackendError A * GasInfo) * T.

Class VmBackend (A S Q X : Type) := {
  api_canonical_address : A → string → outcome BackendError bytes * GasInfo;
  api_human_address : A → bytes → outcome BackendError string * GasInfo;
  st_get : bytes → BackendCall (S * X) (option bytes);
  st_scan : option bytes → option bytes → Order → BackendCall (S * X) Z;
  st_next : Z → BackendCall (S * X) (option (bytes * bytes));
  st_set : bytes → bytes → BackendCall (S * X) unit;
  st_remove : bytes → BackendCall (S * X) unit;
  q_query_raw : Q → bytes → Z → BackendCall X (SystemResult (ContractResult Binary))
}.

(** A Wasm value: a 32-bit integer (as unsigned), or another one with its [Display]. *)
Inductive Val := VI32 (n : Z) | VOther (display : string).

(** [wasmer_middlewares::metering]. *)
Inductive MeteringPoints := Remaining (count : Z) | Exhausted.

Class WasmerInstance (W : Type) := {
  exported_memory : W → option bytes;
  set_exported_memory : bytes → W → W;
  get_remaining_points : W → MeteringPoints;
  set_remaining_points : Z → W → W;
  (** [exports.get_function]: the text of the [ExportError], or the function. *)
  get_function : W → string → string + unit
}.

Class WasmerSpec (W : Type) `{WasmerInstance W} : Prop := {
  points_of_set n w : get_remaining_points (set_remaining_points n w) = Remaining n;
  set_same_points n w : get_remaining_points w = Remaining n → set_remaining_points n w = w;
  memory_of_set_points n w : exported_memory (set_remaining_points n w) = exported_memory w;
  memory_of_set m w : is_Some (exported_memory w) → exported_memory (set_exported_memory m w) = Some m;
  points_of_set_memory m w : get_remaining_points (set_exported_memory m w) = get_remaining_points w;
  set_same_memory m w : exported_memory w = Some m → set_exported_memory m w = w
}.

(** ** State *)
Record ContextData (S Q W : Type) := mkContextData {
  gas_state : GasState;
  cd_storage : option S;
  storage_readonly : bool;
  cd_querier : option Q;
  wasmer_instance : option W
}.
Arguments mkContextData {S Q W}.
Arguments gas_state {S Q W}.
Arguments cd_storage {S Q W}.
Arguments storage_readonly {S Q W}.
Arguments cd_querier {S Q W}.
Arguments wasmer_instance {S Q W}.

(** [Environment]; [shared] is the state the backend's parts share, [stdout] what
    was printed. *)
Record Environment (A S Q W X : Type) := mkEnvironment {
  e_api : A;
  print_debug : bool;
  gas_config : GasConfig;
  e_data : ContextData S Q W;
  shared : X;
  stdout : list string
}.
Arguments mkEnvironment {A S Q W X}.
Arguments e_api {A S Q W X}.
Arguments print_debug {A S Q W X}.
Arguments gas_config {A S Q W X}.
Arguments e_data {A S Q W X}.
Arguments shared {A S Q W X}.
Arguments stdout {A S Q W X}.

Definition ContextData_new {S Q W} (limit : Z) : ContextData S Q W :=
  mkContextData (GasState_with_limit limit) None true None None.

Definition Environment_new {A S Q W X} (api : A) (limit : Z) (debug : bool) (x : X)
    : Environment A S Q W X :=
  mkEnvironment api debug GasConfig_default (ContextData_new limit) x [].

Section Host.
Context {A S Q W X : Type} `{HB : !VmBackend A S Q X} `{HWI : !WasmerInstance W} {HX : Externals}.
Abbreviation ENV := (Environment A S Q W X).
Abbreviation HOST := (M VmError ENV).

Definition set_data (d : ContextData S Q W) (e : ENV) : ENV :=
  mkEnvironment (e_api e) (print_debug e) (gas_config e) d (shared e) (stdout e).

(** [with_context_data_mut] with a closure that assigns fields. *)
Definition set_gas_state (g : GasState) (e : ENV) : ENV :=
  let d := e_data e in
  set_data (mkContextData g (cd_storage d) (storage_readonly d) (cd_querier d) (wasmer_instance d)) e.
Definition set_instance (w : option W) (e : ENV) : ENV :=
  let d := e_data e in
  set_data (mkContextData (gas_state d) (cd_storage d) (storage_readonly d) (cd_querier d) w) e.
Definition set_readonly (b : bool) (e : ENV) : ENV :=
  let d := e_data e in
  set_data (mkContextData (gas_state d) (cd_storage d) b (cd_querier d) (wasmer_instance d)) e.
Definition set_backend (s : option S) (q : option Q) (e : ENV) : ENV :=
  let d := e_data e in
  set_data (mkContextData (gas_state d) s (storage_readonly d) q (wasmer_instance d)) e.

Definition with_wasmer_instance {R} (callback : M VmError W R) : HOST R := λ e,
  match wasmer_instance (e_data e) with
  | Some w => let '(r, w') := callback w in (r, set_instance (Some w') e)
  | None => (Err (UninitializedContextData "wasmer_instance"), e)
  end.

(** [.expect(..)] on the result of [with_wasmer_instance]. *)
Definition expect_instance {R} (m : HOST R) : HOST R := λ e,
  match m e with
  | (Err _, e') => (Panic "Wasmer instance is not set. This is a bug in the lifecycle.", e')
  | r => r
  end.

(** What a backend call gives the code after it: the [Result] as a value, next to
    its gas information; a panic ends the run. *)
Definition backend_value {R} (r : outcome BackendError R * GasInfo)
    : outcome VmError ((BackendError + R) * GasInfo) :=
  match r with
  | (Ok a, info) => Ok (inr a, info)
  | (Err e, info) => Ok (inl e, info)
  | (Panic p, _) => Panic p
  | (OutOfFuel, _) => OutOfFuel
  end.

(** A call on the storage and on the querier of the context, and on the API. *)
Definition with_storage_from_context {R} (callback : BackendCall (S * X) R)
    : HOST ((BackendError + R) * GasInfo) := λ e,
  match cd_storage (e_data e) with
  | Some s =>
      let '(r, (s', x')) := callback (s, shared e) in
      (backend_value r, mkEnvironment (e_api e) (print_debug e) (gas_config e)
               (e_data (set_backend (Some s') (cd_querier (e_data e)) e)) x' (stdout e))
  | None => (Err (UninitializedContextData "storage"), e)
  end.

Definition with_querier_from_context {R} (callback : Q → BackendCall X R)
    : HOST ((BackendError + R) * GasInfo) := λ e,
  match cd_querier (e_data e) with
  | Some q =>
      let '(r, x') := callback q (shared e) in
      (backend_value r,
       mkEnvironment (e_api e) (print_debug e) (gas_config e) (e_data e) x' (stdout e))
  | None => (Err (UninitializedContextData "querier"), e)
  end.

Definition with_api {R} (callback : A → outcome BackendError R * GasInfo)
    : HOST ((BackendError + R) * GasInfo) := λ e, (backend_value (callback (e_api e)), e).

Definition set_wasmer_instance (w : option W) : HOST unit := modify (set_instance w).
Definition is_storage_readonly : HOST bool := gets (λ e, storage_readonly (e_data e)).
Definition set_storage_readonly (b : bool) : HOST unit := modify (set_readonly b).

Definition points_left (p : MeteringPoints) : Z :=
  match p with Remaining count => count | Exhausted => 0 end.

Definition get_gas_left : HOST Z :=
  expect_instance (with_wasmer_instance (gets (λ w, points_left (get_remaining_points w)))).

Definition set_gas_left (new_value : Z) : HOST unit :=
  expect_instance (with_wasmer_instance (modify (set_remaining_points new_value))).

Definition decrease_gas_left (amount : Z) : HOST unit :=
  with_wasmer_instance (
    w ← get;
    let remaining := points_left (get_remaining_points w) in
    if remaining <? amount then
      _ ← modify (set_remaining_points 0); throw GasDepletion
    else modify (set_remaining_points (remaining - amount))).

(** An access to [env.memory()]. *)
Definition with_memory {R} (m : M VmError bytes R) : HOST R := λ e,
  match wasmer_instance (e_data e) with
  | None => (Panic "Wasmer instance is not set. This is a bug in the lifecycle.", e)
  | Some w =>
      match exported_memory w with
      | None => (Panic "A contract must have exactly one exported memory.", e)
      | Some memory =>
          let '(r, memory') := m memory in
          (r, set_instance (Some (set_exported_memory memory' w)) e)
      end
  end.

Definition move_in (s : S) (q : Q) : HOST unit := modify (set_backend (Some s) (Some q)).

Definition move_out : HOST (option S * option Q) := λ e,
  (Ok (cd_storage (e_data e), cd_querier (e_data e)), set_backend None None e).

Definition process_gas_info (info : GasInfo) : HOST unit :=
  gas_left ← get_gas_left;
  e ← get;
  let g := gas_state (e_data e) in
  used ← add_or_panic U64 (externally_used_gas g) (externally_used info);
  _ ← modify (set_gas_state (mkGasState (gas_limit g) used));
  let new_limit := saturating_sub (saturating_sub gas_left (externally_used info)) (cost info) in
  _ ← set_gas_left new_limit;
  total ← add_or_panic U64 (externally_used info) (cost info);
  if gas_left <? total then throw GasDepletion else mret tt.

(** ** Calls into the guest *)
Context (guest_call : string → list Val → M string ENV (list Val)).

(** [From<RuntimeError> for VmError], by the message of the error. *)
Definition VmError_of_runtime (message : string) : VmError :=
  RuntimeErr ("Wasmer runtime error: " +:+ ("RuntimeError: " +:+ message)).

(** [func.call(args)] with its [map_err]: running out of gas is told apart by the
    points that are left. *)
Definition func_call (name : string) (args : list Val) : HOST (list Val) := λ e,
  match guest_call name args e with
  | (Err runtime_err, e') =>
      with_wasmer_instance (
        w ← get;
        match get_remaining_points w with
        | Remaining _ => throw (VmError_of_runtime runtime_err)
        | Exhausted => throw GasDepletion
        end) e'
  | (Ok vals, e') => (Ok vals, e')
  | (Panic p, e') => (Panic p, e')
  | (OutOfFuel, e') => (OutOfFuel, e')
  end.

Definition call_function (name : string) (args : list Val) : HOST (list Val) :=
  _ ← with_wasmer_instance (
        w ← get;
        match get_function w name with
        | inl e => throw (ResolveErr ("Could not get export: " +:+ e))
        | inr _ => mret tt
        end);
  func_call name args.

Definition call_function0 (name : string) (args : list Val) : HOST unit :=
  result ← call_function name args;
  if (length result =? 0)%nat then mret tt
  else throw (ResultMismatch name 0 (Z.of_nat (length result))).

Definition call_function1 (name : string) (args : list Val) : HOST Val :=
  result ← call_function name args;
  match result with
  | [v] => mret v
  | _ => throw (ResultMismatch name 1 (Z.of_nat (length result)))
  end.

(** [ref_to_u32] on a [Val]. *)
Definition ref_to_u32 (v : Val) : VmError + Z :=
  match v with
  | VI32 n => inr n
  | VOther d => inl (ConversionErr (rust_type_name "Val") "u32" d)
  end.

(** ** [instance.rs] *)
Definition create_gas_report : HOST GasReport :=
  state ← gets (λ e, gas_state (e_data e));
  gas_left ← get_gas_left;
  mret (gas_report state gas_left).

Definition allocate (size : Z) : HOST Z :=
  size ← of_sum (to_u32 size);
  ret ← call_function1 "allocate" [VI32 size];
  ptr ← of_sum (ref_to_u32 ret);
  if ptr =? 0 then throw (CommunicationErr ZeroAddress) else mret ptr.

Definition deallocate (ptr : Z) : HOST unit := call_function0 "deallocate" [VI32 ptr].

Section with_pointers.
Context {HP : WasmPtr}.

Definition read_memory (region_ptr max_length : Z) : HOST bytes :=
  with_memory (read_region region_ptr max_length).

Definition write_memory (region_ptr : Z) (data : bytes) : HOST unit :=
  with_memory (write_region region_ptr data).

(** [call_raw] of [calls.rs]: the arguments into regions the guest allocates, the
    call, the result out of the region it returns. *)
Fixpoint write_args (args : list bytes) : HOST (list Val) :=
  match args with
  | [] => mret []
  | arg :: args =>
      region_ptr ← allocate (Z.of_nat (length arg));
      _ ← write_memory region_ptr arg;
      ptrs ← write_args args;
      mret (VI32 region_ptr :: ptrs)
  end.

Definition call_raw (name : string) (args : list bytes) (result_max_length : Z) : HOST bytes :=
  arg_region_ptrs ← write_args args;
  result ← call_function1 name arg_region_ptrs;
  res_region_ptr ← of_sum (ref_to_u32 result);
  data ← read_memory res_region_ptr result_max_length;
  _ ← deallocate res_region_ptr;
  mret data.
End with_pointers.

(** The end of [from_module]: the environment of a new wasmer instance. *)
Definition link_instance (w : W) (s : S) (q : Q) : HOST unit :=
  e ← get;
  _ ← set_wasmer_instance (Some w);
  _ ← set_gas_left (gas_limit (gas_state (e_data e)));
  move_in s q.

(** [recycle]. *)
Definition recycle : HOST (option (A * S * Q)) :=
  parts ← move_out;
  e ← get;
  mret (match parts with
        | (Some s, Some q) => Some (e_api e, s, q)
        | _ => None
        end).
End Host.
