(* ===== verification/HostImports.v ===== *)
(** * The imports on linear memory ([cosmwasm/packages/vm/src/imports.rs])

    Every function of the module, with its pointers, its limits and the gas it
    charges, in the order of the source. *)

From S2P Require Import Prelude.
From S2P Require Import Bytes.
From S2P Require Import CwStd.
From S2P Require Import StdError.
From S2P Require Import Errors.
From S2P Require Import Client.
From S2P Require Import Sections.
From S2P Require Import Memory.
From S2P Require Import Crypto.
From S2P Require Import Gas.
From S2P Require Import Host.

Open Scope Z_scope.

Definition to_high_half (data : Z) : Z := Z.shiftl data 32.
Definition to_low_half (data : Z) : Z := data.

Section Imports.
Context {A S Q W X : Type} `{HB : !VmBackend A S Q X} `{HWI : !WasmerInstance W}.
Context {HX : Externals} {HP : WasmPtr} {HCv : Curves}.
Abbreviation ENV := (Environment A S Q W X).
Abbreviation HOST := (M VmError ENV).
Context (guest_call : string → list Val → M string ENV (list Val)).

(** [read_region(&env.memory(), ..)] and its companions. *)
Definition env_read (ptr max_length : Z) : HOST bytes := with_memory (read_region ptr max_length).
Definition env_maybe_read (ptr max_length : Z) : HOST (option bytes) :=
  with_memory (maybe_read_region ptr max_length).
Definition env_write (ptr : Z) (data : bytes) : HOST unit := with_memory (write_region ptr data).

(** [result?] on the [Result] of a backend call. *)
Definition backend_try {R} (r : BackendError + R) : HOST R :=
  match r with inl e => throw (VmError_of_BackendError e) | inr a => mret a end.

Definition write_to_contract (input : bytes) : HOST Z :=
  out_size ← of_sum (to_u32 (Z.of_nat (length input)));
  result ← call_function1 guest_call "allocate" [VI32 out_size];
  target_ptr ← of_sum (ref_to_u32 result);
  if target_ptr =? 0 then throw (CommunicationErr ZeroAddress)
  else
    _ ← env_write target_ptr input;
    mret target_ptr.

(** ** Database *)
Definition do_db_read (key_ptr : Z) : HOST Z :=
  key ← env_read key_ptr MAX_LENGTH_DB_KEY;
  '(result, gas_info) ← with_storage_from_context (st_get key);
  _ ← process_gas_info gas_info;
  value ← backend_try result;
  match value with
  | Some out_data => write_to_contract out_data
  | None => mret 0
  end.

Definition do_db_write (key_ptr value_ptr : Z) : HOST unit :=
  readonly ← is_storage_readonly;
  if readonly : bool then throw WriteAccessDenied
  else
    key ← env_read key_ptr MAX_LENGTH_DB_KEY;
    value ← env_read value_ptr MAX_LENGTH_DB_VALUE;
    '(result, gas_info) ← with_storage_from_context (st_set key value);
    _ ← process_gas_info gas_info;
    backend_try result.

Definition do_db_remove (key_ptr : Z) : HOST unit :=
  readonly ← is_storage_readonly;
  if readonly : bool then throw WriteAccessDenied
  else
    key ← env_read key_ptr MAX_LENGTH_DB_KEY;
    '(result, gas_info) ← with_storage_from_context (st_remove key);
    _ ← process_gas_info gas_info;
    backend_try result.

Definition do_db_scan (start_ptr end_ptr order : Z) : HOST Z :=
  start ← env_maybe_read start_ptr MAX_LENGTH_DB_KEY;
  stop ← env_maybe_read end_ptr MAX_LENGTH_DB_KEY;
  match order_of_i32 order with
  | None => throw (CommunicationErr (InvalidOrder order))
  | Some order =>
      '(result, gas_info) ← with_storage_from_context (st_scan start stop order);
      _ ← process_gas_info gas_info;
      backend_try result
  end.

Definition do_db_next (iterator_id : Z) : HOST Z :=
  '(result, gas_info) ← with_storage_from_context (st_next iterator_id);
  _ ← process_gas_info gas_info;
  result ← backend_try result;
  let '(key, value) := default ([], []) result in
  out_data ← of_sum (encode_sections [key; value]);
  write_to_contract out_data.

(** ** Addresses

    A user error is reported to the contract as a message. *)
Definition or_message {R} (result : BackendError + R) (k : R → HOST Z) : HOST Z :=
  match result with
  | inr a => k a
  | inl (UserErr msg) => write_to_contract (as_bytes msg)
  | inl e => throw (VmError_of_BackendError e)
  end.

Definition do_addr_validate (source_ptr : Z) : HOST Z :=
  source_data ← env_read source_ptr MAX_LENGTH_HUMAN_ADDRESS;
  if bool_decide (source_data = []) then write_to_contract (as_bytes "Input is empty")
  else match from_utf8 source_data with
  | None => write_to_contract (as_bytes "Input is not valid UTF-8")
  | Some source_string =>
      '(result, gas_info) ← with_api (λ api, api_canonical_address api source_string);
      _ ← process_gas_info gas_info;
      or_message result (λ canonical,
        '(result, gas_info) ← with_api (λ api, api_human_address api canonical);
        _ ← process_gas_info gas_info;
        or_message result (λ normalized,
          if String.eqb normalized source_string then mret 0
          else write_to_contract (as_bytes "Address is not normalized")))
  end.

Definition do_addr_canonicalize (source_ptr destination_ptr : Z) : HOST Z :=
  source_data ← env_read source_ptr MAX_LENGTH_HUMAN_ADDRESS;
  if bool_decide (source_data = []) then write_to_contract (as_bytes "Input is empty")
  else match from_utf8 source_data with
  | None => write_to_contract (as_bytes "Input is not valid UTF-8")
  | Some source_string =>
      '(result, gas_info) ← with_api (λ api, api_canonical_address api source_string);
      _ ← process_gas_info gas_info;
      or_message result (λ canonical,
        _ ← env_write destination_ptr canonical; mret 0)
  end.

Definition do_addr_humanize (source_ptr destination_ptr : Z) : HOST Z :=
  canonical ← env_read source_ptr MAX_LENGTH_CANONICAL_ADDRESS;
  '(result, gas_info) ← with_api (λ api, api_human_address api canonical);
  _ ← process_gas_info gas_info;
  or_message result (λ human,
    _ ← env_write destination_ptr (as_bytes human); mret 0).

(** ** Signatures

    A run of the crypto package, its [Result] as a value. *)
Definition crypto {R} (m : M CryptoError unit R) : HOST (CryptoError + R) := λ e,
  match (m tt).1 with
  | Ok a => (Ok (inr a), e)
  | Err err => (Ok (inl err), e)
  | Panic p => (Panic p, e)
  | OutOfFuel => (OutOfFuel, e)
  end.

Definition must_not_happen {R} : HOST R := panic "Error must not happen for this call".

Definition do_secp256k1_verify (hash_ptr signature_ptr pubkey_ptr : Z) : HOST Z :=
  hash ← env_read hash_ptr MESSAGE_HASH_MAX_LEN;
  signature ← env_read signature_ptr ECDSA_SIGNATURE_LEN;
  pubkey ← env_read pubkey_ptr ECDSA_PUBKEY_MAX_LEN;
  e ← get;
  _ ← process_gas_info (with_cost (secp256k1_verify_cost (gas_config e)));
  result ← crypto (secp256k1_verify hash signature pubkey);
  match result with
  | inl err =>
      match err with
      | CryptoInvalidHashFormat | CryptoInvalidPubkeyFormat | CryptoInvalidSignatureFormat
      | CryptoGenericErr _ => mret (CryptoError_code err)
      | CryptoBatchErr _ | CryptoInvalidRecoveryParam => must_not_happen
      end
  | inr valid => mret (if valid : bool then 0 else 1)
  end.

Definition do_secp256k1_recover_pubkey (hash_ptr signature_ptr recover_param : Z) : HOST Z :=
  hash ← env_read hash_ptr MESSAGE_HASH_MAX_LEN;
  signature ← env_read signature_ptr ECDSA_SIGNATURE_LEN;
  if 255 <? recover_param then
    mret (Z.shiftl (CryptoError_code CryptoInvalidRecoveryParam) 32)
  else
    e ← get;
    _ ← process_gas_info (with_cost (secp256k1_recover_pubkey_cost (gas_config e)));
    result ← crypto (secp256k1_recover_pubkey hash signature recover_param);
    match result with
    | inr pubkey =>
        pubkey_ptr ← write_to_contract pubkey;
        mret (to_low_half pubkey_ptr)
    | inl err =>
        match err with
        | CryptoInvalidHashFormat | CryptoInvalidSignatureFormat | CryptoInvalidRecoveryParam
        | CryptoGenericErr _ => mret (to_high_half (CryptoError_code err))
        | CryptoBatchErr _ | CryptoInvalidPubkeyFormat => must_not_happen
        end
    end.

Definition do_ed25519_verify (message_ptr signature_ptr pubkey_ptr : Z) : HOST Z :=
  message ← env_read message_ptr MAX_LENGTH_ED25519_MESSAGE;
  signature ← env_read signature_ptr MAX_LENGTH_ED25519_SIGNATURE;
  pubkey ← env_read pubkey_ptr EDDSA_PUBKEY_LEN;
  e ← get;
  _ ← process_gas_info (with_cost (ed25519_verify_cost (gas_config e)));
  result ← crypto (ed25519_verify message signature pubkey);
  match result with
  | inl err =>
      match err with
      | CryptoInvalidPubkeyFormat | CryptoInvalidSignatureFormat | CryptoGenericErr _ =>
          mret (CryptoError_code err)
      | CryptoBatchErr _ | CryptoInvalidHashFormat | CryptoInvalidRecoveryParam => must_not_happen
      end
  | inr valid => mret (if valid : bool then 0 else 1)
  end.

(** [decode_sections] panics on bytes that are not sections. *)
Definition env_sections (data : bytes) : HOST (list bytes) :=
  unwrap "attempt to subtract with overflow" (decode_sections data).

Definition do_ed25519_batch_verify (messages_ptr signatures_ptr public_keys_ptr : Z) : HOST Z :=
  messages ← env_read messages_ptr ((MAX_LENGTH_ED25519_MESSAGE + 4) * MAX_COUNT_ED25519_BATCH);
  signatures ←
    env_read signatures_ptr ((MAX_LENGTH_ED25519_SIGNATURE + 4) * MAX_COUNT_ED25519_BATCH);
  public_keys ← env_read public_keys_ptr ((EDDSA_PUBKEY_LEN + 4) * MAX_COUNT_ED25519_BATCH);
  messages ← env_sections messages;
  signatures ← env_sections signatures;
  public_keys ← env_sections public_keys;
  e ← get;
  let price := if (length public_keys =? 1)%nat
               then ed25519_batch_verify_one_pubkey_cost (gas_config e)
               else ed25519_batch_verify_cost (gas_config e) in
  gas_cost ← mul_or_panic U64 price (Z.of_nat (length signatures));
  _ ← process_gas_info (with_cost (Z.max gas_cost (ed25519_verify_cost (gas_config e))));
  result ← crypto (ed25519_batch_verify messages signatures public_keys);
  match result with
  | inl err =>
      match err with
      | CryptoBatchErr _ | CryptoInvalidPubkeyFormat | CryptoInvalidSignatureFormat
      | CryptoGenericErr _ => mret (CryptoError_code err)
      | CryptoInvalidHashFormat | CryptoInvalidRecoveryParam => must_not_happen
      end
  | inr valid => mret (if valid : bool then 0 else 1)
  end.

(** ** Messages and queries *)
Definition println (msg : string) : HOST unit :=
  modify (λ e, mkEnvironment (e_api e) (print_debug e) (gas_config e) (e_data e) (shared e)
                 (stdout e ++ [msg])).

Definition do_debug (message_ptr : Z) : HOST unit :=
  e ← get;
  if print_debug e then
    message_data ← env_read message_ptr MAX_LENGTH_DEBUG;
    println (from_utf8_lossy message_data)
  else mret tt.

Definition do_abort (message_ptr : Z) : HOST unit :=
  message_data ← env_read message_ptr MAX_LENGTH_ABORT;
  throw (Aborted (from_utf8_lossy message_data)).

Definition do_query_chain (request_ptr : Z) : HOST Z :=
  request ← env_read request_ptr MAX_LENGTH_QUERY_CHAIN_REQUEST;
  gas_remaining ← get_gas_left;
  '(result, gas_info) ← with_querier_from_context (λ q, q_query_raw q request gas_remaining);
  _ ← process_gas_info gas_info;
  result ← backend_try result;
  match to_vec_system_result result with
  | inl e => throw (SerializeErr (rust_type_name "SystemResult<ContractResult<Binary>>") e)
  | inr serialized => write_to_contract serialized
  end.
End Imports.
