(* ===== verification/HostFacts.v ===== *)
(** * Theorems on the host side: gas and signatures

    The account of an instance is exact until a charge is not covered, and the imports
    that verify signatures answer with codes; batches of malformed sections panic. *)

From S2P Require Import Prelude.
From S2P Require Import Bytes.
From S2P Require Import CwStd.
From S2P Require Import StdError.
From S2P Require Import Errors.
From S2P Require Import Client.
From S2P Require Import Sections.
From S2P Require Import Memory.
From S2P Require Import Crypto.
From S2P Require Import Gas.
From S2P Require Import Host.
From S2P Require Import HostImports.

Open Scope Z_scope.

Section Accounting.
Context {A S Q W X : Type} `{HWI : !WasmerInstance W} `{HWS : !WasmerSpec W}.
Abbreviation ENV := (Environment A S Q W X).

(** The gas left in the instance of an environment. *)
Definition gas_left_is (e : ENV) (n : Z) : Prop :=
  ∃ w, wasmer_instance (e_data e) = Some w ∧ points_left (get_remaining_points w) = n.

Lemma get_gas_left_run (e : ENV) n : gas_left_is e n → get_gas_left e = (Ok n, e).
Proof.
  intros (w & Hw & <-). unfold get_gas_left, expect_instance, with_wasmer_instance. rewrite Hw. cbn.
  unfold set_instance, set_data. destruct e as [? ? ? [? ? ? ? ?] ? ?]; cbn in *. by rewrite Hw.
Qed.

Lemma set_gas_left_run (e : ENV) w n :
  wasmer_instance (e_data e) = Some w →
  set_gas_left n e = (Ok tt, set_instance (Some (set_remaining_points n w)) e).
Proof.
  intros Hw. unfold set_gas_left, expect_instance, with_wasmer_instance. by rewrite Hw.
Qed.

(** [process_gas_info], all its effects: the external account grows, the gas that
    is left shrinks down to 0 at most, and the error says that it did not suffice. *)
Lemma process_gas_info_run (e : ENV) w n info :
  let g := gas_state (e_data e) in
  let x := externally_used_gas g + externally_used info in
  wasmer_instance (e_data e) = Some w →
  points_left (get_remaining_points w) = n →
  x < U64 → externally_used info + cost info < U64 →
  0 ≤ cost info → 0 ≤ externally_used info →
  process_gas_info info e =
    (if n <? externally_used info + cost info then Err GasDepletion else Ok tt,
     set_instance (Some (set_remaining_points
       (Z.max 0 (n - externally_used info - cost info)) w))
       (set_gas_state (mkGasState (gas_limit g) x) e)).
Proof.
  cbv zeta. intros Hw Hn Hx Ht Hc Hu. unfold process_gas_info.
  rewrite (bind_Ok _ _ _ _ _ (get_gas_left_run e n (ex_intro _ w (conj Hw Hn)))), bind_get.
  unfold add_or_panic. destruct (Z.ltb_spec (externally_used_gas (gas_state (e_data e)) +
    externally_used info) U64); [|lia]. rewrite bind_ret_l.
  erewrite bind_Ok by done.
  erewrite bind_Ok by (by apply set_gas_left_run).
  destruct (Z.ltb_spec (externally_used info + cost info) U64); [|lia]. rewrite bind_ret_l.
  replace (saturating_sub (saturating_sub n (externally_used info)) (cost info))
    with (Z.max 0 (n - externally_used info - cost info)) by (unfold saturating_sub; lia).
  by case_match.
Qed.

(** ** Runs of an instance

    [metered L e x i]: an instance created with the limit [L] has got to [e] by
    steps that consumed gas in Wasm (and may have changed everything else but the
    account) and host calls that charged it, none of them out of gas; [x] is what was charged externally and [i] what was charged internally. *)
Inductive metered (L : Z) : ENV → Z → Z → Prop :=
| metered_start e w :
    gas_state (e_data e) = GasState_with_limit L →
    wasmer_instance (e_data e) = Some w → get_remaining_points w = Remaining L →
    metered L e 0 0
| metered_wasm e e' w w' x i n burnt :
    metered L e x i →
    wasmer_instance (e_data e) = Some w → get_remaining_points w = Remaining n →
    gas_state (e_data e') = gas_state (e_data e) →
    wasmer_instance (e_data e') = Some w' → get_remaining_points w' = Remaining (n - burnt) →
    0 ≤ burnt ≤ n →
    metered L e' x (i + burnt)
| metered_host e e' x i info :
    metered L e x i → GasInfo_ok info →
    process_gas_info info e = (Ok tt, e') →
    metered L e' (x + externally_used info) (i + cost info).

(** The invariant: nothing is lost. *)
Definition balanced (L : Z) (e : ENV) (x i : Z) : Prop :=
  gas_state (e_data e) = mkGasState L x ∧ 0 ≤ x ∧ 0 ≤ i ∧
  ∃ w n, wasmer_instance (e_data e) = Some w ∧ get_remaining_points w = Remaining n ∧
    0 ≤ n ∧ n + x + i = L.

(** A charge that succeeds was covered. *)
Lemma process_gas_info_ok (e e' : ENV) w n info :
  wasmer_instance (e_data e) = Some w → get_remaining_points w = Remaining n →
  GasInfo_ok info →
  process_gas_info info e = (Ok tt, e') →
  externally_used info + cost info ≤ n ∧
  e' = set_instance (Some (set_remaining_points (n - externally_used info - cost info) w))
         (set_gas_state (mkGasState (gas_limit (gas_state (e_data e)))
            (externally_used_gas (gas_state (e_data e)) + externally_used info)) e).
Proof.
  intros Hw Hn [[Hc0 Hc1] [Hu0 Hu1]] H.
  assert (points_left (get_remaining_points w) = n) as Hp by (by rewrite Hn).
  pose proof (process_gas_info_run e w n info Hw Hp) as Hrun.
  destruct (Z.ltb_spec (externally_used_gas (gas_state (e_data e)) + externally_used info) U64);
    destruct (Z.ltb_spec (externally_used info + cost info) U64).
  1: { rewrite Hrun in H by lia. destruct (Z.ltb_spec n (externally_used info + cost info));
       [discriminate H|]. injection H as <-. split; [done|]. do 3 f_equal. lia. }
  all: exfalso; clear Hrun; revert H; unfold process_gas_info.
  all: rewrite (bind_Ok _ _ _ _ _ (get_gas_left_run e n (ex_intro _ w (conj Hw Hp)))), bind_get.
  all: unfold add_or_panic.
  all: destruct (Z.ltb_spec (externally_used_gas (gas_state (e_data e)) + externally_used info) U64);
    try lia; try (cbn; done).
  rewrite bind_ret_l. erewrite bind_Ok by done. erewrite bind_Ok by (by apply set_gas_left_run).
  destruct (Z.ltb_spec (externally_used info + cost info) U64); [lia|]. by cbn.
Qed.

Lemma metered_balanced L e x i : 0 ≤ L → metered L e x i → balanced L e x i.
Proof.
  intros HL. induction 1 as [e w Hg Hw Hn|e e' w w' x i n burnt _ IH Hw Hn Hg' Hw' Hn' Hb|e e' x i info _ IH Hok Hp].
  - split_and!; [done|lia..|]. exists w, L. split_and!; [done..|lia].
  - destruct IH as (Hg & Hx & Hi & w0 & n0 & Hw0 & Hn0 & ? & ?).
    assert (w0 = w) as -> by congruence. assert (n0 = n) as -> by congruence.
    split_and!; [congruence|lia..|]. exists w', (n - burnt). split_and!; [done..|lia|lia].
  - destruct IH as (Hg & Hx & Hi & w & n & Hw & Hn & ? & ?).
    destruct (process_gas_info_ok _ _ _ _ _ Hw Hn Hok Hp) as [Hle ->].
    destruct Hok as [[? ?] [? ?]]. rewrite Hg. cbn.
    split_and!; [done|lia..|]. eexists _, _. split_and!; [done|apply points_of_set|lia..].
Qed.

(** The report, from the account and the gas that is left. *)
Lemma report_run (e : ENV) L x n :
  gas_state (e_data e) = mkGasState L x → gas_left_is e n →
  create_gas_report e = (Ok (mkGasReport L n x (saturating_sub (saturating_sub L x) n)), e).
Proof.
  intros Hg Hleft. unfold create_gas_report. rewrite bind_gets, Hg.
  by rewrite (bind_Ok _ _ _ _ _ (get_gas_left_run e n Hleft)).
Qed.

(** C24: The gas account of an instance is exact as long as no charge failed: however
    Wasm code and successful host calls alternate, the report splits the limit into what
    is left, what was charged externally and what was charged internally. The next charge
    succeeds exactly when it is covered. One that is not fails as gas depletion, and the
    report after it is no longer a split: nothing is left, the external account includes
    the charge even beyond the limit, and the internal one is what remains of the limit
    beside it, 0 at least, as the comment in [create_gas_report] says. (Charges are those
    whose sums fit 64 bits; others panic.) *)
Theorem gas_accounting L (e : ENV) x i :
  0 ≤ L → metered L e x i →
  ∃ n, create_gas_report e = (Ok (mkGasReport L n x i), e) ∧ 0 ≤ n ∧ n + x + i = L ∧
    ∀ info, GasInfo_ok info → x + externally_used info < U64 →
      externally_used info + cost info < U64 →
      (externally_used info + cost info ≤ n →
         ∃ e', process_gas_info info e = (Ok tt, e') ∧
           create_gas_report e' =
             (Ok (mkGasReport L (n - externally_used info - cost info)
                    (x + externally_used info) (i + cost info)), e')) ∧
      (n < externally_used info + cost info →
         ∃ e', process_gas_info info e = (Err GasDepletion, e') ∧
           create_gas_report e' =
             (Ok (mkGasReport L 0 (x + externally_used info)
                    (Z.max 0 (L - (x + externally_used info)))), e')).
Proof.
  intros HL Hm. destruct (metered_balanced _ _ _ _ HL Hm) as (Hg & Hx & Hi & w & n & Hw & Hn & Hn0 & Hsum).
  assert (gas_left_is e n) as Hleft by (exists w; by rewrite Hn).
  exists n. split_and!; [|lia..|].
  - rewrite (report_run e L x n Hg Hleft). unfold saturating_sub. do 3 f_equal. lia.
  - intros info [[? ?] [? ?]] Hu Ht.
    pose proof (process_gas_info_run e w n info) as Hrun. rewrite Hg, Hn in Hrun. cbv zeta in Hrun.
    rewrite (Hrun Hw eq_refl) by (cbn; lia). cbn [gas_limit externally_used_gas].
    split; intros Hcov; eexists; destruct (Z.ltb_spec n (externally_used info + cost info)); try lia.
    all: split; [done|].
    all: rewrite (report_run _ L (x + externally_used info) (Z.max 0 (n - externally_used info - cost info)));
      [unfold saturating_sub; do 3 f_equal; lia|done|].
    all: eexists; (split; [done|]); rewrite points_of_set; cbn; lia.
Qed.
End Accounting.

Section Signatures.
Context {A S Q W X : Type} `{HB : !VmBackend A S Q X} `{HWI : !WasmerInstance W} `{HWS : !WasmerSpec W}.
Context {HP : WasmPtr} {HCv : Curves}.
Abbreviation ENV := (Environment A S Q W X).

(** The environment after an internal charge of [c]. *)
Definition charged (c : Z) (e : ENV) : ENV :=
  match wasmer_instance (e_data e) with
  | Some w => set_instance (Some (set_remaining_points
                (points_left (get_remaining_points w) - c) w)) e
  | None => e
  end.

Lemma set_gas_state_same (e : ENV) : set_gas_state (gas_state (e_data e)) e = e.
Proof. by destruct e as [? ? ? [? ? ? ? ?] ? ?]. Qed.

Lemma charge_run (e : ENV) n c :
  gas_left_is e n → externally_used_gas (gas_state (e_data e)) < U64 → 0 ≤ c ≤ n → c < U64 →
  process_gas_info (with_cost c) e = (Ok tt, charged c e).
Proof.
  intros (w & Hw & Hn) Hu Hc Hc'.
  rewrite (process_gas_info_run e w n); [cbn|done|done|cbn; lia..].
  unfold charged. rewrite Hw, Hn, Z.add_0_l, Z.add_0_r. destruct (Z.ltb_spec n c); [lia|].
  replace (Z.max 0 (n - 0 - c)) with (n - c) by lia.
  replace (mkGasState _ _) with (gas_state (e_data e)) by (by destruct (gas_state (e_data e))).
  by rewrite set_gas_state_same.
Qed.

(** What an import that verifies returns. *)
Definition answer (r : outcome CryptoError bool) : Z :=
  match r with
  | Ok valid => if valid then 0 else 1
  | Err err => CryptoError_code err
  | Panic _ | OutOfFuel => 0
  end.

(** The price of a batch. *)
Definition batch_price (c : GasConfig) (signatures public_keys : list bytes) : Z :=
  (if (length public_keys =? 1)%nat then ed25519_batch_verify_one_pubkey_cost c
   else ed25519_batch_verify_cost c) * Z.of_nat (length signatures).

(** The tail of the imports that verify: the result becomes a code. *)
Lemma answer_run {P : CryptoError → Prop} (m : M CryptoError unit bool) (tail : CryptoError → M VmError ENV Z) (e : ENV) :
  pure_with P m → (∀ err, P err → tail err = mret (CryptoError_code err)) →
  (result ← crypto m;
   match result with
   | inl err => tail err
   | inr valid => mret (if valid : bool then 0 else 1)
   end) e = (Ok (answer (m tt).1), e).
Proof.
  intros Hm Ht. unfold crypto, mbind at 1, M_bind at 1.
  destruct (Hm tt) as [[b ->]|(err & -> & He)]; cbn; [done|]. by rewrite Ht.
Qed.

(** On readable regions and with enough gas, the imports that verify
    signatures charge their price and answer 0 for a valid signature, 1 for an
    invalid one and the code of the error otherwise; the panics they carry for
    unexpected errors cannot happen. For a batch this takes regions that hold
    encoded sections. *)
Theorem signature_imports_answer (e : ENV) n message signature public_key p1 p2 p3 :
  gas_left_is e n → externally_used_gas (gas_state (e_data e)) < U64 →
  (env_read p1 MESSAGE_HASH_MAX_LEN e = (Ok message, e) →
   env_read p2 ECDSA_SIGNATURE_LEN e = (Ok signature, e) →
   env_read p3 ECDSA_PUBKEY_MAX_LEN e = (Ok public_key, e) →
   let price := secp256k1_verify_cost (gas_config e) in
   0 ≤ price ≤ n → price < U64 →
   do_secp256k1_verify p1 p2 p3 e =
     (Ok (answer (secp256k1_verify message signature public_key tt).1), charged price e)) ∧
  (env_read p1 MAX_LENGTH_ED25519_MESSAGE e = (Ok message, e) →
   env_read p2 MAX_LENGTH_ED25519_SIGNATURE e = (Ok signature, e) →
   env_read p3 EDDSA_PUBKEY_LEN e = (Ok public_key, e) →
   let price := ed25519_verify_cost (gas_config e) in
   0 ≤ price ≤ n → price < U64 →
   do_ed25519_verify p1 p2 p3 e =
     (Ok (answer (ed25519_verify message signature public_key tt).1), charged price e)) ∧
  (∀ messages signatures public_keys,
   env_read p1 ((MAX_LENGTH_ED25519_MESSAGE + 4) * MAX_COUNT_ED25519_BATCH) e = (Ok message, e) →
   env_read p2 ((MAX_LENGTH_ED25519_SIGNATURE + 4) * MAX_COUNT_ED25519_BATCH) e = (Ok signature, e) →
   env_read p3 ((EDDSA_PUBKEY_LEN + 4) * MAX_COUNT_ED25519_BATCH) e = (Ok public_key, e) →
   decode_sections message = Some messages → decode_sections signature = Some signatures →
   decode_sections public_key = Some public_keys →
   let price := Z.max (batch_price (gas_config e) signatures public_keys)
                  (ed25519_verify_cost (gas_config e)) in
   batch_price (gas_config e) signatures public_keys < U64 →
   0 ≤ price ≤ n → price < U64 →
   do_ed25519_batch_verify p1 p2 p3 e =
     (Ok (answer (ed25519_batch_verify messages signatures public_keys tt).1), charged price e)).
Proof.
  intros Hn Hu. split_and!.
  - intros H1 H2 H3 price Hp Hp'. unfold do_secp256k1_verify.
    rewrite (bind_Ok _ _ _ _ _ H1), (bind_Ok _ _ _ _ _ H2), (bind_Ok _ _ _ _ _ H3), bind_get.
    rewrite (bind_Ok _ _ _ _ _ (charge_run e n price Hn Hu Hp Hp')).
    apply (answer_run _ _ _ (secp256k1_verify_pure _ _ _)). by intros [].
  - intros H1 H2 H3 price Hp Hp'. unfold do_ed25519_verify.
    rewrite (bind_Ok _ _ _ _ _ H1), (bind_Ok _ _ _ _ _ H2), (bind_Ok _ _ _ _ _ H3), bind_get.
    rewrite (bind_Ok _ _ _ _ _ (charge_run e n price Hn Hu Hp Hp')).
    apply (answer_run _ _ _ (ed25519_verify_pure _ _ _)). by intros [].
  - intros ms ss ks H1 H2 H3 D1 D2 D3 price Hb Hp Hp'. unfold do_ed25519_batch_verify, env_sections.
    rewrite (bind_Ok _ _ _ _ _ H1), (bind_Ok _ _ _ _ _ H2), (bind_Ok _ _ _ _ _ H3), D1, D2, D3.
    cbn [unwrap]. rewrite !bind_ret_l, bind_get. unfold mul_or_panic.
    fold (batch_price (gas_config e) ss ks).
    destruct (Z.ltb_spec (batch_price (gas_config e) ss ks) U64); [|lia]. rewrite bind_ret_l.
    rewrite (bind_Ok _ _ _ _ _ (charge_run e n price Hn Hu Hp Hp')).
    apply (answer_run _ _ _ (ed25519_batch_verify_pure _ _ _)). by intros [].
Qed.

(** C40: A contract can make the host panic with bytes it hands to the batch import as
    messages, signatures or public keys: if in one of the three regions some length field
    found from the end, behind well encoded sections, exceeds the bytes before it (as in
    the four bytes 0, 0, 0, 9), then [decode_sections] panics, and the import with it,
    before any gas is charged. *)
Theorem batch_import_panics (e : ENV) messages signatures public_keys p1 p2 p3 :
  env_read p1 ((MAX_LENGTH_ED25519_MESSAGE + 4) * MAX_COUNT_ED25519_BATCH) e = (Ok messages, e) →
  env_read p2 ((MAX_LENGTH_ED25519_SIGNATURE + 4) * MAX_COUNT_ED25519_BATCH) e = (Ok signatures, e) →
  env_read p3 ((EDDSA_PUBKEY_LEN + 4) * MAX_COUNT_ED25519_BATCH) e = (Ok public_keys, e) →
  overlong messages ∨ overlong signatures ∨ overlong public_keys →
  do_ed25519_batch_verify p1 p2 p3 e = (Panic "attempt to subtract with overflow", e).
Proof.
  intros H1 H2 H3 Hbad. unfold do_ed25519_batch_verify, env_sections.
  rewrite (bind_Ok _ _ _ _ _ H1), (bind_Ok _ _ _ _ _ H2), (bind_Ok _ _ _ _ _ H3).
  destruct (decode_sections messages) as [ms|] eqn:D1; [cbn [unwrap]; rewrite bind_ret_l|done].
  destruct (decode_sections signatures) as [ss|] eqn:D2; [cbn [unwrap]; rewrite bind_ret_l|done].
  destruct (decode_sections public_keys) as [ks|] eqn:D3; [|done].
  by destruct Hbad as [H|[H|H]]; apply decode_panics in H; simplify_eq.
Qed.
End Signatures.
