(* ===== verification/HostRefines.v ===== *)
(** * The imports on memory implement the imports on byte strings

    [Vm] gives a contract's host calls ([hostE]) their meaning on byte strings, and
    the theorems on transactions and queries rest on it. The code works on pointers
    ([HostImports]). Here the simulator's backend ([core/src/fork]: storage.rs,
    api.rs, querier.rs) is made an instance of [VmBackend], and every import on
    pointers is shown to read its arguments, do what [Vm.host_call] does, and hand
    the result to the guest. *)

From S2P Require Import Prelude.
From S2P Require Import Bytes.
From S2P Require Import CwStd.
From S2P Require Import StdError.
From S2P Require Import Errors.
From S2P Require Import Client.
From S2P Require Import Storage.
From S2P Require Import States.
From S2P Require Import DebugLog.
From S2P Require Import Sections.
From S2P Require Import Memory.
From S2P Require Import Crypto.
From S2P Require Import Gas.
From S2P Require Import Api.
From S2P Require Import Vm.
From S2P Require Import Host.
From S2P Require Import HostImports.
From S2P Require Import HostFacts.

Open Scope Z_scope.

(** ** The simulator's backend *)

(** [RpcMockStorage] as an instance owns it: the shared cell and its iterators. *)
Record StorageHandle := mkHandle {
  h_cell : Cell;
  h_iterators : gmap Z (list StoreRecord * nat);
  h_iterator_ctr : Z
}.

Section Refines.
Context {C W : Type} {HC : CwClientBackend C} {HX : Externals}.
Context `{HWI : !WasmerInstance W} `{HWS : !WasmerSpec W} `{HPS : WasmPtrSpec} {HCv : Curves}.
Context (query_raw : bytes → M BackendError (RpcMockQuerier C)
                               (SystemResult (ContractResult Binary))).

Abbreviation SHARED := (RpcMockQuerier C).

(** The content of the cell of a handle. *)
Definition handle_cell (h : StorageHandle) (x : SHARED) : option ContractStorage :=
  match h_cell h with
  | SharedCell a => storage <$> contract_states (q_states x) !! a
  | PrivateCell m => Some m
  end.

(** A method of [RpcMockStorage] on the cell, free of charge. *)
Definition on_cell {R} (m : M BackendError RpcMockStorage R) : BackendCall (StorageHandle * SHARED) R :=
  λ '(h, x),
  match handle_cell h x with
  | None => ((Panic "the cell of a storage is never dropped", free), (h, x))
  | Some cell =>
      let '(r, st) := m (mkStorage cell (h_iterators h) (h_iterator_ctr h)) in
      match h_cell h with
      | SharedCell a =>
          ((r, free),
           (mkHandle (SharedCell a) (iterators st) (iterator_id_ctr st),
            mkQuerier (set_contract_states
              (alter (alter_storage (inner st)) a (contract_states (q_states x))) (q_states x))
              (q_log x)))
      | PrivateCell _ =>
          ((r, free), (mkHandle (PrivateCell (inner st)) (iterators st) (iterator_id_ctr st), x))
      end
  end.

#[local] Instance simulator_backend : VmBackend RpcMockApi StorageHandle unit SHARED := {
  api_canonical_address api human := ((canonical_address api human tt).1, free);
  api_human_address api canonical := ((human_address api canonical tt).1, free);
  st_get key := on_cell (storage_get key);
  st_scan start stop order := on_cell (scan start stop order);
  st_next id := on_cell (next id);
  st_set key value := on_cell (storage_set key value);
  st_remove key := on_cell (storage_remove key);
  q_query_raw _ request _ := λ x, let '(r, x') := query_raw request x in ((r, free), x')
}.

Abbreviation ENV := (Host.Environment RpcMockApi StorageHandle unit W SHARED).
Abbreviation HOST := (M VmError ENV).
Abbreviation VMENV := (Vm.Environment C unit).

(** ** The environment of [Vm] inside the one of the host *)
Definition view (h : StorageHandle) (e : ENV) : VMENV :=
  Vm.mkEnvironment (shared e)
    (mkInstance (e_api e) (h_cell h) (h_iterators h) (h_iterator_ctr h)
       (storage_readonly (e_data e)) tt).

Definition handle_of (v : VMENV) : StorageHandle :=
  let i := v_inst v in mkHandle (i_cell i) (i_iterators i) (i_iterator_ctr i).

Definition update (v : VMENV) (e : ENV) : ENV :=
  let d := e_data e in
  Host.mkEnvironment (e_api e) (print_debug e) (gas_config e)
    (mkContextData (gas_state d) (Some (handle_of v)) (storage_readonly d) (cd_querier d)
       (wasmer_instance d))
    (v_querier v) (stdout e).

(** A run of [Vm] inside the host. *)
Definition lift {R} (m : M VmError VMENV R) : HOST R := λ e,
  match cd_storage (e_data e) with
  | Some h => let '(r, v) := m (view h e) in (r, update v e)
  | None => (Err (UninitializedContextData "storage"), e)
  end.

(** ** Regions that hold a byte string *)
Definition region_holds (memory : bytes) (ptr : Z) (d : bytes) : Prop :=
  ∃ r, get_region ptr memory = (Ok r, memory) ∧ r_offset r + r_length r ≤ mem_size memory ∧
    r_offset r < mem_size memory ∧ d = load (r_offset r) (Z.to_nat (r_length r)) memory.

Definition maybe_region_holds (memory : bytes) (ptr : Z) (d : option bytes) : Prop :=
  match d with None => ptr = 0 | Some d => ptr ≠ 0 ∧ region_holds memory ptr d end.

(** A region that takes a result: its capacity. *)
Definition region_takes (memory : bytes) (ptr capacity : Z) : Prop :=
  ∃ r, get_region ptr memory = (Ok r, memory) ∧ r_capacity r = capacity.

(** An instance ready to serve an import. *)
Record ready (e : ENV) (memory : bytes) : Prop := {
  ready_storage : ∃ h, cd_storage (e_data e) = Some h ∧ is_Some (handle_cell h (shared e));
  ready_querier : cd_querier (e_data e) = Some tt;
  ready_debug : print_debug e = false;
  ready_gas : externally_used_gas (gas_state (e_data e)) < U64;
  ready_instance : ∃ w n, wasmer_instance (e_data e) = Some w ∧
    exported_memory w = Some memory ∧ get_remaining_points w = Remaining n ∧ 0 ≤ n
}.

(** ** Which import implements which host call, and what it does with the result *)
Context (guest_call : string → list Val → M string ENV (list Val)).
Abbreviation write_to_contract := (write_to_contract guest_call).

Definition report (r : option bytes) : HOST Z :=
  match r with Some d => write_to_contract d | None => mret 0 end.
Definition fill (destination_ptr : Z) (r : bytes + bytes) : HOST Z :=
  match r with
  | inl msg => write_to_contract msg
  | inr d => _ ← env_write destination_ptr d; mret 0
  end.

Inductive implements (memory : bytes) : ∀ {R T}, hostE R → HOST T → (R → HOST T) → Prop :=
| impl_db_read p key : region_holds memory p key →
    implements memory (HDbRead key) (HostImports.do_db_read guest_call p) report
| impl_db_write p q key value : region_holds memory p key → region_holds memory q value →
    implements memory (HDbWrite key value) (HostImports.do_db_write p q) mret
| impl_db_remove p key : region_holds memory p key →
    implements memory (HDbRemove key) (HostImports.do_db_remove p) mret
| impl_db_scan p q start stop order :
    maybe_region_holds memory p start → maybe_region_holds memory q stop →
    implements memory (HDbScan start stop order) (HostImports.do_db_scan p q order) mret
| impl_db_next id :
    implements memory (HDbNext id) (HostImports.do_db_next guest_call id) write_to_contract
| impl_addr_validate p source : region_holds memory p source →
    implements memory (HAddrValidate source) (HostImports.do_addr_validate guest_call p) report
| impl_addr_canonicalize p q source capacity :
    region_holds memory p source → region_takes memory q capacity →
    implements memory (HAddrCanonicalize source capacity)
      (HostImports.do_addr_canonicalize guest_call p q) (fill q)
| impl_addr_humanize p q source capacity :
    region_holds memory p source → region_takes memory q capacity →
    implements memory (HAddrHumanize source capacity)
      (HostImports.do_addr_humanize guest_call p q) (fill q)
| impl_query_chain p request : region_holds memory p request →
    implements memory (HQueryChain request) (HostImports.do_query_chain guest_call p) write_to_contract
| impl_debug p message :
    implements memory (HDebug message) (HostImports.do_debug p) mret
| impl_abort p message : region_holds memory p message →
    implements memory (HAbort message) (HostImports.do_abort p) (λ r, match r with end).

(** ** Steps *)
Lemma env_eta (e : ENV) w : wasmer_instance (e_data e) = Some w → set_instance (Some w) e = e.
Proof. destruct e as [? ? ? [? ? ? ? ?] ? ?]. cbn. by intros ->. Qed.

Lemma update_view (e : ENV) h : cd_storage (e_data e) = Some h → update (view h e) e = e.
Proof. destruct e as [? ? ? [? ? ? ? ?] ? ?], h. cbn. by intros ->. Qed.

(** Runs inside the host, by their run on the view. *)
Lemma lift_run {R} (m : M VmError VMENV R) (e : ENV) h :
  cd_storage (e_data e) = Some h → lift m e = ((m (view h e)).1, update (m (view h e)).2 e).
Proof. intros Hh. unfold lift. rewrite Hh. by destruct (m (view h e)). Qed.

Lemma lift_same {R} (m m' : M VmError VMENV R) (e : ENV) h :
  cd_storage (e_data e) = Some h → m (view h e) = m' (view h e) → lift m e = lift m' e.
Proof. intros Hh Hm. by rewrite !(lift_run _ _ h), Hm. Qed.

Lemma lift_pure {R} (m : M VmError VMENV R) (e : ENV) h r :
  cd_storage (e_data e) = Some h → m (view h e) = (r, view h e) → lift m e = (r, e).
Proof. intros Hh Hm. rewrite (lift_run _ _ h), Hm by done. cbn. by rewrite (update_view _ h). Qed.

(** An access that leaves the memory as it is leaves the environment as it is. *)
Lemma with_memory_pure {R} (e : ENV) memory (m : M VmError bytes R) r :
  ready e memory → m memory = (r, memory) → with_memory m e = (r, e).
Proof.
  intros [_ _ _ _ (w & n & Hw & Hm & _)] Hr. unfold with_memory. rewrite Hw, Hm, Hr.
  by rewrite set_same_memory, env_eta.
Qed.

Lemma read_region_holds memory p d max :
  region_holds memory p d → 0 ≤ max < U32 →
  Memory.read_region p max memory =
  (if max <? Z.of_nat (length d)
   then Err (CommunicationErr (RegionLengthTooBig (Z.of_nat (length d)) max)) else Ok d, memory).
Proof.
  intros (r & Hr & Hin & Hoff & ->) Hmax.
  pose proof (proj1 (get_region_ok _ _ _ _) Hr) as (_ & cell & _ & Hreg & _).
  assert (region_fits r) as ((? & _) & _ & (? & _)) by (rewrite Hreg; apply Region_of_bytes_fits).
  rewrite length_load, Z2Nat.id by (rewrite ?Z2Nat.id; lia).
  destruct (Z.ltb_spec max (r_length r)) as [Hlt|]; [|apply read_region_run; [done|lia|done..]].
  unfold Memory.read_region. rewrite (bind_Ok _ _ _ _ _ (map_err_Ok _ _ _ _ _ Hr)). unfold to_u32.
  destruct (Z.ltb_spec max U32); [|lia]. cbn [of_sum]. rewrite bind_ret_l.
  by destruct (Z.ltb_spec max (r_length r)); [|lia].
Qed.

(** Reading an argument: the outcome is the one [Vm] has, in both machines. *)
Definition arg_outcome (d : bytes) (max : Z) : outcome VmError bytes :=
  if max <? Z.of_nat (length d)
  then Err (CommunicationErr (RegionLengthTooBig (Z.of_nat (length d)) max)) else Ok d.

Lemma env_read_holds (e : ENV) memory p d max :
  ready e memory → region_holds memory p d → 0 ≤ max < U32 →
  env_read p max e = (arg_outcome d max, e).
Proof.
  intros Hrd Hd Hmax. by apply (with_memory_pure _ _ _ _ Hrd), read_region_holds.
Qed.

Lemma vm_read_run d max (v : VMENV) : Vm.read_region d max v = (arg_outcome d max, v).
Proof. unfold Vm.read_region, arg_outcome. by case_match. Qed.

(** An optional argument. *)
Definition maybe_outcome (d : option bytes) (max : Z) : outcome VmError (option bytes) :=
  match d with
  | None => Ok None
  | Some d => match arg_outcome d max with
              | Ok d => Ok (Some d) | Err x => Err x | Panic p => Panic p | OutOfFuel => OutOfFuel
              end
  end.

Lemma env_maybe_read_holds (e : ENV) memory p d max :
  ready e memory → maybe_region_holds memory p d → 0 ≤ max < U32 →
  env_maybe_read p max e = (maybe_outcome d max, e).
Proof.
  intros Hrd Hd Hmax. apply (with_memory_pure _ _ _ _ Hrd). unfold Memory.maybe_read_region.
  destruct d as [d|]; cbn in Hd; [destruct Hd as [Hp Hd]|by rewrite Hd].
  destruct (Z.eqb_spec p 0); [done|]. unfold mbind, M_bind.
  rewrite (read_region_holds _ _ _ _ Hd Hmax). cbn. unfold arg_outcome. by case_match.
Qed.

Lemma vm_maybe_read_run d max (v : VMENV) :
  Vm.maybe_read_region d max v = (maybe_outcome d max, v).
Proof.
  destruct d as [d|]; [|done]. cbn. unfold mbind, M_bind. rewrite vm_read_run.
  unfold arg_outcome. by case_match.
Qed.

(** Gas that costs nothing changes nothing. *)
Definition metering (e : ENV) : Prop :=
  externally_used_gas (gas_state (e_data e)) < U64 ∧
  ∃ w n, wasmer_instance (e_data e) = Some w ∧ get_remaining_points w = Remaining n ∧ 0 ≤ n.

Lemma ready_metering e memory : ready e memory → metering e.
Proof. intros [_ _ _ ? (w & n & ? & _ & ? & ?)]. split; eauto. Qed.

Lemma process_free (e : ENV) : metering e → process_gas_info free e = (Ok tt, e).
Proof.
  intros (Hg & w & n & Hw & Hn & Hn0).
  rewrite (process_gas_info_run e w n); [|done|by rewrite Hn|unfold free, U64 in *; cbn [externally_used cost]; lia..].
  unfold free. cbn [externally_used cost]. rewrite !Z.add_0_r.
  destruct (Z.ltb_spec n 0); [lia|].
  replace (Z.max 0 (n - 0 - 0)) with n by lia.
  replace (mkGasState _ _) with (gas_state (e_data e)) by (by destruct (gas_state (e_data e))).
  by rewrite set_gas_state_same, (set_same_points n), env_eta.
Qed.

(** The gas and the instance are not touched by an update of the backend. *)
Lemma metering_update (e : ENV) v : metering e → metering (update v e).
Proof. done. Qed.

(** A backend call that is free, and what follows it. *)
Lemma settle_run {R} (e : ENV) (o : outcome BackendError R) :
  metering e →
  match backend_value (o, free) with
  | Ok a => (let '(result, gas_info) := a in _ ← process_gas_info gas_info; backend_try result) e
  | Err x => (Err x, e) | Panic p => (Panic p, e) | OutOfFuel => (OutOfFuel, e)
  end =
  (match o with
   | Ok a => Ok a
   | Err x => Err (VmError_of_BackendError x)
   | Panic p => Panic p
   | OutOfFuel => OutOfFuel
   end, e).
Proof.
  intros He. destruct o as [a|x|p|]; cbn; [| |done..];
    by rewrite (bind_Ok _ _ _ _ _ (process_free _ He)).
Qed.

(** A database call. *)
Lemma storage_step {R} (m : M BackendError RpcMockStorage R) (e : ENV) memory :
  ready e memory →
  ('(result, gas_info) ← with_storage_from_context (on_cell m);
   _ ← process_gas_info gas_info;
   backend_try result) e = lift (Vm.with_storage VmError_of_BackendError m) e.
Proof.
  intros Hrd. destruct (ready_storage _ _ Hrd) as (h & Hh & cell & Hcell).
  pose proof (ready_metering _ _ Hrd) as Hme.
  unfold lift, with_storage_from_context, Vm.with_storage. unfold mbind at 1, M_bind at 1. rewrite Hh.
  change (cell_read (view h e)) with (handle_cell h (shared e)).
  unfold on_cell. rewrite Hcell. cbn [v_inst view i_iterators i_iterator_ctr].
  destruct (m _) as [r st].
  set (v := storage_writeback st (view h e)).
  transitivity (match backend_value (r, free) with
    | Ok a => (let '(result, gas_info) := a in _ ← process_gas_info gas_info; backend_try result) (update v e)
    | Err x => (Err x, update v e) | Panic p => (Panic p, update v e) | OutOfFuel => (OutOfFuel, update v e)
    end).
  - unfold v, storage_writeback, view, set_backend, update. cbn.
    destruct (h_cell h) eqn:Hc; cbn; by destruct r.
  - rewrite settle_run by done. by destruct r.
Qed.

(** A step that both machines take without touching their state. *)
Lemma pure_step {B R T} (e : ENV) h (o : outcome VmError B) (m1 : HOST B) (m2 : M VmError VMENV B)
    (k1 : B → HOST T) (k2 : B → M VmError VMENV R) (fin : R → HOST T) :
  cd_storage (e_data e) = Some h → m1 e = (o, e) → m2 (view h e) = (o, view h e) →
  (∀ b, o = Ok b → k1 b e = (lift (k2 b) ≫= fin) e) →
  (m1 ≫= k1) e = (lift (m2 ≫= k2) ≫= fin) e.
Proof.
  intros Hh H1 H2 Hk.
  assert (∀ r, (m2 ≫= k2) (view h e) = (r, view h e) →
    (lift (m2 ≫= k2) ≫= fin) e = match r with
      | Ok b => fin b e | Err x => (Err x, e) | Panic p => (Panic p, e) | OutOfFuel => (OutOfFuel, e)
      end) as Hpure.
  { intros r Hr. unfold mbind at 1, M_bind at 1. rewrite (lift_pure _ _ h r Hh Hr). by destruct r. }
  destruct o as [b|x|p|].
  - rewrite (bind_Ok _ _ _ _ _ H1), (Hk b eq_refl). unfold mbind at 1 2, M_bind at 1 2.
    rewrite (lift_same (m2 ≫= k2) (k2 b) e h Hh); [done|]. by rewrite (bind_Ok _ _ _ _ _ H2).
  - rewrite (bind_Err _ _ _ _ _ H1). symmetry. by apply (Hpure (Err x)), bind_Err.
  - rewrite (bind_Panic _ _ _ _ _ H1). symmetry. by apply (Hpure (Panic p)), bind_Panic.
  - transitivity (OutOfFuel (E := VmError) (A := T), e); [unfold mbind, M_bind; by rewrite H1|].
    symmetry. apply (Hpure OutOfFuel). unfold mbind, M_bind. by rewrite H2.
Qed.

(** The same for an argument. *)
Lemma arg_step {R T} (e : ENV) memory h p d max
    (k1 : bytes → HOST T) (k2 : bytes → M VmError VMENV R) (fin : R → HOST T) :
  ready e memory → cd_storage (e_data e) = Some h → region_holds memory p d → 0 ≤ max < U32 →
  k1 d e = (lift (k2 d) ≫= fin) e →
  (env_read p max ≫= k1) e = (lift (Vm.read_region d max ≫= k2) ≫= fin) e.
Proof.
  intros Hrd Hh Hd Hmax Hk.
  apply (pure_step e h (arg_outcome d max)); [done|by eapply env_read_holds|apply vm_read_run|].
  unfold arg_outcome. intros b. case_match; [done|]. by intros [= <-].
Qed.

Lemma maybe_arg_step {R T} (e : ENV) memory h p d max
    (k1 : option bytes → HOST T) (k2 : option bytes → M VmError VMENV R) (fin : R → HOST T) :
  ready e memory → cd_storage (e_data e) = Some h → maybe_region_holds memory p d → 0 ≤ max < U32 →
  k1 d e = (lift (k2 d) ≫= fin) e →
  (env_maybe_read p max ≫= k1) e = (lift (Vm.maybe_read_region d max ≫= k2) ≫= fin) e.
Proof.
  intros Hrd Hh Hd Hmax Hk.
  apply (pure_step e h (maybe_outcome d max)); [done|by eapply env_maybe_read_holds|apply vm_maybe_read_run|].
  unfold maybe_outcome, arg_outcome. intros b. repeat case_match; simplify_eq; try done; by intros [= <-].
Qed.

(** The last step of a database call, with what is done with the result. *)
Lemma storage_end {R T} (m : M BackendError RpcMockStorage R) (fin : R → HOST T) (e : ENV) memory :
  ready e memory →
  ('(result, gas_info) ← with_storage_from_context (on_cell m);
   _ ← process_gas_info gas_info;
   value ← backend_try result;
   fin value) e = (lift (Vm.with_storage VmError_of_BackendError m) ≫= fin) e.
Proof.
  intros Hrd. unfold mbind at 4, M_bind at 4. rewrite <-(storage_step m e memory Hrd).
  unfold mbind, M_bind. destruct (with_storage_from_context (on_cell m) e) as [[[r g]| | |] e1]; try done.
  by destruct (process_gas_info g e1) as [[] ?].
Qed.

Ltac limit := split; vm_compute; congruence.
Ltac arg Hd := eapply arg_step; [eassumption|eassumption|exact Hd|limit|].
Ltac maybe_arg Hd := eapply maybe_arg_step; [eassumption|eassumption|exact Hd|limit|].

(** The run of [Vm] up to a step that it shares with another run. *)
Lemma lift_bind_same {R T} (m m' : M VmError VMENV R) (fin : R → HOST T) (e : ENV) h :
  cd_storage (e_data e) = Some h → m (view h e) = m' (view h e) →
  (lift m ≫= fin) e = (lift m' ≫= fin) e.
Proof.
  intros Hh Hm. unfold mbind at 1 2, M_bind at 1 2. by rewrite (lift_same m m' e h Hh Hm).
Qed.

Lemma lift_bind_throw {R T} (m : M VmError VMENV R) (fin : R → HOST T) (e : ENV) h x :
  cd_storage (e_data e) = Some h → m (view h e) = (Err x, view h e) →
  (lift m ≫= fin) e = (Err x, e).
Proof. intros Hh Hm. unfold mbind, M_bind. by rewrite (lift_pure m e h _ Hh Hm). Qed.

Lemma lift_bind_ret {R T} (a : R) (fin : R → HOST T) (e : ENV) h :
  cd_storage (e_data e) = Some h → (lift (mret a) ≫= fin) e = fin a e.
Proof. intros Hh. unfold mbind, M_bind. by rewrite (lift_pure (mret a) e h (Ok a) Hh). Qed.

Lemma lift_bind_run {R T} (m : M VmError VMENV R) (fin : R → HOST T) (e : ENV) h :
  cd_storage (e_data e) = Some h →
  (lift m ≫= fin) e =
  let e' := update (m (view h e)).2 e in
  match (m (view h e)).1 with
  | Ok a => fin a e' | Err x => (Err x, e') | Panic p => (Panic p, e') | OutOfFuel => (OutOfFuel, e')
  end.
Proof. intros Hh. unfold mbind, M_bind. by rewrite (lift_run _ _ h). Qed.

(** A pure [Result] at the end of a run of [Vm]. *)
Lemma lift_bind_sum {B R T} (m : M VmError VMENV B) (g : B → VmError + R) (fin : R → HOST T) (e : ENV) h :
  cd_storage (e_data e) = Some h →
  (lift (b ← m; of_sum (g b)) ≫= fin) e = (b ← lift m; a ← of_sum (g b); fin a) e.
Proof.
  intros Hh. rewrite !(lift_bind_run _ _ _ h) by done. cbv zeta. unfold mbind, M_bind.
  destruct (m (view h e)) as [[b|x|p|] v]; cbn; try done. by destruct (g b).
Qed.

(** The guard of the writing imports. *)
Lemma readonly_step {R T} (k1 : HOST T) (k2 : M VmError VMENV R) (fin : R → HOST T) (e : ENV) h :
  cd_storage (e_data e) = Some h → k1 e = (lift k2 ≫= fin) e →
  (readonly ← is_storage_readonly; if readonly : bool then throw WriteAccessDenied else k1) e =
  (lift (v ← get; if i_readonly (v_inst v) then throw WriteAccessDenied else k2) ≫= fin) e.
Proof.
  intros Hh Hk. unfold is_storage_readonly. rewrite bind_gets.
  destruct (storage_readonly (e_data e)) eqn:Hro.
  - symmetry. apply (lift_bind_throw _ _ _ h); [done|]. rewrite bind_get.
    change (i_readonly (v_inst (view h e))) with (storage_readonly (e_data e)). by rewrite Hro.
  - rewrite Hk. apply (lift_bind_same _ _ _ _ h); [done|]. rewrite bind_get.
    change (i_readonly (v_inst (view h e))) with (storage_readonly (e_data e)). by rewrite Hro.
Qed.

(** The queries. *)
Lemma query_view request h (e : ENV) o x' :
  query_raw request (shared e) = (o, x') →
  (result ← map_err VmError_of_BackendError (zoom v_querier set_querier (query_raw request));
   match to_vec_system_result result with
   | inl x => throw (SerializeErr (rust_type_name "SystemResult<ContractResult<Binary>>") x)
   | inr serialized => mret serialized
   end) (view h e) =
  (match o with
   | Ok a =>
       match to_vec_system_result a with
       | inl x => Err (SerializeErr (rust_type_name "SystemResult<ContractResult<Binary>>") x)
       | inr serialized => Ok serialized
       end
   | Err x => Err (VmError_of_BackendError x)
   | Panic p => Panic p
   | OutOfFuel => OutOfFuel
   end, set_querier x' (view h e)).
Proof.
  intros Hq. unfold map_err, zoom, mbind, M_bind. cbn [v_querier view]. rewrite Hq.
  destruct o as [a| | |]; [|done..]. by destruct (to_vec_system_result a).
Qed.

Lemma query_step request (e : ENV) memory h :
  ready e memory → cd_storage (e_data e) = Some h →
  (gas_remaining ← get_gas_left;
   '(result, gas_info) ← with_querier_from_context (λ q, q_query_raw q request gas_remaining);
   _ ← process_gas_info gas_info;
   result ← backend_try result;
   match to_vec_system_result result with
   | inl x => throw (SerializeErr (rust_type_name "SystemResult<ContractResult<Binary>>") x)
   | inr serialized => write_to_contract serialized
   end) e =
  (lift (result ← map_err VmError_of_BackendError (zoom v_querier set_querier (query_raw request));
         match to_vec_system_result result with
         | inl x => throw (SerializeErr (rust_type_name "SystemResult<ContractResult<Binary>>") x)
         | inr serialized => mret serialized
         end) ≫= write_to_contract) e.
Proof.
  intros Hrd Hh. destruct (ready_instance _ _ Hrd) as (w & n & Hw & Hm & Hn & Hn0).
  assert (gas_left_is e n) as Hl by (exists w; by rewrite Hn).
  rewrite (bind_Ok _ _ _ _ _ (get_gas_left_run e n Hl)).
  rewrite (lift_bind_run _ _ _ h) by done. cbv zeta.
  unfold with_querier_from_context. unfold mbind at 1, M_bind at 1.
  rewrite (ready_querier _ _ Hrd). cbn [q_query_raw simulator_backend].
  destruct (query_raw request (shared e)) as [o x'] eqn:Hq.
  rewrite (query_view _ _ _ _ _ Hq). cbn [fst snd].
  set (e' := Host.mkEnvironment _ _ _ _ x' _).
  assert (update (set_querier x' (view h e)) e = e') as ->.
  { unfold e', update, set_querier, view, handle_of. cbn. destruct e as [? ? ? [? ? ? ? ?] ? ?], h.
    cbn in *. by rewrite Hh. }
  assert (metering e') as Hme by (by apply (ready_metering _ _ Hrd)).
  destruct o as [a|x|p|]; cbn [backend_value]; [| |done..];
    rewrite (bind_Ok _ _ _ _ _ (process_free _ Hme)); cbn [backend_try]; [|done].
  rewrite bind_ret_l. by destruct (to_vec_system_result a).
Qed.

(** A call of the API in the host: it is free. *)
Lemma api_host {R T} (f : RpcMockApi → outcome BackendError R * GasInfo)
    (k : BackendError + R → HOST T) (e : ENV) o :
  metering e → f (e_api e) = (o, free) →
  ('(result, gas_info) ← with_api f; _ ← process_gas_info gas_info; k result) e =
  match o with
  | Ok a => k (inr a) e | Err x => k (inl x) e | Panic p => (Panic p, e) | OutOfFuel => (OutOfFuel, e)
  end.
Proof.
  intros He Hf. unfold mbind at 1, M_bind at 1, with_api. rewrite Hf.
  by destruct o; cbn [backend_value]; rewrite ?(bind_Ok _ _ _ _ _ (process_free _ He)).
Qed.

(** A run on the view that leaves it alone, and what follows. *)
Lemma lift_bind_pure {R T} (m : M VmError VMENV R) (fin : R → HOST T) (e : ENV) h o :
  cd_storage (e_data e) = Some h → m (view h e) = (o, view h e) →
  (lift m ≫= fin) e =
  match o with
  | Ok a => fin a e | Err x => (Err x, e) | Panic p => (Panic p, e) | OutOfFuel => (OutOfFuel, e)
  end.
Proof. intros Hh Hm. rewrite (lift_bind_run _ _ _ h) by done. rewrite Hm. cbn. by rewrite update_view. Qed.

(** Compute a run of [Vm] on the view; the equations of the API calls are rewritten. *)
Ltac vm_run :=
  unfold Vm.write_region; rewrite ?bind_get;
  unfold user_error, mbind, M_bind, canonical_address, human_address, mret, M_ret, throw, panic;
  cbn [v_inst view i_api];
  repeat (match goal with H : ?x = _ |- context [?x] => rewrite H end; cbn beta iota); reflexivity.
Ltac vm_pure o := erewrite (lift_bind_pure _ _ _ _ o) by first [eassumption | vm_run].

Lemma validate_refines (e : ENV) memory p source :
  ready e memory → region_holds memory p source →
  HostImports.do_addr_validate guest_call p e =
  (lift (Vm.do_addr_validate source) ≫= report) e.
Proof.
  intros Hrd Hd. destruct (ready_storage _ _ Hrd) as (h & Hh & _).
  pose proof (ready_metering _ _ Hrd) as Hme. arg Hd.
  case_bool_decide; [by rewrite (lift_bind_ret _ _ _ h)|].
  destruct (from_utf8 source) as [str|]; [|by rewrite (lift_bind_ret _ _ _ h)].
  erewrite api_host by done. unfold canonical_address at 1.
  destruct (human_to_canonical str (api_prefix (e_api e))) as [[msg|c]|] eqn:Hc.
  - by vm_pure (Ok (E := VmError) (Some (as_bytes msg))).
  - cbn [fst mret M_ret or_message]. erewrite api_host by done. unfold human_address at 1.
    destruct (canonical_to_human c (api_prefix (e_api e)) (canonical_length (e_api e))) as [msg|n] eqn:Hn.
    + by vm_pure (Ok (E := VmError) (Some (as_bytes msg))).
    + cbn [fst mret M_ret or_message]. destruct (n =? str)%string eqn:Hs.
      * by vm_pure (Ok (E := VmError) (None (A := bytes))).
      * by vm_pure (Ok (E := VmError) (Some (as_bytes "Address is not normalized"))).
  - by vm_pure (Panic (E := VmError) (A := option bytes) "called `Result::unwrap()` on an `Err` value").
Qed.

(** Writing a result into the region the guest prepared. *)
Lemma fill_step memory q capacity d (e : ENV) :
  ready e memory → region_takes memory q capacity → capacity < Z.of_nat (length d) →
  (_ ← env_write q d; mret 0) e =
  (Err (CommunicationErr (RegionTooSmall capacity (Z.of_nat (length d)))), e).
Proof.
  intros Hrd (r & Hr & <-) Hlt. apply bind_Err.
  apply (with_memory_pure _ _ _ _ Hrd). unfold Memory.write_region.
  rewrite (bind_Ok _ _ _ _ _ (map_err_Ok _ _ _ _ _ Hr)).
  by destruct (Z.ltb_spec (r_capacity r) (Z.of_nat (length d))); [|lia].
Qed.

Lemma canonicalize_refines (e : ENV) memory p q source capacity :
  ready e memory → region_holds memory p source → region_takes memory q capacity →
  HostImports.do_addr_canonicalize guest_call p q e =
  (lift (Vm.do_addr_canonicalize source capacity) ≫= fill q) e.
Proof.
  intros Hrd Hd Hq. destruct (ready_storage _ _ Hrd) as (h & Hh & _).
  pose proof (ready_metering _ _ Hrd) as Hme. arg Hd.
  case_bool_decide; [by rewrite (lift_bind_ret _ _ _ h)|].
  destruct (from_utf8 source) as [str|]; [|by rewrite (lift_bind_ret _ _ _ h)].
  erewrite api_host by done. unfold canonical_address at 1.
  destruct (human_to_canonical str (api_prefix (e_api e))) as [[msg|c]|] eqn:Hc.
  - by vm_pure (Ok (E := VmError) (inl (B := bytes) (as_bytes msg))).
  - cbn [fst mret M_ret or_message].
    destruct (capacity <? Z.of_nat (length c)) eqn:Hcap.
    + rewrite (fill_step memory _ capacity) by (done || lia).
      by vm_pure (Err (A := bytes + bytes) (CommunicationErr (RegionTooSmall capacity (Z.of_nat (length c))))).
    + by vm_pure (Ok (E := VmError) (inr (A := bytes) c)).
  - by vm_pure (Panic (E := VmError) (A := bytes + bytes) "called `Result::unwrap()` on an `Err` value").
Qed.

Lemma humanize_refines (e : ENV) memory p q source capacity :
  ready e memory → region_holds memory p source → region_takes memory q capacity →
  HostImports.do_addr_humanize guest_call p q e =
  (lift (Vm.do_addr_humanize source capacity) ≫= fill q) e.
Proof.
  intros Hrd Hd Hq. destruct (ready_storage _ _ Hrd) as (h & Hh & _).
  pose proof (ready_metering _ _ Hrd) as Hme. arg Hd.
  erewrite api_host by done. unfold human_address at 1.
  destruct (canonical_to_human source (api_prefix (e_api e)) (canonical_length (e_api e))) as [msg|n] eqn:Hn.
  - by vm_pure (Ok (E := VmError) (inl (B := bytes) (as_bytes msg))).
  - cbn [fst mret M_ret or_message].
    destruct (capacity <? Z.of_nat (length (as_bytes n))) eqn:Hcap.
    + rewrite (fill_step memory _ capacity) by (done || lia).
      by vm_pure (Err (A := bytes + bytes) (CommunicationErr (RegionTooSmall capacity (Z.of_nat (length (as_bytes n)))))).
    + by vm_pure (Ok (E := VmError) (inr (A := bytes) (as_bytes n))).
Qed.

Lemma next_refines (e : ENV) memory id :
  ready e memory →
  HostImports.do_db_next guest_call id e = (lift (Vm.do_db_next id) ≫= write_to_contract) e.
Proof.
  intros Hrd. destruct (ready_storage _ _ Hrd) as (h & Hh & _).
  set (g := λ r : option StoreRecord, let '(key, value) := default ([], []) r in
    encode_sections [key; value]).
  transitivity ((b ← lift (Vm.with_storage VmError_of_BackendError (next id));
                 a ← of_sum (g b); write_to_contract a) e).
  - rewrite <-(storage_end (next id) (λ b, a ← of_sum (g b); write_to_contract a) e memory Hrd).
    unfold HostImports.do_db_next, g. cbn [st_next simulator_backend]. unfold mbind, M_bind.
    destruct (with_storage_from_context (on_cell (next id)) e) as [[[r gas]| | |] e1]; try done.
    destruct (process_gas_info gas e1) as [[]  e2]; try done.
    destruct (backend_try r e2) as [[o| | |] e3]; try done. by destruct (default ([], []) o).
  - rewrite <-(lift_bind_sum _ g _ _ h) by done. apply (lift_bind_same _ _ _ _ h); [done|].
    unfold Vm.do_db_next, g, mbind, M_bind. by repeat case_match.
Qed.

(** The other database calls and the chain query. *)
Lemma read_refines (e : ENV) memory p key :
  ready e memory → region_holds memory p key →
  HostImports.do_db_read guest_call p e = (lift (Vm.do_db_read key) ≫= report) e.
Proof.
  intros Hrd Hk. destruct (ready_storage _ _ Hrd) as (h & Hh & _).
  arg Hk. by apply storage_end with memory.
Qed.

Lemma write_refines (e : ENV) memory p q key value :
  ready e memory → region_holds memory p key → region_holds memory q value →
  HostImports.do_db_write p q e = lift (Vm.do_db_write key value) e.
Proof.
  intros Hrd Hk Hv. destruct (ready_storage _ _ Hrd) as (h & Hh & _). rewrite <-(bind_ret_r (lift _)).
  apply (readonly_step _ _ _ _ h); [done|]. arg Hk. arg Hv.
  rewrite bind_ret_r. by apply storage_step with memory.
Qed.

Lemma remove_refines (e : ENV) memory p key :
  ready e memory → region_holds memory p key →
  HostImports.do_db_remove p e = lift (Vm.do_db_remove key) e.
Proof.
  intros Hrd Hk. destruct (ready_storage _ _ Hrd) as (h & Hh & _). rewrite <-(bind_ret_r (lift _)).
  apply (readonly_step _ _ _ _ h); [done|]. arg Hk.
  rewrite bind_ret_r. by apply storage_step with memory.
Qed.

Lemma scan_refines (e : ENV) memory p q start stop order :
  ready e memory → maybe_region_holds memory p start → maybe_region_holds memory q stop →
  HostImports.do_db_scan p q order e = lift (Vm.do_db_scan start stop order) e.
Proof.
  intros Hrd Hs Ht. destruct (ready_storage _ _ Hrd) as (h & Hh & _). rewrite <-(bind_ret_r (lift _)).
  maybe_arg Hs. maybe_arg Ht. destruct (order_of_i32 order) as [o|].
  - rewrite bind_ret_r. by apply storage_step with memory.
  - symmetry. by apply (lift_bind_throw _ _ _ h).
Qed.

Lemma query_refines (e : ENV) memory p request :
  ready e memory → region_holds memory p request →
  HostImports.do_query_chain guest_call p e =
  (lift (host_call query_raw (HQueryChain request)) ≫= write_to_contract) e.
Proof.
  intros Hrd Hd. destruct (ready_storage _ _ Hrd) as (h & Hh & _). cbn [host_call].
  arg Hd. by apply (query_step _ _ memory h).
Qed.

Lemma abort_refines (e : ENV) memory p message :
  ready e memory → region_holds memory p message →
  HostImports.do_abort p e =
  (lift (host_call query_raw (HAbort message)) ≫= λ r : Empty_set, match r with end) e.
Proof.
  intros Hrd Hd. destruct (ready_storage _ _ Hrd) as (h & Hh & _). cbn [host_call].
  arg Hd. symmetry. by apply (lift_bind_throw _ _ _ h).
Qed.

(** C21: The pointer-level imports implement the byte-level host calls: in an
    instance of the simulator, every import whose pointers lead to regions with the
    arguments of a host call does exactly what [Vm.host_call] does, outcome (errors
    and panics included) and state, and then hands the result to the guest through
    memory; charging gas for the simulator's free backend changes nothing. *)
Theorem imports_refine (e : ENV) memory {R T} (op : hostE R) (import : HOST T) (deliver : R → HOST T) :
  ready e memory → implements memory op import deliver →
  import e = (lift (host_call query_raw op) ≫= deliver) e.
Proof.
  intros Hrd Himp. destruct (ready_storage _ _ Hrd) as (h & Hh & _).
  destruct Himp as [p key Hk|p q key value Hk Hv|p key Hk|p q start stop order Hs Ht|id
    |p source Hd|p q source capacity Hd Hq|p q source capacity Hd Hq|p request Hd|p message|p message Hd];
    cbn [host_call]; rewrite ?bind_ret_r.
  - by apply read_refines with memory.
  - by apply write_refines with memory.
  - by apply remove_refines with memory.
  - by apply scan_refines with memory.
  - by apply next_refines with memory.
  - by apply validate_refines with memory.
  - by apply canonicalize_refines with memory.
  - by apply humanize_refines with memory.
  - by apply query_refines with memory.
  - unfold HostImports.do_debug. rewrite bind_get, (ready_debug _ _ Hrd).
    unfold Vm.do_debug. by rewrite (lift_pure _ _ h (Ok tt)).
  - by apply abort_refines with memory.
Qed.
End Refines.
