(* ===== verification/Guest.v ===== *)
(** * Memory inside a contract ([cosmwasm/packages/std/src/memory.rs])

    The other side of the regions of [Memory]: how a contract compiled with
    [cosmwasm_std] makes, releases and consumes them in its own linear memory. The
    code runs on the same [Environment] as the host ([Host]), so that a call into
    the host and back is one run on one memory.

    Parameters: Rust's global allocator ([Allocator], with [AllocatorSpec] for what
    [GlobalAlloc] promises) and the text with which a panic traps. Objects that live
    in memory without the allocator's help (statics, the stack) are blocks of [live]
    as well. *)

From S2P Require Import Prelude.
From S2P Require Import Bytes.
From S2P Require Import CwStd.
From S2P Require Import Errors.
From S2P Require Import Memory.
From S2P Require Import Gas.
From S2P Require Import Host.

Open Scope Z_scope.

(** ** The allocator

    [malloc size align] and [mfree address size] return nothing when they trap.
    [room] bounds what can still be allocated before memory or gas runs out; every
    block takes [OVERHEAD] of it beside its size. [grown n] is the capacity of a
    vector to which [n] bytes were pushed. *)
Definition OVERHEAD : Z := 16.

Class Allocator (W : Type) := {
  live : W → gmap Z Z;
  malloc : Z → Z → W → option (Z * W);
  mfree : Z → Z → W → option W;
  room : W → Z;
  grown : Z → Z
}.

(** Live blocks lie inside the memory and do not overlap. *)
Record layout (blocks : gmap Z Z) (size : Z) : Prop := {
  block_inside p n : blocks !! p = Some n → 0 < p ∧ 0 < n ∧ p + n ≤ size;
  blocks_apart p n q k : blocks !! p = Some n → blocks !! q = Some k → p ≠ q →
    p + n ≤ q ∨ q + k ≤ p
}.

(** What a step of the allocator leaves alone. *)
Record kept `{WasmerInstance W, Allocator W} (w w' : W) (m m' : bytes) (blocks : gmap Z Z) : Prop := {
  kept_bytes p n : blocks !! p = Some n → load p (Z.to_nat n) m' = load p (Z.to_nat n) m;
  kept_size : 1 < mem_size m < U32 → 1 < mem_size m' < U32;
  kept_points n : get_remaining_points w = Remaining n → 0 ≤ n →
    ∃ n', get_remaining_points w' = Remaining n' ∧ 0 ≤ n';
  kept_functions name : get_function w' name = get_function w name
}.

Class AllocatorSpec (W : Type) `{WasmerInstance W, Allocator W} : Prop := {
  malloc_spec size align w m :
    0 < size → size + OVERHEAD ≤ room w → align = 1 ∨ align = 4 →
    exported_memory w = Some m → layout (live w) (mem_size m) →
    ∃ p w' m', malloc size align w = Some (p, w') ∧ exported_memory w' = Some m' ∧
      live w !! p = None ∧ live w' = <[p := size]> (live w) ∧ layout (live w') (mem_size m') ∧
      p mod align = 0 ∧ room w - size - OVERHEAD ≤ room w' ∧ kept w w' m m' (live w);
  mfree_spec p n w m :
    live w !! p = Some n → exported_memory w = Some m → layout (live w) (mem_size m) →
    ∃ w' m', mfree p n w = Some w' ∧ exported_memory w' = Some m' ∧
      live w' = delete p (live w) ∧ layout (live w') (mem_size m') ∧ room w ≤ room w' ∧
      kept w w' m m' (delete p (live w));
  grown_at_least n : n ≤ grown n;
  (** on a machine with 32-bit addresses *)
  room_bound w : room w ≤ 2 ^ 31 - 1;
  (** stores change the bytes of the memory alone *)
  live_of_set m w : live (set_exported_memory m w) = live w;
  room_of_set m w : room (set_exported_memory m w) = room w;
  functions_of_set m w name : get_function (set_exported_memory m w) name = get_function w name
}.

(** ** Values in memory *)
Record Vec := mkVec { v_ptr : Z; v_len : Z; v_cap : Z }.
Record Slice := mkSlice { s_ptr : Z; s_len : Z }.

Definition as_slice (v : Vec) : Slice := mkSlice (v_ptr v) (v_len v).

(** [NonNull::<u8>::dangling()], where a vector without capacity points. *)
Definition DANGLING : Z := 1.

Section Guest.
Context {A S Q W X : Type} `{HWI : !WasmerInstance W} `{HAl : !Allocator W}.
Abbreviation ENV := (Environment A S Q W X).
(** A run of guest code: an error is the message of a trap. *)
Abbreviation G := (M string ENV).
Context (panic_text : string → string).

Definition guest_panic {R} (message : string) : G R := throw (panic_text message).

(** *** Instructions *)
Definition on_machine {R} (f : W → option (R * W)) : G R := λ e,
  match wasmer_instance (e_data e) with
  | None => (Err "no instance", e)
  | Some w =>
      match f w with
      | Some (r, w') => (Ok r, set_instance (Some w') e)
      | None => (Err "unreachable", e)
      end
  end.

Definition in_bounds (p n : Z) (m : bytes) : bool := (0 <=? p) && (p + n <=? mem_size m).

Definition gload (p n : Z) : G bytes := λ e,
  match wasmer_instance (e_data e) ≫= exported_memory with
  | None => (Err "no memory", e)
  | Some m =>
      if in_bounds p n m then (Ok (load p (Z.to_nat n) m), e)
      else (Err "out of bounds memory access", e)
  end.

Definition gstore (p : Z) (d : bytes) : G unit := λ e,
  match wasmer_instance (e_data e) with
  | None => (Err "no instance", e)
  | Some w =>
      match exported_memory w with
      | None => (Err "no memory", e)
      | Some m =>
          if in_bounds p (Z.of_nat (length d)) m
          then (Ok tt, set_instance (Some (set_exported_memory (store p d m) w)) e)
          else (Err "out of bounds memory access", e)
      end
  end.

(** The allocator is not asked for blocks of no size. *)
Definition galloc (size align : Z) : G Z :=
  if size =? 0 then mret DANGLING else on_machine (malloc size align).
Definition gfree (p size : Z) : G unit :=
  if size =? 0 then mret tt else on_machine (λ w, (λ w', (tt, w')) <$> mfree p size w).

(** *** The standard library on bytes *)
Definition ISIZE_MAX : Z := 2 ^ 31 - 1.

Definition with_capacity (size : Z) : G Vec :=
  if ISIZE_MAX <? size then guest_panic "capacity overflow"
  else p ← galloc size 1; mret (mkVec p 0 size).

(** A vector to which the bytes [d] were pushed. *)
Definition new_vec (d : bytes) : G Vec :=
  let n := Z.of_nat (length d) in
  v ← with_capacity (if n =? 0 then 0 else grown n);
  _ ← gstore (v_ptr v) d;
  mret (mkVec (v_ptr v) n (v_cap v)).

Definition slice_bytes (s : Slice) : G bytes := gload (s_ptr s) (s_len s).
Definition drop_vec (v : Vec) : G unit := gfree (v_ptr v) (v_cap v).

(** [Box::<Region>::new] and the drop of the box. *)
Definition box_region (r : Region) : G Z :=
  p ← galloc REGION_SIZE 4;
  _ ← gstore p (Region_bytes r);
  mret p.
Definition drop_region (p : Z) : G unit := gfree p REGION_SIZE.

(** [u32::try_from(..).expect(..)]. *)
Definition expect_u32 (what : string) (n : Z) : G Z :=
  if n <? U32 then mret n else guest_panic (what +:+ " doesn't fit in u32").

(** ** [memory.rs] *)
Definition build_region_from_components (offset capacity length : Z) : G Z :=
  box_region (mkRegion offset capacity length).

Definition build_region (data : Slice) : G Z :=
  offset ← expect_u32 "pointer" (s_ptr data);
  capacity ← expect_u32 "length" (s_len data);
  length ← expect_u32 "length" (s_len data);
  build_region_from_components offset capacity length.

Definition alloc (size : Z) : G Z :=
  data ← with_capacity size;
  offset ← expect_u32 "pointer" (v_ptr data);
  capacity ← expect_u32 "capacity" (v_cap data);
  build_region_from_components offset capacity 0.

Definition release_buffer (buffer : Vec) : G Z := build_region (as_slice buffer).

Definition consume_region (ptr : Z) : G Vec :=
  if ptr =? 0 then guest_panic "Region pointer is null"
  else
    cell ← gload ptr REGION_SIZE;
    let region := Region_of_bytes cell in
    if r_offset region =? 0 then guest_panic "Region starts at null pointer"
    else
      _ ← drop_region ptr;
      mret (mkVec (r_offset region) (r_length region) (r_capacity region)).

Definition get_optional_region_address (region : option Z) : Z := default 0 region.

(** [data.map(build_region)]. *)
Definition build_optional_region (data : option Slice) : G (option Z) :=
  match data with
  | None => mret None
  | Some s => p ← build_region s; mret (Some p)
  end.
Definition drop_optional_region (p : option Z) : G unit :=
  match p with None => mret tt | Some p => drop_region p end.

(** ** [exports.rs]: what the host calls to pass data *)
Definition allocate (size : Z) : G Z := alloc size.

Definition deallocate (pointer : Z) : G unit :=
  v ← consume_region pointer;
  drop_vec v.
End Guest.
