(* ===== verification/GuestRegions.v ===== *)
(** * The memory of a contract as a heap

    The live blocks of the linear memory, each with its bytes, make a finite map; on
    that map the code of [Guest] is a program that inserts, updates and deletes. The
    lemmas here say so once and for all, and the rest of the development reasons on
    the map.

    The second part has the regions on that heap, as the guest and the host see them. *)

From S2P Require Import Prelude.
From S2P Require Import Bytes.
From S2P Require Import CwStd.
From S2P Require Import Errors.
From S2P Require Import Client.
From S2P Require Import Sections.
From S2P Require Import Memory.
From S2P Require Import Gas.
From S2P Require Import Host.
From S2P Require Import HostImports.
From S2P Require Import HostRefines.
From S2P Require Import Guest.

Open Scope Z_scope.

Abbreviation heap := (gmap Z bytes).

Definition heap_of (blocks : gmap Z Z) (m : bytes) : heap :=
  map_imap (λ p n, Some (load p (Z.to_nat n) m)) blocks.

Lemma heap_lookup blocks m p c :
  heap_of blocks m !! p = Some c ↔ ∃ n, blocks !! p = Some n ∧ c = load p (Z.to_nat n) m.
Proof. unfold heap_of. rewrite map_lookup_imap. destruct (blocks !! p); cbn; naive_solver. Qed.

Lemma heap_lookup_None blocks m p : heap_of blocks m !! p = None ↔ blocks !! p = None.
Proof. unfold heap_of. rewrite map_lookup_imap. by destruct (blocks !! p). Qed.

Lemma heap_lookup_eq blocks m p :
  heap_of blocks m !! p = (λ n, load p (Z.to_nat n) m) <$> blocks !! p.
Proof. unfold heap_of. rewrite map_lookup_imap. by destruct (blocks !! p). Qed.

(** A part of a block. *)
Lemma slice_load p off n k m :
  0 ≤ p → (off + n ≤ k)%nat → slice off n (load p k m) = load (p + Z.of_nat off) n m.
Proof.
  intros Hp Hk. apply list_eq. intros i. rewrite lookup_load. unfold slice.
  destruct (Nat.ltb_spec i n); [|by rewrite lookup_take_ge by lia].
  rewrite lookup_take_lt, lookup_drop, lookup_load by lia.
  destruct (Nat.ltb_spec (off + i) k); [|lia]. f_equal. lia.
Qed.

(** A block has the bytes of its size. *)
Lemma heap_block blocks m p c :
  layout blocks (mem_size m) → heap_of blocks m !! p = Some c →
  blocks !! p = Some (Z.of_nat (length c)) ∧ 0 < p ∧ (0 < length c)%nat ∧
  p + Z.of_nat (length c) ≤ mem_size m ∧ c = load p (length c) m.
Proof.
  intros Hl (n & Hn & ->)%heap_lookup. pose proof (block_inside _ _ Hl _ _ Hn) as (? & ? & ?).
  rewrite length_load, Z2Nat.id by (rewrite ?Z2Nat.id; lia).
  split_and!; [done..|lia|lia|done].
Qed.

(** Storing inside a block changes that block. *)
Lemma heap_store blocks m p c off d :
  layout blocks (mem_size m) → heap_of blocks m !! p = Some c →
  (off + length d ≤ length c)%nat →
  heap_of blocks (store (p + Z.of_nat off) d m) = <[p := list_inserts off d c]> (heap_of blocks m).
Proof.
  intros Hl Hp Hoff. pose proof (heap_block _ _ _ _ Hl Hp) as (Hn & ? & ? & ? & Hc).
  apply map_eq. intros q. destruct (decide (q = p)) as [->|Hne].
  - rewrite lookup_insert_eq, heap_lookup_eq, Hn. cbn. f_equal. rewrite Nat2Z.id.
    apply list_eq. intros i. rewrite lookup_load. unfold store.
    destruct (Nat.ltb_spec i (length c)) as [Hi|Hi].
    2: { symmetry. apply lookup_ge_None_2. rewrite length_inserts. lia. }
    replace (Z.to_nat (p + Z.of_nat off)) with (Z.to_nat p + off)%nat by lia.
    assert (c !! i = m !! (Z.to_nat p + i)%nat) as Hci.
    { rewrite Hc, lookup_load. by destruct (Nat.ltb_spec i (length c)); [|lia]. }
    unfold mem_size in *.
    destruct (decide (i < off)%nat); [by rewrite !list_lookup_inserts_lt by lia|].
    destruct (decide (i < off + length d)%nat).
    + rewrite !list_lookup_inserts by lia. f_equal. lia.
    + by rewrite !list_lookup_inserts_ge by lia.
  - rewrite lookup_insert_ne, !heap_lookup_eq by done. destruct (blocks !! q) as [k|] eqn:Hq; [|done].
    cbn. f_equal. pose proof (block_inside _ _ Hl _ _ Hq) as (? & ? & ?).
    pose proof (blocks_apart _ _ Hl _ _ _ _ Hq Hn Hne).
    apply load_store_other; lia.
Qed.

Section Heap.
Context {A S Q W X : Type} `{HWI : !WasmerInstance W} `{HWS : !WasmerSpec W}.
Context `{HAl : !Allocator W} `{HAS : !AllocatorSpec W}.
Abbreviation ENV := (Environment A S Q W X).
Abbreviation G := (M string ENV).
Context (panic_text : string → string) (exported : list string).

(** The memory of the instance holds the heap [h], with room for [ρ] more bytes. *)
Definition at_heap (e : ENV) (h : heap) (ρ : Z) : Prop :=
  ∃ w m n, wasmer_instance (e_data e) = Some w ∧ exported_memory w = Some m ∧
    get_remaining_points w = Remaining n ∧ 0 ≤ n ∧ layout (live w) (mem_size m) ∧
    1 < mem_size m < U32 ∧ h = heap_of (live w) m ∧ ρ ≤ room w ∧
    ∀ name, name ∈ exported → get_function w name = inr tt.

(** Everything of an environment but the instance. *)
Definition outside (e : ENV) : ENV := set_instance None e.

Lemma outside_set w (e : ENV) : outside (set_instance w e) = outside e.
Proof. done. Qed.

(** A run of guest code that succeeds with [r] and leaves the heap [h']; the host
    does not notice. *)
Definition goes {R} (m : G R) (e : ENV) (r : R) (h' : heap) (ρ' : Z) (e' : ENV) : Prop :=
  m e = (Ok r, e') ∧ at_heap e' h' ρ' ∧ outside e' = outside e.

Lemma goes_ret {R} (r : R) e h ρ : at_heap e h ρ → goes (mret r) e r h ρ e.
Proof. by intros. Qed.

Lemma goes_bind {R T} (m : G R) (k : R → G T) e r h1 ρ1 e1 t h2 ρ2 e2 :
  goes m e r h1 ρ1 e1 → goes (k r) e1 t h2 ρ2 e2 → goes (m ≫= k) e t h2 ρ2 e2.
Proof.
  intros (H1 & _ & O1) (H2 & ? & O2). split_and!; [|done|congruence].
  by rewrite (bind_Ok _ _ _ _ _ H1).
Qed.

Lemma at_heap_room e h ρ ρ' : at_heap e h ρ → ρ' ≤ ρ → at_heap e h ρ'.
Proof. intros (w & m & n & H) ?. exists w, m, n. naive_solver lia. Qed.

Lemma at_heap_bound e h ρ : at_heap e h ρ → ρ ≤ 2 ^ 31 - 1.
Proof. intros (w & m & n & H). pose proof (room_bound w). destruct_and!. lia. Qed.

(** A block of the heap lies below the end of the memory. *)
Lemma at_heap_block e h ρ p c :
  at_heap e h ρ → h !! p = Some c → 0 < p ∧ (0 < length c)%nat ∧ p + Z.of_nat (length c) < U32.
Proof.
  intros (w & m & n & _ & _ & _ & _ & Hl & ? & -> & _) Hp.
  pose proof (heap_block _ _ _ _ Hl Hp) as (_ & ? & ? & ? & _). lia.
Qed.

(** *** Instructions *)
Lemma gload_run e h ρ p c off n :
  at_heap e h ρ → h !! p = Some c → (off + n ≤ length c)%nat →
  gload (p + Z.of_nat off) (Z.of_nat n) e = (Ok (slice off n c), e).
Proof.
  intros (w & m & k & Hw & Hm & _ & _ & Hl & _ & -> & _) Hp Hoff.
  pose proof (heap_block _ _ _ _ Hl Hp) as (Hn & ? & ? & ? & Hc).
  unfold gload. rewrite Hw. cbn. rewrite Hm. unfold in_bounds.
  destruct (Z.leb_spec 0 (p + Z.of_nat off)); [|lia].
  destruct (Z.leb_spec (p + Z.of_nat off + Z.of_nat n) (mem_size m)); [|lia]. cbn.
  rewrite Nat2Z.id, Hc, slice_load by lia. done.
Qed.

Lemma gstore_run e h ρ p c off d :
  at_heap e h ρ → h !! p = Some c → (off + length d ≤ length c)%nat →
  ∃ e', goes (gstore (p + Z.of_nat off) d) e tt (<[p := list_inserts off d c]> h) ρ e'.
Proof.
  intros (w & m & k & Hw & Hm & Hk & ? & Hl & ? & -> & ? & Hf) Hp Hoff.
  pose proof (heap_block _ _ _ _ Hl Hp) as (Hn & ? & ? & ? & Hc).
  eexists. split_and!; [|..].
  - unfold gstore. rewrite Hw, Hm. unfold in_bounds.
    destruct (Z.leb_spec 0 (p + Z.of_nat off)); [|lia].
    by destruct (Z.leb_spec (p + Z.of_nat off + Z.of_nat (length d)) (mem_size m)); [|lia].
  - exists (set_exported_memory (store (p + Z.of_nat off) d m) w), (store (p + Z.of_nat off) d m), k.
    rewrite live_of_set, room_of_set, points_of_set_memory, memory_of_set, mem_size_store by by eexists.
    split_and!; try done || lia.
    + symmetry. by apply heap_store.
    + intros name Hname. rewrite functions_of_set. by apply Hf.
  - by apply outside_set.
Qed.

Lemma galloc_run e h ρ size align :
  at_heap e h ρ → 0 < size → size + OVERHEAD ≤ ρ → align = 1 ∨ align = 4 →
  ∃ p c e', goes (galloc size align) e p (<[p := c]> h) (ρ - size - OVERHEAD) e' ∧
    h !! p = None ∧ Z.of_nat (length c) = size ∧ p mod align = 0.
Proof.
  intros (w & m & k & Hw & Hm & Hk & ? & Hl & ? & -> & ? & Hf) ? ? Hal.
  destruct (malloc_spec size align w m) as (p & w' & m' & Hr & Hm' & Hp & Hlive & Hl' & Ha & Hroom & Hkept);
    [done|lia|done..|].
  destruct (kept_points _ _ _ _ _ Hkept _ Hk) as (k' & Hk' & ?); [done|].
  assert (1 < mem_size m' < U32) as [? ?] by (apply (kept_size _ _ _ _ _ Hkept); lia).
  exists p, (load p (Z.to_nat size) m'), (set_instance (Some w') e). split_and!.
  - split_and!; [|..|done].
    + unfold galloc. destruct (Z.eqb_spec size 0); [lia|]. unfold on_machine. by rewrite Hw, Hr.
    + exists w', m', k'. split_and!; try done.
      * rewrite Hlive. apply map_eq. intros q. destruct (decide (q = p)) as [->|].
        -- by rewrite heap_lookup_eq, !lookup_insert_eq.
        -- rewrite heap_lookup_eq, !lookup_insert_ne, heap_lookup_eq by done.
           destruct (live w !! q) eqn:Hq; [|done]. cbn. f_equal. symmetry. by apply (kept_bytes _ _ _ _ _ Hkept).
      * lia.
      * intros name Hname. rewrite (kept_functions _ _ _ _ _ Hkept). by apply Hf.
  - by apply heap_lookup_None.
  - assert (live w' !! p = Some size) as Hs by (by rewrite Hlive, lookup_insert_eq).
    pose proof (block_inside _ _ Hl' _ _ Hs) as (? & ? & ?).
    rewrite length_load; rewrite ?Z2Nat.id; lia.
  - done.
Qed.

Lemma gfree_run e h ρ p c :
  at_heap e h ρ → h !! p = Some c →
  ∃ e', goes (gfree p (Z.of_nat (length c))) e tt (delete p h) ρ e'.
Proof.
  intros (w & m & k & Hw & Hm & Hk & ? & Hl & ? & -> & ? & Hf) Hp.
  pose proof (heap_block _ _ _ _ Hl Hp) as (Hn & ? & ? & ? & Hc).
  destruct (mfree_spec p _ w m Hn Hm Hl) as (w' & m' & Hr & Hm' & Hlive & Hl' & Hroom & Hkept).
  destruct (kept_points _ _ _ _ _ Hkept _ Hk) as (k' & Hk' & ?); [done|].
  assert (1 < mem_size m' < U32) as [? ?] by (apply (kept_size _ _ _ _ _ Hkept); lia).
  exists (set_instance (Some w') e). split_and!; [|..|done].
  - unfold gfree. destruct (Z.eqb_spec (Z.of_nat (length c)) 0); [lia|]. unfold on_machine. by rewrite Hw, Hr.
  - exists w', m', k'. split_and!; try done || lia.
    + rewrite Hlive. apply map_eq. intros q. rewrite heap_lookup_eq. destruct (decide (q = p)) as [->|].
      * by rewrite !lookup_delete_eq.
      * rewrite !lookup_delete_ne, heap_lookup_eq by done.
        destruct (live w !! q) eqn:Hq; [|done]. cbn. f_equal. symmetry.
        apply (kept_bytes _ _ _ _ _ Hkept). by rewrite lookup_delete_ne.
    + intros name Hname. rewrite (kept_functions _ _ _ _ _ Hkept). by apply Hf.
Qed.
End Heap.

(** * Regions between guest and host

    What the functions of [memory.rs] do to the heap, and that the host finds in a
    region what the guest put there, and the guest what the host put there. *)

(** A block of no size is no block: its address is the dangling one. *)
Definition with_block (q : Z) (c : bytes) (h : heap) : heap :=
  match c with [] => h | _ => <[q := c]> h end.
Definition fresh_block (q : Z) (c : bytes) (h : heap) : Prop :=
  match c with [] => q = DANGLING | _ => h !! q = None end.
Definition has_block (q : Z) (c : bytes) (h : heap) : Prop :=
  match c with [] => q = DANGLING | _ => h !! q = Some c end.
Definition without_block (q : Z) (c : bytes) (h : heap) : heap :=
  match c with [] => h | _ => delete q h end.

(** A vector with content [d], and a slice of [d] (of a live block, or empty). *)
Definition vec_at (h : heap) (v : Vec) (d : bytes) : Prop :=
  ∃ rest, has_block (v_ptr v) (d ++ rest) h ∧ v_len v = Z.of_nat (length d) ∧
    v_cap v = Z.of_nat (length (d ++ rest)).
Definition slice_at (h : heap) (s : Slice) (d : bytes) : Prop :=
  s_len s = Z.of_nat (length d) ∧
  ((d = [] ∧ s_ptr s = DANGLING) ∨
   ∃ p c off, h !! p = Some c ∧ s_ptr s = p + Z.of_nat off ∧ d = slice off (length d) c ∧
     (off + length d ≤ length c)%nat ∧ (off < length c)%nat).

(** A region at [p]: its block is the cell. *)
Definition region_at (h : heap) (p : Z) (r : Region) : Prop :=
  h !! p = Some (Region_bytes r) ∧ p mod 4 = 0.

Lemma vec_slice h v d : vec_at h v d → slice_at h (as_slice v) d.
Proof.
  intros (rest & Hb & Hl & Hc). split; [done|]. cbn. destruct (decide (d ++ rest = [])) as [He|He].
  - apply app_eq_nil in He as [-> ->]. by left.
  - right. exists (v_ptr v), (d ++ rest), 0%nat. split_and!.
    + unfold has_block in Hb. by destruct (d ++ rest).
    + lia.
    + unfold slice. by rewrite drop_0, take_app_length.
    + rewrite length_app. lia.
    + destruct (d ++ rest); [done|cbn; lia].
Qed.

(** What is known of a heap stays known when unrelated blocks come and go. *)
Lemma slice_at_mono h h' s d : h ⊆ h' → slice_at h s d → slice_at h' s d.
Proof.
  intros Hs (Hl & [?|(p & c & off & Hp & ?)]); (split; [done|]); [by left|right].
  exists p, c, off. split; [by eapply lookup_weaken|done].
Qed.
Lemma region_at_mono h h' p r : h ⊆ h' → region_at h p r → region_at h' p r.
Proof. intros Hs [Hp ?]. split; [by eapply lookup_weaken|done]. Qed.
Lemma has_block_mono h h' q c : h ⊆ h' → has_block q c h → has_block q c h'.
Proof. intros Hs. destruct c; [done|]. cbn. intros. by eapply lookup_weaken. Qed.
Lemma vec_at_mono h h' v d : h ⊆ h' → vec_at h v d → vec_at h' v d.
Proof. intros Hs (rest & ? & ?). exists rest. eauto using has_block_mono. Qed.

Lemma with_block_insert q c h : (0 < length c)%nat → with_block q c h = <[q := c]> h.
Proof. destruct c; [cbn; lia|done]. Qed.
Lemma with_block_sub q c h : fresh_block q c h → h ⊆ with_block q c h.
Proof. destruct c; [done|]. cbn. intros. by apply insert_subseteq. Qed.
Lemma has_with_block q c h : fresh_block q c h → has_block q c (with_block q c h).
Proof. destruct c; [done|]. cbn. by rewrite lookup_insert_eq. Qed.
Lemma without_with_block q c h : fresh_block q c h → without_block q c (with_block q c h) = h.
Proof. destruct c; [done|]. cbn. apply delete_insert_id. Qed.

Lemma list_inserts_all (d c : bytes) : length d = length c → list_inserts 0 d c = d.
Proof.
  intros Hl. apply list_eq. intros i. destruct (decide (i < length d)%nat).
  - rewrite list_lookup_inserts by lia. f_equal. lia.
  - by rewrite !lookup_ge_None_2 by (rewrite ?length_inserts; lia).
Qed.

Lemma set_instance_same {A S Q W X} (e : Environment A S Q W X) w :
  wasmer_instance (e_data e) = Some w → set_instance (Some w) e = e.
Proof. destruct e as [? ? ? [? ? ? ? ?] ? ?]. cbn. by intros ->. Qed.

Section Regions.
Context {A S Q W X : Type} `{HWI : !WasmerInstance W} `{HWS : !WasmerSpec W}.
Context `{HAl : !Allocator W} `{HAS : !AllocatorSpec W} {HP : WasmPtr} `{HPS : !WasmPtrSpec}.
Abbreviation ENV := (Environment A S Q W X).
Abbreviation G := (M string ENV).
Context (panic_text : string → string) (exported : list string).
Abbreviation at_heap := (at_heap (A := A) (S := S) (Q := Q) (X := X) exported).
Abbreviation goes := (goes (A := A) (S := S) (Q := Q) (X := X) exported).

(** *** The guest *)
Lemma box_region_run e h ρ r :
  at_heap e h ρ → REGION_SIZE + OVERHEAD ≤ ρ →
  ∃ p e', goes (box_region r) e p (<[p := Region_bytes r]> h) (ρ - REGION_SIZE - OVERHEAD) e' ∧
    h !! p = None ∧ p mod 4 = 0.
Proof.
  intros He Hρ.
  destruct (galloc_run exported e h ρ REGION_SIZE 4 He) as (p & c & e1 & H1 & Hp & Hc & Ha); [done|done|by right|].
  destruct (gstore_run exported e1 (<[p := c]> h) (ρ - REGION_SIZE - OVERHEAD) p c 0 (Region_bytes r)) as (e2 & H2).
  { apply H1. } { by rewrite lookup_insert_eq. } { unfold REGION_SIZE in Hc. rewrite length_Region_bytes. lia. }
  rewrite Z.add_0_r, insert_insert_eq in H2.
  rewrite list_inserts_all in H2 by (unfold REGION_SIZE in Hc; rewrite length_Region_bytes; lia).
  exists p, e2. split; [|done].
  eapply goes_bind; [exact H1|]. eapply goes_bind; [exact H2|]. apply goes_ret. apply H2.
Qed.

Lemma expect_u32_run e h ρ what n :
  at_heap e h ρ → n < U32 → goes (expect_u32 panic_text what n) e n h ρ e.
Proof. intros He Hn. unfold expect_u32. destruct (Z.ltb_spec n U32); [|lia]. by apply goes_ret. Qed.

Lemma slice_bounds e h ρ s d :
  at_heap e h ρ → slice_at h s d → 0 < s_ptr s ∧ 0 ≤ s_len s ∧ s_ptr s + s_len s < U32.
Proof.
  intros He (Hl & [[-> Hp]|(p & c & off & Hp & Hs & _ & ? & ?)]).
  - rewrite Hp. cbn in Hl. unfold DANGLING, U32. lia.
  - destruct (at_heap_block _ _ _ _ _ _ He Hp) as (? & ? & ?). lia.
Qed.

Lemma build_region_run e h ρ s d :
  at_heap e h ρ → slice_at h s d → REGION_SIZE + OVERHEAD ≤ ρ →
  let r := mkRegion (s_ptr s) (s_len s) (s_len s) in
  ∃ p e', goes (build_region panic_text s) e p (<[p := Region_bytes r]> h) (ρ - REGION_SIZE - OVERHEAD) e' ∧
    h !! p = None ∧ region_at (<[p := Region_bytes r]> h) p r.
Proof.
  intros He Hs Hρ r. destruct (slice_bounds _ _ _ _ _ He Hs) as (? & ? & ?).
  destruct (box_region_run e h ρ r He Hρ) as (p & e' & Hrun & Hp & Ha).
  exists p, e'. split_and!; [|done|split; [by rewrite lookup_insert_eq|done]].
  unfold build_region.
  eapply goes_bind; [apply expect_u32_run; [done|lia]|].
  eapply goes_bind; [apply expect_u32_run; [done|lia]|].
  by eapply goes_bind; [apply expect_u32_run; [done|lia]|].
Qed.

Lemma with_capacity_run e h ρ n :
  at_heap e h ρ → 0 ≤ n → n + OVERHEAD ≤ ρ →
  ∃ q c e', goes (with_capacity panic_text n) e (mkVec q 0 n) (with_block q c h) (ρ - n - OVERHEAD) e' ∧
    fresh_block q c h ∧ Z.of_nat (length c) = n.
Proof.
  intros He Hn Hρ. pose proof (at_heap_bound _ _ _ _ He). unfold with_capacity, ISIZE_MAX.
  destruct (Z.ltb_spec (2 ^ 31 - 1) n); [unfold OVERHEAD in *; lia|].
  destruct (decide (n = 0)) as [->|Hne].
  - exists DANGLING, [], e. split_and!; [|done|done].
    assert (at_heap e h (ρ - 0 - OVERHEAD)) as He'
      by (eapply at_heap_room; [done|unfold OVERHEAD; lia]).
    eapply goes_bind; [by apply goes_ret|by apply goes_ret].
  - destruct (galloc_run exported e h ρ n 1 He) as (q & c & e1 & H1 & Hq & Hc & _); [lia|done|by left|].
    destruct c as [|b c]; [cbn in Hc; lia|].
    exists q, (b :: c), e1. split_and!; [|done|done]. eapply goes_bind; [exact H1|]. apply goes_ret. apply H1.
Qed.

Lemma alloc_run e h ρ n :
  at_heap e h ρ → 0 ≤ n → n + REGION_SIZE + 2 * OVERHEAD ≤ ρ →
  ∃ p q c e', let r := mkRegion q n 0 in
    goes (alloc panic_text n) e p (<[p := Region_bytes r]> (with_block q c h))
      (ρ - n - REGION_SIZE - 2 * OVERHEAD) e' ∧
    fresh_block q c h ∧ Z.of_nat (length c) = n ∧ with_block q c h !! p = None ∧
    region_at (<[p := Region_bytes r]> (with_block q c h)) p r.
Proof.
  intros He Hn Hρ. pose proof (at_heap_bound _ _ _ _ He).
  destruct (with_capacity_run e h ρ n He Hn) as (q & c & e1 & H1 & Hq & Hc).
  { unfold REGION_SIZE, OVERHEAD in *. lia. }
  destruct (box_region_run e1 (with_block q c h) (ρ - n - OVERHEAD) (mkRegion q n 0)) as (p & e2 & H2 & Hp & Ha).
  { apply H1. } { unfold REGION_SIZE, OVERHEAD in *. lia. }
  exists p, q, c, e2. cbn zeta. split_and!; [|done..|split; [by rewrite lookup_insert_eq|done]].
  eapply goes_bind; [exact H1|]. cbn [v_ptr v_cap].
  assert (q < U32).
  { destruct c as [|b c]; [cbn in Hq; rewrite Hq; done|].
    destruct H1 as (_ & H1 & _). destruct (at_heap_block _ _ _ _ q (b :: c) H1) as (? & ? & ?); [|lia].
    cbn. by rewrite lookup_insert_eq. }
  eapply goes_bind; [apply expect_u32_run; [apply H1|done]|].
  eapply goes_bind; [apply expect_u32_run; [apply H1|unfold REGION_SIZE, OVERHEAD, U32 in *; cbn [v_cap]; lia]|].
  replace (ρ - n - REGION_SIZE - 2 * OVERHEAD) with (ρ - n - OVERHEAD - REGION_SIZE - OVERHEAD) by lia.
  exact H2.
Qed.

Lemma drop_region_run e h ρ p r :
  at_heap e h ρ → h !! p = Some (Region_bytes r) →
  ∃ e', goes (drop_region p) e tt (delete p h) ρ e'.
Proof. intros He Hp. by apply (gfree_run exported e h ρ p (Region_bytes r)). Qed.

Lemma consume_region_run e h ρ p r :
  at_heap e h ρ → h !! p = Some (Region_bytes r) → region_fits r → r_offset r ≠ 0 →
  ∃ e', goes (consume_region panic_text p) e (mkVec (r_offset r) (r_length r) (r_capacity r))
          (delete p h) ρ e'.
Proof.
  intros He Hp Hfit Hoff. destruct (at_heap_block _ _ _ _ _ _ He Hp) as (Hp0 & _).
  destruct (drop_region_run e h ρ p r He Hp) as (e' & H').
  exists e'. unfold consume_region. destruct (Z.eqb_spec p 0); [lia|].
  pose proof (gload_run exported e h ρ p (Region_bytes r) 0 12 He Hp ltac:(rewrite length_Region_bytes; lia)) as Hload.
  rewrite Z.add_0_r in Hload. change (slice 0 12 (Region_bytes r)) with (Region_bytes r) in Hload.
  destruct H' as (H1 & H2 & H3). split_and!; [|done..].
  change (Z.of_nat 12) with REGION_SIZE in Hload.
  rewrite (bind_Ok _ _ _ _ _ Hload), Region_roundtrip by done.
  destruct (Z.eqb_spec (r_offset r) 0); [done|]. by rewrite (bind_Ok _ _ _ _ _ H1).
Qed.

(** A vector is dropped with the capacity of its block. *)
Lemma drop_block_run e h ρ q c :
  at_heap e h ρ → has_block q c h →
  ∃ e', goes (gfree q (Z.of_nat (length c))) e tt (without_block q c h) ρ e'.
Proof.
  intros He Hb. destruct c as [|b c].
  - exists e. by apply goes_ret.
  - by apply (gfree_run exported e h ρ q (b :: c)).
Qed.

Lemma drop_vec_run e h ρ v d rest :
  at_heap e h ρ → has_block (v_ptr v) (d ++ rest) h → v_cap v = Z.of_nat (length (d ++ rest)) →
  ∃ e', goes (drop_vec v) e tt (without_block (v_ptr v) (d ++ rest) h) ρ e'.
Proof. intros He Hb Hc. unfold drop_vec. rewrite Hc. by apply drop_block_run. Qed.

Lemma slice_bytes_run e h ρ s d :
  at_heap e h ρ → slice_at h s d → slice_bytes s e = (Ok d, e).
Proof.
  intros He (Hl & [[-> Hp]|(p & c & off & Hp & Hs & Hd & ? & ?)]); unfold slice_bytes.
  - destruct He as (w & m & n & Hw & Hm & _ & _ & _ & ? & _). rewrite Hl, Hp. unfold gload. rewrite Hw.
    cbn [mbind option_bind]. rewrite Hm. unfold in_bounds, DANGLING. change (Z.of_nat (length [])) with 0.
    destruct (Z.leb_spec (1 + 0) (mem_size m)); [done|lia].
  - rewrite Hs, Hl.
    rewrite (gload_run exported e h ρ p c off (length d)) by done. by rewrite <-Hd.
Qed.
End Regions.

(** ** The exports by which the host passes data *)
Definition abi_call {A S Q W X} `{WasmerInstance W, Allocator W} (panic_text : string → string)
    (name : string) (args : list Val) : M string (Environment A S Q W X) (list Val) :=
  match args with
  | [VI32 n] =>
      if String.eqb name "allocate" then p ← Guest.allocate panic_text n; mret [VI32 p]
      else if String.eqb name "deallocate" then _ ← Guest.deallocate panic_text n; mret []
      else throw "unknown function"
  | _ => throw "parameters of type other than i32"
  end.

Section HostRegions.
Context {A S Q W X : Type} `{HWI : !WasmerInstance W} `{HWS : !WasmerSpec W}.
Context `{HAl : !Allocator W} `{HAS : !AllocatorSpec W} {HP : WasmPtr} `{HPS : !WasmPtrSpec}.
Context {HX : Externals}.
Abbreviation ENV := (Environment A S Q W X).
Abbreviation G := (M string ENV).
Context (panic_text : string → string) (exported : list string).
Abbreviation at_heap := (at_heap (A := A) (S := S) (Q := Q) (X := X) exported).
Abbreviation goes := (goes (A := A) (S := S) (Q := Q) (X := X) exported).

(** The memory behind a heap. *)
Definition backs (m : bytes) (h : heap) : Prop :=
  ∃ blocks, layout blocks (mem_size m) ∧ 1 < mem_size m < U32 ∧ h = heap_of blocks m.

Lemma at_heap_backs e h ρ :
  at_heap e h ρ → ∃ w m, wasmer_instance (e_data e) = Some w ∧ exported_memory w = Some m ∧ backs m h.
Proof. intros (w & m & n & ? & ? & _ & _ & ? & ? & -> & _). exists w, m. split_and!; [done..|]. by eexists. Qed.

(** The host follows a pointer to a region. *)
Lemma get_region_at m h p r :
  backs m h → region_at h p r → region_fits r → validate_region r = inr tt →
  get_region p m = (Ok r, m) ∧ deref_struct (mem_size m) p = Some p.
Proof.
  intros (blocks & Hl & Hs & ->) [Hp Ha] Hfit Hval.
  pose proof (heap_block _ _ _ _ Hl Hp) as (_ & ? & _ & Hin & Hc). rewrite length_Region_bytes in *.
  assert (deref_struct (mem_size m) p = Some p) as Hd by (apply deref_struct_aligned; [lia|done|done]).
  split; [|done]. apply get_region_ok. split; [done|]. exists p. split_and!; [done| |done].
  by rewrite <-Hc, Region_roundtrip.
Qed.

(** The host reads the bytes of a slice through its region. *)
Lemma region_holds_slice m h p s d :
  backs m h → slice_at h s d → region_at h p (mkRegion (s_ptr s) (s_len s) (s_len s)) →
  region_holds m p d.
Proof.
  intros Hb (Hl & Hsl) Hp. set (r := mkRegion _ _ _) in Hp. pose proof Hb as (blocks & Hlay & Hsz & ->).
  assert (0 < s_ptr s ∧ s_ptr s + s_len s ≤ mem_size m ∧ s_ptr s < mem_size m ∧
    d = load (s_ptr s) (length d) m) as (? & ? & ? & Hd).
  { destruct Hsl as [[-> ->]|(q & c & off & Hq & -> & Hd & ? & ?)].
    - cbn in Hl. rewrite Hl. unfold DANGLING. split_and!; (done || lia).
    - pose proof (heap_block _ _ _ _ Hlay Hq) as (_ & ? & _ & ? & Hc).
      split_and!; [lia..|]. rewrite Hd at 1. by rewrite Hc, slice_load by lia. }
  assert (region_fits r) as Hfit by (unfold r; split_and!; cbn; unfold in_width; lia).
  destruct (get_region_at m _ p r Hb Hp Hfit) as [Hr _].
  { apply validate_region_ok. cbn. unfold U32 in *. lia. }
  exists r. cbn. split_and!; [done..|]. by rewrite Hl, Nat2Z.id.
Qed.

(** A region written by the host: the cell has the new length, the buffer the data. *)
Lemma env_write_run e h ρ p q cap len c d :
  at_heap e h ρ → region_at h p (mkRegion q cap len) → has_block q c h → q ≠ p →
  cap = Z.of_nat (length c) → 0 ≤ len ≤ cap → (length d ≤ length c)%nat →
  ∃ e', env_write p d e = (Ok tt, e') ∧ outside e' = outside e ∧
    at_heap e' (<[p := Region_bytes (mkRegion q cap (Z.of_nat (length d)))]>
                  (with_block q (list_inserts 0 d c) h)) ρ.
Proof.
  intros He Hp Hq Hne -> Hlen Hd.
  set (cap := Z.of_nat (length c)) in *.
  pose proof (at_heap_backs _ _ _ He) as (w & m & Hw & Hm & Hb).
  assert (0 < q ∧ q + cap ≤ mem_size m ∧ q < mem_size m ∧ mem_size m < U32) as (? & ? & ? & ?).
  { pose proof Hb as (blocks & Hlay & ? & ->). destruct c as [|b c].
    - cbn in Hq. rewrite Hq. unfold DANGLING, cap. cbn. lia.
    - cbn in Hq. pose proof (heap_block _ _ _ _ Hlay Hq) as (_ & ? & ? & ? & _). unfold cap in *. lia. }
  assert (region_fits (mkRegion q cap len)) as Hfit by (split_and!; cbn; unfold in_width; lia).
  destruct (get_region_at m _ p _ Hb Hp Hfit) as [Hr Hcell].
  { apply validate_region_ok. cbn. unfold U32 in *. lia. }
  pose proof (write_region_run p d m _ p Hr Hcell) as Hrun. cbn [r_capacity r_offset] in Hrun.
  specialize (Hrun ltac:(lia) ltac:(lia) ltac:(lia)).
  destruct He as (w' & m0 & n & Hw' & Hm0 & Hn & ? & Hlay & ? & -> & ? & Hf).
  assert (w' = w) as -> by congruence. assert (m0 = m) as -> by congruence.
  eexists. split_and!; [|..].
  - unfold env_write, with_memory. rewrite Hw, Hm, Hrun. reflexivity.
  - done.
  - set (m' := store p _ _). exists (set_exported_memory m' w), m', n.
    rewrite live_of_set, room_of_set, points_of_set_memory, memory_of_set by by eexists.
    assert (mem_size m' = mem_size m) as -> by (unfold m'; by rewrite !mem_size_store).
    split_and!; try done || lia.
    + destruct Hp as [Hp _]. set (m1 := store q d m) in m'.
      assert (mem_size m1 = mem_size m) as Hm1 by apply mem_size_store.
      assert (heap_of (live w) m1 = with_block q (list_inserts 0 d c) (heap_of (live w) m)) as Hh1.
      { destruct c as [|b c].
        - destruct d; [|cbn in Hd; lia]. done.
        - cbn in Hq. unfold m1. replace q with (q + Z.of_nat 0) at 1 by lia.
          rewrite (heap_store _ _ q (b :: c)) by (try done; cbn in *; lia).
          by rewrite with_block_insert by (rewrite length_inserts; cbn; lia). }
      rewrite <-Hh1. unfold m'. symmetry. replace p with (p + Z.of_nat 0) at 1 by lia.
      rewrite (heap_store _ _ p (Region_bytes (mkRegion q cap len)));
        [|by rewrite Hm1| |by rewrite !length_Region_bytes].
      * f_equal.
      * rewrite Hh1. destruct c as [|b c]; [by destruct d; [|cbn in Hd; lia]|].
        by rewrite with_block_insert, lookup_insert_ne by (done || rewrite length_inserts; cbn; lia).
    + intros name Hname. rewrite functions_of_set. by apply Hf.
Qed.

(** Calls of exports that exist. *)
Lemma exported_run e h ρ (guest_call : string → list Val → G (list Val)) name args o e' :
  at_heap e h ρ → name ∈ exported → guest_call name args e = (Ok o, e') →
  call_function guest_call name args e = (Ok o, e').
Proof.
  intros (w & m & n & Hw & _ & _ & _ & _ & _ & _ & _ & Hf) Hname Hrun. unfold call_function.
  assert (with_wasmer_instance (w ← get;
    match get_function w name with
    | inl x => throw (ResolveErr ("Could not get export: " +:+ x)) | inr _ => mret tt end) e
    = (Ok tt, e)) as Hget.
  { unfold with_wasmer_instance. rewrite Hw, bind_get, (Hf name Hname). cbn.
    by rewrite set_instance_same. }
  rewrite (bind_Ok _ _ _ _ _ Hget). unfold func_call. by rewrite Hrun.
Qed.

Lemma call_function1_run e h ρ guest_call name args v e' :
  at_heap e h ρ → name ∈ exported → guest_call name args e = (Ok [v], e') →
  call_function1 guest_call name args e = (Ok v, e').
Proof. intros He Hn Hr. unfold call_function1. by rewrite (bind_Ok _ _ _ _ _ (exported_run _ _ _ _ _ _ _ _ He Hn Hr)). Qed.

Lemma call_function0_run e h ρ guest_call name args e' :
  at_heap e h ρ → name ∈ exported → guest_call name args e = (Ok [], e') →
  call_function0 guest_call name args e = (Ok tt, e').
Proof. intros He Hn Hr. unfold call_function0. by rewrite (bind_Ok _ _ _ _ _ (exported_run _ _ _ _ _ _ _ _ He Hn Hr)). Qed.

(** The region the guest allocates for [n] bytes, filled by the host. *)
Lemma fill_allocated e h ρ (guest_call : string → list Val → G (list Val)) d :
  let n := Z.of_nat (length d) in
  at_heap e h ρ → "allocate" ∈ exported →
  (∀ k e1, guest_call "allocate" [VI32 k] e1 = abi_call panic_text "allocate" [VI32 k] e1) →
  n + REGION_SIZE + 2 * OVERHEAD ≤ ρ →
  ∃ p q e1 e2, call_function1 guest_call "allocate" [VI32 n] e = (Ok (VI32 p), e1) ∧
    env_write p d e1 = (Ok tt, e2) ∧ outside e2 = outside e ∧
    p ≠ 0 ∧ fresh_block q d h ∧ with_block q d h !! p = None ∧
    let h' := <[p := Region_bytes (mkRegion q n n)]> (with_block q d h) in
    region_at h' p (mkRegion q n n) ∧ at_heap e2 h' (ρ - n - REGION_SIZE - 2 * OVERHEAD).
Proof.
  intros n He Hal Hcall Hρ.
  destruct (alloc_run panic_text exported e h ρ n He) as (p & q & c & e1 & (Hrun & He1 & Ho1) & Hq & Hc & Hp & Hr);
    [lia|done|].
  assert (0 < p) by (eapply (at_heap_block exported e1); [exact He1|apply Hr]).
  assert (q ≠ p) as Hqp.
  { intros ->. destruct c; cbn in Hq, Hp; [|by rewrite lookup_insert_eq in Hp].
    destruct Hr as [_ Hr]. by rewrite Hq in Hr. }
  destruct (env_write_run e1 (<[p := Region_bytes (mkRegion q n 0)]> (with_block q c h))
    (ρ - n - REGION_SIZE - 2 * OVERHEAD) p q n 0 c d) as (e2 & Hw & Ho2 & He2); [done|done| |done|lia|lia|lia|].
  { destruct c; cbn in *; [done|]. by rewrite lookup_insert_ne, lookup_insert_eq by done. }
  rewrite list_inserts_all in He2 by lia.
  assert (with_block q d (<[p := Region_bytes (mkRegion q n 0)]> (with_block q c h)) =
    <[p := Region_bytes (mkRegion q n 0)]> (with_block q d h)) as Heq.
  { destruct c as [|b c], d as [|b' d]; unfold n in *; cbn in Hc; try lia; [done|]. cbn.
    by rewrite insert_insert_ne, insert_insert_eq. }
  rewrite Heq, insert_insert_eq in He2.
  exists p, q, e1, e2. split_and!; try done.
  - eapply call_function1_run; [done..|]. rewrite Hcall. unfold abi_call. cbn [String.eqb Ascii.eqb Bool.eqb].
    unfold Guest.allocate. by rewrite (bind_Ok _ _ _ _ _ Hrun).
  - by rewrite Ho2.
  - lia.
  - unfold n in *. destruct c, d; cbn in Hc; (done || lia).
  - unfold n in *. destruct c, d; cbn in Hc; try lia; [done|]. cbn in *. by rewrite lookup_insert_ne in * by done.
  - cbn zeta. split; [split; [by rewrite lookup_insert_eq|apply Hr]|done].
Qed.

Lemma write_to_contract_run e h ρ guest_call d :
  let n := Z.of_nat (length d) in
  at_heap e h ρ → "allocate" ∈ exported →
  (∀ k e1, guest_call "allocate" [VI32 k] e1 = abi_call panic_text "allocate" [VI32 k] e1) →
  n + REGION_SIZE + 2 * OVERHEAD ≤ ρ →
  ∃ p q e', write_to_contract guest_call d e = (Ok p, e') ∧ outside e' = outside e ∧
    p ≠ 0 ∧ fresh_block q d h ∧ with_block q d h !! p = None ∧
    let h' := <[p := Region_bytes (mkRegion q n n)]> (with_block q d h) in
    region_at h' p (mkRegion q n n) ∧ at_heap e' h' (ρ - n - REGION_SIZE - 2 * OVERHEAD).
Proof.
  intros n He Hal Hcall Hρ. pose proof (at_heap_bound _ _ _ _ He).
  destruct (fill_allocated e h ρ guest_call d He Hal Hcall Hρ) as (p & q & e1 & e2 & H1 & H2 & Ho & Hp0 & ?).
  exists p, q, e2. split_and!; try naive_solver.
  unfold write_to_contract, to_u32. fold n. unfold REGION_SIZE, OVERHEAD, U32 in *.
  destruct (Z.ltb_spec n (2 ^ 32)); [|lia]. cbn [of_sum]. rewrite bind_ret_l, (bind_Ok _ _ _ _ _ H1).
  cbn [ref_to_u32 of_sum]. rewrite bind_ret_l. destruct (Z.eqb_spec p 0); [done|].
  by rewrite (bind_Ok _ _ _ _ _ H2).
Qed.
End HostRegions.
