(* ===== verification/GuestImports.v ===== *)
(** * The imports as a contract sees them ([cosmwasm/packages/std/src]: [imports.rs],
      [import_helpers.rs], [sections.rs])

    [ExternalStorage], [ExternalApi] and [ExternalQuerier] turn the imports of the
    host into the traits contracts are written against. Each call builds regions for
    its arguments in guest memory, calls the import ([HostImports]) with their
    addresses and takes the result out of the region it is given. The host calls
    back into the guest for memory ([abi_call]). An error of the host ends the call
    as a trap with its text.

    Boxes and vectors are dropped where their scope ends, in reverse order. *)

From S2P Require Import Prelude.
From S2P Require Import Bytes.
From S2P Require Import CwStd.
From S2P Require Import StdError.
From S2P Require Import Errors.
From S2P Require Import Client.
From S2P Require Import Namespaces.
From S2P Require Import TypedStorage.
From S2P Require Import Sections.
From S2P Require Import Memory.
From S2P Require Import Crypto.
From S2P Require Import Host.
From S2P Require Import HostImports.
From S2P Require Import Guest.
From S2P Require Import GuestRegions.

Open Scope Z_scope.

(** ** [import_helpers.rs] *)
Definition from_high_half (data : Z) : Z := Z.shiftr data 32.
Definition from_low_half (data : Z) : Z := Z.land data (2 ^ 32 - 1).

Definition CANONICAL_ADDRESS_BUFFER_LENGTH : Z := 64.
Definition HUMAN_ADDRESS_BUFFER_LENGTH : Z := 90.

(** [QuerierResult]. *)
Abbreviation QuerierResult := (SystemResult (ContractResult Binary)).

(** The bytes [encode_sections] appends: every section and its length. *)
Definition encode_bytes (sections : list bytes) : bytes :=
  mjoin ((λ s, s ++ to_be_bytes (Z.of_nat (length s))) <$> sections).

Section Imports.
Context {A S Q W X : Type} `{HB : !VmBackend A S Q X} `{HWI : !WasmerInstance W}.
Context `{HAl : !Allocator W} {HX : Externals} {HP : WasmPtr} {HCv : Curves}.
Context `{HJ : !Json QuerierResult}.
Abbreviation ENV := (Environment A S Q W X).
Abbreviation G := (M string ENV).
Context (panic_text : string → string).

Abbreviation guest_panic := (guest_panic panic_text).
Abbreviation build_region := (build_region panic_text).
Abbreviation consume_region := (consume_region panic_text).
Abbreviation abi := (abi_call (A := A) (S := S) (Q := Q) (X := X) panic_text).

(** A call of an import: its error is the message of the trap. *)
Definition import {R} (m : M VmError ENV R) : G R := map_err VmError_to_string m.

(** ** [sections.rs] *)
Definition sections_len (sections : list Slice) : Z :=
  foldr (λ s n, s_len s + n) 0 sections + 4 * Z.of_nat (length sections).

Fixpoint slices_bytes (sections : list Slice) : G (list bytes) :=
  match sections with
  | [] => mret []
  | s :: sections => d ← slice_bytes s; ds ← slices_bytes sections; mret (d :: ds)
  end.

Definition encode_sections (sections : list Slice) : G Vec :=
  out_data ← with_capacity panic_text (sections_len sections);
  data ← slices_bytes sections;
  _ ← gstore (v_ptr out_data) (encode_bytes data);
  mret (mkVec (v_ptr out_data) (Z.of_nat (length (encode_bytes data))) (v_cap out_data)).

(** The length at the end of the data. *)
Definition tail_length (data : bytes) : option Z :=
  match data !! (length data - 4)%nat, data !! (length data - 3)%nat,
        data !! (length data - 2)%nat, data !! (length data - 1)%nat with
  | Some b3, Some b2, Some b1, Some b0 =>
      if (length data <? 4)%nat then None else Some (from_be_bytes b3 b2 b1 b0)
  | _, _, _, _ => None
  end.

Definition truncate (len : Z) (v : Vec) : Vec := mkVec (v_ptr v) (Z.min len (v_len v)) (v_cap v).

(** [rest.split_off(at)] for [at] above 0: the tail is copied to a vector of its size. *)
Definition split_off (at_ : Z) (v : Vec) : G (Vec * Vec) :=
  other ← with_capacity panic_text (v_len v - at_);
  data ← slice_bytes (as_slice v);
  _ ← gstore (v_ptr other) (drop (Z.to_nat at_) data);
  mret (mkVec (v_ptr v) at_ (v_cap v), mkVec (v_ptr other) (v_len v - at_) (v_cap other)).

Definition split_tail (data : Vec) : G (Vec * Vec) :=
  bytes ← slice_bytes (as_slice data);
  match tail_length bytes with
  | None => guest_panic "Cannot read section length"
  | Some tail_len =>
      if v_len data - 4 <? tail_len then guest_panic "attempt to subtract with overflow"
      else
        let rest_len_end := v_len data - 4 - tail_len in
        if rest_len_end =? 0 then mret (mkVec DANGLING 0 0, truncate tail_len data)
        else '(rest, tail) ← split_off rest_len_end data; mret (rest, truncate tail_len tail)
  end.

Definition decode_sections2 (data : Vec) : G (Vec * Vec) :=
  '(rest, second) ← split_tail data;
  '(rest, first) ← split_tail rest;
  _ ← drop_vec rest;
  mret (first, second).

(** ** [ExternalStorage] *)
Definition ext_get (key : Slice) : G (option Vec) :=
  key_ptr ← build_region key;
  read ← import (do_db_read abi key_ptr);
  if read =? 0 then _ ← drop_region key_ptr; mret None
  else
    data ← consume_region read;
    _ ← drop_region key_ptr;
    mret (Some data).

Definition ext_set (key value : Slice) : G unit :=
  if s_len value =? 0 then guest_panic empty_value
  else
    key_ptr ← build_region key;
    value_ptr ← build_region value;
    _ ← import (do_db_write key_ptr value_ptr);
    _ ← drop_region value_ptr;
    drop_region key_ptr.

Definition ext_remove (key : Slice) : G unit :=
  key_ptr ← build_region key;
  _ ← import (do_db_remove key_ptr);
  drop_region key_ptr.

(** The iterator is its number. *)
Definition ext_range (start stop : option Slice) (order : Order) : G Z :=
  start_region ← build_optional_region panic_text start;
  end_region ← build_optional_region panic_text stop;
  let start_region_addr := get_optional_region_address start_region in
  let end_region_addr := get_optional_region_address end_region in
  iterator_id ← import (do_db_scan start_region_addr end_region_addr (order_to_i32 order));
  _ ← drop_optional_region end_region;
  _ ← drop_optional_region start_region;
  mret iterator_id.

Definition ext_next (iterator_id : Z) : G (option (Vec * Vec)) :=
  next_result ← import (do_db_next abi iterator_id);
  kv ← consume_region next_result;
  '(key, value) ← decode_sections2 kv;
  if v_len key =? 0 then _ ← drop_vec value; _ ← drop_vec key; mret None
  else mret (Some (key, value)).

(** ** [ExternalApi] *)

(** [from_utf8_unchecked]: the text is the bytes of the region. *)
Definition consume_string_region_written_by_vm (from : Z) : G string :=
  v ← consume_region from;
  data ← slice_bytes (as_slice v);
  _ ← drop_vec v;
  mret (String.string_of_list_byte data).

Definition ext_addr_validate (input : Slice) : G (StdError + string) :=
  if 256 <? s_len input then mret (inl (StdGenericErr "input too long for addr_validate"))
  else
    source_ptr ← build_region input;
    result ← import (do_addr_validate abi source_ptr);
    if negb (result =? 0) then
      error ← consume_string_region_written_by_vm result;
      _ ← drop_region source_ptr;
      mret (inl (StdGenericErr ("addr_validate errored: " +:+ error)))
    else
      _ ← drop_region source_ptr;
      text ← slice_bytes input;
      mret (inr (String.string_of_list_byte text)).

Definition ext_addr_canonicalize (input : Slice) : G (StdError + Vec) :=
  if 256 <? s_len input then mret (inl (StdGenericErr "input too long for addr_canonicalize"))
  else
    send_ptr ← build_region input;
    canon ← alloc panic_text CANONICAL_ADDRESS_BUFFER_LENGTH;
    result ← import (do_addr_canonicalize abi send_ptr canon);
    if negb (result =? 0) then
      error ← consume_string_region_written_by_vm result;
      _ ← drop_region send_ptr;
      mret (inl (StdGenericErr ("addr_canonicalize errored: " +:+ error)))
    else
      out ← consume_region canon;
      _ ← drop_region send_ptr;
      mret (inr out).

Definition ext_addr_humanize (canonical : Slice) : G (StdError + string) :=
  send_ptr ← build_region canonical;
  human ← alloc panic_text HUMAN_ADDRESS_BUFFER_LENGTH;
  result ← import (do_addr_humanize abi send_ptr human);
  if negb (result =? 0) then
    error ← consume_string_region_written_by_vm result;
    _ ← drop_region send_ptr;
    mret (inl (StdGenericErr ("addr_humanize errored: " +:+ error)))
  else
    address ← consume_string_region_written_by_vm human;
    _ ← drop_region send_ptr;
    mret (inr address).

Definition MESSAGE_TOO_LONG : string := "MessageTooLong must not happen. This is a bug in the VM.".
Definition CODE_2_UNUSED : string :=
  "Error code 2 unused since CosmWasm 0.15. This is a bug in the VM.".
Definition HASH_FORMAT_MUST_NOT : string :=
  "InvalidHashFormat must not happen. This is a bug in the VM.".

Definition secp256k1_verify_answer (result : Z) : G (VerificationError + bool) :=
  if result =? 0 then mret (inr true)
  else if result =? 1 then mret (inr false)
  else if result =? 2 then guest_panic MESSAGE_TOO_LONG
  else if result =? 3 then mret (inl VerInvalidHashFormat)
  else if result =? 4 then mret (inl VerInvalidSignatureFormat)
  else if result =? 5 then mret (inl VerInvalidPubkeyFormat)
  else if result =? 10 then mret (inl VerGenericErr)
  else mret (inl (VerUnknownErr result)).

Definition ed25519_verify_answer (result : Z) : G (VerificationError + bool) :=
  if result =? 0 then mret (inr true)
  else if result =? 1 then mret (inr false)
  else if result =? 2 then guest_panic CODE_2_UNUSED
  else if result =? 3 then guest_panic HASH_FORMAT_MUST_NOT
  else if result =? 4 then mret (inl VerInvalidSignatureFormat)
  else if result =? 5 then mret (inl VerInvalidPubkeyFormat)
  else if result =? 10 then mret (inl VerGenericErr)
  else mret (inl (VerUnknownErr result)).

Definition ext_secp256k1_verify (message_hash signature public_key : Slice)
    : G (VerificationError + bool) :=
  hash_send_ptr ← build_region message_hash;
  sig_send_ptr ← build_region signature;
  pubkey_send_ptr ← build_region public_key;
  result ← import (do_secp256k1_verify hash_send_ptr sig_send_ptr pubkey_send_ptr);
  answer ← secp256k1_verify_answer result;
  _ ← drop_region pubkey_send_ptr;
  _ ← drop_region sig_send_ptr;
  _ ← drop_region hash_send_ptr;
  mret answer.

Definition recover_answer (error_code pubkey_ptr : Z) : G (RecoverPubkeyError + Vec) :=
  if error_code =? 0 then pubkey ← consume_region pubkey_ptr; mret (inr pubkey)
  else if error_code =? 2 then guest_panic MESSAGE_TOO_LONG
  else if error_code =? 3 then mret (inl RecInvalidHashFormat)
  else if error_code =? 4 then mret (inl RecInvalidSignatureFormat)
  else if error_code =? 6 then mret (inl RecInvalidRecoveryParam)
  else mret (inl (RecUnknownErr error_code)).

Definition ext_secp256k1_recover_pubkey (message_hash signature : Slice) (recover_param : Z)
    : G (RecoverPubkeyError + Vec) :=
  hash_send_ptr ← build_region message_hash;
  sig_send_ptr ← build_region signature;
  result ← import (do_secp256k1_recover_pubkey abi hash_send_ptr sig_send_ptr recover_param);
  let error_code := from_high_half result in
  let pubkey_ptr := from_low_half result in
  answer ← recover_answer error_code pubkey_ptr;
  _ ← drop_region sig_send_ptr;
  _ ← drop_region hash_send_ptr;
  mret answer.

Definition ext_ed25519_verify (message signature public_key : Slice) : G (VerificationError + bool) :=
  msg_send_ptr ← build_region message;
  sig_send_ptr ← build_region signature;
  pubkey_send_ptr ← build_region public_key;
  result ← import (do_ed25519_verify msg_send_ptr sig_send_ptr pubkey_send_ptr);
  answer ← ed25519_verify_answer result;
  _ ← drop_region pubkey_send_ptr;
  _ ← drop_region sig_send_ptr;
  _ ← drop_region msg_send_ptr;
  mret answer.

Definition ext_ed25519_batch_verify (messages signatures public_keys : list Slice)
    : G (VerificationError + bool) :=
  msgs_encoded ← encode_sections messages;
  msgs_send_ptr ← build_region (as_slice msgs_encoded);
  sigs_encoded ← encode_sections signatures;
  sigs_send_ptr ← build_region (as_slice sigs_encoded);
  pubkeys_encoded ← encode_sections public_keys;
  pubkeys_send_ptr ← build_region (as_slice pubkeys_encoded);
  result ← import (do_ed25519_batch_verify msgs_send_ptr sigs_send_ptr pubkeys_send_ptr);
  answer ← ed25519_verify_answer result;
  _ ← drop_region pubkeys_send_ptr;
  _ ← drop_vec pubkeys_encoded;
  _ ← drop_region sigs_send_ptr;
  _ ← drop_vec sigs_encoded;
  _ ← drop_region msgs_send_ptr;
  _ ← drop_vec msgs_encoded;
  mret answer.

Definition ext_debug (message : Slice) : G unit :=
  region_ptr ← build_region message;
  _ ← import (do_debug region_ptr);
  drop_region region_ptr.

(** ** [ExternalQuerier] *)
Definition ext_raw_query (bin_request : Slice) : G QuerierResult :=
  request_ptr ← build_region bin_request;
  response_ptr ← import (do_query_chain abi request_ptr);
  response ← consume_region response_ptr;
  data ← slice_bytes (as_slice response);
  match from_slice data with
  | inr result =>
      _ ← drop_vec response;
      _ ← drop_region request_ptr;
      mret result
  | inl parsing_err =>
      _ ← drop_region request_ptr;
      mret (SRErr (InvalidResponse (StdError_to_string parsing_err) data))
  end.

(** The panic hook of the [abort] feature. *)
Definition handle_panic (message : Slice) : G unit :=
  region_ptr ← build_region message;
  _ ← import (do_abort region_ptr);
  drop_region region_ptr.
End Imports.
