(* ===== verification/GuestAbi.v ===== *)
(** * The binary interface is transparent

    A contract that calls [ExternalStorage] or [ExternalQuerier] runs, through
    regions in its memory, the imports of the host; with the simulator's backend
    these do what [Vm] says on byte strings ([HostRefines]). Here the two halves are
    put together: on every heap the guest calls return what the byte-level calls
    return, errors and panics included, in blocks of their own, and leave every other
    block of the contract's memory as it was. *)

From S2P Require Import Prelude.
From S2P Require Import Bytes.
From S2P Require Import CwStd.
From S2P Require Import StdError.
From S2P Require Import Errors.
From S2P Require Import Client.
From S2P Require Import Storage.
From S2P Require Import States.
From S2P Require Import Namespaces.
From S2P Require Import TypedStorage.
From S2P Require Import DebugLog.
From S2P Require Import Sections.
From S2P Require Import Memory.
From S2P Require Import Crypto.
From S2P Require Import Gas.
From S2P Require Import Api.
From S2P Require Import Vm.
From S2P Require Import Host.
From S2P Require Import HostImports.
From S2P Require Import HostFacts.
From S2P Require Import HostRefines.
From S2P Require Import Guest.
From S2P Require Import GuestRegions.
From S2P Require Import GuestImports.

Open Scope Z_scope.

(** Room for a region, and for a result of [n] bytes with its region. *)
Definition REGION_ROOM : Z := REGION_SIZE + OVERHEAD.
Definition result_room (n : Z) : Z := n + REGION_SIZE + 2 * OVERHEAD.

Section Abi.
Context {C W : Type} {HC : CwClientBackend C} {HX : Externals}.
Context `{HWI : !WasmerInstance W} `{HWS : !WasmerSpec W} {HP : WasmPtr} `{HPS : !WasmPtrSpec}.
Context `{HAl : !Allocator W} `{HAS : !AllocatorSpec W} {HCv : Curves}.
Context `{HJ : !Json (SystemResult (ContractResult Binary))}.
Context (query_raw : bytes → M BackendError (RpcMockQuerier C)
                               (SystemResult (ContractResult Binary))).
Context (panic_text : string → string) (exported : list string).
Context (Hallocate : "allocate" ∈ exported).

Abbreviation SHARED := (RpcMockQuerier C).
Abbreviation ENV := (Host.Environment RpcMockApi StorageHandle unit W SHARED).
Abbreviation G := (M string ENV).
Abbreviation VMENV := (Vm.Environment C unit).
Abbreviation at_heap := (at_heap (A := RpcMockApi) (S := StorageHandle) (Q := unit) (X := SHARED) exported).
Abbreviation goes := (goes (A := RpcMockApi) (S := StorageHandle) (Q := unit) (X := SHARED) exported).
Abbreviation abi := (abi_call (A := RpcMockApi) (S := StorageHandle) (Q := unit) (X := SHARED) panic_text).
#[local] Instance backend : VmBackend RpcMockApi StorageHandle unit SHARED := simulator_backend query_raw.

(** The host's part of being ready to serve an import. *)
Record host_ready (e : ENV) : Prop := {
  hr_storage : ∃ h, cd_storage (e_data e) = Some h ∧ is_Some (handle_cell h (shared e));
  hr_querier : cd_querier (e_data e) = Some tt;
  hr_debug : print_debug e = false;
  hr_gas : externally_used_gas (gas_state (e_data e)) < U64
}.

Lemma host_ready_outside e e' : outside e = outside e' → host_ready e → host_ready e'.
Proof.
  destruct e as [? ? ? [? ? ? ? ?] ? ?], e' as [? ? ? [? ? ? ? ?] ? ?]. unfold outside, set_instance, set_data.
  cbn. intros [= -> -> -> -> -> -> -> ->] [H1 H2 H3 H4]. by split.
Qed.

Lemma ready_of e h ρ : at_heap e h ρ → host_ready e → ∃ m, ready e m ∧ backs m h.
Proof.
  intros (w & m & n & ? & ? & ? & ? & ? & ? & -> & _) [? ? ? ?]. exists m. split.
  - split; [done..|]. by exists w, n.
  - by eexists.
Qed.

(** A byte-level run does not look at the instance. *)
Lemma lift_outside {R} (m : M VmError VMENV R) e h ρ r o :
  at_heap e h ρ → lift m (outside e) = (r, o) →
  ∃ e', lift m e = (r, e') ∧ outside e' = o ∧ at_heap e' h ρ.
Proof.
  intros He. unfold lift. change (cd_storage (e_data (outside e))) with (cd_storage (e_data e)).
  destruct (cd_storage (e_data e)) as [hd|].
  - change (view hd (outside e)) with (view hd e). destruct (m (view hd e)) as [r' v].
    intros [= -> <-]. by exists (update v e).
  - intros [= <- <-]. by exists e.
Qed.

(** What an import leaves behind, by the byte-level run it refines. *)
Definition ends {R T} (run : outcome VmError R * ENV) (res : outcome string T * ENV)
    (good : R → ENV → Prop) : Prop :=
  match run with
  | (Ok a, o) => good a o
  | (Err x, o) => res.1 = Err (VmError_to_string x) ∧ outside res.2 = o
  | (Panic p, o) => res.1 = Panic p ∧ outside res.2 = o
  | (OutOfFuel, o) => res.1 = OutOfFuel ∧ outside res.2 = o
  end.

Lemma import_Ok {T} (imp : M VmError ENV T) e t e' : imp e = (Ok t, e') → import imp e = (Ok t, e').
Proof. apply map_err_Ok. Qed.

Lemma import_ends {R T U} (op : M VmError VMENV R) (imp : M VmError ENV T) (fin : R → M VmError ENV T)
    (k : T → G U) e h ρ (good : R → ENV → Prop) :
  at_heap e h ρ → imp e = (lift op ≫= fin) e →
  (∀ a e', lift op (outside e) = (Ok a, outside e') → at_heap e' h ρ →
     imp e = fin a e' → good a (outside e')) →
  ends (lift op (outside e)) ((import imp ≫= k) e) good.
Proof.
  intros He Himp Hgood. destruct (lift op (outside e)) as [r o] eqn:Hr.
  destruct (lift_outside op e h ρ r o He Hr) as (e' & Hrun & <- & He').
  assert (imp e = match r with
    | Ok a => fin a e' | Err x => (Err x, e') | Panic p => (Panic p, e') | OutOfFuel => (OutOfFuel, e') end) as Hi.
  { rewrite Himp. unfold mbind, M_bind. rewrite Hrun. by destruct r. }
  destruct r as [a|x|p|]; cbn.
  - by apply Hgood.
  - unfold import, mbind, M_bind, map_err. by rewrite Hi.
  - unfold import, mbind, M_bind, map_err. by rewrite Hi.
  - unfold import, mbind, M_bind, map_err. by rewrite Hi.
Qed.

(** A region in front of an import: the host finds the argument in it. *)
Lemma arg_region e h ρ s d :
  at_heap e h ρ → host_ready e → slice_at h s d → REGION_ROOM ≤ ρ →
  ∃ p r e1 m, goes (build_region panic_text s) e p (<[p := Region_bytes r]> h) (ρ - REGION_ROOM) e1 ∧
    h !! p = None ∧ ready e1 m ∧ host_ready e1 ∧ backs m (<[p := Region_bytes r]> h) ∧
    region_at (<[p := Region_bytes r]> h) p (mkRegion (s_ptr s) (s_len s) (s_len s)) ∧
    region_holds m p d.
Proof.
  intros He Hr Hs Hρ. destruct (build_region_run panic_text exported e h ρ s d He Hs Hρ)
    as (p & e1 & H1 & Hp & Hreg).
  pose proof H1 as (Hrun & He1 & Ho).
  pose proof (host_ready_outside _ _ (eq_sym Ho) Hr) as Hr1.
  destruct (ready_of _ _ _ He1 Hr1) as (m & Hrd & Hb).
  eexists p, _, e1, m. split_and!; try done.
  - unfold REGION_ROOM. by rewrite Z.sub_add_distr.
  - eapply region_holds_slice; [done| |done]. eapply slice_at_mono; [|done]. by apply insert_subseteq.
Qed.

(** The result of an import, taken over by the guest. *)
Lemma take_result e h ρ d p q :
  let n := Z.of_nat (length d) in
  at_heap e (<[p := Region_bytes (mkRegion q n n)]> (with_block q d h)) ρ →
  fresh_block q d h → with_block q d h !! p = None →
  ∃ e', goes (consume_region panic_text p) e (mkVec q n n) (with_block q d h) ρ e'.
Proof.
  intros n He Hq Hp.
  destruct (at_heap_block _ _ _ _ _ _ He (lookup_insert_eq _ p _)) as (? & _ & _).
  assert (0 < q ∧ q + n < U32) as [? ?].
  { unfold n. destruct d as [|b d]; [cbn in Hq; rewrite Hq; done|].
    cbn in Hp. destruct (decide (q = p)) as [->|]; [by rewrite lookup_insert_eq in Hp|].
    destruct (at_heap_block _ _ _ _ q (b :: d) He) as (? & ? & ?); [|done].
    by rewrite lookup_insert_ne by done; cbn; rewrite lookup_insert_eq. }
  destruct (consume_region_run panic_text exported e _ ρ p (mkRegion q n n) He) as (e' & H').
  { by rewrite lookup_insert_eq. } { split_and!; cbn; unfold in_width; lia. } { cbn. lia. }
  rewrite delete_insert_id in H' by done. by exists e'.
Qed.

(** A vector that fills its block. *)
Lemma vec_exact h q d :
  let n := Z.of_nat (length d) in fresh_block q d h → vec_at (with_block q d h) (mkVec q n n) d.
Proof. intros n Hq. exists []. rewrite app_nil_r. split_and!; [by apply has_with_block|done..]. Qed.

(** Blocks made in either order. *)
Lemma fresh_under q d p c h :
  h !! p = None → fresh_block q d (<[p := c]> h) → 
  fresh_block q d h ∧ with_block q d (<[p := c]> h) = <[p := c]> (with_block q d h) ∧
  with_block q d h !! p = None.
Proof.
  destruct d as [|b d]; [done|]. cbn. intros Hp [Hq Hne]%lookup_insert_None.
  by rewrite insert_insert_ne, lookup_insert_ne by done.
Qed.

(** *** Reading *)
Lemma get_abi e h ρ key k :
  at_heap e h ρ → host_ready e → slice_at h key k → REGION_ROOM ≤ ρ →
  ends (lift (Vm.do_db_read k) (outside e)) (ext_get panic_text key e) (λ r o,
    match r with
    | None => ∃ e', ext_get panic_text key e = (Ok None, e') ∧ outside e' = o ∧ at_heap e' h (ρ - REGION_ROOM)
    | Some d =>
        let n := Z.of_nat (length d) in
        REGION_ROOM + result_room n ≤ ρ →
        ∃ v e', ext_get panic_text key e = (Ok (Some v), e') ∧ outside e' = o ∧
          fresh_block (v_ptr v) d h ∧ vec_at (with_block (v_ptr v) d h) v d ∧
          at_heap e' (with_block (v_ptr v) d h) (ρ - REGION_ROOM - result_room n)
    end).
Proof.
  intros He Hr Hs Hρ.
  destruct (arg_region e h ρ key k He Hr Hs Hρ) as (p & r & e1 & m & (Hrun & He1 & Ho) & Hp & Hrd & _ & _ & _ & Hold).
  unfold ext_get at 1. rewrite (bind_Ok _ _ _ _ _ Hrun), <-Ho.
  eapply import_ends; [done|by apply read_refines with m|].
  intros [d|] e2 _ He2 Hi; cbn beta iota.
  - intros Hroom. set (n := Z.of_nat (length d)) in *. cbn [report] in Hi.
    destruct (write_to_contract_run panic_text exported e2 _ _ abi d He2 Hallocate) as
      (p' & q & e3 & Hw & Ho3 & Hp'0 & Hq & Hp' & Hreg & He3); [done|unfold result_room in *; lia|].
    rewrite Hw in Hi. fold n in He3.
    destruct (take_result e3 _ _ d p' q He3 Hq Hp') as (e4 & (Hc & He4 & Ho4)).
    destruct (fresh_under q d p (Region_bytes r) h Hp Hq) as (Hq' & Hcomm & Hp2). rewrite Hcomm in He4.
    destruct (drop_region_run exported e4 _ _ p r He4) as (e5 & (Hd & He5 & Ho5)); [by rewrite lookup_insert_eq|].
    rewrite delete_insert_id in He5 by done.
    exists (mkVec q n n), e5. split_and!.
    + unfold ext_get. rewrite (bind_Ok _ _ _ _ _ Hrun), (bind_Ok _ _ _ _ _ (import_Ok _ _ _ _ Hi)).
      destruct (Z.eqb_spec p' 0); [done|]. by rewrite (bind_Ok _ _ _ _ _ Hc), (bind_Ok _ _ _ _ _ Hd).
    + congruence.
    + done.
    + by apply vec_exact.
    + eapply at_heap_room; [done|]. unfold result_room. lia.
  - cbn [report] in Hi. 
    destruct (drop_region_run exported e2 _ _ p r He2) as (e3 & (Hd & He3 & Ho3)); [by rewrite lookup_insert_eq|].
    rewrite delete_insert_id in He3 by done.
    exists e3. split_and!; [|done|done].
    unfold ext_get. rewrite (bind_Ok _ _ _ _ _ Hrun), (bind_Ok _ _ _ _ _ (import_Ok _ _ _ _ Hi)).
    cbn [Z.eqb]. by rewrite (bind_Ok _ _ _ _ _ Hd).
Qed.

(** *** Writing *)
Lemma drop_boxed e h ρ p r :
  at_heap e (<[p := Region_bytes r]> h) ρ → h !! p = None →
  ∃ e', drop_region p e = (Ok tt, e') ∧ outside e' = outside e ∧ at_heap e' h ρ.
Proof.
  intros He Hp. destruct (drop_region_run exported e _ ρ p r He) as (e' & (Hd & He' & Ho));
    [by rewrite lookup_insert_eq|].
  rewrite delete_insert_id in He' by done. by exists e'.
Qed.

Lemma slice_at_insert h s d p c : h !! p = None → slice_at h s d → slice_at (<[p := c]> h) s d.
Proof. intros Hp. apply slice_at_mono. by apply insert_subseteq. Qed.

Lemma remove_abi e h ρ key k :
  at_heap e h ρ → host_ready e → slice_at h key k → REGION_ROOM ≤ ρ →
  ends (lift (Vm.do_db_remove k) (outside e)) (ext_remove panic_text key e) (λ _ o,
    ∃ e', ext_remove panic_text key e = (Ok tt, e') ∧ outside e' = o ∧ at_heap e' h (ρ - REGION_ROOM)).
Proof.
  intros He Hr Hs Hρ.
  destruct (arg_region e h ρ key k He Hr Hs Hρ) as (p & r & e1 & m & (Hrun & He1 & Ho) & Hp & Hrd & _ & _ & _ & Hold).
  unfold ext_remove at 1. rewrite (bind_Ok _ _ _ _ _ Hrun), <-Ho.
  eapply (import_ends _ _ mret); [done|rewrite bind_ret_r; by apply remove_refines with m|].
  intros [] e2 _ He2 Hi. destruct (drop_boxed _ _ _ _ _ He2 Hp) as (e3 & Hd & Ho3 & He3).
  exists e3. split_and!; [|done|done]. unfold ext_remove.
  by rewrite (bind_Ok _ _ _ _ _ Hrun), (bind_Ok _ _ _ _ _ (import_Ok _ _ _ _ Hi)).
Qed.

Lemma set_abi e h ρ key value k v :
  at_heap e h ρ → host_ready e → slice_at h key k → slice_at h value v → v ≠ [] →
  2 * REGION_ROOM ≤ ρ →
  ends (lift (Vm.do_db_write k v) (outside e)) (ext_set panic_text key value e) (λ _ o,
    ∃ e', ext_set panic_text key value e = (Ok tt, e') ∧ outside e' = o ∧
      at_heap e' h (ρ - 2 * REGION_ROOM)).
Proof.
  intros He Hr Hk Hv Hne Hρ.
  assert (s_len value ≠ 0) as Hlen by (destruct Hv as [-> _]; destruct v; [done|cbn; lia]).
  destruct (arg_region e h ρ key k He Hr Hk) as (p & r & e1 & m1 & (Hrun & He1 & Ho) & Hp & _ & Hr1 & _ & Hreg & _).
  { unfold REGION_ROOM, REGION_SIZE, OVERHEAD in *. lia. }
  destruct (arg_region e1 _ _ value v He1 Hr1 (slice_at_insert _ _ _ _ _ Hp Hv))
    as (q & r' & e2 & m & (Hrun2 & He2 & Ho2) & Hq & Hrd & _ & Hb & _ & Hval); [lia|].
  assert (region_holds m p k) as Hkey.
  { eapply region_holds_slice; [exact Hb| |].
    - apply slice_at_insert; [done|]. by apply slice_at_insert.
    - eapply region_at_mono; [|exact Hreg]. by apply insert_subseteq. }
  assert (∀ (b : G unit), (if s_len value =? 0 then guest_panic panic_text empty_value else b) = b) as Hif.
  { intros b. by destruct (Z.eqb_spec (s_len value) 0). }
  unfold ext_set at 1. rewrite Hif, (bind_Ok _ _ _ _ _ Hrun), (bind_Ok _ _ _ _ _ Hrun2).
  replace (outside e) with (outside e2) by congruence.
  eapply (import_ends _ _ mret); [done|rewrite bind_ret_r; by apply write_refines with m|].
  intros [] e3 _ He3 Hi. destruct (drop_boxed _ _ _ _ _ He3 Hq) as (e4 & Hd & Ho4 & He4).
  destruct (drop_boxed _ _ _ _ _ He4 Hp) as (e5 & Hd5 & Ho5 & He5).
  exists e5. split_and!; [|congruence|].
  - unfold ext_set. rewrite Hif.
    by rewrite (bind_Ok _ _ _ _ _ Hrun), (bind_Ok _ _ _ _ _ Hrun2), (bind_Ok _ _ _ _ _ (import_Ok _ _ _ _ Hi)),
      (bind_Ok _ _ _ _ _ Hd).
  - eapply at_heap_room; [done|lia].
Qed.

(** *** Queries *)
Lemma raw_query_abi e h ρ request d :
  at_heap e h ρ → host_ready e → slice_at h request d → REGION_ROOM ≤ ρ →
  ends (lift (host_call query_raw (HQueryChain d)) (outside e)) (ext_raw_query panic_text request e) (λ response o,
    let n := Z.of_nat (length response) in
    REGION_ROOM + result_room n ≤ ρ →
    ∃ e' h', outside e' = o ∧ at_heap e' h' (ρ - REGION_ROOM - result_room n) ∧ h ⊆ h' ∧
      ext_raw_query panic_text request e =
      (Ok (match from_slice response with
           | inr result => result
           | inl x => SRErr (InvalidResponse (StdError_to_string x) response)
           end), e')).
Proof.
  intros He Hr Hs Hρ.
  destruct (arg_region e h ρ request d He Hr Hs Hρ) as (p & r & e1 & m & (Hrun & He1 & Ho) & Hp & Hrd & _ & _ & _ & Hold).
  unfold ext_raw_query at 1. rewrite (bind_Ok _ _ _ _ _ Hrun), <-Ho.
  eapply import_ends; [done|by apply query_refines with m|].
  intros response e2 _ He2 Hi. cbn zeta. intros Hroom. set (n := Z.of_nat (length response)) in *.
  destruct (write_to_contract_run panic_text exported e2 _ _ abi response He2 Hallocate) as
    (p' & q & e3 & Hw & Ho3 & Hp'0 & Hq & Hp' & Hreg & He3); [done|unfold result_room in *; lia|].
  rewrite Hw in Hi. fold n in He3.
  destruct (take_result e3 _ _ response p' q He3 Hq Hp') as (e4 & (Hc & He4 & Ho4)).
  pose proof (slice_bytes_run exported e4 _ _ _ response He4 (vec_slice _ _ _ (vec_exact _ _ _ Hq))) as Hsl.
  destruct (fresh_under q response p (Region_bytes r) h Hp Hq) as (Hq' & Hcomm & Hp2).
  destruct (from_slice response) as [x|result] eqn:Hx.
  - rewrite Hcomm in He4. destruct (drop_boxed _ _ _ _ _ He4 Hp2) as (e5 & Hd & Ho5 & He5).
    exists e5, (with_block q response h). split_and!; [congruence| |by apply with_block_sub|].
    + eapply at_heap_room; [done|unfold result_room; lia].
    + unfold ext_raw_query. rewrite (bind_Ok _ _ _ _ _ Hrun), (bind_Ok _ _ _ _ _ (import_Ok _ _ _ _ Hi)).
      rewrite (bind_Ok _ _ _ _ _ Hc), (bind_Ok _ _ _ _ _ Hsl), Hx. by rewrite (bind_Ok _ _ _ _ _ Hd).
  - destruct (drop_block_run exported e4 _ _ q response He4 (has_with_block _ _ _ Hq)) as (e5 & (Hd & He5 & Ho5)).
    rewrite without_with_block in He5 by done.
    destruct (drop_boxed _ _ _ _ _ He5 Hp) as (e6 & Hd6 & Ho6 & He6).
    exists e6, h. split_and!; [congruence| |done|].
    + eapply at_heap_room; [done|unfold result_room; lia].
    + unfold ext_raw_query. rewrite (bind_Ok _ _ _ _ _ Hrun), (bind_Ok _ _ _ _ _ (import_Ok _ _ _ _ Hi)).
      rewrite (bind_Ok _ _ _ _ _ Hc), (bind_Ok _ _ _ _ _ Hsl), Hx. unfold drop_vec. cbn [v_ptr v_cap].
      fold n in Hd. by rewrite (bind_Ok _ _ _ _ _ Hd), (bind_Ok _ _ _ _ _ Hd6).
Qed.

(** *** Iterators *)
Definition opt_slice_at (h : heap) (s : option Slice) (d : option bytes) : Prop :=
  match s, d with
  | None, None => True
  | Some s, Some d => slice_at h s d
  | _, _ => False
  end.
Definition opt_box (p : option Z) (r : Region) (h : heap) : heap :=
  match p with None => h | Some p => <[p := Region_bytes r]> h end.
Definition opt_fresh (p : option Z) (h : heap) : Prop :=
  match p with None => True | Some p => h !! p = None end.

Lemma opt_box_sub p r h : opt_fresh p h → h ⊆ opt_box p r h.
Proof. destruct p; [|done]. cbn. intros. by apply insert_subseteq. Qed.

Lemma opt_slice_at_mono h h' s d : h ⊆ h' → opt_slice_at h s d → opt_slice_at h' s d.
Proof. intros Hs. destruct s, d; try done. cbn. by apply slice_at_mono. Qed.

Lemma opt_region e h ρ s d :
  at_heap e h ρ → host_ready e → opt_slice_at h s d → REGION_ROOM ≤ ρ →
  ∃ p r e1, goes (build_optional_region panic_text s) e p (opt_box p r h) (ρ - REGION_ROOM) e1 ∧
    opt_fresh p h ∧ host_ready e1 ∧
    ∀ m h', backs m h' → opt_box p r h ⊆ h' →
      maybe_region_holds m (get_optional_region_address p) d.
Proof.
  intros He Hr Hs Hρ. destruct s as [s|], d as [d|]; try done; cbn in Hs.
  - destruct (arg_region e h ρ s d He Hr Hs Hρ) as (p & r & e1 & m & Hgo & Hp & Hrd & Hr1 & Hb & Hreg & Hd).
    pose proof Hgo as (Hrun & He1 & Ho).
    exists (Some p), r, e1. split_and!; [|done|done|].
    + eapply goes_bind; [exact Hgo|]. by apply goes_ret.
    + intros m' h' Hb' Hsub. cbn. split.
      * destruct (at_heap_block _ _ _ _ p (Region_bytes r) He1) as (? & _); [by rewrite lookup_insert_eq|lia].
      * eapply region_holds_slice; [done| |by eapply region_at_mono].
        eapply slice_at_mono; [exact Hsub|]. by apply slice_at_insert.
  - exists None, (mkRegion 0 0 0), e. split_and!; [|done|done|done].
    apply goes_ret. eapply at_heap_room; [done|]. unfold REGION_ROOM, REGION_SIZE, OVERHEAD. lia.
Qed.

Lemma drop_opt_boxed e h ρ p r :
  at_heap e (opt_box p r h) ρ → opt_fresh p h →
  ∃ e', drop_optional_region p e = (Ok tt, e') ∧ outside e' = outside e ∧ at_heap e' h ρ.
Proof. intros He Hp. destruct p; [by eapply drop_boxed|by exists e]. Qed.

Lemma range_abi e h ρ start stop order s t :
  at_heap e h ρ → host_ready e → opt_slice_at h start s → opt_slice_at h stop t →
  2 * REGION_ROOM ≤ ρ →
  ends (lift (Vm.do_db_scan s t (order_to_i32 order)) (outside e)) (ext_range panic_text start stop order e)
    (λ id o, ∃ e', ext_range panic_text start stop order e = (Ok id, e') ∧ outside e' = o ∧
      at_heap e' h (ρ - 2 * REGION_ROOM)).
Proof.
  intros He Hr Hs Ht Hρ.
  destruct (opt_region e h ρ start s He Hr Hs) as (p & r & e1 & (Hrun & He1 & Ho) & Hp & Hr1 & Hhp).
  { unfold REGION_ROOM, REGION_SIZE, OVERHEAD in *. lia. }
  destruct (opt_region e1 _ _ stop t He1 Hr1) as (q & r' & e2 & (Hrun2 & He2 & Ho2) & Hq & Hr2 & Hhq).
  { eapply opt_slice_at_mono; [|done]. by apply opt_box_sub. } { lia. }
  destruct (ready_of _ _ _ He2 Hr2) as (m & Hrd & Hb).
  unfold ext_range at 1. rewrite (bind_Ok _ _ _ _ _ Hrun), (bind_Ok _ _ _ _ _ Hrun2).
  replace (outside e) with (outside e2) by congruence.
  eapply (import_ends _ _ mret); [done| |].
  { rewrite bind_ret_r. apply scan_refines with m; [done| |by apply (Hhq m _ Hb)].
    apply (Hhp m _ Hb). by apply opt_box_sub. }
  intros id e3 _ He3 Hi. destruct (drop_opt_boxed _ _ _ _ _ He3 Hq) as (e4 & Hd & Ho4 & He4).
  destruct (drop_opt_boxed _ _ _ _ _ He4 Hp) as (e5 & Hd5 & Ho5 & He5).
  exists e5. split_and!; [|congruence|].
  - unfold ext_range. rewrite (bind_Ok _ _ _ _ _ Hrun), (bind_Ok _ _ _ _ _ Hrun2). cbn zeta.
    by rewrite (bind_Ok _ _ _ _ _ (import_Ok _ _ _ _ Hi)), (bind_Ok _ _ _ _ _ Hd), (bind_Ok _ _ _ _ _ Hd5).
  - eapply at_heap_room; [done|lia].
Qed.

(** The sections of a record, split in memory. *)
Abbreviation be_len s := (to_be_bytes (Z.of_nat (length s))).

Lemma tail_length_encoded pre s :
  Z.of_nat (length s) < U32 → tail_length (pre ++ s ++ be_len s) = Some (Z.of_nat (length s)).
Proof.
  intros Hs. unfold tail_length. set (t := be_len s).
  rewrite <-(app_nil_r (pre ++ s ++ t)).
  assert (length ((pre ++ s ++ t) ++ []) = length pre + length s + 4)%nat as -> by
    (rewrite app_nil_r, !length_app; unfold t; rewrite length_to_be_bytes; lia).
  rewrite (lookup_tail pre s t [] _ 0), (lookup_tail pre s t [] _ 1),
    (lookup_tail pre s t [] _ 2), (lookup_tail pre s t [] _ 3) by (unfold t; cbn; lia).
  unfold t. cbn [to_be_bytes lookup list_lookup].
  destruct (Nat.ltb_spec (length pre + length s + 4) 4); [lia|].
  by rewrite be_bytes_roundtrip by lia.
Qed.

(** The last section alone: the vector is cut. *)
Lemma split_tail_last e h ρ v s :
  at_heap e h ρ → vec_at h v (s ++ be_len s) → Z.of_nat (length s) < U32 →
  split_tail panic_text v e = (Ok (mkVec DANGLING 0 0, mkVec (v_ptr v) (Z.of_nat (length s)) (v_cap v)), e).
Proof.
  intros He Hv Hs. unfold split_tail.
  rewrite (bind_Ok _ _ _ _ _ (slice_bytes_run exported e h ρ _ _ He (vec_slice _ _ _ Hv))).
  change (s ++ be_len s) with ([] ++ s ++ be_len s) at 1. rewrite tail_length_encoded by done. destruct Hv as (rest & _ & Hl & _).
  rewrite length_app, length_to_be_bytes in Hl.
  destruct (Z.ltb_spec (v_len v - 4) (Z.of_nat (length s))); [lia|].
  destruct (Z.eqb_spec (v_len v - 4 - Z.of_nat (length s)) 0); [|lia].
  unfold truncate. by rewrite Z.min_l by lia.
Qed.

(** The last of several: it is copied to a block of its own. *)
Lemma split_tail_more e h ρ v pre s :
  at_heap e h ρ → vec_at h v (pre ++ s ++ be_len s) → pre ≠ [] → Z.of_nat (length s) < U32 →
  Z.of_nat (length s) + 4 + OVERHEAD ≤ ρ →
  ∃ q e', goes (split_tail panic_text v) e
      (mkVec (v_ptr v) (Z.of_nat (length pre)) (v_cap v), mkVec q (Z.of_nat (length s)) (Z.of_nat (length s) + 4))
      (<[q := s ++ be_len s]> h) (ρ - Z.of_nat (length s) - 4 - OVERHEAD) e' ∧ h !! q = None.
Proof.
  intros He Hv Hpre Hs Hρ.
  pose proof (slice_bytes_run exported e h ρ _ _ He (vec_slice _ _ _ Hv)) as Hsl.
  assert (v_len v = Z.of_nat (length pre) + Z.of_nat (length s) + 4) as Hlen.
  { destruct Hv as (rest & _ & Hl & _). rewrite !length_app, length_to_be_bytes in Hl. lia. }
  assert (0 < length pre)%nat by (destruct pre; [done|cbn; lia]).
  destruct (with_capacity_run panic_text exported e h ρ (Z.of_nat (length s) + 4) He)
    as (q & c & e1 & (Hrun & He1 & Ho1) & Hq & Hc); [lia|lia|].
  destruct c as [|b c]; [cbn in Hc; lia|]. cbn [with_block fresh_block] in *.
  destruct (gstore_run exported e1 _ _ q (b :: c) 0 (s ++ be_len s) He1) as (e2 & (Hst & He2 & Ho2)).
  { by rewrite lookup_insert_eq. } { rewrite length_app, length_to_be_bytes. lia. }
  rewrite list_inserts_all in He2 by (rewrite length_app, length_to_be_bytes; lia).
  rewrite insert_insert_eq, Z.add_0_r in *.
  pose proof (slice_bytes_run exported e1 _ _ _ _ He1
    (slice_at_insert _ _ _ q (b :: c) Hq (vec_slice _ _ _ Hv))) as Hsl1.
  exists q, e2. split; [|done]. split_and!; [|eapply at_heap_room; [done|lia]|congruence].
  unfold split_tail. rewrite (bind_Ok _ _ _ _ _ Hsl), tail_length_encoded by done.
  destruct (Z.ltb_spec (v_len v - 4) (Z.of_nat (length s))); [lia|].
  destruct (Z.eqb_spec (v_len v - 4 - Z.of_nat (length s)) 0); [lia|].
  replace (v_len v - 4 - Z.of_nat (length s)) with (Z.of_nat (length pre)) by lia.
  unfold split_off. replace (v_len v - Z.of_nat (length pre)) with (Z.of_nat (length s) + 4) by lia.
  rewrite bind_assoc, (bind_Ok _ _ _ _ _ Hrun), bind_assoc, (bind_Ok _ _ _ _ _ Hsl1).
  rewrite Nat2Z.id, drop_app_length, bind_assoc, (bind_Ok _ _ _ _ _ Hst), bind_ret_l.
  unfold truncate. cbn [v_ptr v_len v_cap]. by rewrite Z.min_l by lia.
Qed.

(** Both sections of a record. *)
Definition record_room (k v : bytes) : Z :=
  result_room (Z.of_nat (length k) + Z.of_nat (length v) + 8) + Z.of_nat (length v) + 4 + OVERHEAD.

Lemma decode_record e h ρ q k v :
  let d := k ++ be_len k ++ v ++ be_len v in
  let n := Z.of_nat (length d) in
  at_heap e (<[q := d]> h) ρ → h !! q = None →
  Z.of_nat (length k) < U32 → Z.of_nat (length v) < U32 → Z.of_nat (length v) + 4 + OVERHEAD ≤ ρ →
  ∃ q' e', goes (decode_sections2 panic_text (mkVec q n n)) e
      (mkVec q (Z.of_nat (length k)) n, mkVec q' (Z.of_nat (length v)) (Z.of_nat (length v) + 4))
      (<[q' := v ++ be_len v]> (<[q := d]> h)) (ρ - Z.of_nat (length v) - 4 - OVERHEAD) e' ∧
    <[q := d]> h !! q' = None.
Proof.
  intros d n He Hq Hk Hv Hρ.
  assert (d = (k ++ be_len k) ++ v ++ be_len v) as Hd by (unfold d; by rewrite <-app_assoc).
  assert (has_block q d (<[q := d]> h)) as Hblock.
  { unfold has_block. rewrite lookup_insert_eq. unfold d. by destruct k. }
  destruct (split_tail_more e _ ρ (mkVec q n n) (k ++ be_len k) v He) as (q' & e1 & Hgo & Hq'); [| |done..|].
  { rewrite <-Hd. exists []. by rewrite app_nil_r. } { by destruct k. }
  cbn [v_ptr v_cap] in Hgo. pose proof Hgo as (_ & He1 & _).
  assert (vec_at (<[q' := v ++ be_len v]> (<[q := d]> h))
    (mkVec q (Z.of_nat (length (k ++ be_len k))) n) (k ++ be_len k)) as Hrest.
  { exists (v ++ be_len v). rewrite <-Hd. split_and!; [|done|done]. cbn.
    eapply has_block_mono; [|exact Hblock]. by apply insert_subseteq. }
  exists q', e1. split; [|done]. eapply goes_bind; [exact Hgo|]. cbn beta iota.
  pose proof (split_tail_last e1 _ _ _ k He1 Hrest Hk) as Hlast. cbn [v_ptr v_cap] in Hlast.
  split_and!; [|done..]. by rewrite (bind_Ok _ _ _ _ _ Hlast).
Qed.

Lemma next_abi e h ρ id :
  at_heap e h ρ → host_ready e →
  ends (lift (Vm.do_db_next id) (outside e)) (ext_next panic_text id e) (λ d o,
    ∀ k v, Sections.encode_sections [k; v] = inr d → record_room k v ≤ ρ →
    match k with
    | [] => ∃ e', ext_next panic_text id e = (Ok None, e') ∧ outside e' = o ∧
              at_heap e' h (ρ - record_room k v)
    | _ => ∃ kv vv e' h', ext_next panic_text id e = (Ok (Some (kv, vv)), e') ∧ outside e' = o ∧
             vec_at h' kv k ∧ vec_at h' vv v ∧ h ⊆ h' ∧ at_heap e' h' (ρ - record_room k v)
    end).
Proof.
  intros He Hr. destruct (ready_of _ _ _ He Hr) as (m & Hrd & _). unfold ext_next at 1.
  eapply import_ends; [done|by apply next_refines with m|].
  intros d e1 _ He1 Hi k v Henc Hρ.
  assert (d = k ++ be_len k ++ v ++ be_len v ∧ Z.of_nat (length k) < U32 ∧ Z.of_nat (length v) < U32)
    as (Hd & Hk & Hv).
  { cbn [Sections.encode_sections] in Henc. unfold to_u32 in Henc. destruct (Z.ltb_spec (Z.of_nat (length k)) U32); [|done].
    destruct (Z.ltb_spec (Z.of_nat (length v)) U32); [|done]. injection Henc as <-. done. }
  set (n := Z.of_nat (length d)).
  assert (n = Z.of_nat (length k) + Z.of_nat (length v) + 8) as Hn.
  { unfold n. rewrite Hd, !length_app, !length_to_be_bytes. lia. }
  destruct (write_to_contract_run panic_text exported e1 h ρ abi d He1 Hallocate) as
    (p & q & e2 & Hw & Ho2 & Hp0 & Hq & Hp & Hreg & He2); [done| |].
  { fold n. unfold record_room, result_room, OVERHEAD in *. lia. }
  rewrite Hw in Hi. fold n in He2.
  destruct (take_result e2 h _ d p q He2 Hq Hp) as (e3 & (Hc & He3 & Ho3)). fold n in Hc.
  assert (with_block q d h = <[q := d]> h ∧ h !! q = None) as [Hwb Hq'].
  { rewrite Hd in *. by destruct k. }
  rewrite Hwb in He3. pose proof Hd as Hd'.
  destruct (decode_record e3 h (ρ - n - REGION_SIZE - 2 * OVERHEAD) q k v) as (q' & e4 & (Hdec & He4 & Ho4) & Hq2).
  { by rewrite <-Hd. } { done. } { done. } { done. }
  { unfold record_room, result_room, OVERHEAD in *. lia. }
  rewrite <-Hd in Hdec, He4, Hq2. fold n in Hdec.
  assert (∀ U (f : Vec * Vec → G U), (next_result ← import (do_db_next abi id); kv ← consume_region panic_text next_result;
    x ← decode_sections2 panic_text kv; f x) e =
    f (mkVec q (Z.of_nat (length k)) n, mkVec q' (Z.of_nat (length v)) (Z.of_nat (length v) + 4)) e4) as Hrun.
  { intros U f. by rewrite (bind_Ok _ _ _ _ _ (import_Ok _ _ _ _ Hi)), (bind_Ok _ _ _ _ _ Hc), (bind_Ok _ _ _ _ _ Hdec). }
  assert (has_block q' (v ++ be_len v) (<[q' := v ++ be_len v]> (<[q := d]> h))) as Hbv.
  { unfold has_block. rewrite lookup_insert_eq. by destruct v. }
  assert (has_block q d (<[q := d]> h)) as Hbk.
  { unfold has_block. rewrite lookup_insert_eq. rewrite Hd. by destruct k. }
  destruct k as [|b k].
  - destruct (drop_vec_run exported e4 _ _ (mkVec q' (Z.of_nat (length v)) (Z.of_nat (length v) + 4)) v (be_len v) He4 Hbv)
      as (e5 & (Hd5 & He5 & Ho5)); [cbn; rewrite length_app, length_to_be_bytes; lia|].
    assert (without_block q' (v ++ be_len v) (<[q' := v ++ be_len v]> (<[q := d]> h)) = <[q := d]> h) as Hwo.
    { transitivity (delete q' (<[q' := v ++ be_len v]> (<[q := d]> h))); [by destruct v|by apply delete_insert_id]. }
    cbn [v_ptr] in He5. rewrite Hwo in He5.
    destruct (drop_vec_run exported e5 _ _ (mkVec q 0 n) [] d He5 Hbk) as (e6 & (Hd6 & He6 & Ho6)); [done|].
    assert (without_block q d (<[q := d]> h) = h) as Hwo2.
    { transitivity (delete q (<[q := d]> h)); [by rewrite Hd|by apply delete_insert_id]. }
    cbn [v_ptr app] in He6. rewrite Hwo2 in He6.
    exists e6. split_and!.
    + unfold ext_next. rewrite Hrun. change (v_len (mkVec q (Z.of_nat (length [])) n) =? 0) with true.
      cbn beta iota. change (Z.of_nat (length [])) with 0.
      by rewrite (bind_Ok _ _ _ _ _ Hd5), (bind_Ok _ _ _ _ _ Hd6).
    + congruence.
    + eapply at_heap_room; [done|]. unfold record_room, result_room. lia.
  - exists (mkVec q (Z.of_nat (length (b :: k))) n), (mkVec q' (Z.of_nat (length v)) (Z.of_nat (length v) + 4)), e4.
    eexists. split_and!; [| | | | |eapply at_heap_room; [exact He4|]].
    + unfold ext_next. by rewrite Hrun.
    + congruence.
    + exists (be_len (b :: k) ++ v ++ be_len v). rewrite <-Hd. split_and!; [|done..].
      eapply has_block_mono; [|exact Hbk]. by apply insert_subseteq.
    + exists (be_len v). split_and!; [done|done|]. cbn. rewrite length_app, length_to_be_bytes. lia.
    + etrans; by apply insert_subseteq.
    + unfold record_room, result_room. lia.
Qed.
End Abi.
