(* ===== verification/Ibc.v ===== *)
(** * IBC messages ([cosmwasm/packages/std/src/ibc.rs], with the feature [ibc3])

    The data of the IBC entry points: channels, packets, timeouts, the messages of
    the handshake and of the packets' life, and the two kinds of response. *)

From S2P Require Import Prelude.
From S2P Require Import CwStd.
From S2P Require Import StdError.
From S2P Require Import Storage.
From S2P Require Import TypedStorage.

Open Scope Z_scope.

Record IbcEndpoint := mkIbcEndpoint { port_id : string; channel_id : string }.

(** Two [u64]. *)
Record IbcTimeoutBlock := mkTimeoutBlock { revision : Z; tb_height : Z }.

Record IbcTimeout := mkIbcTimeout { block : option IbcTimeoutBlock; timestamp : option Z }.

Inductive IbcMsg :=
| IbcTransfer (channel_id to_address : string) (amount : Coin) (timeout : IbcTimeout)
| IbcSendPacket (channel_id : string) (data : Binary) (timeout : IbcTimeout)
| IbcCloseChannel (channel_id : string).

Definition with_block (b : IbcTimeoutBlock) : IbcTimeout := mkIbcTimeout (Some b) None.
Definition with_timestamp (t : Z) : IbcTimeout := mkIbcTimeout None (Some t).
Definition with_both (b : IbcTimeoutBlock) (t : Z) : IbcTimeout := mkIbcTimeout (Some b) (Some t).
Definition timeout_of_timestamp (t : Z) : IbcTimeout := with_timestamp t.
Definition timeout_of_block (b : IbcTimeoutBlock) : IbcTimeout := with_block b.

Definition timeout_block_is_zero (self : IbcTimeoutBlock) : bool :=
  (revision self =? 0) && (tb_height self =? 0).

(** [Ord for IbcTimeoutBlock]. *)
Definition timeout_block_cmp (self other : IbcTimeoutBlock) : comparison :=
  match revision self ?= revision other with
  | Eq => tb_height self ?= tb_height other
  | c => c
  end.
Definition timeout_block_partial_cmp (self other : IbcTimeoutBlock) : option comparison :=
  Some (timeout_block_cmp self other).

Inductive IbcOrder := Unordered | Ordered.

Record IbcChannel := mkIbcChannel {
  endpoint : IbcEndpoint;
  counterparty_endpoint : IbcEndpoint;
  ch_order : IbcOrder;
  version : string;
  connection_id : string
}.
Definition IbcChannel_new := mkIbcChannel.

Record IbcPacket := mkIbcPacket {
  packet_data : Binary;
  src : IbcEndpoint;
  dest : IbcEndpoint;
  packet_sequence : Z;
  packet_timeout : IbcTimeout
}.
Definition IbcPacket_new := mkIbcPacket.

Record IbcAcknowledgement := mkIbcAck { ack_data : Binary }.
Definition IbcAcknowledgement_new := mkIbcAck.
Definition encode_json `{Json T} (data : T) : StdError + IbcAcknowledgement :=
  match to_vec data with inr b => inr (mkIbcAck b) | inl e => inl e end.

(** ** The handshake *)
Inductive IbcChannelOpenMsg :=
| OpenInit (channel : IbcChannel)
| OpenTry (channel : IbcChannel) (counterparty_version : string).

Module OpenMsg.
Definition new_init := OpenInit.
Definition new_try := OpenTry.
Definition channel (self : IbcChannelOpenMsg) : IbcChannel :=
  match self with OpenInit channel | OpenTry channel _ => channel end.
Definition counterparty_version (self : IbcChannelOpenMsg) : option string :=
  match self with OpenTry _ v => Some v | _ => None end.
Definition into_channel (msg : IbcChannelOpenMsg) : IbcChannel :=
  match msg with OpenInit channel => channel | OpenTry channel _ => channel end.
End OpenMsg.

Record Ibc3ChannelOpenResponse := mkIbc3OpenResponse { open_version : string }.
Abbreviation IbcChannelOpenResponse := (option Ibc3ChannelOpenResponse).

Inductive IbcChannelConnectMsg :=
| OpenAck (channel : IbcChannel) (counterparty_version : string)
| OpenConfirm (channel : IbcChannel).

Module ConnectMsg.
Definition new_ack := OpenAck.
Definition new_confirm := OpenConfirm.
Definition channel (self : IbcChannelConnectMsg) : IbcChannel :=
  match self with OpenAck channel _ | OpenConfirm channel => channel end.
Definition counterparty_version (self : IbcChannelConnectMsg) : option string :=
  match self with OpenAck _ v => Some v | _ => None end.
Definition into_channel (msg : IbcChannelConnectMsg) : IbcChannel :=
  match msg with OpenAck channel _ => channel | OpenConfirm channel => channel end.
End ConnectMsg.

Inductive IbcChannelCloseMsg :=
| CloseInit (channel : IbcChannel)
| CloseConfirm (channel : IbcChannel).

Module CloseMsg.
Definition new_init := CloseInit.
Definition new_confirm := CloseConfirm.
Definition channel (self : IbcChannelCloseMsg) : IbcChannel :=
  match self with CloseInit channel | CloseConfirm channel => channel end.
Definition into_channel (msg : IbcChannelCloseMsg) : IbcChannel :=
  match msg with CloseInit channel => channel | CloseConfirm channel => channel end.
End CloseMsg.

(** ** Packets *)
Record IbcPacketReceiveMsg := mkReceiveMsg { rm_packet : IbcPacket; rm_relayer : Addr }.
Definition IbcPacketReceiveMsg_new := mkReceiveMsg.
Record IbcPacketAckMsg := mkAckMsg {
  acknowledgement : IbcAcknowledgement;
  original_packet : IbcPacket;
  am_relayer : Addr
}.
Definition IbcPacketAckMsg_new := mkAckMsg.
Record IbcPacketTimeoutMsg := mkTimeoutMsg { tm_packet : IbcPacket; tm_relayer : Addr }.
Definition IbcPacketTimeoutMsg_new := mkTimeoutMsg.

(** ** Responses *)
Record IbcBasicResponse := mkBasicResponse {
  br_messages : list SubMsg;
  br_attributes : list Attribute;
  br_events : list Event
}.

Module BasicResponse.
Definition default : IbcBasicResponse := mkBasicResponse [] [] [].
Definition new : IbcBasicResponse := default.
Definition add_attribute (key value : string) (self : IbcBasicResponse) : IbcBasicResponse :=
  mkBasicResponse (br_messages self) (br_attributes self ++ [mkAttribute key value]) (br_events self).
Definition add_submessage (msg : SubMsg) (self : IbcBasicResponse) : IbcBasicResponse :=
  mkBasicResponse (br_messages self ++ [msg]) (br_attributes self) (br_events self).
Definition add_message (msg : CosmosMsg) (self : IbcBasicResponse) : IbcBasicResponse :=
  mkBasicResponse (br_messages self ++ [SubMsg_new msg]) (br_attributes self) (br_events self).
Definition add_event (event : Event) (self : IbcBasicResponse) : IbcBasicResponse :=
  mkBasicResponse (br_messages self) (br_attributes self) (br_events self ++ [event]).
Definition add_attributes (attrs : list Attribute) (self : IbcBasicResponse) : IbcBasicResponse :=
  mkBasicResponse (br_messages self) (br_attributes self ++ attrs) (br_events self).
Definition add_submessages (msgs : list SubMsg) (self : IbcBasicResponse) : IbcBasicResponse :=
  mkBasicResponse (br_messages self ++ msgs) (br_attributes self) (br_events self).
Definition add_messages (msgs : list CosmosMsg) (self : IbcBasicResponse) : IbcBasicResponse :=
  add_submessages (SubMsg_new <$> msgs) self.
Definition add_events (events : list Event) (self : IbcBasicResponse) : IbcBasicResponse :=
  mkBasicResponse (br_messages self) (br_attributes self) (br_events self ++ events).
End BasicResponse.

Record IbcReceiveResponse := mkReceiveResponse {
  rr_acknowledgement : Binary;
  rr_messages : list SubMsg;
  rr_attributes : list Attribute;
  rr_events : list Event
}.

Module ReceiveResponse.
Definition default : IbcReceiveResponse := mkReceiveResponse [] [] [] [].
Definition new : IbcReceiveResponse := default.
Definition set_ack (ack : Binary) (self : IbcReceiveResponse) : IbcReceiveResponse :=
  mkReceiveResponse ack (rr_messages self) (rr_attributes self) (rr_events self).
Definition add_attribute (key value : string) (self : IbcReceiveResponse) : IbcReceiveResponse :=
  mkReceiveResponse (rr_acknowledgement self) (rr_messages self)
    (rr_attributes self ++ [mkAttribute key value]) (rr_events self).
Definition add_submessage (msg : SubMsg) (self : IbcReceiveResponse) : IbcReceiveResponse :=
  mkReceiveResponse (rr_acknowledgement self) (rr_messages self ++ [msg]) (rr_attributes self)
    (rr_events self).
Definition add_message (msg : CosmosMsg) (self : IbcReceiveResponse) : IbcReceiveResponse :=
  mkReceiveResponse (rr_acknowledgement self) (rr_messages self ++ [SubMsg_new msg])
    (rr_attributes self) (rr_events self).
Definition add_event (event : Event) (self : IbcReceiveResponse) : IbcReceiveResponse :=
  mkReceiveResponse (rr_acknowledgement self) (rr_messages self) (rr_attributes self)
    (rr_events self ++ [event]).
Definition add_attributes (attrs : list Attribute) (self : IbcReceiveResponse) : IbcReceiveResponse :=
  mkReceiveResponse (rr_acknowledgement self) (rr_messages self) (rr_attributes self ++ attrs)
    (rr_events self).
Definition add_submessages (msgs : list SubMsg) (self : IbcReceiveResponse) : IbcReceiveResponse :=
  mkReceiveResponse (rr_acknowledgement self) (rr_messages self ++ msgs) (rr_attributes self)
    (rr_events self).
Definition add_messages (msgs : list CosmosMsg) (self : IbcReceiveResponse) : IbcReceiveResponse :=
  add_submessages (SubMsg_new <$> msgs) self.
Definition add_events (events : list Event) (self : IbcReceiveResponse) : IbcReceiveResponse :=
  mkReceiveResponse (rr_acknowledgement self) (rr_messages self) (rr_attributes self)
    (rr_events self ++ events).
End ReceiveResponse.

(** ** Facts *)

(** Every way to make a timeout sets a block or a time, and what was set is returned. *)
Lemma timeout_is_set b t :
  block (with_block b) = Some b ∧ timestamp (with_timestamp t) = Some t ∧
  block (with_both b t) = Some b ∧ timestamp (with_both b t) = Some t ∧
  timestamp (with_block b) = None ∧ block (with_timestamp t) = None.
Proof. done. Qed.

(** Timeout blocks are ordered by revision, then height: a total order in agreement
    with equality. *)
Lemma timeout_block_cmp_eq a b : timeout_block_cmp a b = Eq ↔ a = b.
Proof.
  destruct a as [r h], b as [r' h']. unfold timeout_block_cmp. cbn.
  destruct (Z.compare_spec r r'); [|naive_solver lia..].
  rewrite Z.compare_eq_iff. naive_solver.
Qed.
Lemma timeout_block_cmp_antisym a b : timeout_block_cmp b a = CompOpp (timeout_block_cmp a b).
Proof.
  unfold timeout_block_cmp. rewrite (Z.compare_antisym (revision a)), (Z.compare_antisym (tb_height a)).
  by destruct (revision a ?= revision b).
Qed.
Lemma timeout_block_cmp_trans a b c :
  timeout_block_cmp a b = Lt → timeout_block_cmp b c = Lt → timeout_block_cmp a c = Lt.
Proof.
  unfold timeout_block_cmp.
  destruct (Z.compare_spec (revision a) (revision b)), (Z.compare_spec (revision b) (revision c)),
    (Z.compare_spec (revision a) (revision c)); rewrite ?Z.compare_lt_iff; intros; (done || lia).
Qed.
