(* ===== verification/HostCalls.v ===== *)
(** * Entry points ([cosmwasm/packages/vm/src]: [calls.rs], [serde.rs])

    All entry points of a contract as the host calls them, on the linear memory of
    the instance: arguments are serialized, the read-only flag is set, the export is
    called through regions ([Host.call_raw]) and its result is parsed within limits.
    [Vm] has the entry points the simulator uses, on byte strings. *)

From S2P Require Import Prelude.
From S2P Require Import CwStd.
From S2P Require Import Errors.
From S2P Require Import Client.
From S2P Require Import Memory.
From S2P Require Import Gas.
From S2P Require Import Host.
From S2P Require Import Ibc.

Open Scope Z_scope.

(** [serde_json] on one type. *)
Class SerdeJson (T : Type) := {
  sj_from_slice : bytes → string + T;
  sj_to_vec : T → string + bytes;
  sj_type_name : string
}.

Section calls.
Context {A S Q W X : Type} `{HWI : !WasmerInstance W} {HX : Externals} {HP : WasmPtr}.
Abbreviation ENV := (Environment A S Q W X).
Abbreviation HOST := (M VmError ENV).
Context (guest_call : string → list Val → M string ENV (list Val)).
Context `{!SerdeJson Env, !SerdeJson MessageInfo, !SerdeJson Reply}.
Context `{!SerdeJson (ContractResult Response), !SerdeJson (ContractResult Binary)}.
Context `{!SerdeJson IbcChannelOpenMsg, !SerdeJson IbcChannelConnectMsg, !SerdeJson IbcChannelCloseMsg}.
Context `{!SerdeJson IbcPacketReceiveMsg, !SerdeJson IbcPacketAckMsg, !SerdeJson IbcPacketTimeoutMsg}.
Context `{!SerdeJson (ContractResult IbcChannelOpenResponse), !SerdeJson (ContractResult IbcBasicResponse)}.
Context `{!SerdeJson (ContractResult IbcReceiveResponse)}.

(** ** [serde.rs] *)
Definition from_slice `{SerdeJson T} (value : bytes) (deserialization_limit : Z) : VmError + T :=
  if deserialization_limit <? Z.of_nat (length value) then
    inl (DeserializationLimitExceeded (Z.of_nat (length value)) deserialization_limit)
  else match sj_from_slice value with
  | inl e => inl (ParseErr (sj_type_name (T := T)) e)
  | inr a => inr a
  end.

Definition to_vec `{SerdeJson T} (data : T) : VmError + bytes :=
  match sj_to_vec data with
  | inl e => inl (SerializeErr (sj_type_name (T := T)) e)
  | inr b => inr b
  end.

(** ** [calls.rs] *)
Abbreviation call_raw := (Host.call_raw guest_call).

Definition call_instantiate_raw (env info msg : bytes) : HOST bytes :=
  _ ← set_storage_readonly false;
  call_raw "instantiate" [env; info; msg] READ_LIMIT.
Definition call_execute_raw (env info msg : bytes) : HOST bytes :=
  _ ← set_storage_readonly false;
  call_raw "execute" [env; info; msg] READ_LIMIT.
Definition call_migrate_raw (env msg : bytes) : HOST bytes :=
  _ ← set_storage_readonly false;
  call_raw "migrate" [env; msg] READ_LIMIT.
Definition call_sudo_raw (env msg : bytes) : HOST bytes :=
  _ ← set_storage_readonly false;
  call_raw "sudo" [env; msg] READ_LIMIT.
Definition call_reply_raw (env msg : bytes) : HOST bytes :=
  _ ← set_storage_readonly false;
  call_raw "reply" [env; msg] READ_LIMIT.
Definition call_query_raw (env msg : bytes) : HOST bytes :=
  _ ← set_storage_readonly true;
  call_raw "query" [env; msg] READ_LIMIT.
Definition call_ibc_channel_open_raw (env msg : bytes) : HOST bytes :=
  _ ← set_storage_readonly false;
  call_raw "ibc_channel_open" [env; msg] READ_LIMIT.
Definition call_ibc_channel_connect_raw (env msg : bytes) : HOST bytes :=
  _ ← set_storage_readonly false;
  call_raw "ibc_channel_connect" [env; msg] READ_LIMIT.
Definition call_ibc_channel_close_raw (env msg : bytes) : HOST bytes :=
  _ ← set_storage_readonly false;
  call_raw "ibc_channel_close" [env; msg] READ_LIMIT.
Definition call_ibc_packet_receive_raw (env msg : bytes) : HOST bytes :=
  _ ← set_storage_readonly false;
  call_raw "ibc_packet_receive" [env; msg] READ_LIMIT.
Definition call_ibc_packet_ack_raw (env msg : bytes) : HOST bytes :=
  _ ← set_storage_readonly false;
  call_raw "ibc_packet_ack" [env; msg] READ_LIMIT.
Definition call_ibc_packet_timeout_raw (env msg : bytes) : HOST bytes :=
  _ ← set_storage_readonly false;
  call_raw "ibc_packet_timeout" [env; msg] READ_LIMIT.

Definition call_instantiate (env : Env) (info : MessageInfo) (msg : bytes)
    : HOST (ContractResult Response) :=
  env ← of_sum (to_vec env);
  info ← of_sum (to_vec info);
  data ← call_instantiate_raw env info msg;
  of_sum (from_slice data DESERIALIZATION_LIMIT).
Definition call_execute (env : Env) (info : MessageInfo) (msg : bytes)
    : HOST (ContractResult Response) :=
  env ← of_sum (to_vec env);
  info ← of_sum (to_vec info);
  data ← call_execute_raw env info msg;
  of_sum (from_slice data DESERIALIZATION_LIMIT).
Definition call_migrate (env : Env) (msg : bytes) : HOST (ContractResult Response) :=
  env ← of_sum (to_vec env);
  data ← call_migrate_raw env msg;
  of_sum (from_slice data DESERIALIZATION_LIMIT).
Definition call_sudo (env : Env) (msg : bytes) : HOST (ContractResult Response) :=
  env ← of_sum (to_vec env);
  data ← call_sudo_raw env msg;
  of_sum (from_slice data DESERIALIZATION_LIMIT).
Definition call_reply (env : Env) (msg : Reply) : HOST (ContractResult Response) :=
  env ← of_sum (to_vec env);
  msg ← of_sum (to_vec msg);
  data ← call_reply_raw env msg;
  of_sum (from_slice data DESERIALIZATION_LIMIT).

Definition call_query (env : Env) (msg : bytes) : HOST (ContractResult Binary) :=
  env ← of_sum (to_vec env);
  data ← call_query_raw env msg;
  result ← of_sum (from_slice data DESERIALIZATION_LIMIT);
  match result with
  | CROk binary_response =>
      match json_display binary_response with
      | Some _ => mret result
      | None => throw (GenericErr ("Query response must be valid JSON. " +:+
                                   json_parse_error binary_response))
      end
  | CRErr _ => mret result
  end.

Definition call_ibc_channel_open (env : Env) (msg : IbcChannelOpenMsg)
    : HOST (ContractResult IbcChannelOpenResponse) :=
  env ← of_sum (to_vec env);
  msg ← of_sum (to_vec msg);
  data ← call_ibc_channel_open_raw env msg;
  of_sum (from_slice data DESERIALIZATION_LIMIT).
Definition call_ibc_channel_connect (env : Env) (msg : IbcChannelConnectMsg)
    : HOST (ContractResult IbcBasicResponse) :=
  env ← of_sum (to_vec env);
  msg ← of_sum (to_vec msg);
  data ← call_ibc_channel_connect_raw env msg;
  of_sum (from_slice data DESERIALIZATION_LIMIT).
Definition call_ibc_channel_close (env : Env) (msg : IbcChannelCloseMsg)
    : HOST (ContractResult IbcBasicResponse) :=
  env ← of_sum (to_vec env);
  msg ← of_sum (to_vec msg);
  data ← call_ibc_channel_close_raw env msg;
  of_sum (from_slice data DESERIALIZATION_LIMIT).
Definition call_ibc_packet_receive (env : Env) (msg : IbcPacketReceiveMsg)
    : HOST (ContractResult IbcReceiveResponse) :=
  env ← of_sum (to_vec env);
  msg ← of_sum (to_vec msg);
  data ← call_ibc_packet_receive_raw env msg;
  of_sum (from_slice data DESERIALIZATION_LIMIT).
Definition call_ibc_packet_ack (env : Env) (msg : IbcPacketAckMsg)
    : HOST (ContractResult IbcBasicResponse) :=
  env ← of_sum (to_vec env);
  msg ← of_sum (to_vec msg);
  data ← call_ibc_packet_ack_raw env msg;
  of_sum (from_slice data DESERIALIZATION_LIMIT).
Definition call_ibc_packet_timeout (env : Env) (msg : IbcPacketTimeoutMsg)
    : HOST (ContractResult IbcBasicResponse) :=
  env ← of_sum (to_vec env);
  msg ← of_sum (to_vec msg);
  data ← call_ibc_packet_timeout_raw env msg;
  of_sum (from_slice data DESERIALIZATION_LIMIT).
End calls.
