(* ===== verification/GuestCalls.v ===== *)
(** * The exports of a contract ([cosmwasm/packages/std/src/exports.rs],
      [cosmwasm/packages/derive/src/lib.rs])

    What [#[entry_point]] wraps around the functions of a contract: the arguments are
    taken out of the regions the host filled, parsed and passed on; the result is
    serialized and released to the host. A contract function is any guest code on the
    parsed values; its error is the text of the error.

    [deps] holds no data: a contract function reaches the chain through the imports
    ([GuestImports]).

    The second part composes the exports with the calls of the host. *)

From S2P Require Import Prelude.
From S2P Require Import Bytes.
From S2P Require Import CwStd.
From S2P Require Import StdError.
From S2P Require Import Errors.
From S2P Require Import TypedStorage.
From S2P Require Import Client.
From S2P Require Import Sections.
From S2P Require Import Ibc.
From S2P Require Import Memory.
From S2P Require Import Gas.
From S2P Require Import Host.
From S2P Require Import HostImports.
From S2P Require Import HostRefines.
From S2P Require Import Guest.
From S2P Require Import GuestRegions.
From S2P Require Import GuestAbi.
From S2P Require Import HostCalls.

Open Scope Z_scope.

(** [Result<T, E>::into()]. *)
Definition contract_result {T} (r : string + T) : ContractResult T :=
  match r with inr a => CROk a | inl e => CRErr e end.

Section Exports.
Context {A S Q W X : Type} `{HWI : !WasmerInstance W} `{HAl : !Allocator W}.
Abbreviation ENV := (Environment A S Q W X).
Abbreviation G := (M string ENV).
Context (panic_text : string → string).
Context `{!Json Env, !Json MessageInfo, !Json Reply}.
Context `{!Json (ContractResult Response), !Json (ContractResult Binary)}.
Context `{!Json IbcChannelOpenMsg, !Json IbcChannelConnectMsg, !Json IbcChannelCloseMsg}.
Context `{!Json IbcPacketReceiveMsg, !Json IbcPacketAckMsg, !Json IbcPacketTimeoutMsg}.
Context `{!Json (ContractResult IbcChannelOpenResponse), !Json (ContractResult IbcBasicResponse)}.
Context `{!Json (ContractResult IbcReceiveResponse)}.
Abbreviation consume_region := (consume_region panic_text).

(** [try_into_contract_result!(from_slice(&data))], and what follows. *)
Definition try_into_contract_result `{Json T} {R} (data : bytes) (k : T → G (ContractResult R))
    : G (ContractResult R) :=
  match TypedStorage.from_slice data with
  | inr val => k val
  | inl err => mret (CRErr (StdError_to_string err))
  end.

(** The end of every entry point: [to_vec(&res).unwrap()] and its release. *)
Definition release_result `{Json R} (res : R) : G Z :=
  match TypedStorage.to_vec res with
  | inl e => guest_panic panic_text ("called `Result::unwrap()` on an `Err` value: " +:+ StdError_to_string e)
  | inr b => v ← new_vec panic_text b; release_buffer panic_text v
  end.

(** The functions with [info]: [_do_instantiate] and [_do_execute]. *)
Definition with_info `{Json Msg} {R} (f : Env → MessageInfo → Msg → G (string + R))
    (env_ptr info_ptr msg_ptr : Z) : G (ContractResult R) :=
  env ← consume_region env_ptr;
  info ← consume_region info_ptr;
  msg ← consume_region msg_ptr;
  env_data ← slice_bytes (as_slice env);
  info_data ← slice_bytes (as_slice info);
  msg_data ← slice_bytes (as_slice msg);
  res ← try_into_contract_result env_data (λ env_val : Env,
        try_into_contract_result info_data (λ info_val : MessageInfo,
        try_into_contract_result msg_data (λ msg_val : Msg,
          r ← f env_val info_val msg_val; mret (contract_result r))));
  _ ← drop_vec msg;
  _ ← drop_vec info;
  _ ← drop_vec env;
  mret res.

(** The functions without it. *)
Definition without_info `{Json Msg} {R} (f : Env → Msg → G (string + R)) (env_ptr msg_ptr : Z)
    : G (ContractResult R) :=
  env ← consume_region env_ptr;
  msg ← consume_region msg_ptr;
  env_data ← slice_bytes (as_slice env);
  msg_data ← slice_bytes (as_slice msg);
  res ← try_into_contract_result env_data (λ env_val : Env,
        try_into_contract_result msg_data (λ msg_val : Msg,
          r ← f env_val msg_val; mret (contract_result r)));
  _ ← drop_vec msg;
  _ ← drop_vec env;
  mret res.

(** ** The entry points *)
Definition _do_instantiate `{Json Msg} (instantiate_fn : Env → MessageInfo → Msg → G (string + Response))
    (env_ptr info_ptr msg_ptr : Z) : G (ContractResult Response) :=
  with_info instantiate_fn env_ptr info_ptr msg_ptr.
Definition do_instantiate `{Json Msg} (instantiate_fn : Env → MessageInfo → Msg → G (string + Response))
    (env_ptr info_ptr msg_ptr : Z) : G Z :=
  res ← _do_instantiate instantiate_fn env_ptr info_ptr msg_ptr; release_result res.

Definition _do_execute `{Json Msg} (execute_fn : Env → MessageInfo → Msg → G (string + Response))
    (env_ptr info_ptr msg_ptr : Z) : G (ContractResult Response) :=
  with_info execute_fn env_ptr info_ptr msg_ptr.
Definition do_execute `{Json Msg} (execute_fn : Env → MessageInfo → Msg → G (string + Response))
    (env_ptr info_ptr msg_ptr : Z) : G Z :=
  res ← _do_execute execute_fn env_ptr info_ptr msg_ptr; release_result res.

Definition _do_migrate `{Json Msg} (migrate_fn : Env → Msg → G (string + Response))
    (env_ptr msg_ptr : Z) : G (ContractResult Response) :=
  without_info migrate_fn env_ptr msg_ptr.
Definition do_migrate `{Json Msg} (migrate_fn : Env → Msg → G (string + Response))
    (env_ptr msg_ptr : Z) : G Z :=
  res ← _do_migrate migrate_fn env_ptr msg_ptr; release_result res.

Definition _do_sudo `{Json Msg} (sudo_fn : Env → Msg → G (string + Response))
    (env_ptr msg_ptr : Z) : G (ContractResult Response) :=
  without_info sudo_fn env_ptr msg_ptr.
Definition do_sudo `{Json Msg} (sudo_fn : Env → Msg → G (string + Response))
    (env_ptr msg_ptr : Z) : G Z :=
  res ← _do_sudo sudo_fn env_ptr msg_ptr; release_result res.

Definition _do_reply (reply_fn : Env → Reply → G (string + Response)) (env_ptr msg_ptr : Z)
    : G (ContractResult Response) :=
  without_info reply_fn env_ptr msg_ptr.
Definition do_reply (reply_fn : Env → Reply → G (string + Response)) (env_ptr msg_ptr : Z) : G Z :=
  res ← _do_reply reply_fn env_ptr msg_ptr; release_result res.

Definition _do_query `{Json Msg} (query_fn : Env → Msg → G (string + Binary))
    (env_ptr msg_ptr : Z) : G (ContractResult Binary) :=
  without_info query_fn env_ptr msg_ptr.
Definition do_query `{Json Msg} (query_fn : Env → Msg → G (string + Binary))
    (env_ptr msg_ptr : Z) : G Z :=
  res ← _do_query query_fn env_ptr msg_ptr; release_result res.

Definition _do_ibc_channel_open (contract_fn : Env → IbcChannelOpenMsg → G (string + IbcChannelOpenResponse))
    (env_ptr msg_ptr : Z) : G (ContractResult IbcChannelOpenResponse) :=
  without_info contract_fn env_ptr msg_ptr.
Definition do_ibc_channel_open (contract_fn : Env → IbcChannelOpenMsg → G (string + IbcChannelOpenResponse))
    (env_ptr msg_ptr : Z) : G Z :=
  res ← _do_ibc_channel_open contract_fn env_ptr msg_ptr; release_result res.

Definition _do_ibc_channel_connect (contract_fn : Env → IbcChannelConnectMsg → G (string + IbcBasicResponse))
    (env_ptr msg_ptr : Z) : G (ContractResult IbcBasicResponse) :=
  without_info contract_fn env_ptr msg_ptr.
Definition do_ibc_channel_connect (contract_fn : Env → IbcChannelConnectMsg → G (string + IbcBasicResponse))
    (env_ptr msg_ptr : Z) : G Z :=
  res ← _do_ibc_channel_connect contract_fn env_ptr msg_ptr; release_result res.

Definition _do_ibc_channel_close (contract_fn : Env → IbcChannelCloseMsg → G (string + IbcBasicResponse))
    (env_ptr msg_ptr : Z) : G (ContractResult IbcBasicResponse) :=
  without_info contract_fn env_ptr msg_ptr.
Definition do_ibc_channel_close (contract_fn : Env → IbcChannelCloseMsg → G (string + IbcBasicResponse))
    (env_ptr msg_ptr : Z) : G Z :=
  res ← _do_ibc_channel_close contract_fn env_ptr msg_ptr; release_result res.

Definition _do_ibc_packet_receive (contract_fn : Env → IbcPacketReceiveMsg → G (string + IbcReceiveResponse))
    (env_ptr msg_ptr : Z) : G (ContractResult IbcReceiveResponse) :=
  without_info contract_fn env_ptr msg_ptr.
Definition do_ibc_packet_receive (contract_fn : Env → IbcPacketReceiveMsg → G (string + IbcReceiveResponse))
    (env_ptr msg_ptr : Z) : G Z :=
  res ← _do_ibc_packet_receive contract_fn env_ptr msg_ptr; release_result res.

Definition _do_ibc_packet_ack (contract_fn : Env → IbcPacketAckMsg → G (string + IbcBasicResponse))
    (env_ptr msg_ptr : Z) : G (ContractResult IbcBasicResponse) :=
  without_info contract_fn env_ptr msg_ptr.
Definition do_ibc_packet_ack (contract_fn : Env → IbcPacketAckMsg → G (string + IbcBasicResponse))
    (env_ptr msg_ptr : Z) : G Z :=
  res ← _do_ibc_packet_ack contract_fn env_ptr msg_ptr; release_result res.

Definition _do_ibc_packet_timeout (contract_fn : Env → IbcPacketTimeoutMsg → G (string + IbcBasicResponse))
    (env_ptr msg_ptr : Z) : G (ContractResult IbcBasicResponse) :=
  without_info contract_fn env_ptr msg_ptr.
Definition do_ibc_packet_timeout (contract_fn : Env → IbcPacketTimeoutMsg → G (string + IbcBasicResponse))
    (env_ptr msg_ptr : Z) : G Z :=
  res ← _do_ibc_packet_timeout contract_fn env_ptr msg_ptr; release_result res.

(** ** [entry_point]: a function exported under its name

    [extern "C" fn name(ptr0: u32, ..) -> u32] calls the function with its pointers. *)
Definition entry_point3 (f : Z → Z → Z → G Z) (args : list Val) : G (list Val) :=
  match args with
  | [VI32 ptr0; VI32 ptr1; VI32 ptr2] => r ← f ptr0 ptr1 ptr2; mret [VI32 r]
  | _ => throw "parameters of type other than i32"
  end.
Definition entry_point2 (f : Z → Z → G Z) (args : list Val) : G (list Val) :=
  match args with
  | [VI32 ptr0; VI32 ptr1] => r ← f ptr0 ptr1; mret [VI32 r]
  | _ => throw "parameters of type other than i32"
  end.

(** All exports of a contract: the two of the library and its entry points. *)
Definition exports (entry_points : string → option (list Val → G (list Val)))
    (name : string) (args : list Val) : G (list Val) :=
  match entry_points name with
  | Some f => f args
  | None => abi_call panic_text name args
  end.
End Exports.

(** * Calling an entry point

    [call_execute] and the other calls of the host, against the exports of a contract
    compiled with [cosmwasm_std]: what the host passes is what the contract's function
    receives, and what the function answers is what the host gets, through two
    serializations and the linear memory in between. *)

(** Two JSON libraries that agree on a type: [serde_json] in the host and
    [serde_json_wasm] in the contract. *)
Class JsonCompat (T : Type) `{SerdeJson T, Json T} : Prop := {
  host_to_guest x b : sj_to_vec x = inr b → json_from_slice b = inr x;
  guest_to_host x b : json_to_vec x = inr b → sj_from_slice b = inr x
}.

(** ** Arguments in flight

    Regions [(p, q, d)] the host filled (cell [p], buffer [q], data [d]) and vectors
    [(q, d)] the guest made of them, beside the heap [h0] of the contract. *)
Definition block_addr (q : Z) (d : bytes) : list Z := match d with [] => [] | _ => [q] end.
Definition region_addrs (r : Z * Z * bytes) : list Z := let '(p, q, d) := r in p :: block_addr q d.
Definition vec_addrs (v : Z * bytes) : list Z := block_addr v.1 v.2.
Definition exact_region (q : Z) (d : bytes) : Region :=
  mkRegion q (Z.of_nat (length d)) (Z.of_nat (length d)).
Definition exact_vec (q : Z) (d : bytes) : Vec :=
  mkVec q (Z.of_nat (length d)) (Z.of_nat (length d)).

Record in_flight (h0 h : heap) (regs : list (Z * Z * bytes)) (vecs : list (Z * bytes)) : Prop := {
  fl_sub : h0 ⊆ h;
  fl_nodup : NoDup (mjoin (region_addrs <$> regs) ++ mjoin (vec_addrs <$> vecs));
  fl_fresh a : a ∈ mjoin (region_addrs <$> regs) ++ mjoin (vec_addrs <$> vecs) → h0 !! a = None;
  fl_regs : Forall (λ '(p, q, d), h !! p = Some (Region_bytes (exact_region q d)) ∧ has_block q d h) regs;
  fl_vecs : Forall (λ '(q, d), has_block q d h) vecs
}.

Lemma in_flight_nil h : in_flight h h [] [].
Proof. split; try done; [constructor|set_solver]. Qed.

(** New blocks are of no concern. *)
Lemma in_flight_grow h0 h h' regs vecs : h ⊆ h' → in_flight h0 h regs vecs → in_flight h0 h' regs vecs.
Proof.
  intros Hs [H1 H2 H3 H4 H5]. split; [by etrans|done|done|..].
  - eapply Forall_impl; [exact H4|]. intros [[p q] d] [? ?]. split; [by eapply lookup_weaken|by eapply has_block_mono].
  - eapply Forall_impl; [exact H5|]. intros [q d] ?. by eapply has_block_mono.
Qed.

Lemma has_block_delete q d a h : a ∉ block_addr q d → has_block q d h → has_block q d (delete a h).
Proof. destruct d; [done|]. cbn. intros Ha Hq. rewrite lookup_delete_ne; [done|]. set_solver. Qed.

(** Nor is a block that goes and belonged to none of them. *)
Lemma in_flight_shrink h0 h a regs vecs :
  h0 !! a = None → a ∉ mjoin (region_addrs <$> regs) ++ mjoin (vec_addrs <$> vecs) →
  in_flight h0 h regs vecs → in_flight h0 (delete a h) regs vecs.
Proof.
  intros Ha Hout [H1 H2 H3 H4 H5]. rewrite elem_of_app in Hout. split; [|done|done|..].
  - apply map_subseteq_spec. intros i x Hi. destruct (decide (i = a)) as [->|]; [congruence|].
    rewrite lookup_delete_ne by done. by eapply lookup_weaken.
  - rewrite Forall_forall in H4 |- *. intros [[p q] d] Hin. destruct (H4 _ Hin) as [Hp Hq].
    assert (a ∉ p :: block_addr q d) as Hna.
    { intros Hx. apply Hout. left. apply list_elem_of_join. exists (region_addrs (p, q, d)). split; [done|].
      apply list_elem_of_fmap. by eexists. }
    split; [rewrite lookup_delete_ne; [done|set_solver]|apply has_block_delete; [set_solver|done]].
  - rewrite Forall_forall in H5 |- *. intros [q d] Hin. specialize (H5 _ Hin). cbn in H5.
    apply has_block_delete; [|done]. intros Hx. apply Hout. right. apply list_elem_of_join.
    exists (vec_addrs (q, d)). split; [done|]. apply list_elem_of_fmap. by eexists.
Qed.

(** Addresses in flight are live. *)
Lemma in_flight_live h0 h regs vecs a :
  in_flight h0 h regs vecs → a ∈ mjoin (region_addrs <$> regs) → is_Some (h !! a).
Proof.
  intros [_ _ _ H4 _] (l & Hal & Hl)%list_elem_of_join.
  apply list_elem_of_fmap in Hl as ([[p q] d] & -> & Hin).
  rewrite Forall_forall in H4. destruct (H4 _ Hin) as [Hp Hq]. cbn in Hal.
  apply elem_of_cons in Hal as [->|Hal]; [by eexists|]. destruct d; cbn in *; [set_solver|].
  apply list_elem_of_singleton in Hal as ->. by eexists.
Qed.

Lemma addrs_app {B} (f : B → list Z) l x :
  mjoin (f <$> (l ++ [x])) = mjoin (f <$> l) ++ f x.
Proof. by rewrite fmap_app, join_app; cbn; rewrite app_nil_r. Qed.

(** A region the host has just filled. *)
Lemma in_flight_add h0 h p q d regs :
  in_flight h0 h regs [] → fresh_block q d h → with_block q d h !! p = None →
  in_flight h0 (<[p := Region_bytes (exact_region q d)]> (with_block q d h)) (regs ++ [(p, q, d)]) [].
Proof.
  intros Hfl Hq Hp. set (h2 := <[p := _]> _).
  assert (h ⊆ h2) as Hsub by (etrans; [by apply with_block_sub|by apply insert_subseteq]).
  assert (∀ a, a ∈ p :: block_addr q d → h !! a = None) as Hnew.
  { intros a. destruct d as [|b d]; cbn in *; [by intros Ha%list_elem_of_singleton; subst|].
    apply lookup_insert_None in Hp as [Hp ?]. intros [->|Ha]%elem_of_cons; [done|].
    by apply list_elem_of_singleton in Ha as ->. }
  assert (NoDup (p :: block_addr q d)) as Hnd.
  { destruct d; cbn in *; [apply NoDup_singleton|]. apply lookup_insert_None in Hp as [_ ?].
    repeat constructor; set_solver. }
  pose proof (in_flight_live h0 h regs []) as Hold. pose proof Hfl as [H1 H2 H3 H4 _].
  rewrite app_nil_r in H2, H3. split; [by etrans|..|done].
  - rewrite addrs_app, app_nil_r. apply NoDup_app. split_and!; [done| |done].
    intros a Ha Hb. destruct (Hold a Hfl Ha) as [? Hx]. cbn in Hb. by rewrite (Hnew a Hb) in Hx.
  - rewrite addrs_app, app_nil_r. intros a [Ha|Hb]%elem_of_app; [by apply H3|].
    destruct (h0 !! a) eqn:Hh0; [|done]. apply (lookup_weaken _ _ _ _ Hh0) in H1. cbn in Hb.
    by rewrite (Hnew a Hb) in H1.
  - apply Forall_app. split.
    + eapply Forall_impl; [exact H4|]. intros [[p' q'] d'] [? ?].
      split; [by eapply lookup_weaken|by eapply has_block_mono].
    + apply Forall_singleton. split; [by apply lookup_insert_eq|].
      eapply has_block_mono; [by apply insert_subseteq|by apply has_with_block].
Qed.

Section Calls.
Context {A S Q W X : Type} `{HWI : !WasmerInstance W} `{HWS : !WasmerSpec W}.
Context `{HAl : !Allocator W} `{HAS : !AllocatorSpec W}.
Context {HP : WasmPtr} `{HPS : !WasmPtrSpec} {HX : Externals}.
Abbreviation ENV := (Environment A S Q W X).
Abbreviation G := (M string ENV).
Context (panic_text : string → string) (exported : list string).
Abbreviation at_heap := (at_heap (A := A) (S := S) (Q := Q) (X := X) exported).
Abbreviation goes := (goes (A := A) (S := S) (Q := Q) (X := X) exported).

(** The address of a live buffer. *)
Lemma block_bounds e h ρ q d :
  at_heap e h ρ → has_block q d h → 0 < q ∧ q + Z.of_nat (length d) < U32.
Proof.
  intros He Hq. destruct d as [|b d]; [cbn in Hq; rewrite Hq; done|].
  destruct (at_heap_block _ _ _ _ _ _ He Hq) as (? & ? & ?). done.
Qed.

(** *** The guest takes an argument and drops it *)
Lemma consume_next e h ρ h0 p q d regs vecs :
  at_heap e h ρ → in_flight h0 h ((p, q, d) :: regs) vecs →
  ∃ e' h', goes (consume_region panic_text p) e (exact_vec q d) h' ρ e' ∧
    in_flight h0 h' regs (vecs ++ [(q, d)]).
Proof.
  intros He [H1 H2 H3 H4 H5]. apply Forall_cons in H4 as [[Hp Hq] H4].
  destruct (block_bounds _ _ _ _ _ He Hq) as [? ?].
  destruct (consume_region_run panic_text exported e h ρ p (exact_region q d) He Hp) as (e' & Hgo);
    [split_and!; cbn; unfold in_width; lia|cbn; lia|].
  exists e', (delete p h). split; [exact Hgo|].
  assert (mjoin (region_addrs <$> (p, q, d) :: regs) ++ mjoin (vec_addrs <$> vecs) ≡ₚ
    p :: (mjoin (region_addrs <$> regs) ++ mjoin (vec_addrs <$> vecs ++ [(q, d)]))) as Hperm.
  { rewrite addrs_app. cbn. constructor. unfold vec_addrs at 3. cbn. solve_Permutation. }
  rewrite Hperm in H2. apply NoDup_cons in H2 as [Hnp Hnd].
  apply in_flight_shrink; [apply H3; rewrite Hperm; set_solver|done|].
  split; [done|done|..|done|].
  - intros a Ha. apply H3. rewrite Hperm. set_solver.
  - apply Forall_app. split; [done|]. by repeat constructor.
Qed.

Lemma drop_last e h ρ h0 q d vecs :
  at_heap e h ρ → in_flight h0 h [] (vecs ++ [(q, d)]) →
  ∃ e' h', goes (drop_vec (exact_vec q d)) e tt h' ρ e' ∧ in_flight h0 h' [] vecs.
Proof.
  intros He [H1 H2 H3 H4 H5]. apply Forall_app in H5 as [H5 Hq]. apply Forall_cons in Hq as [Hq _].
  rewrite addrs_app in H2, H3. cbn in H2, H3.
  destruct (drop_block_run exported e h ρ q d He Hq) as (e' & Hgo).
  exists e', (without_block q d h). split; [exact Hgo|].
  apply NoDup_app in H2 as (Hnd & Hdis & _).
  assert (in_flight h0 h [] vecs) as Hfl.
  { split; [done|done|..|done|done]. intros a Ha. apply H3. set_solver. }
  destruct d as [|b d]; [done|]. cbn. apply in_flight_shrink; [|cbn|done].
  - apply H3. unfold vec_addrs. cbn. set_solver.
  - intros Ha. apply (Hdis q Ha). unfold vec_addrs. cbn. set_solver.
Qed.

(** *** The host writes the arguments *)
Fixpoint args_room (ds : list bytes) : Z :=
  match ds with [] => 0 | d :: ds => result_room (Z.of_nat (length d)) + args_room ds end.

Lemma args_room_pos ds : 0 ≤ args_room ds.
Proof. induction ds; cbn; [done|]. unfold result_room, REGION_SIZE, OVERHEAD. lia. Qed.

Lemma write_args_run guest_call e h ρ h0 ds regs :
  at_heap e h ρ → "allocate" ∈ exported →
  (∀ k e1, guest_call "allocate" [VI32 k] e1 = abi_call panic_text "allocate" [VI32 k] e1) →
  args_room ds ≤ ρ → in_flight h0 h regs [] →
  ∃ new e' h', write_args guest_call ds e = (Ok ((λ r : Z * Z * bytes, VI32 r.1.1) <$> new), e') ∧
    outside e' = outside e ∧ at_heap e' h' (ρ - args_room ds) ∧ new.*2 = ds ∧
    in_flight h0 h' (regs ++ new) [].
Proof.
  intros He Hal Hcall Hρ Hfl. revert e h ρ regs He Hρ Hfl.
  induction ds as [|d ds IH]; intros e h ρ regs He Hρ Hfl; cbn [args_room] in *.
  { exists [], e, h. rewrite app_nil_r. split_and!; try done. by rewrite Z.sub_0_r. }
  pose proof (args_room_pos ds). pose proof (at_heap_bound _ _ _ _ He).
  destruct (fill_allocated panic_text exported e h ρ guest_call d He Hal Hcall) as
    (p & q & e1 & e2 & Hc & Hw & Ho & Hp0 & Hq & Hp & [Hreg Ha] & He2); [unfold result_room in *; lia|].
  destruct (IH e2 _ (ρ - Z.of_nat (length d) - REGION_SIZE - 2 * OVERHEAD) (regs ++ [(p, q, d)]) He2)
    as (new & e3 & h3 & Hr & Ho3 & He3 & Hds & Hfl3); [unfold result_room in *; lia|by apply in_flight_add|].
  exists ((p, q, d) :: new), e3, h3. split_and!.
  - cbn [write_args]. unfold Host.allocate, to_u32.
    destruct (Z.ltb_spec (Z.of_nat (length d)) U32); [|unfold result_room, REGION_SIZE, OVERHEAD, U32 in *; lia].
    cbn [of_sum]. rewrite bind_assoc, bind_ret_l, bind_assoc, (bind_Ok _ _ _ _ _ Hc).
    cbn [ref_to_u32 of_sum]. rewrite bind_assoc, bind_ret_l. destruct (Z.eqb_spec p 0); [done|].
    rewrite bind_ret_l. change (write_memory p d) with (env_write (A := A) (S := S) (Q := Q) (X := X) p d).
    by rewrite (bind_Ok _ _ _ _ _ Hw), (bind_Ok _ _ _ _ _ Hr).
  - congruence.
  - eapply at_heap_room; [exact He3|]. unfold result_room. lia.
  - cbn. by rewrite Hds.
  - by rewrite <-app_assoc in Hfl3.
Qed.

(** *** The guest releases its result *)
Lemma list_inserts_front (d c : bytes) :
  (length d ≤ length c)%nat → list_inserts 0 d c = d ++ drop (length d) c.
Proof.
  intros Hl. apply list_eq. intros i. destruct (decide (i < length d)%nat).
  - rewrite list_lookup_inserts, lookup_app_l by lia. f_equal. lia.
  - rewrite list_lookup_inserts_ge, lookup_app_r, lookup_drop by lia. f_equal. lia.
Qed.

Lemma new_vec_run e h ρ d :
  let n := Z.of_nat (length d) in
  at_heap e h ρ → d ≠ [] → grown n + OVERHEAD ≤ ρ →
  ∃ q rest e', goes (new_vec panic_text d) e (mkVec q n (grown n)) (<[q := d ++ rest]> h)
      (ρ - grown n - OVERHEAD) e' ∧ h !! q = None ∧ Z.of_nat (length (d ++ rest)) = grown n.
Proof.
  intros n He Hd Hρ. pose proof (grown_at_least n) as Hgr.
  assert (0 < n) by (unfold n; destruct d; [done|cbn; lia]).
  destruct (with_capacity_run panic_text exported e h ρ (grown n) He) as (q & c & e1 & Hgo & Hq & Hc);
    [lia|done|]. pose proof Hgo as (Hrun & He1 & _).
  destruct c as [|b c]; [cbn in Hc; lia|]. cbn [with_block fresh_block] in *.
  destruct (gstore_run exported e1 _ _ q (b :: c) 0 d He1) as (e2 & Hst).
  { by rewrite lookup_insert_eq. } { lia. }
  rewrite list_inserts_front, insert_insert_eq, Z.add_0_r in Hst by lia.
  exists q, (drop (length d) (b :: c)), e2. split_and!; [|done|].
  - unfold new_vec. fold n. destruct (Z.eqb_spec n 0); [lia|].
    eapply goes_bind; [exact Hgo|]. cbn [v_ptr v_cap]. eapply goes_bind; [exact Hst|].
    apply goes_ret. apply Hst.
  - rewrite length_app, length_drop. lia.
Qed.

(** A result handed to the host: its region and the block of its bytes, which may be
    longer than the result. *)
Record released (h h' : heap) (p q : Z) (b rest : bytes) : Prop := {
  rel_heap : h' = <[p := Region_bytes (exact_region q b)]> (<[q := b ++ rest]> h);
  rel_cell : <[q := b ++ rest]> h !! p = None;
  rel_block : h !! q = None;
  rel_aligned : p mod 4 = 0;
  rel_some : b ≠ []
}.

Lemma release_buffer_run e h ρ q b rest cap :
  at_heap e (<[q := b ++ rest]> h) ρ → h !! q = None → b ≠ [] → REGION_ROOM ≤ ρ →
  ∃ p h' e', goes (release_buffer panic_text (mkVec q (Z.of_nat (length b)) cap)) e p h'
      (ρ - REGION_ROOM) e' ∧ released h h' p q b rest.
Proof.
  intros He Hq Hb Hρ.
  destruct (build_region_run panic_text exported e (<[q := b ++ rest]> h) ρ
    (mkSlice q (Z.of_nat (length b))) b) as (p & e' & Hgo & Hp & [_ Ha]); [done| |done|].
  { split; [done|]. right. exists q, (b ++ rest), 0%nat. cbn. split_and!.
    - by rewrite lookup_insert_eq.
    - lia.
    - unfold slice. by rewrite drop_0, take_app_length.
    - rewrite length_app. lia.
    - destruct b; [done|cbn; lia]. }
  eexists p, _, e'. split; [|by split].
  unfold REGION_ROOM. by rewrite Z.sub_add_distr.
Qed.

Lemma release_result_run `{Json R} (res : R) e h ρ b :
  json_to_vec res = inr b → b ≠ [] → at_heap e h ρ →
  grown (Z.of_nat (length b)) + OVERHEAD + REGION_ROOM ≤ ρ →
  ∃ p q rest h' e', goes (release_result panic_text res) e p h'
      (ρ - grown (Z.of_nat (length b)) - OVERHEAD - REGION_ROOM) e' ∧ released h h' p q b rest ∧
    Z.of_nat (length (b ++ rest)) = grown (Z.of_nat (length b)).
Proof.
  intros Hb Hne He Hρ.
  destruct (new_vec_run e h ρ b He Hne) as (q & rest & e1 & Hgo & Hq & Hlen).
  { unfold REGION_ROOM, REGION_SIZE, OVERHEAD in *. lia. }
  pose proof Hgo as (_ & He1 & _).
  destruct (release_buffer_run e1 h _ q b rest (grown (Z.of_nat (length b))) He1 Hq Hne) as (p & h' & e2 & Hgo2 & Hrel); [lia|].
  exists p, q, rest, h', e2. split; [|done].
  unfold release_result, TypedStorage.to_vec. rewrite Hb. eapply goes_bind; [exact Hgo|exact Hgo2].
Qed.

(** *** The host reads it and has it freed *)
Lemma read_released e h h' ρ p q b rest limit :
  at_heap e h' ρ → released h h' p q b rest → Z.of_nat (length b) ≤ limit < U32 →
  read_memory p limit e = (Ok b, e).
Proof.
  intros He [-> Hp Hq Ha Hb] Hlim. destruct (at_heap_backs _ _ _ _ He) as (w & m & Hw & Hm & Hback).
  assert (region_holds m p b) as Hold.
  { eapply (region_holds_slice m _ p (mkSlice q (Z.of_nat (length b)))); [exact Hback| |].
    - split; [done|]. right. exists q, (b ++ rest), 0%nat. cbn. split_and!.
      + rewrite lookup_insert_ne, lookup_insert_eq; [done|]. intros ->. by rewrite lookup_insert_eq in Hp.
      + lia.
      + unfold slice. by rewrite drop_0, take_app_length.
      + rewrite length_app. lia.
      + destruct b; [done|cbn; lia].
    - split; [by rewrite lookup_insert_eq|done]. }
  unfold read_memory, with_memory. rewrite Hw, Hm, (read_region_holds m p b limit Hold) by lia.
  destruct (Z.ltb_spec limit (Z.of_nat (length b))); [lia|].
  by rewrite set_same_memory, set_instance_same.
Qed.

(** A result without spare capacity is freed with the size it was allocated with. *)
Lemma deallocate_run e h h' ρ p q b :
  at_heap e h' ρ → released h h' p q b [] →
  ∃ e', goes (Guest.deallocate panic_text p) e tt h ρ e'.
Proof.
  intros He [-> Hp Hq Ha Hb]. rewrite app_nil_r in *.
  assert (q ≠ p) as Hqp by (intros ->; by rewrite lookup_insert_eq in Hp).
  assert (0 < q ∧ q + Z.of_nat (length b) < U32) as [? ?].
  { destruct (at_heap_block _ _ _ _ q b He) as (? & ? & Hlt); [by rewrite lookup_insert_ne, lookup_insert_eq|]. lia. }
  destruct (consume_region_run panic_text exported e _ ρ p (exact_region q b) He) as (e1 & Hgo);
    [by rewrite lookup_insert_eq|split_and!; cbn; unfold in_width; lia|cbn; lia|].
  rewrite delete_insert_id in Hgo by done. pose proof Hgo as (_ & He1 & _).
  destruct (gfree_run exported e1 _ ρ q b He1) as (e2 & Hfree); [by rewrite lookup_insert_eq|].
  rewrite delete_insert_id in Hfree by done.
  exists e2. eapply goes_bind; [exact Hgo|]. exact Hfree.
Qed.

(** The whole of [call_raw], around the body of an entry point. *)
Lemma call_raw_run (guest_call : string → list Val → G (list Val)) e h ρ ρ' name ds limit b o :
  at_heap e h ρ → "allocate" ∈ exported → "deallocate" ∈ exported → name ∈ exported →
  (∀ k e1, guest_call "allocate" [VI32 k] e1 = abi_call panic_text "allocate" [VI32 k] e1) →
  (∀ k e1, guest_call "deallocate" [VI32 k] e1 = abi_call panic_text "deallocate" [VI32 k] e1) →
  args_room ds ≤ ρ → Z.of_nat (length b) ≤ limit < U32 →
  (∀ e1 h1 new, at_heap e1 h1 (ρ - args_room ds) → outside e1 = outside e → new.*2 = ds →
     in_flight h h1 new [] →
     ∃ p q e2 h2 h3, guest_call name ((λ r : Z * Z * bytes, VI32 r.1.1) <$> new) e1 = (Ok [VI32 p], e2) ∧
       outside e2 = o ∧ at_heap e2 h3 ρ' ∧ h ⊆ h2 ∧ released h2 h3 p q b []) →
  ∃ e' h', Host.call_raw guest_call name ds limit e = (Ok b, e') ∧ outside e' = o ∧
    at_heap e' h' ρ' ∧ h ⊆ h'.
Proof.
  intros He Hal Hde Hname Hcall Hcall' Hρ Hlim Hbody.
  destruct (write_args_run guest_call e h ρ h ds [] He Hal Hcall Hρ (in_flight_nil h))
    as (new & e1 & h1 & Hargs & Ho1 & He1 & Hds & Hfl).
  destruct (Hbody e1 h1 new He1 Ho1 Hds Hfl) as (p & q & e2 & h2 & h3 & Hb & Ho2 & He2 & Hsub & Hrel).
  pose proof (read_released e2 h2 h3 ρ' p q b [] limit He2 Hrel Hlim) as Hread.
  destruct (deallocate_run e2 h2 h3 ρ' p q b He2 Hrel) as (e3 & (Hd & He3 & Ho3)).
  exists e3, h2. split_and!; [|congruence|done|done].
  unfold Host.call_raw. rewrite (bind_Ok _ _ _ _ _ Hargs).
  rewrite (bind_Ok _ _ _ _ _ (call_function1_run _ _ _ _ _ _ _ _ _ He1 Hname Hb)).
  cbn [ref_to_u32 of_sum]. rewrite bind_ret_l, (bind_Ok _ _ _ _ _ Hread). unfold Host.deallocate.
  assert (guest_call "deallocate" [VI32 p] e2 = (Ok [], e3)) as Hfree.
  { rewrite Hcall'. unfold abi_call. cbn [String.eqb Ascii.eqb Bool.eqb]. by rewrite (bind_Ok _ _ _ _ _ Hd). }
  by rewrite (bind_Ok _ _ _ _ _ (call_function0_run _ _ _ _ _ _ _ _ He2 Hde Hfree)).
Qed.

(** ** Entry points *)

(** Guest code that computes [r]: from every memory that holds the blocks of [h] and
    has room for [ρ], it returns [r], keeps all blocks it finds, leaves room for [ρ']
    and takes the host from [o] to [o']. *)
Definition computes {T} (m : G T) (h : heap) (ρ : Z) (o : ENV) (r : T) (ρ' : Z) (o' : ENV) : Prop :=
  ∀ e1 h1, at_heap e1 h1 ρ → h ⊆ h1 → outside e1 = o →
    ∃ e2 h2, m e1 = (Ok r, e2) ∧ at_heap e2 h2 ρ' ∧ h1 ⊆ h2 ∧ outside e2 = o'.

Lemma flying_slice e h ρ h0 regs vecs q d :
  at_heap e h ρ → in_flight h0 h regs vecs → (q, d) ∈ vecs →
  slice_bytes (as_slice (exact_vec q d)) e = (Ok d, e).
Proof.
  intros He [_ _ _ _ H5] Hin. eapply slice_bytes_run; [exact He|]. apply vec_slice.
  exists []. rewrite app_nil_r. rewrite Forall_forall in H5. by split; [apply (H5 _ Hin)|].
Qed.

(** All vectors that are in flight, dropped from the last to the first. *)
Fixpoint drop_vecs (vecs : list (Z * bytes)) : G unit :=
  match vecs with
  | [] => mret tt
  | (q, d) :: vecs => _ ← drop_vecs vecs; drop_vec (exact_vec q d)
  end.

Lemma drop_vecs_run e h ρ h0 front vecs :
  at_heap e h ρ → in_flight h0 h [] (front ++ vecs) →
  ∃ e' h', goes (drop_vecs vecs) e tt h' ρ e' ∧ in_flight h0 h' [] front.
Proof.
  revert e h front. induction vecs as [|[q d] vecs IH]; intros e h front He Hfl.
  - rewrite app_nil_r in Hfl. exists e, h. split; [by apply goes_ret|done].
  - rewrite cons_middle, app_assoc in Hfl.
    destruct (IH e h (front ++ [(q, d)]) He Hfl) as (e1 & h1 & Hgo & Hfl1). pose proof Hgo as (_ & He1 & _).
    destruct (drop_last e1 h1 ρ h0 q d front He1 Hfl1) as (e2 & h2 & Hgo2 & Hfl2).
    exists e2, h2. split; [|done]. by eapply goes_bind.
Qed.

Section entry_points.
Context `{!Json Env, !Json MessageInfo}.

Lemma with_info_run `{Json Msg} {R} (f : Env → MessageInfo → Msg → G (string + R)) e h h0 ρ ρ' o
    p1 q1 d1 p2 q2 d2 p3 q3 d3 (res : ContractResult R) :
  at_heap e h ρ → in_flight h0 h [(p1, q1, d1); (p2, q2, d2); (p3, q3, d3)] [] →
  computes (try_into_contract_result d1 (λ env_val : Env,
            try_into_contract_result d2 (λ info_val : MessageInfo,
            try_into_contract_result d3 (λ msg_val : Msg,
              r ← f env_val info_val msg_val; mret (contract_result r)))))
    h0 ρ (outside e) res ρ' o →
  ∃ e' h', with_info panic_text f p1 p2 p3 e = (Ok res, e') ∧ at_heap e' h' ρ' ∧ h0 ⊆ h' ∧ outside e' = o.
Proof.
  intros He Hfl Hf.
  destruct (consume_next e h ρ h0 p1 q1 d1 _ [] He Hfl) as (e1 & h1 & (H1 & He1 & Ho1) & Hfl1).
  destruct (consume_next e1 h1 ρ h0 p2 q2 d2 _ _ He1 Hfl1) as (e2 & h2 & (H2 & He2 & Ho2) & Hfl2).
  destruct (consume_next e2 h2 ρ h0 p3 q3 d3 _ _ He2 Hfl2) as (e3 & h3 & (H3 & He3 & Ho3) & Hfl3).
  cbn [app] in Hfl3.
  destruct (Hf e3 h3 He3 (fl_sub _ _ _ _ Hfl3)) as (e4 & h4 & H4 & He4 & Hsub & Ho4); [congruence|].
  destruct (drop_vecs_run e4 h4 ρ' h0 [] _ He4 (in_flight_grow _ _ _ _ _ Hsub Hfl3))
    as (e5 & h5 & (H5 & He5 & Ho5) & Hfl5).
  exists e5, h5. split_and!; [|done|by apply Hfl5|congruence].
  unfold with_info.
  rewrite (bind_Ok _ _ _ _ _ H1), (bind_Ok _ _ _ _ _ H2), (bind_Ok _ _ _ _ _ H3).
  rewrite (bind_Ok _ _ _ _ _ (flying_slice _ _ _ _ _ _ q1 d1 He3 Hfl3 ltac:(set_solver))).
  rewrite (bind_Ok _ _ _ _ _ (flying_slice _ _ _ _ _ _ q2 d2 He3 Hfl3 ltac:(set_solver))).
  rewrite (bind_Ok _ _ _ _ _ (flying_slice _ _ _ _ _ _ q3 d3 He3 Hfl3 ltac:(set_solver))).
  rewrite (bind_Ok _ _ _ _ _ H4). cbn [drop_vecs] in H5. rewrite !bind_assoc, bind_ret_l in H5.
  unfold mbind, M_bind in H5 |- *.
  destruct (drop_vec (exact_vec q3 d3) e4) as [[[]| | |] ?]; try done.
  destruct (drop_vec (exact_vec q2 d2) _) as [[[]| | |] ?]; try done.
  destruct (drop_vec (exact_vec q1 d1) _) as [[[]| | |] ?]; try done. by injection H5 as ->.
Qed.

Lemma without_info_run `{Json Msg} {R} (f : Env → Msg → G (string + R)) e h h0 ρ ρ' o
    p1 q1 d1 p2 q2 d2 (res : ContractResult R) :
  at_heap e h ρ → in_flight h0 h [(p1, q1, d1); (p2, q2, d2)] [] →
  computes (try_into_contract_result d1 (λ env_val : Env,
            try_into_contract_result d2 (λ msg_val : Msg,
              r ← f env_val msg_val; mret (contract_result r))))
    h0 ρ (outside e) res ρ' o →
  ∃ e' h', without_info panic_text f p1 p2 e = (Ok res, e') ∧ at_heap e' h' ρ' ∧ h0 ⊆ h' ∧ outside e' = o.
Proof.
  intros He Hfl Hf.
  destruct (consume_next e h ρ h0 p1 q1 d1 _ [] He Hfl) as (e1 & h1 & (H1 & He1 & Ho1) & Hfl1).
  destruct (consume_next e1 h1 ρ h0 p2 q2 d2 _ _ He1 Hfl1) as (e2 & h2 & (H2 & He2 & Ho2) & Hfl2).
  cbn [app] in Hfl2.
  destruct (Hf e2 h2 He2 (fl_sub _ _ _ _ Hfl2)) as (e4 & h4 & H4 & He4 & Hsub & Ho4); [congruence|].
  destruct (drop_vecs_run e4 h4 ρ' h0 [] _ He4 (in_flight_grow _ _ _ _ _ Hsub Hfl2))
    as (e5 & h5 & (H5 & He5 & Ho5) & Hfl5).
  exists e5, h5. split_and!; [|done|by apply Hfl5|congruence].
  unfold without_info. rewrite (bind_Ok _ _ _ _ _ H1), (bind_Ok _ _ _ _ _ H2).
  rewrite (bind_Ok _ _ _ _ _ (flying_slice _ _ _ _ _ _ q1 d1 He2 Hfl2 ltac:(set_solver))).
  rewrite (bind_Ok _ _ _ _ _ (flying_slice _ _ _ _ _ _ q2 d2 He2 Hfl2 ltac:(set_solver))).
  rewrite (bind_Ok _ _ _ _ _ H4). cbn [drop_vecs] in H5. rewrite !bind_assoc, bind_ret_l in H5.
  unfold mbind, M_bind in H5 |- *.
  destruct (drop_vec (exact_vec q2 d2) e4) as [[[]| | |] ?]; try done.
  destruct (drop_vec (exact_vec q1 d1) _) as [[[]| | |] ?]; try done. by injection H5 as ->.
Qed.
End entry_points.

(** *** From the call of the host to its result *)
Context (entry_points : string → option (list Val → G (list Val))).
Abbreviation guest_call := (exports panic_text entry_points).

(** What the guest needs for its answer of [b]. *)
Definition answer_room (b : bytes) : Z := grown (Z.of_nat (length b)) + OVERHEAD + REGION_ROOM.

(** The vector of an answer of [b] has no spare capacity: the precondition under which
    [release_buffer] and [deallocate] together free a block with its own size, as
    [Vec::from_raw_parts] demands. *)
Definition exact_capacity (b : bytes) : Prop := grown (Z.of_nat (length b)) = Z.of_nat (length b).

(** A contract built with the library: its entry points leave the two exports of the
    library alone, and the runtime finds all of them. *)
Record built (name : string) (body : list Val → G (list Val)) : Prop := {
  built_allocate : entry_points "allocate" = None;
  built_deallocate : entry_points "deallocate" = None;
  built_entry : entry_points name = Some body;
  built_exported : ["allocate"; "deallocate"; name] ⊆ exported
}.

(** C8: A result whose vector has spare capacity is freed with the wrong size. After the
    guest has serialized and released such a result, what the host's [deallocate] does is
    to ask the allocator to free the block of the result with the length of the text,
    while the block is live with the larger capacity it was allocated with: against the
    contract of [Vec::from_raw_parts] and of the allocator. *)
Theorem spare_capacity_frees_wrong_size `{Json R} e h ρ (res : R) b :
  at_heap e h ρ → json_to_vec res = inr b → b ≠ [] → answer_room b ≤ ρ → ¬ exact_capacity b →
  let n := Z.of_nat (length b) in
  ∃ p e1 q e2 w, release_result panic_text res e = (Ok p, e1) ∧
    Guest.deallocate panic_text p e1 = gfree q n e2 ∧
    wasmer_instance (e_data e2) = Some w ∧ live w !! q = Some (grown n) ∧ n < grown n.
Proof.
  intros He Hb Hne Hρ Hcap n.
  destruct (release_result_run res e h ρ b Hb Hne He Hρ) as (p & q & rest & h' & e1 & (Hrun & He1 & _) & Hrel & Hlen).
  destruct Hrel as [-> Hp Hq Ha _].
  assert (q ≠ p) as Hqp by (intros ->; by rewrite lookup_insert_eq in Hp).
  assert (0 < q ∧ q + n < U32) as [? ?].
  { destruct (at_heap_block _ _ _ _ q (b ++ rest) He1) as (? & ? & Hlt);
      [by rewrite lookup_insert_ne, lookup_insert_eq|]. rewrite length_app in Hlt. unfold n. lia. }
  destruct (consume_region_run panic_text exported e1 _ _ p (exact_region q b) He1) as (e2 & Hgo & He2 & _);
    [by rewrite lookup_insert_eq|split_and!; cbn; unfold in_width, n in *; lia|cbn; lia|].
  rewrite delete_insert_id in He2 by done. pose proof He2 as (w & m & k & Hw & _ & _ & _ & Hl & _ & Hh & _).
  assert (heap_of (live w) m !! q = Some (b ++ rest)) as Hblock by (by rewrite <-Hh, lookup_insert_eq).
  destruct (heap_block _ _ _ _ Hl Hblock) as (Hlive & _).
  exists p, e1, q, e2, w. split_and!; [done| |done|by rewrite Hlive, Hlen|].
  - unfold Guest.deallocate. by rewrite (bind_Ok _ _ _ _ _ Hgo).
  - pose proof (grown_at_least n). unfold exact_capacity in Hcap. fold n in Hcap. lia.
Qed.

Lemma built_call_raw `{Json R} e h ρ ρ' name body ds limit (res : R) b o :
  at_heap e h ρ → built name body →
  args_room ds ≤ ρ → answer_room b ≤ ρ' →
  json_to_vec res = inr b → b ≠ [] → exact_capacity b → Z.of_nat (length b) ≤ limit < U32 →
  (∀ e1 h1 new, at_heap e1 h1 (ρ - args_room ds) → outside e1 = outside e → new.*2 = ds →
     in_flight h h1 new [] →
     ∃ e2 h2, body ((λ r : Z * Z * bytes, VI32 r.1.1) <$> new) e1 =
         (p ← release_result panic_text res; mret [VI32 p]) e2 ∧
       at_heap e2 h2 ρ' ∧ h ⊆ h2 ∧ outside e2 = o) →
  ∃ e' h', Host.call_raw guest_call name ds limit e = (Ok b, e') ∧ outside e' = o ∧
    at_heap e' h' (ρ' - answer_room b) ∧ h ⊆ h'.
Proof.
  intros He [Hal Hde Hname Hex] Hρ Hρ' Hb Hne Hcap Hlim Hbody.
  apply (call_raw_run guest_call e h ρ _ name ds limit b o He); try (apply Hex; set_solver); try done.
  { intros k e1. unfold exports. by rewrite Hal. }
  { intros k e1. unfold exports. by rewrite Hde. }
  intros e1 h1 new He1 Ho1 Hds Hfl.
  destruct (Hbody e1 h1 new He1 Ho1 Hds Hfl) as (e2 & h2 & Hrun & He2 & Hsub & Ho2).
  destruct (release_result_run res e2 h2 ρ' b Hb Hne He2 Hρ') as (p & q & rest & h3 & e3 & (Hr & He3 & Ho3) & Hrel & Hlen).
  assert (rest = []) as -> by (rewrite length_app, Hcap in Hlen; apply nil_length_inv; lia).
  exists p, q, e3, h2, h3. split_and!; [|congruence| |done|done].
  - unfold exports. rewrite Hname, Hrun, (bind_Ok _ _ _ _ _ Hr). done.
  - eapply at_heap_room; [exact He3|]. unfold answer_room. lia.
Qed.

Section typed.
Context `{!SerdeJson Env, !SerdeJson MessageInfo, !Json Env, !Json MessageInfo}.
Context `{!JsonCompat Env, !JsonCompat MessageInfo}.

(** What a contract function answers to a message: its result, or the text of the error
    when the message does not parse. *)
Definition answer `{Json Msg} {R} (f : Msg → G (string + R)) (msg : bytes) : G (ContractResult R) :=
  try_into_contract_result msg (λ m, r ← f m; mret (contract_result r)).

Lemma with_info_answer `{Json Msg} {R} (f : Env → MessageInfo → Msg → G (string + R)) env info be bi msg :
  sj_to_vec env = inr be → sj_to_vec info = inr bi →
  try_into_contract_result be (λ env_val : Env,
    try_into_contract_result bi (λ info_val : MessageInfo,
    try_into_contract_result msg (λ msg_val : Msg,
      r ← f env_val info_val msg_val; mret (contract_result r)))) = answer (f env info) msg.
Proof.
  intros He Hi. unfold try_into_contract_result at 1, TypedStorage.from_slice.
  rewrite (host_to_guest _ _ He). unfold try_into_contract_result at 1, TypedStorage.from_slice.
  by rewrite (host_to_guest _ _ Hi).
Qed.

Lemma without_info_answer `{Json Msg} {R} (f : Env → Msg → G (string + R)) env be msg :
  sj_to_vec env = inr be →
  try_into_contract_result be (λ env_val : Env,
    try_into_contract_result msg (λ msg_val : Msg,
      r ← f env_val msg_val; mret (contract_result r))) = answer (f env) msg.
Proof.
  intros He. unfold try_into_contract_result at 1, TypedStorage.from_slice.
  by rewrite (host_to_guest _ _ He).
Qed.

(** An entry point with [info], called with serialized arguments. *)
Lemma call_with_info `{Json Msg} `{Json (ContractResult R)} e h ρ ρ' name
    (f : Env → MessageInfo → Msg → G (string + R)) env info msg be bi limit res b o :
  at_heap e h ρ →
  built name (entry_point3 (λ p1 p2 p3, r ← with_info panic_text f p1 p2 p3; release_result panic_text r)) →
  sj_to_vec env = inr be → sj_to_vec info = inr bi → args_room [be; bi; msg] ≤ ρ →
  computes (answer (f env info) msg) h (ρ - args_room [be; bi; msg]) (outside e) res ρ' o →
  answer_room b ≤ ρ' → json_to_vec res = inr b → b ≠ [] → exact_capacity b → Z.of_nat (length b) ≤ limit < U32 →
  ∃ e' h', Host.call_raw guest_call name [be; bi; msg] limit e = (Ok b, e') ∧ outside e' = o ∧
    at_heap e' h' (ρ' - answer_room b) ∧ h ⊆ h'.
Proof.
  intros He Hbuilt Henv Hinfo Hρ Hf Hρ' Hb Hne Hcap Hlim.
  apply (built_call_raw e h ρ ρ' name _ [be; bi; msg] limit res b o He Hbuilt Hρ Hρ' Hb Hne Hcap Hlim).
  intros e1 h1 new He1 Ho1 Hds Hfl.
  destruct new as [|[[p1 q1] d1] [|[[p2 q2] d2] [|[[p3 q3] d3] [|]]]]; try done. injection Hds as -> -> ->.
  destruct (with_info_run f e1 h1 h _ ρ' o p1 q1 be p2 q2 bi p3 q3 msg res He1 Hfl) as (e2 & h2 & Hr & He2 & Hsub & Ho2).
  { by rewrite (with_info_answer f env info be bi msg Henv Hinfo), Ho1. }
  exists e2, h2. split_and!; [|done..]. cbn. by rewrite bind_assoc, (bind_Ok _ _ _ _ _ Hr).
Qed.

(** An entry point without it. *)
Lemma call_without_info `{Json Msg} `{Json (ContractResult R)} e h ρ ρ' name
    (f : Env → Msg → G (string + R)) env msg be limit res b o :
  at_heap e h ρ →
  built name (entry_point2 (λ p1 p2, r ← without_info panic_text f p1 p2; release_result panic_text r)) →
  sj_to_vec env = inr be → args_room [be; msg] ≤ ρ →
  computes (answer (f env) msg) h (ρ - args_room [be; msg]) (outside e) res ρ' o →
  answer_room b ≤ ρ' → json_to_vec res = inr b → b ≠ [] → exact_capacity b → Z.of_nat (length b) ≤ limit < U32 →
  ∃ e' h', Host.call_raw guest_call name [be; msg] limit e = (Ok b, e') ∧ outside e' = o ∧
    at_heap e' h' (ρ' - answer_room b) ∧ h ⊆ h'.
Proof.
  intros He Hbuilt Henv Hρ Hf Hρ' Hb Hne Hcap Hlim.
  apply (built_call_raw e h ρ ρ' name _ [be; msg] limit res b o He Hbuilt Hρ Hρ' Hb Hne Hcap Hlim).
  intros e1 h1 new He1 Ho1 Hds Hfl.
  destruct new as [|[[p1 q1] d1] [|[[p2 q2] d2] [|]]]; try done. injection Hds as -> ->.
  destruct (without_info_run f e1 h1 h _ ρ' o p1 q1 be p2 q2 msg res He1 Hfl) as (e2 & h2 & Hr & He2 & Hsub & Ho2).
  { by rewrite (without_info_answer f env be msg Henv), Ho1. }
  exists e2, h2. split_and!; [|done..]. cbn. by rewrite bind_assoc, (bind_Ok _ _ _ _ _ Hr).
Qed.

Lemma at_heap_readonly e h ρ r : at_heap e h ρ → at_heap (set_readonly r e) h ρ.
Proof. done. Qed.

Lemma parse_answer `{SerdeJson R, Json R, !JsonCompat R} (res : R) b :
  json_to_vec res = inr b → Z.of_nat (length b) ≤ DESERIALIZATION_LIMIT →
  from_slice b DESERIALIZATION_LIMIT = inr res.
Proof.
  intros Hb Hlim. unfold from_slice. destruct (Z.ltb_spec DESERIALIZATION_LIMIT (Z.of_nat (length b))); [lia|].
  by rewrite (guest_to_host _ _ Hb).
Qed.

Context `{!SerdeJson (ContractResult Response), !Json (ContractResult Response), !JsonCompat (ContractResult Response)}.
Context `{!SerdeJson (ContractResult Binary), !Json (ContractResult Binary), !JsonCompat (ContractResult Binary)}.

(** C22: [call_execute] on an instance of a contract built with [cosmwasm_std] is the
    contract's own function. The host serializes the environment and the info, has the
    guest allocate a region for each argument and fills it; the guest takes the regions,
    parses the arguments, runs the function of the contract and releases the serialized
    result; the host reads it within its limits, has it freed and parses it. What comes
    back is what the function answers on exactly the values the host was given, or the
    text of the parse error when the message does not parse; all that changes in the host
    is what the function did to it, with the storage writable, and no memory block the
    contract had before is lost or changed. This takes enough memory for the arguments
    and the answer, an answer within the limit of the host, and an answer whose vector
    has no spare capacity: [release_buffer] forgets the capacity, so any other vector
    would be freed with a size it was not allocated with. *)
Theorem call_execute_transparent `{Json Msg} e h ρ ρ'
    (execute_fn : Env → MessageInfo → Msg → G (string + Response)) env info msg be bi res b o :
  at_heap e h ρ → built "execute" (entry_point3 (do_execute panic_text execute_fn)) →
  sj_to_vec env = inr be → sj_to_vec info = inr bi → args_room [be; bi; msg] ≤ ρ →
  computes (answer (execute_fn env info) msg) h (ρ - args_room [be; bi; msg])
    (outside (set_readonly false e)) res ρ' o →
  answer_room b ≤ ρ' → json_to_vec res = inr b → b ≠ [] → exact_capacity b →
  Z.of_nat (length b) ≤ DESERIALIZATION_LIMIT →
  ∃ e' h', call_execute guest_call env info msg e = (Ok res, e') ∧ outside e' = o ∧
    at_heap e' h' (ρ' - answer_room b) ∧ h ⊆ h'.
Proof.
  intros He Hbuilt Henv Hinfo Hρ Hf Hρ' Hb Hne Hcap Hlim.
  destruct (call_with_info (set_readonly false e) h ρ ρ' "execute" execute_fn env info msg be bi READ_LIMIT res b o)
    as (e' & h' & Hrun & Ho & He' & Hsub);
    try done; [split; [etrans; [exact Hlim|by vm_compute]|by vm_compute]|].
  exists e', h'. split_and!; try done.
  unfold call_execute, to_vec, call_execute_raw. rewrite Henv, Hinfo. cbn [of_sum].
  rewrite !bind_ret_l, bind_assoc, (bind_Ok (set_storage_readonly false) _ e tt (set_readonly false e) eq_refl).
  rewrite (bind_Ok _ _ _ _ _ Hrun), (parse_answer res b Hb Hlim). done.
Qed.

(** [call_query] likewise, with the storage read-only; a result that is not JSON is an
    error of the host. *)
Lemma call_query_transparent `{Json Msg} e h ρ ρ'
    (query_fn : Env → Msg → G (string + Binary)) env msg be res b o :
  at_heap e h ρ → built "query" (entry_point2 (do_query panic_text query_fn)) →
  sj_to_vec env = inr be → args_room [be; msg] ≤ ρ →
  computes (answer (query_fn env) msg) h (ρ - args_room [be; msg])
    (outside (set_readonly true e)) res ρ' o →
  answer_room b ≤ ρ' → json_to_vec res = inr b → b ≠ [] → exact_capacity b →
  Z.of_nat (length b) ≤ DESERIALIZATION_LIMIT →
  ∃ e' h', outside e' = o ∧ at_heap e' h' (ρ' - answer_room b) ∧ h ⊆ h' ∧
    call_query guest_call env msg e =
      (match res with
       | CROk r => if json_display r then Ok res
                   else Err (GenericErr ("Query response must be valid JSON. " +:+ json_parse_error r))
       | CRErr _ => Ok res
       end, e').
Proof.
  intros He Hbuilt Henv Hρ Hf Hρ' Hb Hne Hcap Hlim.
  destruct (call_without_info (set_readonly true e) h ρ ρ' "query" query_fn env msg be READ_LIMIT res b o)
    as (e' & h' & Hrun & Ho & He' & Hsub);
    try done; [split; [etrans; [exact Hlim|by vm_compute]|by vm_compute]|].
  exists e', h'. split_and!; try done.
  unfold call_query, to_vec, call_query_raw. rewrite Henv. cbn [of_sum].
  rewrite !bind_ret_l, bind_assoc, (bind_Ok (set_storage_readonly true) _ e tt (set_readonly true e) eq_refl).
  rewrite (bind_Ok _ _ _ _ _ Hrun), (parse_answer res b Hb Hlim). cbn [of_sum]. rewrite bind_ret_l.
  destruct res as [r|]; [|done]. by destruct (json_display r).
Qed.
End typed.
End Calls.
