(* ===== verification/StdQueries.v ===== *)
(** * Results, messages and binaries of contracts ([cosmwasm/packages/std/src]: [coins.rs],
      [binary.rs], [hex_binary.rs], [addresses.rs], [results])

    What contract code uses to build its answers, beside the types and operations of
    [CwStd] that the simulator itself needs. base64 and hexadecimal are crates and so
    parameters.

    The second part has the queries of contracts and [QuerierWrapper]. *)

From S2P Require Import Prelude.
From S2P Require Import Bytes.
From S2P Require Import CwStd.
From S2P Require Import StdError.
From S2P Require Import TypedStorage.
From S2P Require Import Sections.
From S2P Require Import Ibc.

Open Scope Z_scope.

(** ** [coins.rs] *)
Definition coin (amount : Z) (denom : string) : Coin := mkCoin denom amount.
Definition coins (amount : Z) (denom : string) : list Coin := [coin amount denom].

(** ** [results/events.rs], [results/response.rs]

    [Attribute::new] refuses reserved keys when the debug assertions are compiled in; a
    contract is compiled without them. *)
Definition Attribute_new {E S} (debug_assertions : bool) (key value : string) : M E S Attribute :=
  if debug_assertions && bool_decide (String.prefix "_" key = true) then
    panic ("attribute key `" +:+ key +:+ "` is invalid - keys starting with an underscore are reserved")
  else mret (mkAttribute key value).
Definition attr (key value : string) : Attribute := mkAttribute key value.
Definition attribute_eq_pair (self : Attribute) (kv : string * string) : bool :=
  bool_decide ((attr_key self, attr_value self) = kv).
Definition Event_add_attributes (attrs : list Attribute) (self : Event) : Event :=
  mkEvent (ev_ty self) (ev_attributes self ++ attrs).
Definition add_attribute (key value : string) (self : Response) : Response :=
  mkResponse (messages self) (attributes self ++ [attr key value]) (events self) (data self).
Definition add_attributes (attrs : list Attribute) (self : Response) : Response :=
  mkResponse (messages self) (attributes self ++ attrs) (events self) (data self).

(** ** [results/submessages.rs], [contract_result.rs], [system_result.rs]

    Their conversions to and from [Result]; [unwrap] and [unwrap_err] panic with the
    [Debug] text of the value, given as [show]. *)
Definition unwrap_text : string := "called `Result::unwrap()` on an `Err` value: ".
Definition unwrap_err_text : string := "called `Result::unwrap_err()` on an `Ok` value: ".
Definition result_unwrap {E S A B} (show : A → string) (r : A + B) : M E S B :=
  match r with inr b => mret b | inl a => panic (unwrap_text +:+ show a) end.
Definition result_unwrap_err {E S A B} (show : B → string) (r : A + B) : M E S A :=
  match r with inl a => mret a | inr b => panic (unwrap_err_text +:+ show b) end.

Module SubMsgResults.
Definition into_result (self : SubMsgResult) : string + SubMsgResponse :=
  match self with SMROk value => inr value | SMRErr err => inl err end.
Definition from_result (original : string + SubMsgResponse) : SubMsgResult :=
  match original with inr value => SMROk value | inl err => SMRErr err end.
Definition unwrap {E S} (show : string → string) (self : SubMsgResult) : M E S SubMsgResponse :=
  result_unwrap show (into_result self).
Definition unwrap_err {E S} (show : SubMsgResponse → string) (self : SubMsgResult) : M E S string :=
  result_unwrap_err show (into_result self).
Definition is_ok (self : SubMsgResult) : bool := match self with SMROk _ => true | _ => false end.
Definition is_err (self : SubMsgResult) : bool := match self with SMRErr _ => true | _ => false end.
End SubMsgResults.

Module ContractResults.
Section contract_result.
Context {A : Type}.
Definition into_result (self : ContractResult A) : string + A :=
  match self with CROk value => inr value | CRErr err => inl err end.
Definition unwrap {E S} (show : string → string) (self : ContractResult A) : M E S A :=
  result_unwrap show (into_result self).
Definition unwrap_err {E S} (show : A → string) (self : ContractResult A) : M E S string :=
  result_unwrap_err show (into_result self).
End contract_result.
End ContractResults.

Module SystemResults.
Section system_result.
Context {A : Type}.
Definition into_result (self : SystemResult A) : SystemError + A :=
  match self with SROk value => inr value | SRErr err => inl err end.
Definition from_result (original : SystemError + A) : SystemResult A :=
  match original with inr value => SROk value | inl err => SRErr err end.
Definition unwrap {E S} (show : SystemError → string) (self : SystemResult A) : M E S A :=
  result_unwrap show (into_result self).
Definition unwrap_err {E S} (show : A → string) (self : SystemResult A) : M E S SystemError :=
  result_unwrap_err show (into_result self).
End system_result.
End SystemResults.

(** ** [results/cosmos_msg.rs] *)
Inductive VoteOption := VoteYes | VoteNo | VoteAbstain | VoteNoWithVeto.
Inductive GovMsg := GovVote (proposal_id : Z) (vote : VoteOption).

(** [to_binary] of [serde.rs] is [to_vec]. *)
Definition wasm_instantiate `{Json T} (code_id : Z) (msg : T) (funds : list Coin) (label : string)
    : StdError + WasmMsg :=
  match to_vec msg with
  | inl e => inl e
  | inr payload => inr (WasmInstantiate None code_id payload funds label)
  end.
Definition wasm_execute `{Json T} (contract_addr : string) (msg : T) (funds : list Coin) : StdError + WasmMsg :=
  match to_vec msg with
  | inl e => inl e
  | inr payload => inr (WasmExecute contract_addr payload funds)
  end.

(** ** [binary.rs], [hex_binary.rs] *)
Class TextCodecs := {
  base64_decode : string → string + bytes;
  base64_encode : bytes → string;
  hex_decode : string → string + bytes;
  hex_encode : bytes → string
}.
(** What the two crates document: what was encoded is decoded again. *)
Class TextCodecsSpec `{TextCodecs} : Prop := {
  base64_roundtrip b : base64_decode (base64_encode b) = inr b;
  hex_roundtrip b : hex_decode (hex_encode b) = inr b
}.

(** The digits of [{:02x}] and [{:02X}]. *)
Definition hex_digit (upper : bool) (n : N) : string :=
  match String.get (N.to_nat n) (if upper then "0123456789ABCDEF" else "0123456789abcdef") with
  | Some c => String.String c String.EmptyString
  | None => String.EmptyString
  end.
Definition hex_byte (upper : bool) (x : byte) : string :=
  hex_digit upper (Byte.to_N x / 16) +:+ hex_digit upper (Byte.to_N x mod 16).
Fixpoint hex_text (upper : bool) (l : bytes) : string :=
  match l with [] => String.EmptyString | x :: l => hex_byte upper x +:+ hex_text upper l end.

(** [to_array] of both types. *)
Definition to_array (LENGTH : Z) (self : bytes) : StdError + bytes :=
  let len := Z.of_nat (length self) in
  if negb (len =? LENGTH) then inl (StdInvalidDataSize LENGTH len) else inr self.

Module Binaries.
Section binary.
Context `{TextCodecs}.
Definition from_base64 (encoded : string) : StdError + Binary :=
  match base64_decode encoded with inr b => inr b | inl e => inl (StdInvalidBase64 e) end.
Definition to_base64 (self : Binary) : string := base64_encode self.
Definition Debug (self : Binary) : string := "Binary(" +:+ hex_text false self +:+ ")".
Definition serialize (self : Binary) : string := to_base64 self.
Definition visit_str (v : string) : string + Binary :=
  match from_base64 v with inr b => inr b | inl _ => inl ("invalid base64: " +:+ v) end.
End binary.
End Binaries.

Module HexBinaries.
Section hex_binary.
Context `{TextCodecs}.
Definition from_hex (input : string) : StdError + bytes :=
  match hex_decode input with inr b => inr b | inl e => inl (StdInvalidHex e) end.
Definition to_hex (self : bytes) : string := hex_encode self.
Definition Debug (self : bytes) : string := "HexBinary(" +:+ hex_text false self +:+ ")".
Definition serialize (self : bytes) : string := to_hex self.
Definition visit_str (v : string) : string + bytes :=
  match from_hex v with inr b => inr b | inl _ => inl ("invalid hex: " +:+ v) end.
End hex_binary.
End HexBinaries.

(** [Display for CanonicalAddr] in [addresses.rs]. *)
Definition canonical_to_string (self : bytes) : string := hex_text true self.

(** ** Facts *)
Lemma binary_roundtrip `{TextCodecsSpec} b :
  Binaries.visit_str (Binaries.serialize b) = inr b ∧ HexBinaries.visit_str (HexBinaries.serialize b) = inr b.
Proof.
  unfold Binaries.visit_str, Binaries.serialize, Binaries.from_base64, Binaries.to_base64.
  unfold HexBinaries.visit_str, HexBinaries.serialize, HexBinaries.from_hex, HexBinaries.to_hex.
  by rewrite base64_roundtrip, hex_roundtrip.
Qed.

Lemma to_array_ok n (b : bytes) : to_array n b = inr b ↔ Z.of_nat (length b) = n.
Proof. unfold to_array. destruct (Z.eqb_spec (Z.of_nat (length b)) n); naive_solver. Qed.

(** * Queries of contracts ([cosmwasm/packages/std/src]: [query], [traits.rs])

    All query types with every capability of a contract switched on, and
    [QuerierWrapper], through which contracts ask: requests are serialized, errors of
    the system and of the queried contract become errors of the caller, answers are
    parsed. [CwStd] has the smaller set of queries the simulator is built with. *)

Definition SystemError_to_string (e : SystemError) : string :=
  match e with
  | InvalidRequest error request =>
      "Cannot parse request: " +:+ error +:+ " in: " +:+ from_utf8_lossy request
  | InvalidResponse error response =>
      "Cannot parse response: " +:+ error +:+ " in: " +:+ from_utf8_lossy response
  | NoSuchContract addr => "No such contract: " +:+ addr
  | SysUnknown => "Unknown system error"
  | UnsupportedRequest kind => "Unsupported query type: " +:+ kind
  end.

(** ** Requests *)
Module Full.
Inductive BankQuery :=
| Supply (denom : string)
| Balance (address denom : string)
| AllBalances (address : string).

Inductive IbcQuery :=
| PortId
| ListChannels (port_id : option string)
| Channel (channel_id : string) (port_id : option string).

Inductive QueryRequest (C : Type) :=
| Bank (q : BankQuery)
| Custom (q : C)
| Staking (q : StakingQuery)
| Stargate (path : string) (data : Binary)
| ReqIbc (q : IbcQuery)
| Wasm (q : WasmQuery).
Arguments Bank {C} q.
Arguments Custom {C} q.
Arguments Staking {C} q.
Arguments Stargate {C} path data.
Arguments ReqIbc {C} q.
Arguments Wasm {C} q.
End Full.

(** ** Answers *)
Record SupplyResponse := mkSupplyResponse { sr_amount : Coin }.

Record FullDelegation := mkFullDelegation {
  fd_delegator : Addr;
  fd_validator : string;
  fd_amount : Coin;
  can_redelegate : Coin;
  accumulated_rewards : list Coin
}.
Record Delegation := mkDelegation { d_delegator : Addr; d_validator : string; d_amount : Coin }.

(** [impl From<FullDelegation> for Delegation]. *)
Definition delegation_of_full (full : FullDelegation) : Delegation :=
  mkDelegation (fd_delegator full) (fd_validator full) (fd_amount full).

Record Validator := mkValidator {
  va_address : string;
  commission : Z;
  max_commission : Z;
  max_change_rate : Z
}.

Record BondedDenomResponse := mkBondedDenomResponse { bd_denom : string }.
Record AllDelegationsResponse := mkAllDelegationsResponse { ad_delegations : list Delegation }.
Record DelegationResponse := mkDelegationResponse { dr_delegation : option FullDelegation }.
Record AllValidatorsResponse := mkAllValidatorsResponse { av_validators : list Validator }.
Record ValidatorResponse := mkValidatorResponse { vr_validator : option Validator }.

Record ContractInfoResponse := mkContractInfoResponse {
  cir_code_id : Z;
  cir_creator : string;
  cir_admin : option string;
  cir_pinned : bool;
  cir_ibc_port : option string
}.
Definition ContractInfoResponse_new (code_id : Z) (creator : string) : ContractInfoResponse :=
  mkContractInfoResponse code_id creator None false None.

Record PortIdResponse := mkPortIdResponse { pi_port_id : string }.
Record ListChannelsResponse := mkListChannelsResponse { lc_channels : list IbcChannel }.
Record ChannelResponse := mkChannelResponse { cr_channel : option IbcChannel }.

(** ** [QuerierWrapper] *)
Abbreviation QuerierResult := (SystemResult (ContractResult Binary)).

Section querier_wrapper.
(** [raw_query] of the querier that is wrapped. *)
Context {C : Type} (raw_query : bytes → QuerierResult).
Context `{!Json (Full.QueryRequest C), !Json (Full.QueryRequest unit)}.
Context `{!Json SupplyResponse, !Json BalanceResponse, !Json AllBalanceResponse}.
Context `{!Json ContractInfoResponse, !Json BondedDenomResponse, !Json AllDelegationsResponse}.
Context `{!Json DelegationResponse, !Json AllValidatorsResponse, !Json ValidatorResponse}.

(** The two errors of a querier, and what follows an answer. *)
Definition wrapped {U} (r : QuerierResult) (k : Binary → StdError + U) : StdError + U :=
  match r with
  | SRErr system_err => inl (StdGenericErr ("Querier system error: " +:+ SystemError_to_string system_err))
  | SROk (CRErr contract_err) => inl (StdGenericErr ("Querier contract error: " +:+ contract_err))
  | SROk (CROk value) => k value
  end.
Definition ask {T U} `{Json T} (request : T) (k : Binary → StdError + U) : StdError + U :=
  match to_vec request with
  | inl serialize_err =>
      inl (StdGenericErr ("Serializing QueryRequest: " +:+ StdError_to_string serialize_err))
  | inr raw => wrapped (raw_query raw) k
  end.
(** [?], then a field of the answer. *)
Definition field {T U} (f : T → U) (r : StdError + T) : StdError + U :=
  match r with inl e => inl e | inr x => inr (f x) end.

Definition query `{Json U} (request : Full.QueryRequest C) : StdError + U := ask request from_slice.

Definition query_supply (denom : string) : StdError + Coin :=
  field sr_amount (query (Full.Bank (Full.Supply denom))).
Definition query_balance (address denom : string) : StdError + Coin :=
  field br_amount (query (Full.Bank (Full.Balance address denom))).
Definition query_all_balances (address : string) : StdError + list Coin :=
  field abr_amount (query (Full.Bank (Full.AllBalances address))).

Definition query_wasm_smart `{Json Msg, Json T} (contract_addr : string) (msg : Msg) : StdError + T :=
  match to_vec msg with
  | inl e => inl e
  | inr msg => query (Full.Wasm (QSmart contract_addr msg))
  end.
Definition query_wasm_raw (contract_addr : string) (key : Binary) : StdError + option bytes :=
  ask (Full.Wasm (C := unit) (QRaw contract_addr key))
    (λ value, match value with [] => inr None | _ => inr (Some value) end).
Definition query_wasm_contract_info (contract_addr : string) : StdError + ContractInfoResponse :=
  query (Full.Wasm (QContractInfo contract_addr)).

Definition query_all_validators : StdError + list Validator :=
  field av_validators (query (Full.Staking QAllValidators)).
Definition query_validator (address : string) : StdError + option Validator :=
  field vr_validator (query (Full.Staking (QValidator address))).
Definition query_bonded_denom : StdError + string :=
  field bd_denom (query (Full.Staking QBondedDenom)).
Definition query_all_delegations (delegator : string) : StdError + list Delegation :=
  field ad_delegations (query (Full.Staking (QAllDelegations delegator))).
Definition query_delegation (delegator validator : string) : StdError + option FullDelegation :=
  field dr_delegation (query (Full.Staking (QDelegation delegator validator))).
End querier_wrapper.
