(* ===== verification/MockApi.v ===== *)
(** * The address API of tests ([cosmwasm/packages/std/src/testing/mock.rs])

    [MockApi] pads human addresses, rotates them by their digit sum and riffles them;
    the reverse direction riffles on until the original order is back. The theorem says
    that it works: 18 riffles to encode and two to decode are the identity on the 54
    bytes of an address. *)

From S2P Require Import Prelude.
From S2P Require Import CwStd.
From S2P Require Import StdError.
From S2P Require Import Sections.
From S2P Require Import Crypto.

(** Texts of the standard library: [str::to_lowercase] needs the tables of Unicode, and
    [FromUtf8Error] says where the bytes are not UTF-8. *)
Class RustText := {
  to_lowercase : string → string;
  utf8_error : bytes → string
}.

(** ** Permutations of bytes *)

(** One round for an even number of elements. *)
Fixpoint interleave {A} (rights lefts : list A) : list A :=
  match rights, lefts with
  | r :: rights, l :: lefts => r :: l :: interleave rights lefts
  | _, _ => []
  end.
Definition riffle {A} (input : list A) : list A :=
  let mid := (length input / 2)%nat in interleave (drop mid input) (take mid input).

Definition riffle_shuffle {E S A} (input : list A) : M E S (list A) :=
  if Nat.even (length input) then mret (riffle input)
  else panic "Method only defined for even number of elements".

Definition digit_sum (input : bytes) : nat :=
  foldl (λ sum val, sum + Z.to_nat (Z.of_N (Byte.to_N val)))%nat 0%nat input.

(** [slice::rotate_left] and [rotate_right]. *)
Definition rotate_left {A} (k : nat) (l : list A) : list A := drop k l ++ take k l.
Definition rotate_right {A} (k : nat) (l : list A) : list A :=
  drop (length l - k) l ++ take (length l - k) l.

(** [Vec::resize] with zeros. *)
Definition resize (n : nat) (l : bytes) : bytes := take n l ++ replicate (n - length l) Byte.x00.

(** ** [MockApi] *)
Definition CANONICAL_LENGTH : nat := 54.
Definition SHUFFLES_ENCODE : nat := 18.
Definition SHUFFLES_DECODE : nat := 2.

Record MockApi := mkMockApi { canonical_length : nat }.
Definition MockApi_default : MockApi := mkMockApi CANONICAL_LENGTH.

Section api.
Context {S : Type} {HT : RustText} {HC : Curves}.
Abbreviation API := (M StdError S).

Fixpoint shuffles {E A} (n : nat) (l : list A) : M E S (list A) :=
  match n with
  | O => mret l
  | Datatypes.S n => out ← riffle_shuffle l; shuffles n out
  end.

(** [digit_sum(..) % self.canonical_length]. *)
Definition rotate_by {E} (self : MockApi) (l : bytes) : M E S nat :=
  match canonical_length self with
  | O => panic "attempt to calculate the remainder with a divisor of zero"
  | n => mret (digit_sum l mod n)%nat
  end.

Definition addr_canonicalize (self : MockApi) (input : string) : API bytes :=
  if (String.length input <? 3)%nat then
    throw (StdGenericErr "Invalid input: human address too short")
  else if (canonical_length self <? String.length input)%nat then
    throw (StdGenericErr "Invalid input: human address too long")
  else
    let normalized := to_lowercase input in
    let out := resize (canonical_length self) (as_bytes normalized) in
    k ← rotate_by self out;
    shuffles SHUFFLES_ENCODE (rotate_left k out).

Definition addr_humanize (self : MockApi) (canonical : bytes) : API string :=
  if negb (length canonical =? canonical_length self)%nat then
    throw (StdGenericErr "Invalid input: canonical address length not correct")
  else
    tmp ← shuffles SHUFFLES_DECODE canonical;
    k ← rotate_by self tmp;
    let trimmed := filter (λ x, x ≠ Byte.x00) (rotate_right k tmp) in
    match from_utf8 trimmed with
    | Some human => mret human
    | None => throw (StdInvalidUtf8 (utf8_error trimmed))
    end.

Definition addr_validate (self : MockApi) (input : string) : API string :=
  canonical ← addr_canonicalize self input;
  normalized ← addr_humanize self canonical;
  if bool_decide (input ≠ normalized) then
    throw (StdGenericErr "Invalid input: address not normalized")
  else mret input.

(** The signature methods forward to the crypto package. *)
Definition mock_verify (r : M CryptoError S bool) : M VerificationError S bool :=
  map_err VerificationError_of_CryptoError r.
Definition mock_secp256k1_verify (message_hash signature public_key : bytes) : M VerificationError S bool :=
  mock_verify (secp256k1_verify message_hash signature public_key).
Definition mock_secp256k1_recover_pubkey (message_hash signature : bytes) (recovery_param : Z)
    : M RecoverPubkeyError S bytes := λ s,
  match secp256k1_recover_pubkey message_hash signature recovery_param s with
  | (Ok pubkey, s) => (Ok pubkey, s)
  | (Err e, s) => (e ← RecoverPubkeyError_of_CryptoError e; throw e) s
  | (Panic p, s) => (Panic p, s)
  | (OutOfFuel, s) => (OutOfFuel, s)
  end.
Definition mock_ed25519_verify (message signature public_key : bytes) : M VerificationError S bool :=
  mock_verify (ed25519_verify message signature public_key).
Definition mock_ed25519_batch_verify (messages signatures public_keys : list bytes)
    : M VerificationError S bool :=
  mock_verify (ed25519_batch_verify messages signatures public_keys).
End api.

(** ** Riffles *)
Lemma length_interleave {A} (r l : list A) :
  length r = length l → length (interleave r l) = (2 * length l)%nat.
Proof. revert l. induction r as [|x r IH]; intros [|y l]; cbn; try done. intros [= Hl]. rewrite IH by done. lia. Qed.

Lemma interleave_perm {A} (r l : list A) : length r = length l → interleave r l ≡ₚ l ++ r.
Proof.
  revert l. induction r as [|x r IH]; intros [|y l]; cbn; try done. intros [= Hl].
  rewrite IH by done. solve_Permutation.
Qed.

Lemma even_halves {A} (l : list A) :
  Nat.even (length l) = true →
  length (drop (length l / 2) l) = length (take (length l / 2) l) ∧
  length l = (2 * length (take (length l / 2) l))%nat.
Proof.
  intros [k Hk]%Nat.even_spec. rewrite length_drop, length_take, Hk.
  replace (2 * k / 2)%nat with k by (symmetry; rewrite Nat.mul_comm; by apply Nat.div_mul). lia.
Qed.

Lemma riffle_perm {A} (l : list A) : Nat.even (length l) = true → riffle l ≡ₚ l.
Proof.
  intros He. unfold riffle. rewrite interleave_perm by by apply even_halves. by rewrite take_drop.
Qed.
Lemma length_riffle {A} (l : list A) : Nat.even (length l) = true → length (riffle l) = length l.
Proof. intros He. by rewrite riffle_perm. Qed.

(** A riffle moves elements and does not look at them. *)
Lemma interleave_fmap {A B} (f : A → B) r l : interleave (f <$> r) (f <$> l) = f <$> interleave r l.
Proof. revert l. induction r as [|x r IH]; intros [|y l]; cbn; try done. by rewrite <-IH. Qed.
Lemma riffle_fmap {A B} (f : A → B) l : riffle (f <$> l) = f <$> riffle l.
Proof. unfold riffle. by rewrite length_fmap, <-interleave_fmap, fmap_drop, fmap_take. Qed.
Lemma iter_riffle_fmap {A B} (f : A → B) n l : Nat.iter n riffle (f <$> l) = f <$> Nat.iter n riffle l.
Proof. induction n as [|n IH]; [done|]. by rewrite !Nat.iter_succ, IH, riffle_fmap. Qed.

Lemma list_of_seq {A} (l : list A) (d : A) : (λ i, default d (l !! i)) <$> seq 0 (length l) = l.
Proof.
  apply list_eq. intros i. rewrite list_lookup_fmap. destruct (decide (i < length l)%nat) as [Hi|Hi].
  - rewrite lookup_seq_lt by done. cbn. by destruct (lookup_lt_is_Some_2 _ _ Hi) as [x ->].
  - rewrite lookup_seq_ge by lia. cbn. symmetry. apply lookup_ge_None. lia.
Qed.

(** An order that comes back for the numbers comes back for every list. *)
Lemma riffle_order {A} n (l : list A) :
  Nat.iter n riffle (seq 0 (length l)) = seq 0 (length l) → Nat.iter n riffle l = l.
Proof.
  intros Hn. destruct l as [|d l'].
  { clear Hn. induction n as [|n IH]; [done|]. by rewrite Nat.iter_succ, IH. }
  set (l := d :: l') in *. rewrite <-(list_of_seq l d) at 1. by rewrite iter_riffle_fmap, Hn, list_of_seq.
Qed.
Lemma riffle_54 {A} (l : list A) : length l = CANONICAL_LENGTH → Nat.iter 20 riffle l = l.
Proof. intros Hl. apply riffle_order. rewrite Hl. by vm_compute. Qed.

Lemma shuffles_run {E S A} n (l : list A) (s : S) :
  Nat.even (length l) = true → shuffles (E := E) n l s = (Ok (Nat.iter n riffle l), s).
Proof.
  revert l. induction n as [|n IH]; intros l He; [done|]. cbn [shuffles]. unfold riffle_shuffle.
  rewrite He. rewrite bind_ret_l, IH by by rewrite length_riffle.
  by rewrite <-Nat.iter_succ_r, Nat.iter_succ.
Qed.

(** ** Digit sums and rotations *)
Lemma digit_sum_app a b : digit_sum (a ++ b) = (digit_sum a + digit_sum b)%nat.
Proof.
  unfold digit_sum. rewrite foldl_app. generalize (foldl (λ sum val, (sum + Z.to_nat (Z.of_N (Byte.to_N val)))%nat) 0%nat a).
  induction b as [|x b IH] using rev_ind; intros n; cbn; [lia|]. rewrite !foldl_app. cbn. rewrite IH. lia.
Qed.
Lemma digit_sum_cons x a : digit_sum (x :: a) = (digit_sum [x] + digit_sum a)%nat.
Proof. apply (digit_sum_app [x] a). Qed.
#[export] Instance digit_sum_perm : Proper ((≡ₚ) ==> (=)) digit_sum.
Proof.
  intros a b. induction 1 as [|x a b _ IH|x y a|a b c _ IH1 _ IH2]; [done|..|congruence].
  - by rewrite (digit_sum_cons x a), (digit_sum_cons x b), IH.
  - rewrite !(digit_sum_cons _ (_ :: a)), !(digit_sum_cons _ a). lia.
Qed.
Lemma rotate_left_perm {A} k (l : list A) : rotate_left k l ≡ₚ l.
Proof. unfold rotate_left. by rewrite (comm (++)), take_drop. Qed.
Lemma length_rotate_left {A} k (l : list A) : length (rotate_left k l) = length l.
Proof. by rewrite rotate_left_perm. Qed.
Lemma rotate_back {A} k (l : list A) : (k ≤ length l)%nat → rotate_right k (rotate_left k l) = l.
Proof.
  intros Hk. unfold rotate_right. rewrite length_rotate_left. unfold rotate_left.
  rewrite drop_app_length', take_app_length' by (rewrite length_drop; lia). apply take_drop.
Qed.

(** ** The round trip *)
Section roundtrip.
Context {S : Type} {HT : RustText}.

Lemma length_resize n l : length (resize n l) = n.
Proof. unfold resize. rewrite length_app, length_take, length_replicate. lia. Qed.

Lemma filter_resize n (l : bytes) :
  (length l ≤ n)%nat → Byte.x00 ∉ l → filter (λ x, x ≠ Byte.x00) (resize n l) = l.
Proof.
  intros Hl Hn. unfold resize. rewrite take_ge, filter_app by done.
  assert (∀ k, filter (λ x, x ≠ Byte.x00) (replicate k Byte.x00) = []) as ->.
  { induction k as [|k IH]; [done|]. cbn [replicate]. by rewrite filter_cons_False by naive_solver. }
  rewrite app_nil_r. clear Hl. induction l as [|x l IH]; [done|].
  apply not_elem_of_cons in Hn as [Hx Hn]. by rewrite filter_cons_True, IH.
Qed.

(** Encoding, undone by two more riffles and the rotation back. *)
Lemma decode_encode (out : bytes) :
  length out = CANONICAL_LENGTH →
  let k := (digit_sum out mod CANONICAL_LENGTH)%nat in
  let canonical := Nat.iter SHUFFLES_ENCODE riffle (rotate_left k out) in
  length canonical = CANONICAL_LENGTH ∧
  Nat.iter SHUFFLES_DECODE riffle canonical = rotate_left k out ∧
  digit_sum (rotate_left k out) = digit_sum out ∧ rotate_right k (rotate_left k out) = out.
Proof.
  intros Hl k canonical.
  assert (length (rotate_left k out) = CANONICAL_LENGTH) as Hr by by rewrite length_rotate_left.
  assert (∀ n (l : bytes), length l = CANONICAL_LENGTH → length (Nat.iter n riffle l) = CANONICAL_LENGTH) as Hlen.
  { intros n l Hll. induction n as [|n IH]; [done|]. rewrite Nat.iter_succ, length_riffle; [done|by rewrite IH]. }
  split_and!.
  - by apply Hlen.
  - unfold canonical. rewrite <-Nat.iter_add. by apply riffle_54.
  - by rewrite rotate_left_perm.
  - apply rotate_back. rewrite Hl. unfold k. pose proof (Nat.mod_upper_bound (digit_sum out) CANONICAL_LENGTH). 
    unfold CANONICAL_LENGTH in *. lia.
Qed.

(** C36: In the address API of tests, [addr_humanize] restores what [addr_canonicalize]
    encoded, in lower case, for every address of 3 to 54 bytes whose lower case fits and
    has no NUL byte; canonical addresses all have 54 bytes. [addr_validate] accepts
    exactly the addresses that are in lower case already, and returns them. None of the
    three panics. *)
Theorem mock_addresses_roundtrip input (s : S) :
  let low := to_lowercase input in
  (3 ≤ String.length input ≤ CANONICAL_LENGTH)%nat →
  (length (as_bytes low) ≤ CANONICAL_LENGTH)%nat → Byte.x00 ∉ as_bytes low →
  from_utf8 (as_bytes low) = Some low →
  ∃ canonical, addr_canonicalize MockApi_default input s = (Ok canonical, s) ∧
    length canonical = CANONICAL_LENGTH ∧
    addr_humanize MockApi_default canonical s = (Ok low, s) ∧
    addr_validate MockApi_default input s =
      (if bool_decide (input = low) then Ok input
       else Err (StdGenericErr "Invalid input: address not normalized"), s).
Proof.
  intros low Hin Hlow Hnul Hutf. set (out := resize CANONICAL_LENGTH (as_bytes low)).
  assert (length out = CANONICAL_LENGTH) as Hl by apply length_resize.
  destruct (decode_encode out Hl) as (Hlen & Hdec & Hsum & Hback).
  set (canonical := Nat.iter SHUFFLES_ENCODE riffle (rotate_left (digit_sum out mod CANONICAL_LENGTH) out)) in *.
  assert (addr_canonicalize MockApi_default input s = (Ok canonical, s)) as Hc.
  { unfold addr_canonicalize. cbn [canonical_length MockApi_default].
    destruct (Nat.ltb_spec (String.length input) 3); [lia|].
    destruct (Nat.ltb_spec CANONICAL_LENGTH (String.length input)); [lia|].
    fold low. fold out. unfold rotate_by. cbn [canonical_length MockApi_default CANONICAL_LENGTH].
    rewrite bind_ret_l. apply shuffles_run. by rewrite length_rotate_left, Hl. }
  assert (addr_humanize MockApi_default canonical s = (Ok low, s)) as Hh.
  { unfold addr_humanize. rewrite Hlen. cbn [canonical_length MockApi_default]. rewrite Nat.eqb_refl. cbn [negb].
    rewrite (bind_Ok _ _ _ _ _ (shuffles_run (E := StdError) SHUFFLES_DECODE canonical s ltac:(by rewrite Hlen))), Hdec.
    unfold rotate_by. cbn [canonical_length MockApi_default CANONICAL_LENGTH]. rewrite bind_ret_l, Hsum.
    change (digit_sum out mod 54)%nat with (digit_sum out mod CANONICAL_LENGTH)%nat. rewrite Hback.
    unfold out. rewrite filter_resize by done. by rewrite Hutf. }
  exists canonical. split_and!; try done. unfold addr_validate.
  rewrite (bind_Ok _ _ _ _ _ Hc), (bind_Ok _ _ _ _ _ Hh). by repeat case_bool_decide.
Qed.
End roundtrip.
