(* ===== verification/MockQuerier.v ===== *)
(** * The querier of tests ([cosmwasm/packages/std/src/testing/mock.rs])

    [MockQuerier] answers the queries of a contract under test from tables: balances
    with the supplies computed from them, validators and delegations, and handlers for
    queries of contracts and custom queries. The theorem composes it with
    [QuerierWrapper]: what a contract asks is what the tables say. *)

From S2P Require Import Prelude.
From S2P Require Import CwStd.
From S2P Require Import StdError.
From S2P Require Import Uint128.
From S2P Require Import TypedStorage.
From S2P Require Import Namespaces.
From S2P Require Import Bank.
From S2P Require Import Ibc.
From S2P Require Import StdQueries.
From S2P Require Import MockApi.

Open Scope Z_scope.

(** The order in which a [HashMap<String, Vec<Coin>>] is iterated. *)
Class HashCoins := {
  coins_order : gmap string (list Coin) → list (string * list Coin);
  coins_order_perm m : coins_order m ≡ₚ map_to_list m
}.

(** [impl From<StdResult<T>> for ContractResult<T>]. *)
Definition contract_result_of {T} (r : StdError + T) : ContractResult T :=
  match r with inr a => CROk a | inl e => CRErr (StdError_to_string e) end.

(** ** [BankQuerier] *)
Record BankQuerier := mkBankQuerier {
  supplies : gmap string Z;
  balances : gmap string (list Coin)
}.

(** [*supplies.entry(denom).or_insert_with(zero) += amount]. *)
Fixpoint add_supplies {E S} (coins : list Coin) (acc : gmap string Z) : M E S (gmap string Z) :=
  match coins with
  | [] => mret acc
  | coin :: coins =>
      sum ← uint128_add (default 0 (acc !! denom coin)) (amount coin);
      add_supplies coins (<[denom coin := sum]> acc)
  end.

Section bank.
Context {HO : HashCoins}.

Definition calculate_supplies {E S} (b : gmap string (list Coin)) : M E S (gmap string Z) :=
  add_supplies (mjoin ((coins_order b).*2)) ∅.

Definition BankQuerier_new {E S} (l : list (string * list Coin)) : M E S BankQuerier :=
  let b := foldl (λ m kv, <[kv.1 := kv.2]> m) ∅ l in
  s ← calculate_supplies b;
  mret (mkBankQuerier s b).

Definition bank_update_balance {E} (addr : string) (balance : list Coin)
    : M E BankQuerier (option (list Coin)) :=
  result ← gets (λ q, balances q !! addr);
  _ ← modify (λ q, mkBankQuerier (supplies q) (<[addr := balance]> (balances q)));
  b ← gets balances;
  s ← calculate_supplies b;
  _ ← modify (λ q, mkBankQuerier s (balances q));
  mret result.
End bank.

Section answers.
Context `{!Json SupplyResponse, !Json BalanceResponse, !Json AllBalanceResponse}.
Context `{!Json BondedDenomResponse, !Json AllDelegationsResponse, !Json DelegationResponse}.
Context `{!Json AllValidatorsResponse, !Json ValidatorResponse}.

Definition balance_of (coins : option (list Coin)) (d : string) : Z :=
  default 0 (amount <$> (coins ≫= List.find (λ c, bool_decide (denom c = d)))).

Definition bank_query (self : BankQuerier) (request : Full.BankQuery) : QuerierResult :=
  SROk (match request with
  | Full.Supply d =>
      contract_result_of (to_vec (mkSupplyResponse (mkCoin d (default 0 (supplies self !! d)))))
  | Full.Balance address d =>
      contract_result_of (to_vec (mkBalanceResponse (mkCoin d (balance_of (balances self !! address) d))))
  | Full.AllBalances address =>
      contract_result_of (to_vec (mkAllBalanceResponse (default [] (balances self !! address))))
  end).

(** ** [StakingQuerier] *)
Record StakingQuerier := mkStakingQuerier {
  sq_denom : string;
  sq_validators : list Validator;
  sq_delegations : list FullDelegation
}.
Definition StakingQuerier_default : StakingQuerier := mkStakingQuerier "" [] [].
Definition StakingQuerier_new (d : string) (v : list Validator) (l : list FullDelegation) : StakingQuerier :=
  mkStakingQuerier d v l.

Definition staking_query (self : StakingQuerier) (request : StakingQuery) : QuerierResult :=
  SROk (match request with
  | QBondedDenom => contract_result_of (to_vec (mkBondedDenomResponse (sq_denom self)))
  | QAllValidators => contract_result_of (to_vec (mkAllValidatorsResponse (sq_validators self)))
  | QValidator address =>
      contract_result_of (to_vec (mkValidatorResponse
        (List.find (λ v, bool_decide (va_address v = address)) (sq_validators self))))
  | QAllDelegations delegator =>
      contract_result_of (to_vec (mkAllDelegationsResponse (delegation_of_full <$>
        filter (λ d, fd_delegator d = delegator) (sq_delegations self))))
  | QDelegation delegator validator =>
      contract_result_of (to_vec (mkDelegationResponse
        (List.find (λ d, bool_decide (fd_delegator d = delegator) && bool_decide (fd_validator d = validator))
           (sq_delegations self))))
  end).

(** ** [WasmQuerier]: a handler *)
Record WasmQuerier := mkWasmQuerier { handler : WasmQuery → QuerierResult }.
Definition WasmQuerier_default : WasmQuerier :=
  mkWasmQuerier (λ request,
    let addr := match request with
      | QSmart contract_addr _ => contract_addr
      | QRaw contract_addr _ => contract_addr
      | QContractInfo contract_addr => contract_addr
      end in
    SRErr (NoSuchContract addr)).
Definition wasm_update_handler (h : WasmQuery → QuerierResult) (self : WasmQuerier) : WasmQuerier :=
  mkWasmQuerier h.
Definition wasm_query (self : WasmQuerier) (request : WasmQuery) : QuerierResult := handler self request.

(** ** [MockQuerier] *)
Record MockQuerier (C : Type) := mkMockQuerier {
  mq_bank : BankQuerier;
  mq_staking : StakingQuerier;
  mq_wasm : WasmQuerier;
  mq_custom_handler : C → QuerierResult
}.
Arguments mkMockQuerier {C}.
Arguments mq_bank {C}.
Arguments mq_staking {C}.
Arguments mq_wasm {C}.
Arguments mq_custom_handler {C}.

Definition MockQuerier_new {HO : HashCoins} {C E S} (l : list (string * list Coin)) : M E S (MockQuerier C) :=
  bank ← BankQuerier_new l;
  mret (mkMockQuerier bank StakingQuerier_default WasmQuerier_default
          (λ _, SRErr (UnsupportedRequest "custom"))).
Definition mock_update_balance {HO : HashCoins} {C E} (addr : string) (balance : list Coin)
    : M E (MockQuerier C) (option (list Coin)) :=
  zoom mq_bank (λ b q, mkMockQuerier b (mq_staking q) (mq_wasm q) (mq_custom_handler q))
    (bank_update_balance addr balance).
Definition update_staking {C} (d : string) (v : list Validator) (l : list FullDelegation)
    (self : MockQuerier C) : MockQuerier C :=
  mkMockQuerier (mq_bank self) (StakingQuerier_new d v l) (mq_wasm self) (mq_custom_handler self).
Definition update_wasm {C} (h : WasmQuery → QuerierResult) (self : MockQuerier C) : MockQuerier C :=
  mkMockQuerier (mq_bank self) (mq_staking self) (wasm_update_handler h (mq_wasm self)) (mq_custom_handler self).
Definition with_custom_handler {C} (h : C → QuerierResult) (self : MockQuerier C) : MockQuerier C :=
  mkMockQuerier (mq_bank self) (mq_staking self) (mq_wasm self) h.

Definition handle_query {C} (self : MockQuerier C) (request : Full.QueryRequest C) : QuerierResult :=
  match request with
  | Full.Bank bank_request => bank_query (mq_bank self) bank_request
  | Full.Custom custom_query => mq_custom_handler self custom_query
  | Full.Staking staking_request => staking_query (mq_staking self) staking_request
  | Full.Wasm msg => wasm_query (mq_wasm self) msg
  | Full.Stargate _ _ => SRErr (UnsupportedRequest "Stargate")
  | Full.ReqIbc _ => SRErr (UnsupportedRequest "Ibc")
  end.
Definition mock_raw_query {C} `{!Json (Full.QueryRequest C)} (self : MockQuerier C) (bin_request : bytes)
    : QuerierResult :=
  match from_slice bin_request with
  | inr request => handle_query self request
  | inl e => SRErr (InvalidRequest ("Parsing query request: " +:+ StdError_to_string e) bin_request)
  end.
End answers.
Arguments mkMockQuerier {C}.
Arguments mq_bank {C}.
Arguments mq_staking {C}.
Arguments mq_wasm {C}.
Arguments mq_custom_handler {C}.

(** ** Dependencies and environments of tests *)
Definition MOCK_CONTRACT_ADDR : string := "cosmos2contract".

Record OwnedDeps (C : Type) := mkOwnedDeps {
  od_storage : MemoryStorage;
  od_api : MockApi;
  od_querier : MockQuerier C
}.
Arguments mkOwnedDeps {C}.

Definition mock_dependencies_with_balances {HO : HashCoins} {E S} (l : list (string * list Coin))
    : M E S (OwnedDeps unit) :=
  querier ← MockQuerier_new l;
  mret (mkOwnedDeps MemoryStorage_new MockApi_default querier).
Definition mock_dependencies {HO : HashCoins} {E S} : M E S (OwnedDeps unit) :=
  querier ← MockQuerier_new [];
  mret (mkOwnedDeps MemoryStorage_new MockApi_default querier).
Definition mock_dependencies_with_balance {HO : HashCoins} {E S} (contract_balance : list Coin)
    : M E S (OwnedDeps unit) :=
  mock_dependencies_with_balances [(MOCK_CONTRACT_ADDR, contract_balance)].

Definition mock_env : Env :=
  mkEnv (mkBlockInfo 12345 1571797419879305533 "cosmos-testnet-14002") (Some (mkTransactionInfo 3))
    (mkContractInfo MOCK_CONTRACT_ADDR).
Definition mock_info (sender : string) (funds : list Coin) : MessageInfo := mkMessageInfo sender funds.

Definition mock_ibc_channel (my_channel_id : string) (order : IbcOrder) (version : string) : IbcChannel :=
  mkIbcChannel (mkIbcEndpoint "my_port" my_channel_id) (mkIbcEndpoint "their_port" "channel-7") order version
    "connection-2".
Definition mock_ibc_channel_open_init (my_channel_id : string) (order : IbcOrder) (version : string)
    : IbcChannelOpenMsg :=
  OpenMsg.new_init (mock_ibc_channel my_channel_id order version).
Definition mock_ibc_channel_open_try (my_channel_id : string) (order : IbcOrder) (version : string)
    : IbcChannelOpenMsg :=
  OpenMsg.new_try (mock_ibc_channel my_channel_id order version) version.
Definition mock_ibc_channel_connect_ack (my_channel_id : string) (order : IbcOrder) (version : string)
    : IbcChannelConnectMsg :=
  ConnectMsg.new_ack (mock_ibc_channel my_channel_id order version) version.
Definition mock_ibc_channel_connect_confirm (my_channel_id : string) (order : IbcOrder) (version : string)
    : IbcChannelConnectMsg :=
  ConnectMsg.new_confirm (mock_ibc_channel my_channel_id order version).
Definition mock_ibc_channel_close_init (my_channel_id : string) (order : IbcOrder) (version : string)
    : IbcChannelCloseMsg :=
  CloseMsg.new_init (mock_ibc_channel my_channel_id order version).
Definition mock_ibc_channel_close_confirm (my_channel_id : string) (order : IbcOrder) (version : string)
    : IbcChannelCloseMsg :=
  CloseMsg.new_confirm (mock_ibc_channel my_channel_id order version).

Definition mock_ibc_packet_recv `{Json T} (my_channel_id : string) (data : T) : StdError + IbcPacketReceiveMsg :=
  match to_vec data with
  | inl e => inl e
  | inr data => inr (IbcPacketReceiveMsg_new
      (mkIbcPacket data (mkIbcEndpoint "their-port" "channel-1234") (mkIbcEndpoint "our-port" my_channel_id)
         27 (timeout_of_block (mkTimeoutBlock 1 12345678))) "relayer")
  end.
Definition mock_ibc_packet `{Json T} (my_channel_id : string) (data : T) : StdError + IbcPacket :=
  match to_vec data with
  | inl e => inl e
  | inr data => inr
      (mkIbcPacket data (mkIbcEndpoint "their-port" my_channel_id) (mkIbcEndpoint "our-port" "channel-1234")
         29 (timeout_of_block (mkTimeoutBlock 1 432332552)))
  end.
Definition mock_ibc_packet_ack `{Json T} (my_channel_id : string) (data : T) (ack : IbcAcknowledgement)
    : StdError + IbcPacketAckMsg :=
  match mock_ibc_packet my_channel_id data with
  | inl e => inl e
  | inr packet => inr (IbcPacketAckMsg_new ack packet "relayer")
  end.
Definition mock_ibc_packet_timeout `{Json T} (my_channel_id : string) (data : T) : StdError + IbcPacketTimeoutMsg :=
  match mock_ibc_packet my_channel_id data with
  | inl e => inl e
  | inr packet => inr (IbcPacketTimeoutMsg_new packet "relayer")
  end.
Definition mock_wasmd_attr (key value : string) : Attribute := mkAttribute key value.

(** ** Supplies are totals *)
Definition all_coins (b : gmap string (list Coin)) : list Coin := mjoin ((map_to_list b).*2).

(** The supply of a denomination: the sum over all accounts. *)
Definition supply_of (b : gmap string (list Coin)) (d : string) : Z := total (all_coins b) d.

Definition small_amounts (coins : list Coin) : Prop := Forall (λ c, 0 ≤ amount c < U128) coins.

Lemma total_app a b d : total (a ++ b) d = total a d + total b d.
Proof. induction a as [|c a IH]; [done|]. cbn [app]. rewrite !total_cons, IH. lia. Qed.
#[export] Instance total_perm : Proper ((≡ₚ) ==> (=) ==> (=)) total.
Proof.
  intros a b Hab d ? <-. induction Hab as [|x a b _ IH|x y a|a b c _ IH1 _ IH2]; [done|..|congruence].
  - by rewrite !total_cons, IH.
  - rewrite !total_cons. lia.
Qed.

(** One pass over the coins: the sums when all of them fit, a panic otherwise. *)
Lemma add_supply_at (acc : gmap string Z) c x :
  default 0 (<[denom c := default 0 (acc !! denom c) + amount c]> acc !! x) =
  default 0 (acc !! x) + if decide (denom c = x) then amount c else 0.
Proof.
  destruct (decide (denom c = x)) as [<-|]; [by rewrite lookup_insert_eq|].
  rewrite lookup_insert_ne by done. lia.
Qed.
Lemma add_supply_total (acc : gmap string Z) c coins x :
  default 0 (<[denom c := default 0 (acc !! denom c) + amount c]> acc !! x) + total coins x =
  default 0 (acc !! x) + total (c :: coins) x.
Proof. rewrite add_supply_at, total_cons. lia. Qed.

Definition accounted (acc : gmap string Z) : Prop := ∀ d, 0 ≤ default 0 (acc !! d) < U128.
Lemma accounted_add acc c :
  accounted acc → 0 ≤ amount c → default 0 (acc !! denom c) + amount c < U128 →
  accounted (<[denom c := default 0 (acc !! denom c) + amount c]> acc).
Proof.
  intros Ha Hc Hlt d. rewrite add_supply_at. pose proof (Ha d).
  destruct (decide (denom c = d)) as [<-|]; lia.
Qed.

Lemma add_supplies_run {E S} coins (acc : gmap string Z) (s : S) :
  Forall (λ c, 0 ≤ amount c) coins → accounted acc →
  (∀ d, default 0 (acc !! d) + total coins d < U128) →
  ∃ r, add_supplies (E := E) coins acc s = (Ok r, s) ∧ accounted r ∧
    ∀ d, default 0 (r !! d) = default 0 (acc !! d) + total coins d.
Proof.
  intros Hpos. revert acc. induction Hpos as [|c coins Hc Hpos IH]; intros acc Hacc Hfit.
  { exists acc. split_and!; [done..|]. intros d. unfold total. cbn. lia. }
  pose proof (total_nonneg coins (denom c) Hpos) as Htot. pose proof (Hacc (denom c)) as Hb.
  pose proof (Hfit (denom c)) as Hf. rewrite total_cons, decide_True in Hf by done.
  destruct (IH (<[denom c := default 0 (acc !! denom c) + amount c]> acc)) as (r & Hr & Hra & Hd).
  { apply accounted_add; [done|done|lia]. }
  { intros d. by rewrite add_supply_total. }
  exists r. split_and!; [|done|intros d; by rewrite Hd, add_supply_total].
  cbn [add_supplies]. unfold uint128_add, expect, fits.
  destruct (Z.leb_spec 0 (default 0 (acc !! denom c) + amount c)); [|lia].
  destruct (Z.ltb_spec (default 0 (acc !! denom c) + amount c) U128); [|lia]. exact Hr.
Qed.

Lemma add_supplies_overflow {E S} coins (acc : gmap string Z) (s : S) d :
  Forall (λ c, 0 ≤ amount c) coins → accounted acc → U128 ≤ default 0 (acc !! d) + total coins d →
  add_supplies (E := E) coins acc s = (Panic "attempt to add with overflow", s).
Proof.
  intros Hpos. revert acc. induction Hpos as [|c coins Hc Hpos IH]; intros acc Hacc Hover.
  { pose proof (Hacc d). unfold total in Hover. cbn in Hover. lia. }
  pose proof (Hacc (denom c)) as Hb. cbn [add_supplies]. unfold uint128_add, expect, fits.
  destruct (Z.leb_spec 0 (default 0 (acc !! denom c) + amount c)); [|lia].
  destruct (Z.ltb_spec (default 0 (acc !! denom c) + amount c) U128); [|done].
  cbn [andb unwrap]. rewrite bind_ret_l. apply IH; [by apply accounted_add|]. by rewrite add_supply_total.
Qed.

Section supplies.
Context {HO : HashCoins}.

Lemma iterated_total b d : total (mjoin ((coins_order b).*2)) d = supply_of b d.
Proof. unfold supply_of, all_coins. by rewrite (coins_order_perm b). Qed.
Lemma iterated_small b : Forall (λ c, 0 ≤ amount c) (all_coins b) →
  Forall (λ c, 0 ≤ amount c) (mjoin ((coins_order b).*2)).
Proof. unfold all_coins. by rewrite (coins_order_perm b). Qed.

Lemma calculate_supplies_run {E S} b (s : S) :
  Forall (λ c, 0 ≤ amount c) (all_coins b) → (∀ d, supply_of b d < U128) →
  ∃ r, calculate_supplies (E := E) b s = (Ok r, s) ∧ ∀ d, default 0 (r !! d) = supply_of b d.
Proof.
  intros Hpos Hfit.
  destruct (add_supplies_run (E := E) (mjoin ((coins_order b).*2)) ∅ s) as (r & Hr & _ & Hd).
  - by apply iterated_small.
  - intros d. by rewrite lookup_empty.
  - intros d. rewrite lookup_empty, iterated_total. apply Hfit.
  - exists r. split; [done|]. intros d. rewrite Hd, lookup_empty, iterated_total. done.
Qed.
Lemma calculate_supplies_overflow {E S} b (s : S) d :
  Forall (λ c, 0 ≤ amount c) (all_coins b) → U128 ≤ supply_of b d →
  calculate_supplies (E := E) b s = (Panic "attempt to add with overflow", s).
Proof.
  intros Hpos Hover. apply (add_supplies_overflow _ _ _ d).
  - by apply iterated_small.
  - intros x. by rewrite lookup_empty.
  - by rewrite lookup_empty, iterated_total.
Qed.
End supplies.

(** ** What a contract under test sees *)

(** Types that serialize without failing. *)
Class JsonTotal (T : Type) `{Json T} : Prop := json_total (x : T) : ∃ b, json_to_vec x = inr b.

Section seen.
Context {HO : HashCoins} {C : Type}.
Context `{!Json SupplyResponse, !Json BalanceResponse, !Json AllBalanceResponse}.
Context `{!Json BondedDenomResponse, !Json AllDelegationsResponse, !Json DelegationResponse}.
Context `{!Json AllValidatorsResponse, !Json ValidatorResponse}.
Context `{!Json (Full.QueryRequest C), !JsonSpec (Full.QueryRequest C), !JsonTotal (Full.QueryRequest C)}.

(** A request goes out and an answer comes back as they were. *)
Lemma asked `{!Json U, !JsonSpec U, !JsonTotal U} (self : MockQuerier C) request (answer : U) :
  handle_query self request = SROk (contract_result_of (to_vec answer)) →
  query (mock_raw_query self) request = inr answer.
Proof.
  intros Hh. unfold query, ask, to_vec. destruct (json_total request) as [b Hb]. rewrite Hb.
  unfold mock_raw_query, from_slice. rewrite (json_roundtrip _ _ Hb), Hh.
  unfold to_vec. destruct (json_total answer) as [r Hr]. rewrite Hr. cbn [contract_result_of wrapped].
  by rewrite (json_roundtrip _ _ Hr).
Qed.

Context `{!JsonSpec SupplyResponse, !JsonTotal SupplyResponse}.
Context `{!JsonSpec BalanceResponse, !JsonTotal BalanceResponse}.
Context `{!JsonSpec AllBalanceResponse, !JsonTotal AllBalanceResponse}.

(** C37: A test that gives an account a balance sees it everywhere: [update_balance]
    returns the old balance, and then every contract under test that asks through
    [QuerierWrapper], with requests and answers serialized in between, gets for every
    account and denomination what the table of balances says, and as the supply of a
    denomination the sum over all accounts, in whatever order the table is iterated. The
    update panics exactly when some supply does not fit 128 bits. *)
Theorem mock_balances_are_seen (self : MockQuerier C) addr coins {E : Type} :
  let b := <[addr := coins]> (balances (mq_bank self)) in
  Forall (λ c, 0 ≤ amount c) (all_coins b) →
  ((∃ d, U128 ≤ supply_of b d) →
    (mock_update_balance (E := E) addr coins self).1 = Panic "attempt to add with overflow") ∧
  ((∀ d, supply_of b d < U128) →
    ∃ self', mock_update_balance (E := E) addr coins self = (Ok (balances (mq_bank self) !! addr), self') ∧
      (∀ a d, query_balance (mock_raw_query self') a d = inr (mkCoin d (balance_of (b !! a) d))) ∧
      (∀ a, query_all_balances (mock_raw_query self') a = inr (default [] (b !! a))) ∧
      (∀ d, query_supply (mock_raw_query self') d = inr (mkCoin d (supply_of b d)))).
Proof.
  intros b Hpos. unfold mock_update_balance, zoom, bank_update_balance. split.
  - intros [d Hd]. rewrite bind_gets, bind_modify, bind_gets. cbn [balances]. fold b.
    by rewrite (bind_Panic _ _ _ _ _ (calculate_supplies_overflow b _ d Hpos Hd)).
  - intros Hfit. rewrite bind_gets, bind_modify, bind_gets. cbn [balances]. fold b.
    destruct (calculate_supplies_run (E := E) b (mkBankQuerier (supplies (mq_bank self)) b) Hpos Hfit) as (r & Hr & Hd).
    rewrite (bind_Ok _ _ _ _ _ Hr). eexists. split; [reflexivity|]. cbn [balances supplies].
    split_and!; intros.
    + unfold query_balance. by rewrite (asked _ _ (mkBalanceResponse (mkCoin d (balance_of (b !! a) d)))).
    + unfold query_all_balances. by rewrite (asked _ _ (mkAllBalanceResponse (default [] (b !! a)))).
    + unfold query_supply. rewrite (asked _ _ (mkSupplyResponse (mkCoin d (default 0 (r !! d))))) by done.
      cbn [field sr_amount]. by rewrite Hd.
Qed.
End seen.
