(* ===== verification/VmTesting.v ===== *)
(** * The backend of the virtual machine's tests ([cosmwasm/packages/vm/src/testing]:
      [mock.rs], [storage.rs], [querier.rs], [instance.rs])

    A backend in memory with gas prices of its own: an instance of the interface
    [VmBackend] the host is written against. *)

From S2P Require Import Prelude.
From S2P Require Import CwStd.
From S2P Require Import StdError.
From S2P Require Import Errors.
From S2P Require Import Storage.
From S2P Require Import TypedStorage.
From S2P Require Import Sections.
From S2P Require Import Gas.
From S2P Require Import Host.
From S2P Require Import StdQueries.
From S2P Require Import MockApi.
From S2P Require Import MockQuerier.

Open Scope Z_scope.

(** ** [MockStorage] *)
Definition GAS_COST_LAST_ITERATION : Z := 37.
Definition GAS_COST_RANGE : Z := 11.

Record Iter := mkIter { it_data : list StoreRecord; it_position : nat }.
Record MockStorage := mkMockStorage { ms_data : ContractStorage; ms_iterators : gmap Z Iter }.
Definition MockStorage_new : MockStorage := mkMockStorage ∅ ∅.

Abbreviation CALL := (BackendCall MockStorage).
Definition len64 (b : bytes) : Z := Z.of_nat (length b).

Definition mock_get (key : bytes) : CALL (option bytes) := λ self,
  ((Ok (ms_data self !! key), with_externally_used (len64 key)), self).
Definition mock_set (key value : bytes) : CALL unit := λ self,
  ((Ok tt, with_externally_used (len64 key + len64 value)),
   mkMockStorage (<[key := value]> (ms_data self)) (ms_iterators self)).
Definition mock_remove (key : bytes) : CALL unit := λ self,
  ((Ok tt, with_externally_used (len64 key)),
   mkMockStorage (delete key (ms_data self)) (ms_iterators self)).

(** [BTreeMap::range] panics on a start above the end, so that case comes first. *)
Definition range_values (m : ContractStorage) (start stop : option bytes) (order : Order) : list StoreRecord :=
  match start, stop with
  | Some s, Some e =>
      if bytes_ltb e s then []
      else match order with
           | Ascending => range m start stop
           | Descending => reverse (range m start stop)
           end
  | _, _ => match order with
            | Ascending => range m start stop
            | Descending => reverse (range m start stop)
            end
  end.

Definition mock_scan (start stop : option bytes) (order : Order) : CALL Z := λ self,
  let gas_info := with_externally_used GAS_COST_RANGE in
  let values := range_values (ms_data self) start stop order in
  let last_id := Z.of_nat (size (ms_iterators self)) in
  if last_id <? U32 then
    if last_id + 1 <? U32 then
      ((Ok (last_id + 1), gas_info),
       mkMockStorage (ms_data self) (<[last_id + 1 := mkIter values 0]> (ms_iterators self)))
    else ((Panic "attempt to add with overflow", gas_info), self)
  else ((Panic "Found more iterator IDs than supported", gas_info), self).

Definition mock_next (iterator_id : Z) : CALL (option StoreRecord) := λ self,
  match ms_iterators self !! iterator_id with
  | None => ((Err (IteratorDoesNotExist iterator_id), free), self)
  | Some it =>
      match it_data it !! it_position it with
      | Some item =>
          ((Ok (Some item), with_cost (len64 item.1 + len64 item.2)),
           mkMockStorage (ms_data self)
             (<[iterator_id := mkIter (it_data it) (Datatypes.S (it_position it))]> (ms_iterators self)))
      | None => ((Ok None, with_externally_used GAS_COST_LAST_ITERATION), self)
      end
  end.

(** The loop of [all]: [total] is the gas so far, whose sums panic on overflow. *)
Fixpoint all_loop (fuel : nat) (iterator_id : Z) (out : list StoreRecord) (total : GasInfo)
    : CALL (list StoreRecord) := λ self,
  match fuel with
  | O => ((OutOfFuel, total), self)
  | Datatypes.S fuel =>
      let '((result, info), self) := mock_next iterator_id self in
      match GasInfo_add_assign (E := BackendError) info total with
      | (Ok _, total) =>
          match result with
          | Ok (Some v) => all_loop fuel iterator_id (out ++ [v]) total self
          | Ok None => ((Ok out, total), self)
          | Err err => ((Err err, total), self)
          | Panic p => ((Panic p, total), self)
          | OutOfFuel => ((OutOfFuel, total), self)
          end
      | (Panic p, total) => ((Panic p, total), self)
      | (_, total) => ((OutOfFuel, total), self)
      end
  end.
(** The iterator returns each of its records once. *)
Definition mock_all (iterator_id : Z) : CALL (list StoreRecord) := λ self,
  let n := match ms_iterators self !! iterator_id with Some it => length (it_data it) | None => 0%nat end in
  all_loop (Datatypes.S n) iterator_id [] free self.

(** ** [MockApi] *)
Definition GAS_COST_HUMANIZE : Z := 44.
Definition GAS_COST_CANONICALIZE : Z := 55.

Module VmMock.
Record MockApi := mkMockApi { canonical_length : nat; backend_error : option string }.
Definition default : MockApi := mkMockApi CANONICAL_LENGTH None.
Definition new_failing (backend_error : string) : MockApi := mkMockApi CANONICAL_LENGTH (Some backend_error).

Section api.
Context {HT : RustText}.
Abbreviation API := (M BackendError unit).

(** The two conversions share their rotation with the ones of [cosmwasm_std]. *)
Definition encode (self : MockApi) (normalized : string) : API bytes :=
  let out := resize (canonical_length self) (as_bytes normalized) in
  k ← rotate_by (MockApi.mkMockApi (canonical_length self)) out;
  shuffles SHUFFLES_ENCODE (rotate_left k out).
Definition decode (self : MockApi) (canonical : bytes) : API string :=
  tmp ← shuffles SHUFFLES_DECODE canonical;
  k ← rotate_by (MockApi.mkMockApi (canonical_length self)) tmp;
  match from_utf8 (filter (λ x, x ≠ Byte.x00) (rotate_right k tmp)) with
  | Some human => mret human
  | None => throw BInvalidUtf8
  end.

Definition canonical_address (self : MockApi) (input : string) : outcome BackendError bytes * GasInfo :=
  let normalized := to_lowercase input in
  let gas_info := with_cost GAS_COST_CANONICALIZE in
  match backend_error self with
  | Some e => (Err (BUnknown e), gas_info)
  | None =>
      if (String.length normalized <? 3)%nat then
        (Err (UserErr "Invalid input: human address too short"), gas_info)
      else if (canonical_length self <? String.length normalized)%nat then
        (Err (UserErr "Invalid input: human address too long"), gas_info)
      else ((encode self normalized tt).1, gas_info)
  end.
Definition human_address (self : MockApi) (canonical : bytes) : outcome BackendError string * GasInfo :=
  let gas_info := with_cost GAS_COST_HUMANIZE in
  match backend_error self with
  | Some e => (Err (BUnknown e), gas_info)
  | None =>
      if negb (length canonical =? canonical_length self)%nat then
        (Err (UserErr "Invalid input: canonical address length not correct"), gas_info)
      else ((decode self canonical tt).1, gas_info)
  end.
End api.
End VmMock.

(** ** [MockQuerier] *)
Definition GAS_COST_QUERY_FLAT : Z := 100000.
Definition GAS_COST_QUERY_REQUEST_MULTIPLIER : Z := 0.
Definition GAS_COST_QUERY_RESPONSE_MULTIPLIER : Z := 100.

Section querier.
Context {C : Type} {HT : RustText}.
Context `{!Json SupplyResponse, !Json BalanceResponse, !Json AllBalanceResponse}.
Context `{!Json BondedDenomResponse, !Json AllDelegationsResponse, !Json DelegationResponse}.
Context `{!Json AllValidatorsResponse, !Json ValidatorResponse}.
Context `{!Json (Full.QueryRequest C), !Json QuerierResult}.

Definition mock_query_raw (self : MockQuerier C) (bin_request : bytes) (gas_limit : Z)
    : BackendCall unit QuerierResult := λ x,
  let response := mock_raw_query self bin_request in
  match to_vec response with
  | inl e => ((Panic ("called `Result::unwrap()` on an `Err` value: " +:+ StdError_to_string e), free), x)
  | inr b =>
      let gas_info := with_externally_used (GAS_COST_QUERY_FLAT +
        GAS_COST_QUERY_REQUEST_MULTIPLIER * len64 bin_request +
        GAS_COST_QUERY_RESPONSE_MULTIPLIER * len64 b) in
      if gas_limit <? externally_used gas_info then ((Err BOutOfGas, gas_info), x)
      else ((Ok response, gas_info), x)
  end.

Definition mock_query (self : MockQuerier C) (request : Full.QueryRequest C) (gas_limit : Z)
    : BackendCall unit QuerierResult := λ x,
  match to_vec request with
  | inr raw => mock_query_raw self raw gas_limit x
  | inl err =>
      ((Ok (SRErr (InvalidRequest ("Serializing query request: " +:+ StdError_to_string err) (as_bytes "N/A"))),
        with_externally_used (Z.of_nat (String.length (StdError_to_string err)))), x)
  end.

(** The backend as the host sees it. *)
Definition on_storage {R} (m : CALL R) : BackendCall (MockStorage * unit) R := λ '(s, x),
  let '(r, s) := m s in (r, (s, x)).
#[export] Instance mock_backend_ops : VmBackend VmMock.MockApi MockStorage (MockQuerier C) unit := {
  api_canonical_address := VmMock.canonical_address;
  api_human_address := VmMock.human_address;
  st_get k := on_storage (mock_get k);
  st_scan a b o := on_storage (mock_scan a b o);
  st_next i := on_storage (mock_next i);
  st_set k v := on_storage (mock_set k v);
  st_remove k := on_storage (mock_remove k);
  q_query_raw := mock_query_raw
}.
End querier.

(** ** [mock_backend] and the options of an instance *)
Record Backend (A S Q : Type) := mkBackend { be_api : A; be_storage : S; be_querier : Q }.
Arguments mkBackend {A S Q}.

Section instance.
Context {HO : HashCoins} {C E S : Type}.

Definition mock_backend_with_balances (l : list (string * list Coin))
    : M E S (Backend VmMock.MockApi MockStorage (MockQuerier C)) :=
  querier ← MockQuerier_new l;
  mret (mkBackend VmMock.default MockStorage_new querier).
Definition mock_backend (contract_balance : list Coin)
    : M E S (Backend VmMock.MockApi MockStorage (MockQuerier C)) :=
  mock_backend_with_balances [(MOCK_CONTRACT_ADDR, contract_balance)].

(** The balances of [mock_instance_with_options]: the one of the contract replaces the
    first entry it has in the list. *)
Definition merge_balances (l : list (string * list Coin)) (contract_balance : option (list Coin))
    : list (string * list Coin) :=
  match contract_balance with
  | None => l
  | Some b =>
      match list_find (λ item, item.1 = MOCK_CONTRACT_ADDR) l with
      | Some (pos, _) => delete pos l
      | None => l
      end ++ [(MOCK_CONTRACT_ADDR, b)]
  end.
Definition instance_backend (l : list (string * list Coin)) (contract_balance : option (list Coin))
    (backend_error : option string) : M E S (Backend VmMock.MockApi MockStorage (MockQuerier C)) :=
  querier ← MockQuerier_new (merge_balances l contract_balance);
  mret (mkBackend (match backend_error with Some e => VmMock.new_failing e | None => VmMock.default end)
          MockStorage_new querier).
End instance.

(** ** Facts on the storage *)

(** The numbers of iterators are 1 to their count, so a new number is not in use. *)
Definition numbered (self : MockStorage) : Prop :=
  ∀ i, is_Some (ms_iterators self !! i) ↔ 1 ≤ i ≤ Z.of_nat (size (ms_iterators self)).

Lemma range_values_eq m start stop o : range_values m start stop o = scan_records m start stop o.
Proof.
  unfold range_values, scan_records. destruct start as [a|], stop as [b|]; try done.
  destruct (bytes_ltb b a) eqn:Hab; [|done]. rewrite (range_empty _ _ _ Hab). by destruct o.
Qed.

Lemma numbered_new : numbered MockStorage_new.
Proof. intros i. cbn. rewrite lookup_empty, map_size_empty. split; [by intros [? ?]|lia]. Qed.

Lemma mock_scan_run start stop o self :
  numbered self → Z.of_nat (size (ms_iterators self)) + 1 < U32 →
  let id := Z.of_nat (size (ms_iterators self)) + 1 in
  ∃ self', mock_scan start stop o self = ((Ok id, with_externally_used GAS_COST_RANGE), self') ∧
    numbered self' ∧ ms_data self' = ms_data self ∧ ms_iterators self !! id = None ∧
    ms_iterators self' = <[id := mkIter (scan_records (ms_data self) start stop o) 0]> (ms_iterators self).
Proof.
  intros Hn Hlt id. eexists. split.
  { unfold mock_scan. destruct (Z.ltb_spec (Z.of_nat (size (ms_iterators self))) U32); [|lia].
    fold id. destruct (Z.ltb_spec id U32); [done|lia]. }
  assert (ms_iterators self !! id = None) as Hfresh.
  { apply eq_None_not_Some. intros Hs. apply Hn in Hs. unfold id in Hs. lia. }
  split_and!; [|done|done|by cbn; rewrite range_values_eq].
  intros i. cbn. rewrite map_size_insert, Hfresh. cbn.
  destruct (decide (i = id)) as [->|Hi].
  - rewrite lookup_insert_eq. split; [unfold id; lia|by eexists].
  - rewrite lookup_insert_ne by done. rewrite (Hn i). unfold id in *. lia.
Qed.

Lemma mock_next_numbered id self r g self' :
  numbered self → mock_next id self = ((r, g), self') → numbered self' ∧ ms_data self' = ms_data self.
Proof.
  intros Hn. unfold mock_next. destruct (ms_iterators self !! id) as [it|] eqn:Hi; [|by intros [= _ _ <-]].
  destruct (it_data it !! it_position it); [|by intros [= _ _ <-]]. intros [= _ _ <-]. split; [|done].
  intros i. cbn. rewrite map_size_insert_Some by (by eexists).
  destruct (decide (i = id)) as [->|Hne]; [|by rewrite lookup_insert_ne].
  rewrite lookup_insert_eq, <-(Hn id), Hi. split; by intros _; eexists.
Qed.

(** The gas of a record, and of a whole iteration. *)
Definition record_gas (r : StoreRecord) : Z := len64 r.1 + len64 r.2.
Definition records_gas (l : list StoreRecord) : Z := foldr (λ r n, record_gas r + n) 0 l.
Lemma records_gas_pos l : 0 ≤ records_gas l.
Proof. induction l as [|r l IH]; [done|]. cbn [records_gas foldr]. fold (records_gas l). unfold record_gas, len64. lia. Qed.

Lemma gas_add {E} info total :
  cost total + cost info < U64 → externally_used total + externally_used info < U64 →
  GasInfo_add_assign (E := E) info total =
    (Ok tt, mkGasInfo (cost total + cost info) (externally_used total + externally_used info)).
Proof.
  intros Hc He. unfold GasInfo_add_assign. rewrite bind_get. unfold add_or_panic.
  apply Z.ltb_lt in Hc as ->. apply Z.ltb_lt in He as ->. done.
Qed.

Lemma all_loop_run fuel id it self out total :
  ms_iterators self !! id = Some it → (length (drop (it_position it) (it_data it)) < fuel)%nat →
  0 ≤ cost total → cost total + records_gas (drop (it_position it) (it_data it)) < U64 →
  0 ≤ externally_used total → externally_used total + GAS_COST_LAST_ITERATION < U64 →
  ∃ self', all_loop fuel id out total self =
      ((Ok (out ++ drop (it_position it) (it_data it)),
        mkGasInfo (cost total + records_gas (drop (it_position it) (it_data it)))
                  (externally_used total + GAS_COST_LAST_ITERATION)), self') ∧
    ms_data self' = ms_data self ∧ ∀ j, j ≠ id → ms_iterators self' !! j = ms_iterators self !! j.
Proof.
  revert self it out total. induction fuel as [|fuel IH]; intros self it out total Hi Hf Hc Hcl He Hel; [lia|].
  cbn [all_loop]. unfold mock_next at 1. rewrite Hi.
  destruct (it_data it !! it_position it) as [r|] eqn:Hr.
  - rewrite (drop_S _ _ _ Hr) in Hf, Hcl |- *. cbn [records_gas foldr length] in Hf, Hcl |- *.
    fold (records_gas (drop (Datatypes.S (it_position it)) (it_data it))) in Hcl |- *.
    pose proof (records_gas_pos (drop (Datatypes.S (it_position it)) (it_data it))) as Hg.
    fold (record_gas r). rewrite gas_add by (cbn [with_cost cost externally_used]; unfold GAS_COST_LAST_ITERATION in *; lia).
    cbn [with_cost cost externally_used]. rewrite Z.add_0_r.
    edestruct (IH (mkMockStorage (ms_data self)
      (<[id := mkIter (it_data it) (Datatypes.S (it_position it))]> (ms_iterators self)))
      (mkIter (it_data it) (Datatypes.S (it_position it))) (out ++ [r])
      (mkGasInfo (cost total + record_gas r) (externally_used total))) as (self' & Hrun & Hd & Ho).
    + apply lookup_insert_eq.
    + cbn [it_data it_position]. lia.
    + cbn [cost]. unfold record_gas, len64. lia.
    + cbn [cost it_data it_position]. lia.
    + done.
    + done.
    + exists self'. cbn [it_data it_position cost externally_used] in Hrun. split_and!.
      * rewrite Hrun, <-app_assoc, Z.add_assoc. done.
      * done.
      * intros j Hj. rewrite Ho by done. cbn. by rewrite lookup_insert_ne.
  - rewrite drop_ge in * by by apply lookup_ge_None. cbn [records_gas foldr] in *.
    rewrite gas_add by (cbn [with_externally_used cost externally_used]; lia).
    cbn [with_externally_used cost externally_used]. exists self. by rewrite app_nil_r.
Qed.

(** A scan followed by [all] returns the records of the range in order, for the price
    of their bytes, and no other iterator moves. *)
Lemma mock_scan_all start stop o self :
  numbered self → Z.of_nat (size (ms_iterators self)) + 1 < U32 →
  records_gas (scan_records (ms_data self) start stop o) < U64 →
  ∃ id g self1 self2, mock_scan start stop o self = ((Ok id, g), self1) ∧
    mock_all id self1 = ((Ok (scan_records (ms_data self) start stop o),
       mkGasInfo (records_gas (scan_records (ms_data self) start stop o)) GAS_COST_LAST_ITERATION), self2) ∧
    ms_data self2 = ms_data self ∧ ∀ j it, ms_iterators self !! j = Some it → ms_iterators self2 !! j = Some it.
Proof.
  intros Hn Hlt Hg. destruct (mock_scan_run start stop o self Hn Hlt) as (self1 & Hrun & Hn1 & Hd & Hfresh & Hit).
  set (id := Z.of_nat (size (ms_iterators self)) + 1) in *.
  assert (ms_iterators self1 !! id = Some (mkIter (scan_records (ms_data self) start stop o) 0)) as Hi
    by (rewrite Hit; apply lookup_insert_eq).
  destruct (all_loop_run (Datatypes.S (length (scan_records (ms_data self) start stop o))) id _ self1 [] free Hi)
    as (self2 & Hall & Hd2 & Ho); [cbn [it_data it_position]; rewrite drop_0; lia|done|done|done|by vm_compute|].
  exists id, (with_externally_used GAS_COST_RANGE), self1, self2. split_and!; [done| |congruence|].
  - unfold mock_all. rewrite Hi. cbn [it_data]. exact Hall.
  - intros j it Hj. assert (j ≠ id) by (intros ->; congruence). rewrite Ho, Hit by done. by rewrite lookup_insert_ne.
Qed.

(** ** The address conversions of the two mocks agree *)
Lemma rotate_by_54 {E S} l (s : S) :
  rotate_by (E := E) (mkMockApi CANONICAL_LENGTH) l s = (Ok (digit_sum l mod CANONICAL_LENGTH)%nat, s).
Proof. done. Qed.
Lemma vm_mock_roundtrip {HT : RustText} input :
  let low := to_lowercase input in
  (3 ≤ String.length low ≤ CANONICAL_LENGTH)%nat →
  length (as_bytes low) = String.length low → Byte.x00 ∉ as_bytes low → from_utf8 (as_bytes low) = Some low →
  ∃ canonical, VmMock.canonical_address VmMock.default input = (Ok canonical, with_cost GAS_COST_CANONICALIZE) ∧
    VmMock.human_address VmMock.default canonical = (Ok low, with_cost GAS_COST_HUMANIZE).
Proof.
  intros low Hlow Hlen Hnul Hutf. set (out := resize CANONICAL_LENGTH (as_bytes low)).
  assert (length out = CANONICAL_LENGTH) as Hl by apply length_resize.
  destruct (decode_encode out Hl) as (Hlc & Hdec & Hsum & Hback).
  set (canonical := Nat.iter SHUFFLES_ENCODE riffle (rotate_left (digit_sum out mod CANONICAL_LENGTH) out)) in *.
  exists canonical. split.
  - unfold VmMock.canonical_address. cbn [VmMock.default VmMock.backend_error VmMock.canonical_length]. fold low.
    destruct (Nat.ltb_spec (String.length low) 3); [lia|].
    destruct (Nat.ltb_spec CANONICAL_LENGTH (String.length low)); [lia|].
    unfold VmMock.encode. change (VmMock.canonical_length VmMock.default) with CANONICAL_LENGTH. fold out.
    rewrite (bind_Ok _ _ _ _ _ (rotate_by_54 out tt)), shuffles_run by by rewrite length_rotate_left, Hl. done.
  - unfold VmMock.human_address. cbn [VmMock.default VmMock.backend_error VmMock.canonical_length].
    rewrite Hlc, Nat.eqb_refl. cbn [negb]. unfold VmMock.decode.
    rewrite (bind_Ok _ _ _ _ _ (shuffles_run (E := BackendError) SHUFFLES_DECODE canonical tt ltac:(by rewrite Hlc))), Hdec.
    change (VmMock.canonical_length VmMock.default) with CANONICAL_LENGTH.
    rewrite (bind_Ok _ _ _ _ _ (rotate_by_54 _ tt)), Hsum, Hback.
    unfold out. rewrite filter_resize by (done || lia). by rewrite Hutf.
Qed.
