(* ===== verification/Gatekeeper.v ===== *)
(** * The gatekeeper ([cosmwasm/packages/vm/src/wasm_backend/gatekeeper.rs])

    A middleware of the compiler that sees every operator of every function and lets
    only those through whose results are the same on every machine. *)

From S2P Require Import Prelude.
From S2P Require Import Operators.

(** ** Configuration *)
Record GatekeeperConfig := mkGatekeeperConfig {
  allow_floats : bool;
  allow_feature_bulk_memory_operations : bool;
  allow_feature_reference_types : bool;
  allow_feature_simd : bool;
  allow_feature_exception_handling : bool;
  allow_feature_threads : bool
}.
Record Gatekeeper := mkGatekeeper { gk_config : GatekeeperConfig }.
Definition Gatekeeper_new (config : GatekeeperConfig) : Gatekeeper := mkGatekeeper config.
Definition Gatekeeper_default : Gatekeeper :=
  Gatekeeper_new (mkGatekeeperConfig false false false false false false).

Record FunctionGatekeeper := mkFunctionGatekeeper { fg_config : GatekeeperConfig }.
Definition generate_function_middleware (self : Gatekeeper) : FunctionGatekeeper :=
  mkFunctionGatekeeper (gk_config self).

(** ** The patterns of [feed], one per feature

    The base operators, which always pass: those of the first version of Wasm that do not
    work on floats, and the sign-extension operators. *)
Definition is_base (op : Operator.t) : bool :=
  match op with
  | Operator.Unreachable | Operator.Nop | Operator.Block | Operator.Loop | Operator.If
  | Operator.Else | Operator.End | Operator.Br | Operator.BrIf | Operator.BrTable
  | Operator.Return | Operator.Call | Operator.CallIndirect | Operator.Drop | Operator.Select
  | Operator.LocalGet | Operator.LocalSet | Operator.LocalTee | Operator.GlobalGet
  | Operator.GlobalSet | Operator.I32Load | Operator.I64Load | Operator.I32Load8S
  | Operator.I32Load8U | Operator.I32Load16S | Operator.I32Load16U | Operator.I64Load8S
  | Operator.I64Load8U | Operator.I64Load16S | Operator.I64Load16U | Operator.I64Load32S
  | Operator.I64Load32U | Operator.I32Store | Operator.I64Store | Operator.I32Store8
  | Operator.I32Store16 | Operator.I64Store8 | Operator.I64Store16 | Operator.I64Store32
  | Operator.MemorySize | Operator.MemoryGrow | Operator.I32Const | Operator.I64Const
  | Operator.I32Eqz | Operator.I32Eq | Operator.I32Ne | Operator.I32LtS | Operator.I32LtU
  | Operator.I32GtS | Operator.I32GtU | Operator.I32LeS | Operator.I32LeU | Operator.I32GeS
  | Operator.I32GeU | Operator.I64Eqz | Operator.I64Eq | Operator.I64Ne | Operator.I64LtS
  | Operator.I64LtU | Operator.I64GtS | Operator.I64GtU | Operator.I64LeS | Operator.I64LeU
  | Operator.I64GeS | Operator.I64GeU | Operator.I32Clz | Operator.I32Ctz | Operator.I32Popcnt
  | Operator.I32Add | Operator.I32Sub | Operator.I32Mul | Operator.I32DivS | Operator.I32DivU
  | Operator.I32RemS | Operator.I32RemU | Operator.I32And | Operator.I32Or | Operator.I32Xor
  | Operator.I32Shl | Operator.I32ShrS | Operator.I32ShrU | Operator.I32Rotl | Operator.I32Rotr
  | Operator.I64Clz | Operator.I64Ctz | Operator.I64Popcnt | Operator.I64Add | Operator.I64Sub
  | Operator.I64Mul | Operator.I64DivS | Operator.I64DivU | Operator.I64RemS | Operator.I64RemU
  | Operator.I64And | Operator.I64Or | Operator.I64Xor | Operator.I64Shl | Operator.I64ShrS
  | Operator.I64ShrU | Operator.I64Rotl | Operator.I64Rotr | Operator.I32WrapI64
  | Operator.I32Extend8S | Operator.I32Extend16S | Operator.I64Extend8S | Operator.I64Extend16S
  | Operator.I64ExtendI32S | Operator.I64Extend32S | Operator.I64ExtendI32U => true
  | _ => false
  end.
Definition is_reference_type (op : Operator.t) : bool :=
  match op with
  | Operator.RefNull | Operator.RefIsNull | Operator.RefFunc | Operator.ReturnCall
  | Operator.ReturnCallIndirect | Operator.TypedSelect | Operator.TableGet | Operator.TableSet
  | Operator.TableGrow | Operator.TableSize => true
  | _ => false
  end.
Definition is_threads (op : Operator.t) : bool :=
  match op with
  | Operator.MemoryAtomicNotify | Operator.MemoryAtomicWait32 | Operator.MemoryAtomicWait64
  | Operator.AtomicFence | Operator.I32AtomicLoad | Operator.I64AtomicLoad
  | Operator.I32AtomicLoad8U | Operator.I32AtomicLoad16U | Operator.I64AtomicLoad8U
  | Operator.I64AtomicLoad16U | Operator.I64AtomicLoad32U | Operator.I32AtomicStore
  | Operator.I64AtomicStore | Operator.I32AtomicStore8 | Operator.I32AtomicStore16
  | Operator.I64AtomicStore8 | Operator.I64AtomicStore16 | Operator.I64AtomicStore32
  | Operator.I32AtomicRmwAdd | Operator.I64AtomicRmwAdd | Operator.I32AtomicRmw8AddU
  | Operator.I32AtomicRmw16AddU | Operator.I64AtomicRmw8AddU | Operator.I64AtomicRmw16AddU
  | Operator.I64AtomicRmw32AddU | Operator.I32AtomicRmwSub | Operator.I64AtomicRmwSub
  | Operator.I32AtomicRmw8SubU | Operator.I32AtomicRmw16SubU | Operator.I64AtomicRmw8SubU
  | Operator.I64AtomicRmw16SubU | Operator.I64AtomicRmw32SubU | Operator.I32AtomicRmwAnd
  | Operator.I64AtomicRmwAnd | Operator.I32AtomicRmw8AndU | Operator.I32AtomicRmw16AndU
  | Operator.I64AtomicRmw8AndU | Operator.I64AtomicRmw16AndU | Operator.I64AtomicRmw32AndU
  | Operator.I32AtomicRmwOr | Operator.I64AtomicRmwOr | Operator.I32AtomicRmw8OrU
  | Operator.I32AtomicRmw16OrU | Operator.I64AtomicRmw8OrU | Operator.I64AtomicRmw16OrU
  | Operator.I64AtomicRmw32OrU | Operator.I32AtomicRmwXor | Operator.I64AtomicRmwXor
  | Operator.I32AtomicRmw8XorU | Operator.I32AtomicRmw16XorU | Operator.I64AtomicRmw8XorU
  | Operator.I64AtomicRmw16XorU | Operator.I64AtomicRmw32XorU | Operator.I32AtomicRmwXchg
  | Operator.I64AtomicRmwXchg | Operator.I32AtomicRmw8XchgU | Operator.I32AtomicRmw16XchgU
  | Operator.I64AtomicRmw8XchgU | Operator.I64AtomicRmw16XchgU | Operator.I64AtomicRmw32XchgU
  | Operator.I32AtomicRmwCmpxchg | Operator.I64AtomicRmwCmpxchg
  | Operator.I32AtomicRmw8CmpxchgU | Operator.I32AtomicRmw16CmpxchgU
  | Operator.I64AtomicRmw8CmpxchgU | Operator.I64AtomicRmw16CmpxchgU
  | Operator.I64AtomicRmw32CmpxchgU => true
  | _ => false
  end.
Definition is_simd (op : Operator.t) : bool :=
  match op with
  | Operator.V128Load | Operator.V128Store | Operator.V128Const | Operator.I8x16Splat
  | Operator.I8x16ExtractLaneS | Operator.I8x16ExtractLaneU | Operator.I8x16ReplaceLane
  | Operator.I16x8Splat | Operator.I16x8ExtractLaneS | Operator.I16x8ExtractLaneU
  | Operator.I16x8ReplaceLane | Operator.I32x4Splat | Operator.I32x4ExtractLane
  | Operator.I32x4ReplaceLane | Operator.I64x2Splat | Operator.I64x2ExtractLane
  | Operator.I64x2ReplaceLane | Operator.I8x16Eq | Operator.I8x16Ne | Operator.I8x16LtS
  | Operator.I8x16LtU | Operator.I8x16GtS | Operator.I8x16GtU | Operator.I8x16LeS
  | Operator.I8x16LeU | Operator.I8x16GeS | Operator.I8x16GeU | Operator.I16x8Eq
  | Operator.I16x8Ne | Operator.I16x8LtS | Operator.I16x8LtU | Operator.I16x8GtS
  | Operator.I16x8GtU | Operator.I16x8LeS | Operator.I16x8LeU | Operator.I16x8GeS
  | Operator.I16x8GeU | Operator.I32x4Eq | Operator.I32x4Ne | Operator.I32x4LtS
  | Operator.I32x4LtU | Operator.I32x4GtS | Operator.I32x4GtU | Operator.I32x4LeS
  | Operator.I32x4LeU | Operator.I32x4GeS | Operator.I32x4GeU | Operator.V128Not
  | Operator.V128And | Operator.V128AndNot | Operator.V128Or | Operator.V128Xor
  | Operator.V128Bitselect | Operator.I8x16Abs | Operator.I8x16Neg | Operator.V128AnyTrue
  | Operator.I8x16AllTrue | Operator.I8x16Bitmask | Operator.I8x16Shl | Operator.I8x16ShrS
  | Operator.I8x16ShrU | Operator.I8x16Add | Operator.I8x16AddSatS | Operator.I8x16AddSatU
  | Operator.I8x16Sub | Operator.I8x16SubSatS | Operator.I8x16SubSatU | Operator.I8x16MinS
  | Operator.I8x16MinU | Operator.I8x16MaxS | Operator.I8x16MaxU | Operator.I16x8Abs
  | Operator.I16x8Neg | Operator.I16x8AllTrue | Operator.I16x8Bitmask | Operator.I16x8Shl
  | Operator.I16x8ShrS | Operator.I16x8ShrU | Operator.I16x8Add | Operator.I16x8AddSatS
  | Operator.I16x8AddSatU | Operator.I16x8Sub | Operator.I16x8SubSatS | Operator.I16x8SubSatU
  | Operator.I16x8Mul | Operator.I16x8MinS | Operator.I16x8MinU | Operator.I16x8MaxS
  | Operator.I16x8MaxU | Operator.I32x4Abs | Operator.I32x4Neg | Operator.I32x4AllTrue
  | Operator.I32x4Bitmask | Operator.I32x4Shl | Operator.I32x4ShrS | Operator.I32x4ShrU
  | Operator.I32x4Add | Operator.I32x4Sub | Operator.I32x4Mul | Operator.I32x4MinS
  | Operator.I32x4MinU | Operator.I32x4MaxS | Operator.I32x4MaxU | Operator.I32x4DotI16x8S
  | Operator.I64x2Neg | Operator.I64x2Shl | Operator.I64x2ShrS | Operator.I64x2ShrU
  | Operator.I64x2Add | Operator.I64x2Sub | Operator.I64x2Mul | Operator.I8x16Swizzle
  | Operator.I8x16Shuffle | Operator.V128Load8Splat | Operator.V128Load16Splat
  | Operator.V128Load32Splat | Operator.V128Load32Zero | Operator.V128Load64Splat
  | Operator.V128Load64Zero | Operator.I8x16NarrowI16x8S | Operator.I8x16NarrowI16x8U
  | Operator.I16x8NarrowI32x4S | Operator.I16x8NarrowI32x4U | Operator.I16x8ExtendLowI8x16S
  | Operator.I16x8ExtendHighI8x16S | Operator.I16x8ExtendLowI8x16U
  | Operator.I16x8ExtendHighI8x16U | Operator.I32x4ExtendLowI16x8S
  | Operator.I32x4ExtendHighI16x8S | Operator.I32x4ExtendLowI16x8U
  | Operator.I32x4ExtendHighI16x8U | Operator.V128Load8x8S | Operator.V128Load8x8U
  | Operator.V128Load16x4S | Operator.V128Load16x4U | Operator.V128Load32x2S
  | Operator.V128Load32x2U | Operator.I8x16RoundingAverageU | Operator.I16x8RoundingAverageU
  | Operator.V128Load8Lane | Operator.V128Load16Lane | Operator.V128Load32Lane
  | Operator.V128Load64Lane | Operator.V128Store8Lane | Operator.V128Store16Lane
  | Operator.V128Store32Lane | Operator.V128Store64Lane | Operator.I64x2Eq | Operator.I64x2Ne
  | Operator.I64x2LtS | Operator.I64x2GtS | Operator.I64x2LeS | Operator.I64x2GeS
  | Operator.I8x16Popcnt | Operator.I16x8ExtAddPairwiseI8x16S
  | Operator.I16x8ExtAddPairwiseI8x16U | Operator.I16x8Q15MulrSatS
  | Operator.I16x8ExtMulLowI8x16S | Operator.I16x8ExtMulHighI8x16S
  | Operator.I16x8ExtMulLowI8x16U | Operator.I16x8ExtMulHighI8x16U
  | Operator.I32x4ExtAddPairwiseI16x8S | Operator.I32x4ExtAddPairwiseI16x8U
  | Operator.I32x4ExtMulLowI16x8S | Operator.I32x4ExtMulHighI16x8S
  | Operator.I32x4ExtMulLowI16x8U | Operator.I32x4ExtMulHighI16x8U | Operator.I64x2Abs
  | Operator.I64x2AllTrue | Operator.I64x2Bitmask | Operator.I64x2ExtendLowI32x4S
  | Operator.I64x2ExtendHighI32x4S | Operator.I64x2ExtendLowI32x4U
  | Operator.I64x2ExtendHighI32x4U | Operator.I64x2ExtMulLowI32x4S
  | Operator.I64x2ExtMulHighI32x4S | Operator.I64x2ExtMulLowI32x4U
  | Operator.I64x2ExtMulHighI32x4U | Operator.I32x4TruncSatF64x2SZero
  | Operator.I32x4TruncSatF64x2UZero | Operator.F64x2ConvertLowI32x4S
  | Operator.F64x2ConvertLowI32x4U | Operator.F32x4DemoteF64x2Zero
  | Operator.F64x2PromoteLowF32x4 | Operator.I8x16RelaxedSwizzle
  | Operator.I32x4RelaxedTruncSatF32x4S | Operator.I32x4RelaxedTruncSatF32x4U
  | Operator.I32x4RelaxedTruncSatF64x2SZero | Operator.I32x4RelaxedTruncSatF64x2UZero
  | Operator.I8x16LaneSelect | Operator.I16x8LaneSelect | Operator.I32x4LaneSelect
  | Operator.I64x2LaneSelect => true
  | _ => false
  end.
Definition is_float (op : Operator.t) : bool :=
  match op with
  | Operator.F32Load | Operator.F64Load | Operator.F32Store | Operator.F64Store
  | Operator.F32Const | Operator.F64Const | Operator.F32Eq | Operator.F32Ne | Operator.F32Lt
  | Operator.F32Gt | Operator.F32Le | Operator.F32Ge | Operator.F64Eq | Operator.F64Ne
  | Operator.F64Lt | Operator.F64Gt | Operator.F64Le | Operator.F64Ge | Operator.F32Abs
  | Operator.F32Neg | Operator.F32Ceil | Operator.F32Floor | Operator.F32Trunc
  | Operator.F32Nearest | Operator.F32Sqrt | Operator.F32Add | Operator.F32Sub
  | Operator.F32Mul | Operator.F32Div | Operator.F32Min | Operator.F32Max
  | Operator.F32Copysign | Operator.F64Abs | Operator.F64Neg | Operator.F64Ceil
  | Operator.F64Floor | Operator.F64Trunc | Operator.F64Nearest | Operator.F64Sqrt
  | Operator.F64Add | Operator.F64Sub | Operator.F64Mul | Operator.F64Div | Operator.F64Min
  | Operator.F64Max | Operator.F64Copysign | Operator.I32TruncF32S | Operator.I32TruncF32U
  | Operator.I32TruncF64S | Operator.I32TruncF64U | Operator.I64TruncF32S
  | Operator.I64TruncF32U | Operator.I64TruncF64S | Operator.I64TruncF64U
  | Operator.F32ConvertI32S | Operator.F32ConvertI32U | Operator.F32ConvertI64S
  | Operator.F32ConvertI64U | Operator.F32DemoteF64 | Operator.F64ConvertI32S
  | Operator.F64ConvertI32U | Operator.F64ConvertI64S | Operator.F64ConvertI64U
  | Operator.F64PromoteF32 | Operator.I32ReinterpretF32 | Operator.I64ReinterpretF64
  | Operator.F32ReinterpretI32 | Operator.F64ReinterpretI64 | Operator.I32TruncSatF32S
  | Operator.I32TruncSatF32U | Operator.I32TruncSatF64S | Operator.I32TruncSatF64U
  | Operator.I64TruncSatF32S | Operator.I64TruncSatF32U | Operator.I64TruncSatF64S
  | Operator.I64TruncSatF64U | Operator.F32x4Splat | Operator.F32x4ExtractLane
  | Operator.F32x4ReplaceLane | Operator.F64x2Splat | Operator.F64x2ExtractLane
  | Operator.F64x2ReplaceLane | Operator.F32x4Eq | Operator.F32x4Ne | Operator.F32x4Lt
  | Operator.F32x4Gt | Operator.F32x4Le | Operator.F32x4Ge | Operator.F64x2Eq
  | Operator.F64x2Ne | Operator.F64x2Lt | Operator.F64x2Gt | Operator.F64x2Le
  | Operator.F64x2Ge | Operator.F32x4Ceil | Operator.F32x4Floor | Operator.F32x4Trunc
  | Operator.F32x4Nearest | Operator.F64x2Ceil | Operator.F64x2Floor | Operator.F64x2Trunc
  | Operator.F64x2Nearest | Operator.F32x4Abs | Operator.F32x4Neg | Operator.F32x4Sqrt
  | Operator.F32x4Add | Operator.F32x4Sub | Operator.F32x4Mul | Operator.F32x4Div
  | Operator.F32x4Min | Operator.F32x4Max | Operator.F32x4PMin | Operator.F32x4PMax
  | Operator.F64x2Abs | Operator.F64x2Neg | Operator.F64x2Sqrt | Operator.F64x2Add
  | Operator.F64x2Sub | Operator.F64x2Mul | Operator.F64x2Div | Operator.F64x2Min
  | Operator.F64x2Max | Operator.F64x2PMin | Operator.F64x2PMax | Operator.I32x4TruncSatF32x4S
  | Operator.I32x4TruncSatF32x4U | Operator.F32x4ConvertI32x4S | Operator.F32x4ConvertI32x4U
  | Operator.F32x4RelaxedMin | Operator.F32x4RelaxedMax | Operator.F64x2RelaxedMin
  | Operator.F64x2RelaxedMax | Operator.F32x4Fma | Operator.F32x4Fms | Operator.F64x2Fma
  | Operator.F64x2Fms => true
  | _ => false
  end.
Definition is_bulk_memory (op : Operator.t) : bool :=
  match op with
  | Operator.MemoryInit | Operator.DataDrop | Operator.MemoryCopy | Operator.MemoryFill
  | Operator.TableInit | Operator.ElemDrop | Operator.TableCopy | Operator.TableFill => true
  | _ => false
  end.
Definition is_exception_handling (op : Operator.t) : bool :=
  match op with
  | Operator.Try | Operator.Catch | Operator.Throw | Operator.Rethrow | Operator.Delegate
  | Operator.CatchAll => true
  | _ => false
  end.

(** ** [feed]

    An operator with its immediates as [Debug] prints them, and the operators that were
    handed on so far. *)
Record OperatorText := mkOperator { op_of : Operator.t; op_debug : string }.
Record MiddlewareError := mkMiddlewareError { me_name : string; me_message : string }.
Definition MIDDLEWARE_NAME : string := "Gatekeeper".

Abbreviation GATE := (M MiddlewareError (list OperatorText)).
Definition push_operator (operator : OperatorText) : GATE unit := modify (λ l, l ++ [operator]).
Definition refuse (msg : string) : GATE unit := throw (mkMiddlewareError MIDDLEWARE_NAME msg).

Definition feed (self : FunctionGatekeeper) (operator : OperatorText) : GATE unit :=
  let op := op_of operator in
  let text := op_debug operator in
  let config := fg_config self in
  if is_base op then push_operator operator
  else if is_reference_type op then
    if allow_feature_reference_types config then push_operator operator
    else refuse ("Reference type operation detected: " +:+ text +:+ ". Reference types are not supported.")
  else if is_threads op then
    if allow_feature_threads config then push_operator operator
    else refuse ("Threads operator detected: " +:+ text +:+ ". The Wasm Threads extension is not supported.")
  else if is_simd op then
    if allow_feature_simd config then push_operator operator
    else refuse ("SIMD operator detected: " +:+ text +:+ ". The Wasm SIMD extension is not supported.")
  else if is_float op then
    if allow_floats config then push_operator operator
    else refuse ("Float operator detected: " +:+ text +:+ ". The use of floats is not supported.")
  else if is_bulk_memory op then
    if allow_feature_bulk_memory_operations config then push_operator operator
    else refuse ("Bulk memory operation detected: " +:+ text +:+ ". Bulk memory operations are not supported.")
  else
    if allow_feature_exception_handling config then push_operator operator
    else refuse ("Exception handling operation detected: " +:+ text +:+ ". Exception handling is not supported.").

(** A whole function. *)
Fixpoint feed_all (self : FunctionGatekeeper) (body : list OperatorText) : GATE unit :=
  match body with
  | [] => mret tt
  | op :: body => _ ← feed self op; feed_all self body
  end.

(** ** What passes *)

(** The reference for "no floats": the name of an operator says which types it works on. *)
Definition contains (pat s : string) : bool :=
  match String.index 0 pat s with Some _ => true | None => false end.
Definition mentions_float (op : Operator.t) : bool :=
  contains "F32" (operator_name op) || contains "F64" (operator_name op).
Definition accepts (config : GatekeeperConfig) (op : Operator.t) : bool :=
  is_base op || (is_reference_type op && allow_feature_reference_types config)
  || (is_threads op && allow_feature_threads config) || (is_simd op && allow_feature_simd config)
  || (is_float op && allow_floats config)
  || (is_bulk_memory op && allow_feature_bulk_memory_operations config)
  || (is_exception_handling op && allow_feature_exception_handling config).

(** Every operator belongs to exactly one pattern, as in a [match]. *)
Definition patterns (op : Operator.t) : list bool :=
  [is_base op; is_reference_type op; is_threads op; is_simd op; is_float op; is_bulk_memory op;
   is_exception_handling op].
Lemma one_pattern op : length (filter (λ b, b = true) (patterns op)) = 1%nat.
Proof. by destruct op. Qed.

Lemma feed_run self operator out :
  if accepts (fg_config self) (op_of operator) then feed self operator out = (Ok tt, out ++ [operator])
  else ∃ msg, feed self operator out = (Err (mkMiddlewareError MIDDLEWARE_NAME msg), out).
Proof.
  unfold feed, accepts. pose proof (one_pattern (op_of operator)) as H. unfold patterns in H.
  destruct (fg_config self) as [f b r s e t]. cbn.
  destruct (is_base _), (is_reference_type _), (is_threads _), (is_simd _), (is_float _), (is_bulk_memory _),
    (is_exception_handling _); try discriminate H; cbn; try done;
    try (destruct r; [done|by eexists]); try (destruct t; [done|by eexists]); try (destruct s; [done|by eexists]);
    try (destruct f; [done|by eexists]); try (destruct b; [done|by eexists]); destruct e; [done|by eexists].
Qed.

(** A body passes unchanged, or stops at its first operator that is not accepted. *)
Lemma feed_all_run self body out :
  match list_find (λ o, accepts (fg_config self) (op_of o) = false) body with
  | None => feed_all self body out = (Ok tt, out ++ body)
  | Some (i, _) => ∃ msg, feed_all self body out = (Err (mkMiddlewareError MIDDLEWARE_NAME msg), out ++ take i body)
  end.
Proof.
  revert out. induction body as [|o body IH]; intros out; cbn [list_find feed_all]; [by rewrite app_nil_r|].
  pose proof (feed_run self o out) as Hf. destruct (accepts (fg_config self) (op_of o)) eqn:Ha.
  - rewrite decide_False by congruence. rewrite (bind_Ok _ _ _ _ _ Hf). specialize (IH (out ++ [o])).
    destruct (list_find _ body) as [[i x]|]; cbn; [|by rewrite <-app_assoc in IH].
    destruct IH as [msg IH]. exists msg. by rewrite IH, <-app_assoc.
  - rewrite decide_True by done. destruct Hf as [msg Hf]. exists msg.
    by rewrite (bind_Err _ _ _ _ _ Hf), app_nil_r.
Qed.

Lemma float_free op : is_float op = false → is_simd op = false → mentions_float op = false.
Proof. destruct op; cbn; try discriminate; intros; by vm_compute. Qed.

(** C29: The gatekeeper keeps floats out. With the default configuration, the only one a
    user can make, a function passes, unchanged, exactly when all its operators are base
    operators, those of the first version of Wasm without the ones on floats and with the
    sign-extension operators; otherwise the compilation fails at
    the first operator that is not. Whatever else is allowed, as long as neither floats nor
    SIMD are, no operator that passes works on a float. *)
Theorem gatekeeper_keeps_floats_out self body :
  (let self := generate_function_middleware Gatekeeper_default in
   (Forall (λ o, is_base (op_of o) = true) body → feed_all self body [] = (Ok tt, body)) ∧
   (∀ i o, list_find (λ o, is_base (op_of o) = false) body = Some (i, o) →
      ∃ msg, feed_all self body [] = (Err (mkMiddlewareError MIDDLEWARE_NAME msg), take i body))) ∧
  (∀ out, allow_floats (fg_config self) = false → allow_feature_simd (fg_config self) = false →
     feed_all self body [] = (Ok tt, out) → out = body ∧ Forall (λ o, mentions_float (op_of o) = false) out).
Proof.
  split.
  - set (gate := generate_function_middleware Gatekeeper_default).
    assert (∀ op, accepts (fg_config gate) op = is_base op) as Hacc.
    { intros op. unfold accepts. cbn. rewrite !andb_false_r, !orb_false_r. done. }
    pose proof (feed_all_run gate body []) as Hrun. split.
    + intros Hall. destruct (list_find _ body) as [[i o]|] eqn:Hf; [|done].
      apply list_find_Some in Hf as (Hi & Ha & _). rewrite Hacc in Ha. rewrite Forall_forall in Hall.
      apply list_elem_of_lookup_2 in Hi. by rewrite Hall in Ha.
    + intros i o Hf. destruct (list_find _ body) as [[j o']|] eqn:Hf'.
      * apply list_find_Some in Hf as (Hi & Ha & Hb), Hf' as (Hj & Ha' & Hb'). rewrite Hacc in Ha'.
        assert (i = j) as ->; [|done]. destruct (decide (i = j)) as [|Hne]; [done|].
        destruct (decide (i < j)%nat).
        { destruct (Hb' i o Hi); [lia|]. by rewrite Hacc. }
        destruct (Hb j o' Hj); [lia|done].
      * apply list_find_None in Hf'. apply list_find_Some in Hf as (Hi & Ha & _).
        rewrite Forall_forall in Hf'. apply list_elem_of_lookup_2 in Hi. destruct (Hf' _ Hi). by rewrite Hacc.
  - intros out Hfl Hsi Hok. pose proof (feed_all_run self body []) as Hrun.
    destruct (list_find _ body) as [[i o]|] eqn:Hf; [by destruct Hrun as [? Hrun]; rewrite Hrun in Hok|].
    rewrite Hrun in Hok. injection Hok as <-. split; [done|]. apply list_find_None in Hf.
    eapply Forall_impl; [exact Hf|]. cbn. intros o Ha. apply not_false_is_true in Ha.
    unfold accepts in Ha. rewrite Hfl, Hsi, !andb_false_r, !orb_false_r in Ha.
    pose proof (one_pattern (op_of o)) as H1. unfold patterns in H1.
    apply float_free; destruct (is_base _), (is_reference_type _), (is_threads _), (is_simd _), (is_float _), (is_bulk_memory _),
      (is_exception_handling _); try discriminate H1; try discriminate Ha; done.
Qed.

(** With SIMD allowed and floats not, a float operator passes. *)
Lemma simd_lets_floats_in :
  let gate := mkFunctionGatekeeper (mkGatekeeperConfig false false false true false false) in
  let op := mkOperator Operator.F64x2PromoteLowF32x4 "F64x2PromoteLowF32x4" in
  mentions_float (op_of op) = true ∧ feed gate op [] = (Ok tt, [op]).
Proof. by vm_compute. Qed.
