(* ===== verification/Profiler.v ===== *)
(** * The profiler ([cosmwasm/packages/profiler/src]: [code_blocks.rs], [utils.rs],
      [measure.rs], [instrumentation.rs])

    A middleware that puts a call before and after every run of operators without a
    branch, and the measurements those calls take. The theorem says what it does on code
    that runs straight through: the code is kept, every block is measured once, and the
    blocks can be looked up. A second one shows what happens at a branch that is not
    taken. *)

From S2P Require Import Prelude.
From S2P Require Import Operators.

Open Scope Z_scope.

(** [DefaultHasher] on a list of symbols. *)
Class Hasher := { hash_symbols : list OperatorSymbol.t → Z }.

(** ** [utils.rs] *)
Definition insert_push `{Countable K} {I} (k : K) (item : I) (m : gmap K (list I)) : gmap K (list I) :=
  <[k := default [] (m !! k) ++ [item]]> m.

(** ** [code_blocks.rs] *)
Abbreviation BlockId := Z.
Abbreviation CodeBlock := (list OperatorSymbol.t).
Record BlockStore := mkBlockStore { bs_inner : gmap BlockId CodeBlock }.
Definition BlockStore_new : BlockStore := mkBlockStore ∅.
Definition get_block (hash : BlockId) (self : BlockStore) : option CodeBlock := bs_inner self !! hash.

Section store.
Context {HH : Hasher}.

Definition get_hash (self : CodeBlock) : BlockId := hash_symbols self.
Definition register_block (block : CodeBlock) (self : BlockStore) : BlockId * BlockStore :=
  let hash := get_hash block in (hash, mkBlockStore (<[hash := block]> (bs_inner self))).
End store.

(** ** [measure.rs]

    An instant is the nanoseconds on the clock; [now] is what it shows. *)
Record Measurements := mkMeasurements {
  started : gmap (Z * Z) (list Z);
  taken : gmap BlockId (list Z)
}.
Definition Measurements_new : Measurements := mkMeasurements ∅ ∅.
Definition never_started : string := "trying to finalize a measurement that was never started".

Definition start_measurement {E} (now fn_index local_block_id : Z) : M E Measurements unit :=
  modify (λ self, mkMeasurements (insert_push (fn_index, local_block_id) now (started self)) (taken self)).

(** [elapsed] of an instant ahead of the clock is zero. *)
Definition take_measurement {E} (now fn_index local_block_id block_id : Z) : M E Measurements unit :=
  self ← get;
  match started self !! (fn_index, local_block_id) with
  | Some (start :: q) =>
      put (mkMeasurements (<[(fn_index, local_block_id) := q]> (started self))
             (insert_push block_id (Z.max 0 (now - start)) (taken self)))
  | Some [] => panic never_started
  | None => panic never_started
  end.

Definition clear {E} : M E Measurements unit := put Measurements_new.

(** A row of [compile_csv]; a block has at least one timing. *)
Definition csv_row (block : string) (timings : list Z) : list string :=
  let n := Z.of_nat (length timings) in
  [block; pretty n; pretty (foldr Z.add 0 timings / n);
   pretty (foldr Z.min (default 0 (head timings)) timings);
   pretty (foldr Z.max (default 0 (head timings)) timings)].
Definition csv_header : list string := ["block"; "executions"; "avg in ns"; "min in ns"; "max in ns"].

(** ** [instrumentation.rs] *)

(** An operator with the immediates the middleware writes. *)
Record Op := mkOp { op_operator : Operator.t; op_immediates : list Z }.
Record ProfilingIndexes := mkProfilingIndexes { pi_start_measurement : Z; pi_take_measurement : Z }.

Record FunctionProfiling := mkFunctionProfiling {
  fp_accumulated_ops : list OperatorSymbol.t;
  fp_indexes : ProfilingIndexes;
  fp_block_count : Z;
  fp_fn_index : Z
}.
Definition FunctionProfiling_new (indexes : ProfilingIndexes) (fn_index : Z) : FunctionProfiling :=
  mkFunctionProfiling [] indexes 0 fn_index.

(** The block store, the middleware of the function, and its output. *)
Record FeedState := mkFeedState {
  fs_store : BlockStore;
  fs_self : FunctionProfiling;
  fs_out : list Op
}.

Definition as_i32 (n : Z) : Z := if n <? 2 ^ 31 then n else n - 2 ^ 32.
Definition as_i64 (n : Z) : Z := if n <? 2 ^ 63 then n else n - 2 ^ 64.

Definition is_branch (op : Operator.t) : bool :=
  match op with
  | Operator.Loop | Operator.End | Operator.Else | Operator.Br | Operator.BrTable | Operator.BrIf
  | Operator.Call | Operator.CallIndirect | Operator.Return => true
  | _ => false
  end.

Definition start_call (self : FunctionProfiling) : list Op :=
  [mkOp Operator.I32Const [as_i32 (fp_fn_index self)];
   mkOp Operator.I32Const [as_i32 (fp_block_count self)];
   mkOp Operator.Call [pi_start_measurement (fp_indexes self)]].
Definition take_call (self : FunctionProfiling) (block_id : BlockId) : list Op :=
  [mkOp Operator.I32Const [as_i32 (fp_fn_index self)];
   mkOp Operator.I32Const [as_i32 (fp_block_count self)];
   mkOp Operator.I64Const [as_i64 block_id];
   mkOp Operator.Call [pi_take_measurement (fp_indexes self)]].

Definition set_accumulated (l : list OperatorSymbol.t) (self : FunctionProfiling) : FunctionProfiling :=
  mkFunctionProfiling l (fp_indexes self) (fp_block_count self) (fp_fn_index self).

Section feed.
Context {HH : Hasher}.

Definition profiling_feed (operator : Op) (s : FeedState) : FeedState :=
  let self := fs_self s in
  let s :=
    if is_branch (op_operator operator) then
      match fp_accumulated_ops self with
      | [] => s
      | ops =>
          let '(block_id, store) := register_block ops (fs_store s) in
          mkFeedState store (set_accumulated [] self) (fs_out s ++ take_call self block_id)
      end
    else
      let out := match fp_accumulated_ops self with [] => fs_out s ++ start_call self | _ => fs_out s end in
      mkFeedState (fs_store s)
        (set_accumulated (fp_accumulated_ops self ++ [OperatorSymbol_from (op_operator operator)]) self) out in
  mkFeedState (fs_store s) (fs_self s) (fs_out s ++ [operator]).

Definition profile_function (indexes : ProfilingIndexes) (fn_index : Z) (store : BlockStore) (body : list Op)
    : FeedState :=
  foldl (λ s op, profiling_feed op s) (mkFeedState store (FunctionProfiling_new indexes fn_index) []) body.

(** ** The output as what it is made of *)
Inductive Piece := Kept (op : Op) | StartCall | TakeCall (block : CodeBlock).

Definition piece_ops (indexes : ProfilingIndexes) (fn_index : Z) (p : Piece) : list Op :=
  let self := FunctionProfiling_new indexes fn_index in
  match p with
  | Kept op => [op]
  | StartCall => start_call self
  | TakeCall block => take_call self (get_hash block)
  end.
Definition kept (p : Piece) : list Op := match p with Kept op => [op] | _ => [] end.

(** Pieces of a body, given the operators that are open. *)
Fixpoint pieces (acc : CodeBlock) (body : list Op) : list Piece :=
  match body with
  | [] => []
  | op :: body =>
      if is_branch (op_operator op) then
        match acc with [] => [] | _ => [TakeCall acc] end ++ Kept op :: pieces [] body
      else
        match acc with [] => [StartCall] | _ => [] end ++
        Kept op :: pieces (acc ++ [OperatorSymbol_from (op_operator op)]) body
  end.

(** Running straight through: every call of the host in order, each at its time. *)
Fixpoint run_straight {E} (fn_index : Z) (ps : list Piece) (now : Z) : M E Measurements unit :=
  match ps with
  | [] => mret tt
  | Kept _ :: ps => run_straight fn_index ps (now + 1)
  | StartCall :: ps => _ ← start_measurement now fn_index 0; run_straight fn_index ps (now + 1)
  | TakeCall b :: ps => _ ← take_measurement now fn_index 0 (get_hash b); run_straight fn_index ps (now + 1)
  end.

(** The blocks of a body: its maximal runs without a branch that a branch ends. *)
Fixpoint blocks (acc : CodeBlock) (body : list Op) : list CodeBlock :=
  match body with
  | [] => []
  | op :: body =>
      if is_branch (op_operator op) then match acc with [] => [] | _ => [acc] end ++ blocks [] body
      else blocks (acc ++ [OperatorSymbol_from (op_operator op)]) body
  end.
End feed.

(** ** Facts *)
Section facts.
Context {HH : Hasher} (indexes : ProfilingIndexes) (fn_index : Z).
Abbreviation ops := (piece_ops indexes fn_index).

Definition register_all (bs : list CodeBlock) (store : BlockStore) : BlockStore :=
  foldl (λ s b, (register_block b s).2) store bs.

Lemma pieces_kept acc body : mjoin (kept <$> pieces acc body) = body.
Proof.
  revert acc. induction body as [|op body IH]; intros acc; [done|]. cbn [pieces].
  destruct (is_branch (op_operator op)), acc; cbn; by rewrite IH.
Qed.

(** One operator: the pieces it adds, the block it closes, and what is open after it. *)
Definition step_pieces (acc : CodeBlock) (op : Op) : list Piece := pieces acc [op].
Definition closed (acc : CodeBlock) (op : Op) : list CodeBlock := blocks acc [op].
Definition next_acc (acc : CodeBlock) (op : Op) : CodeBlock :=
  if is_branch (op_operator op) then [] else acc ++ [OperatorSymbol_from (op_operator op)].

Lemma pieces_cons acc op body : pieces acc (op :: body) = step_pieces acc op ++ pieces (next_acc acc op) body.
Proof. unfold step_pieces, next_acc. cbn. by destruct (is_branch _), acc. Qed.
Lemma blocks_cons acc op body : blocks acc (op :: body) = closed acc op ++ blocks (next_acc acc op) body.
Proof. unfold closed, next_acc. cbn. by destruct (is_branch _), acc. Qed.

Lemma feed_step store acc out op :
  profiling_feed op (mkFeedState store (mkFunctionProfiling acc indexes 0 fn_index) out) =
  mkFeedState (register_all (closed acc op) store) (mkFunctionProfiling (next_acc acc op) indexes 0 fn_index)
    (out ++ mjoin (ops <$> step_pieces acc op)).
Proof.
  unfold profiling_feed, step_pieces, closed, next_acc. cbn [fs_self fp_accumulated_ops pieces blocks].
  destruct (is_branch (op_operator op)), acc as [|a acc]; cbn; by rewrite <-?app_assoc.
Qed.

Lemma profiler_feed_run store acc out body :
  let s := foldl (λ s op, profiling_feed op s)
             (mkFeedState store (mkFunctionProfiling acc indexes 0 fn_index) out) body in
  fs_out s = out ++ mjoin (ops <$> pieces acc body) ∧ fs_store s = register_all (blocks acc body) store.
Proof.
  cbn zeta. revert store acc out. induction body as [|op body IH]; intros store acc out.
  { cbn. by rewrite app_nil_r. }
  cbn [foldl]. rewrite feed_step, pieces_cons, blocks_cons.
  destruct (IH (register_all (closed acc op) store) (next_acc acc op) (out ++ mjoin (ops <$> step_pieces acc op))) as [-> ->].
  split; [by rewrite fmap_app, join_app, app_assoc|]. unfold register_all. by rewrite foldl_app.
Qed.

Lemma register_all_lookup bs store b :
  (∀ b', b' ∈ bs → get_hash b' = get_hash b → b' = b) → b ∈ bs →
  get_block (get_hash b) (register_all bs store) = Some b.
Proof.
  induction bs as [|c bs IH] using rev_ind; [set_solver|]. intros Hinj Hb. unfold register_all. rewrite foldl_app.
  cbn. unfold get_block. cbn. destruct (decide (get_hash c = get_hash b)) as [He|Hne].
  - rewrite He, lookup_insert_eq. f_equal. apply Hinj; [set_solver|done].
  - rewrite lookup_insert_ne by done. apply IH; [set_solver|].
    apply elem_of_app in Hb as [Hb|Hb%list_elem_of_singleton]; [done|by subst].
Qed.

(** The measurements of one function that are open. *)
Definition open (m : Measurements) : list Z := default [] (started m !! (fn_index, 0)).
(** One is open exactly inside a block. *)
Definition in_step (acc : CodeBlock) (m : Measurements) : Prop :=
  match acc with [] => open m = [] | _ => ∃ t, open m = [t] end.
Definition timings (m : Measurements) (id : BlockId) : nat := length (default [] (taken m !! id)).

Lemma length_insert_push (m : gmap BlockId (list Z)) k (t : Z) id :
  length (default [] (insert_push k t m !! id)) =
  (length (default [] (m !! id)) + length (filter (λ i, i = id) [k]))%nat.
Proof.
  unfold insert_push. destruct (decide (k = id)) as [->|Hne].
  - rewrite lookup_insert_eq, filter_cons_True by done. cbn. by rewrite length_app.
  - rewrite lookup_insert_ne by done. rewrite filter_cons_False by done. cbn. lia.
Qed.

Lemma start_step {E} now m :
  in_step [] m → ∃ m', start_measurement (E := E) now fn_index 0 m = (Ok tt, m') ∧
    (∃ t, open m' = [t]) ∧ ∀ id, timings m' id = timings m id.
Proof.
  intros Hm. eexists. split; [reflexivity|]. split; [|done]. exists now. change (open m = []) in Hm. unfold open in *.
  cbn [started]. unfold insert_push. by rewrite lookup_insert_eq, Hm.
Qed.
Lemma take_step {E} now m t b :
  open m = [t] → ∃ m', take_measurement (E := E) now fn_index 0 (get_hash b) m = (Ok tt, m') ∧
    in_step [] m' ∧ ∀ id, timings m' id = (timings m id + length (filter (λ b, get_hash b = id) [b]))%nat.
Proof.
  intros Hm. unfold take_measurement. rewrite bind_get. unfold open in Hm.
  destruct (started m !! (fn_index, 0)) as [[|t' q]|] eqn:Hs; cbn in Hm; try done. injection Hm as -> ->.
  eexists. split; [reflexivity|]. split.
  - unfold in_step, open. cbn. by rewrite lookup_insert_eq.
  - intros id. unfold timings. cbn [taken]. rewrite length_insert_push. f_equal.
    destruct (decide (get_hash b = id)); [by rewrite !filter_cons_True|by rewrite !filter_cons_False].
Qed.

Lemma run_straight_ok {E} acc body now m :
  in_step acc m →
  ∃ m', run_straight (E := E) fn_index (pieces acc body) now m = (Ok tt, m') ∧
    ∀ id, timings m' id = (timings m id + length (filter (λ b, get_hash b = id) (blocks acc body)))%nat.
Proof.
  revert acc now m. induction body as [|op body IH]; intros acc now m Hm; cbn [pieces blocks].
  { exists m. split; [done|]. intros id. cbn. lia. }
  destruct (is_branch (op_operator op)), acc as [|a acc]; cbn [app run_straight].
  - by apply IH.
  - destruct Hm as [t Ht]. destruct (take_step (E := E) now m t (a :: acc) Ht) as (m1 & H1 & Hs & Ht1).
    rewrite (bind_Ok _ _ _ _ _ H1). destruct (IH [] (now + 1 + 1) m1 Hs) as (m2 & H2 & Ht2).
    exists m2. split; [done|]. intros id. rewrite Ht2, Ht1.
    change ((a :: acc) :: blocks [] body) with ([a :: acc] ++ blocks [] body). rewrite filter_app, length_app. lia.
  - destruct (start_step (E := E) now m Hm) as (m1 & H1 & Hs & Ht1). rewrite (bind_Ok _ _ _ _ _ H1).
    destruct (IH [OperatorSymbol_from (op_operator op)] (now + 1 + 1) m1 Hs) as (m2 & H2 & Ht2).
    exists m2. split; [done|]. intros id. by rewrite Ht2, Ht1.
  - by apply IH.
Qed.

(** The profiler leaves the code of a function in place and measures it: its output
    is the body with calls of the two imports in between; when the code runs straight
    through, no call panics and every block, a run of operators up to a branch, gets one
    more timing under its hash; and a block whose hash no other block of the function has
    is found under it in the store, with its operators. *)
Theorem profiler_measures_each_block store body :
  let s := profile_function indexes fn_index store body in
  fs_out s = mjoin (ops <$> pieces [] body) ∧ mjoin (kept <$> pieces [] body) = body ∧
  (∀ b, b ∈ blocks [] body → (∀ b', b' ∈ blocks [] body → get_hash b' = get_hash b → b' = b) →
     get_block (get_hash b) (fs_store s) = Some b) ∧
  (∀ E now m, open m = [] →
     ∃ m', run_straight (E := E) fn_index (pieces [] body) now m = (Ok tt, m') ∧
       ∀ id, timings m' id = (timings m id + length (filter (λ b, get_hash b = id) (blocks [] body)))%nat).
Proof.
  intros s. destruct (profiler_feed_run store [] [] body) as [Hout Hstore]. split_and!.
  - exact Hout.
  - apply pieces_kept.
  - intros b Hb Hinj. unfold s, profile_function. change (fs_store _) with (fs_store (foldl (λ s op, profiling_feed op s)
      (mkFeedState store (mkFunctionProfiling [] indexes 0 fn_index) []) body)). rewrite Hstore.
    by apply register_all_lookup.
  - intros E now m Hm. by apply run_straight_ok.
Qed.
End facts.

(** A branch that is not taken: the body [i32.const; if; nop; else; nop; end] is measured
    from before the [if] to before the [else]. When the condition fails, the second
    measurement is started while the first one is still open, and the call at the end
    takes the time since the first: a measurement stays open for good. *)
Definition if_body : list Op :=
  (λ o, mkOp o []) <$> [Operator.I32Const; Operator.If; Operator.Nop; Operator.Else; Operator.Nop; Operator.End].
Definition else_path {HH : Hasher} : list Piece :=
  (* up to and with the [if], then behind the [else] *)
  take 3 (pieces [] if_body) ++ drop 6 (pieces [] if_body).

Lemma skipped_branch_stays_open {HH : Hasher} E fn_index now :
  ∃ m, run_straight (E := E) fn_index else_path now Measurements_new = (Ok tt, m) ∧
    open fn_index m = [now + 1 + 1 + 1] ∧
    taken m !! get_hash [OperatorSymbol.Nop] = Some [Z.max 0 (now + 1 + 1 + 1 + 1 + 1 - now)].
Proof.
  eexists. split.
  - unfold else_path. cbn [if_body fmap list_fmap pieces is_branch op_operator app take drop].
    cbn [run_straight]. unfold start_measurement. rewrite !bind_modify.
    unfold take_measurement. rewrite bind_assoc, bind_get. cbn [started]. unfold insert_push at 1 2.
    rewrite lookup_insert_eq. cbn [default app id]. rewrite lookup_insert_eq. cbn [default app id].
    reflexivity.
  - cbn [started taken]. unfold open, insert_push. cbn [started taken]. rewrite !lookup_insert_eq. done.
Qed.
