(* ===== verification/Queue.v ===== *)
(** * The queue contract ([cosmwasm/contracts/queue/src])

    A contract that keeps numbers under consecutive keys of four bytes and finds both
    ends of its queue with range queries. The theorem: it is a first-in first-out queue. *)

From S2P Require Import Prelude.
From S2P Require Import Bytes.
From S2P Require Import CwStd.
From S2P Require Import StdError.
From S2P Require Import Storage.
From S2P Require Import Namespaces.
From S2P Require Import TypedStorage.

Open Scope Z_scope.

(** ** [state.rs], [msg.rs] *)
Record Item := mkItem { item_value : Z }.

Inductive ExecuteMsg := Enqueue (value : Z) | Dequeue.
Inductive QueryMsg := QCount | QSum | QReducer | QList | QOpenIterators (count : Z).

Record CountResponse := mkCountResponse { cr_count : Z }.
Record SumResponse := mkSumResponse { sm_sum : Z }.
Record ReducerResponse := mkReducerResponse { rr_counters : list (Z * Z) }.
Record ListResponse := mkListResponse { lr_empty : list Z; lr_early : list Z; lr_late : list Z }.

(** [i32] addition, checked in every profile of the contract. *)
Definition add_i32 {E S} (x y : Z) : M E S Z :=
  if (- 2 ^ 31 <=? x + y) && (x + y <? 2 ^ 31) then mret (x + y) else panic "attempt to add with overflow".
Fixpoint sum_i32 {E S} (acc : Z) (l : list Z) : M E S Z :=
  match l with [] => mret acc | x :: l => acc ← add_i32 acc x; sum_i32 acc l end.

(** [u32::from_be_bytes(key.try_into().unwrap())]. *)
Definition key_number {E S} (key : bytes) : M E S Z :=
  if (length key =? 4)%nat then mret (be_value key)
  else panic "called `Result::unwrap()` on an `Err` value".

Definition FIRST_KEY : bytes := replicate 4 Byte.x00.
Definition THRESHOLD : bytes := [Byte.x00; Byte.x00; Byte.x00; Byte.x20].

(** ** [contract.rs] *)
Section contract.
Context `{StorageTrait St} `{!Json Item, !Json CountResponse, !Json SumResponse}.
Context `{!Json ReducerResponse, !Json ListResponse, !Json unit}.
Abbreviation DEPS := (M StdError St).

Definition instantiate (env : Env) (info : MessageInfo) : DEPS Response := mret Response_new.

Definition enqueue (value : Z) : DEPS unit :=
  items ← t_range None None Descending;
  new_key ← match head items with
            | None => mret FIRST_KEY
            | Some (key, _) =>
                last_key ← key_number key;
                next ← add_or_panic U32 last_key 1;
                mret (be_bytes 4 next)
            end;
  new_value ← of_sum (to_vec (mkItem value));
  t_set new_key new_value.

Definition handle_enqueue (value : Z) : DEPS Response := _ ← enqueue value; mret Response_new.

Definition handle_dequeue : DEPS Response :=
  items ← t_range None None Ascending;
  match head items with
  | Some (key, value) => _ ← t_remove key; mret (set_data value Response_new)
  | None => mret Response_new
  end.

Definition execute (env : Env) (info : MessageInfo) (msg : ExecuteMsg) : DEPS Response :=
  match msg with
  | Enqueue value => handle_enqueue value
  | Dequeue => handle_dequeue
  end.

Fixpoint remove_keys (keys : list bytes) : DEPS unit :=
  match keys with [] => mret tt | key :: keys => _ ← t_remove key; remove_keys keys end.

Definition migrate (env : Env) : DEPS Response :=
  items ← t_range None None Ascending;
  _ ← remove_keys items.*1;
  _ ← enqueue 100;
  _ ← enqueue 101;
  _ ← enqueue 102;
  mret Response_new.

(** ** Queries *)
Definition query_count : DEPS CountResponse :=
  items ← t_range None None Ascending;
  mret (mkCountResponse (Z.of_nat (length items) mod U32)).

Fixpoint parse_items (l : list bytes) : StdError + list Item :=
  match l with
  | [] => inr []
  | v :: l =>
      match from_slice v with
      | inl e => inl e
      | inr x => match parse_items l with inl e => inl e | inr xs => inr (x :: xs) end
      end
  end.

Definition query_sum : DEPS SumResponse :=
  items ← t_range None None Ascending;
  values ← of_sum (parse_items items.*2);
  sum ← sum_i32 0 (item_value <$> values);
  mret (mkSumResponse sum).

(** The inner iterator: values above [my_val]; a value that does not parse is a panic. *)
Fixpoint larger_values {E} (my_val : Z) (l : list bytes) : M E St (list Z) :=
  match l with
  | [] => mret []
  | v :: l =>
      match from_slice v with
      | inl _ => panic "error in item"
      | inr x =>
          rest ← larger_values my_val l;
          mret (if my_val <? item_value x then item_value x :: rest else rest)
      end
  end.
Fixpoint reduce (l : list bytes) (out : list (Z * Z)) : DEPS (list (Z * Z)) :=
  match l with
  | [] => mret out
  | v :: l =>
      my_val ← of_sum (from_slice v);
      items ← t_range None None Ascending;
      larger ← larger_values (item_value my_val) items.*2;
      sum ← sum_i32 0 larger;
      reduce l (out ++ [(item_value my_val, sum)])
  end.
Definition query_reducer : DEPS ReducerResponse :=
  items ← t_range None None Ascending;
  counters ← reduce items.*2 [];
  mret (mkReducerResponse counters).

Fixpoint key_numbers (l : list StoreRecord) : DEPS (list Z) :=
  match l with
  | [] => mret []
  | (k, _) :: l => n ← key_number k; ns ← key_numbers l; mret (n :: ns)
  end.
Definition query_list : DEPS ListResponse :=
  empty_items ← t_range (Some THRESHOLD) (Some THRESHOLD) Ascending;
  empty_ ← key_numbers empty_items;
  early_items ← t_range None (Some THRESHOLD) Ascending;
  early ← key_numbers early_items;
  late_items ← t_range (Some THRESHOLD) None Ascending;
  late ← key_numbers late_items;
  mret (mkListResponse empty_ early late).

(** The iterators are opened and dropped. *)
Fixpoint open_iterators (n : nat) : DEPS unit :=
  match n with O => mret tt | S n => _ ← t_range None None Ascending; open_iterators n end.
Definition query_open_iterators (count : Z) : DEPS unit := open_iterators (Z.to_nat count).

Definition to_binary_ok `{Json T} (x : T) : DEPS Binary := of_sum (to_vec x).
Definition query (env : Env) (msg : QueryMsg) : DEPS Binary :=
  match msg with
  | QCount => r ← query_count; to_binary_ok r
  | QSum => r ← query_sum; to_binary_ok r
  | QReducer => r ← query_reducer; to_binary_ok r
  | QList => r ← query_list; to_binary_ok r
  | QOpenIterators count => r ← query_open_iterators count; to_binary_ok r
  end.
End contract.

(** ** Keys in order *)
Lemma be_value_cons x (a : bytes) : be_value (x :: a) = Z_of_byte x * 256 ^ Z.of_nat (length a) + be_value a.
Proof.
  change (x :: a) with ([x] ++ a). rewrite be_value_app. f_equal. f_equal. unfold be_value. cbn. lia.
Qed.
Lemma be_leb (a b : bytes) : length a = length b → bytes_leb a b = (be_value a <=? be_value b).
Proof.
  revert b. induction a as [|x a IH]; intros [|y b]; cbn [length]; try done. intros [= Hl]. cbn [bytes_leb].
  rewrite !be_value_cons, Hl, IH by done.
  pose proof (be_value_bound a) as Ha. pose proof (be_value_bound b) as Hb. rewrite Hl in Ha.
  set (p := 256 ^ Z.of_nat (length b)) in *. unfold Z_of_byte. destruct (N.ltb_spec (Byte.to_N x) (Byte.to_N y)).
  { symmetry. apply Z.leb_le. nia. }
  destruct (N.ltb_spec (Byte.to_N y) (Byte.to_N x)).
  { symmetry. apply Z.leb_gt. nia. }
  replace (Byte.to_N y) with (Byte.to_N x) by lia.
  destruct (Z.leb_spec (be_value a) (be_value b)); symmetry; [apply Z.leb_le|apply Z.leb_gt]; lia.
Qed.

Definition number_key (n : Z) : bytes := be_bytes 4 n.
Lemma number_key_value n : in_width U32 n → be_value (number_key n) = n.
Proof. intros Hn. apply be_value_be_bytes. exact Hn. Qed.
Lemma number_key_lt a b : 0 ≤ a → a < b → b < U32 → bytes_ltb (number_key a) (number_key b) = true.
Proof.
  intros. unfold bytes_ltb. rewrite be_leb by (unfold number_key; by rewrite !length_be_bytes).
  rewrite !number_key_value by (unfold in_width; lia). apply negb_true_iff, Z.leb_gt. lia.
Qed.
Lemma number_key_inj a b : in_width U32 a → in_width U32 b → number_key a = number_key b → a = b.
Proof. intros Ha Hb H. by rewrite <-(number_key_value a Ha), H, number_key_value. Qed.
Lemma key_number_run {E S} n (s : S) : in_width U32 n → key_number (E := E) (number_key n) s = (Ok n, s).
Proof.
  intros Hn. unfold key_number. assert (length (number_key n) = 4%nat) as -> by apply length_be_bytes.
  by rewrite Nat.eqb_refl, number_key_value.
Qed.

Section fifo.
Context `{!StorageTrait St, !StorageSpec St, !Json Item, !JsonSpec Item}.
(** What an item with a 32-bit value is stored as. *)
Context (text : Z → bytes).
Definition is_i32 (x : Z) : Prop := - 2 ^ 31 ≤ x < 2 ^ 31.
Hypothesis items_serialize : ∀ x, is_i32 x → to_vec (mkItem x) = inr (text x).

(** The records of a queue whose first number is [n]. *)
Fixpoint records (n : Z) (q : list Z) : list StoreRecord :=
  match q with [] => [] | x :: q => (number_key n, text x) :: records (n + 1) q end.

(** A storage that holds the queue [q] from the key [n] on, and nothing else. *)
Record queued (st : St) (n : Z) (q : list Z) : Prop := {
  qd_ok : t_ok st;
  qd_first : 0 ≤ n;
  qd_last : n + Z.of_nat (length q) ≤ U32;
  qd_values : Forall is_i32 q;
  qd_records k v : t_get k st = Some v ↔ (k, v) ∈ records n q
}.

Lemma records_app n a b : records n (a ++ b) = records n a ++ records (n + Z.of_nat (length a)) b.
Proof.
  revert n. induction a as [|x a IH]; intros n; cbn [app records length]; [by rewrite Z.add_0_r|].
  rewrite IH. cbn. do 3 f_equal. lia.
Qed.
Lemma elem_of_records n q k v :
  (k, v) ∈ records n q → ∃ m, n ≤ m < n + Z.of_nat (length q) ∧ k = number_key m.
Proof.
  revert n. induction q as [|x q IH]; intros n; cbn [records length]; [by intros ?%elem_of_nil|].
  intros [[= -> ->]|Hin]%elem_of_cons; [exists n; split; [lia|done]|].
  destruct (IH (n + 1) Hin) as (m & ? & ->). exists m. split; [lia|done].
Qed.
Lemma records_sorted n q :
  0 ≤ n → n + Z.of_nat (length q) ≤ U32 → StronglySorted (order_rel Ascending) (records n q).
Proof.
  revert n. induction q as [|x q IH]; intros n Hn Hl; cbn [records length] in *; [constructor|].
  apply StronglySorted_cons. split; [|apply IH; lia]. apply Forall_forall. intros [k v] Hin.
  destruct (elem_of_records _ _ _ _ Hin) as (m & ? & ->). cbn. apply number_key_lt; lia.
Qed.
Lemma sorted_NoDup (l : list StoreRecord) : StronglySorted (order_rel Ascending) l → NoDup l.
Proof.
  induction 1 as [|r l Hs IH Hr]; [constructor|]. constructor; [|done]. intros Hin.
  rewrite Forall_forall in Hr. specialize (Hr r Hin). cbn in Hr. apply bytes_ltb_spec in Hr as [_ ?]. done.
Qed.
Lemma sorted_same (l l' : list StoreRecord) :
  StronglySorted (order_rel Ascending) l → StronglySorted (order_rel Ascending) l' →
  (∀ r, r ∈ l ↔ r ∈ l') → l = l'.
Proof.
  intros Hl Hl' Hin.
  assert (AntiSymm (=) (order_rel Ascending)).
  { intros a b [Hab ?]%bytes_ltb_spec [Hba ?]%bytes_ltb_spec. exfalso.
    by apply (anti_symm bytes_le) in Hab. }
  apply (StronglySorted_unique (order_rel Ascending)); [done..|].
  apply NoDup_Permutation; [by apply sorted_NoDup..|done].
Qed.

Definition in_order (o : Order) (l : list StoreRecord) : list StoreRecord :=
  match o with Ascending => l | Descending => reverse l end.
Lemma range_run {E} st n q o :
  queued st n q → (t_range None None o : M E St _) st = (Ok (in_order o (records n q)), st).
Proof.
  intros [Hok Hn Hl _ Hrec]. destruct (t_range_spec (E := E) None None o st Hok) as (l & Hrun & Hsort & Hin).
  rewrite Hrun. do 2 f_equal.
  assert (∀ r, r ∈ l ↔ r ∈ records n q) as Hmem by (intros [k v]; rewrite Hin, Hrec; naive_solver).
  pose proof (records_sorted n q Hn Hl) as Hr. destruct o; cbn [in_order].
  - by apply sorted_same.
  - rewrite <-(reverse_involutive l). f_equal. apply sorted_same; [|done|intros r; by rewrite elem_of_reverse].
    exact (reverse_sorted (order_rel Descending) _ Hsort).
Qed.

(** ** The two operations *)
Lemma text_not_empty x : is_i32 x → text x ≠ [].
Proof. intros Hx. by apply (from_to (mkItem x) _ (items_serialize x Hx)). Qed.

Lemma add_last st n q v :
  queued st n q → is_i32 v → n + Z.of_nat (length q) < U32 →
  ∃ st', (t_set (number_key (n + Z.of_nat (length q))) (text v) : M StdError St unit) st = (Ok tt, st') ∧
    queued st' n (q ++ [v]).
Proof.
  intros [Hok Hn Hl Hv Hrec] Hi Hlt.
  destruct (t_set_spec (E := StdError) (number_key (n + Z.of_nat (length q))) (text v) st Hok (text_not_empty v Hi))
    as (st' & Hrun & Hok' & Hget).
  exists st'. split; [done|]. split; [done|done|rewrite length_app; cbn; lia| |].
  - apply Forall_app. split; [done|]. by constructor.
  - intros k w. rewrite Hget, records_app. cbn [records]. rewrite elem_of_app, list_elem_of_singleton.
    case_decide as Hk; [|rewrite Hrec; naive_solver]. split; [naive_solver|].
    intros [Hin|?]; [|naive_solver]. destruct (elem_of_records _ _ _ _ Hin) as (m & Hm & Heq). subst k.
    apply number_key_inj in Heq; unfold in_width; lia.
Qed.

Lemma enqueue_run st n q v :
  queued st n q → is_i32 v →
  if bool_decide (q = []) || (n + Z.of_nat (length q) <? U32) then
    ∃ st' n', enqueue v st = (Ok tt, st') ∧ queued st' n' (q ++ [v]) ∧ 0 ≤ n' ≤ n
  else enqueue v st = (Panic "attempt to add with overflow", st).
Proof.
  intros Hq Hv. unfold enqueue. rewrite (bind_Ok _ _ _ _ _ (range_run st n q Descending Hq)). cbn [in_order].
  destruct (decide (q = [])) as [->|Hne].
  - rewrite bool_decide_true by done. cbn [orb]. change (head (reverse (records n []))) with (None (A := StoreRecord)).
    assert (queued st 0 []) as Hq0 by (destruct Hq; by split).
    destruct (add_last st 0 [] v Hq0 Hv) as (st' & Hrun & Hq'); [done|].
    exists st', 0. rewrite bind_ret_l, (items_serialize v Hv). cbn [of_sum]. rewrite bind_ret_l.
    split_and!; [exact Hrun|done|done|apply Hq].
  - rewrite bool_decide_false by done. cbn [orb].
    destruct (exists_last Hne) as (q0 & x & Heq). pose proof (qd_last _ _ _ Hq) as Hl. pose proof (qd_first _ _ _ Hq) as Hn.
    rewrite Heq, length_app in Hl |- *. cbn [length] in Hl |- *.
    rewrite records_app. cbn [records]. rewrite reverse_snoc. cbn [head].
    rewrite !bind_assoc, (bind_Ok _ _ _ _ _ (key_number_run (n + Z.of_nat (length q0)) st ltac:(unfold in_width; lia))).
    unfold add_or_panic. replace (n + Z.of_nat (length q0 + 1)) with (n + Z.of_nat (length q0) + 1) by lia.
    rewrite bind_assoc. destruct (Z.ltb_spec (n + Z.of_nat (length q0) + 1) U32) as [Hlt|Hge]; [|done].
    rewrite !bind_ret_l, (items_serialize v Hv). cbn [of_sum]. rewrite bind_ret_l.
    destruct (add_last st n q v Hq Hv) as (st' & Hrun & Hq'); [rewrite Heq, length_app; cbn; lia|].
    exists st', n. split_and!; [|by rewrite <-Heq|lia|lia].
    replace (n + Z.of_nat (length q)) with (n + Z.of_nat (length q0) + 1) in Hrun
      by (rewrite Heq, length_app; cbn [length]; lia). exact Hrun.
Qed.

Lemma dequeue_run st n q :
  queued st n q →
  match q with
  | [] => handle_dequeue st = (Ok Response_new, st)
  | x :: q' => ∃ st', handle_dequeue st = (Ok (set_data (text x) Response_new), st') ∧ queued st' (n + 1) q'
  end.
Proof.
  intros Hq. unfold handle_dequeue. rewrite (bind_Ok _ _ _ _ _ (range_run st n q Ascending Hq)). cbn [in_order].
  destruct q as [|x q]; [done|]. cbn [records head].
  destruct (t_remove_spec (E := StdError) (number_key n) st (qd_ok _ _ _ Hq)) as (st' & Hrun & Hok' & Hget).
  exists st'. rewrite (bind_Ok _ _ _ _ _ Hrun). split; [done|]. destruct Hq as [_ Hn Hl Hv Hrec]. cbn [length] in Hl.
  apply Forall_cons in Hv as [_ Hv]. split; [done|lia|lia|done|].
  intros k v. rewrite Hget. cbn [records] in Hrec. case_decide as Hk.
  - split; [done|]. intros Hin. destruct (elem_of_records _ _ _ _ Hin) as (m & Hm & Heq). subst k.
    apply number_key_inj in Heq; unfold in_width; lia.
  - rewrite Hrec, elem_of_cons. naive_solver.
Qed.

(** ** Any sequence of messages *)
Fixpoint run_messages (env : Env) (info : MessageInfo) (msgs : list ExecuteMsg)
    : M StdError St (list (option Binary)) :=
  match msgs with
  | [] => mret []
  | msg :: msgs => r ← execute env info msg; rs ← run_messages env info msgs; mret (CwStd.data r :: rs)
  end.

(** The queue itself. *)
Fixpoint fifo (msgs : list ExecuteMsg) (q : list Z) : list (option Z) * list Z :=
  match msgs with
  | [] => ([], q)
  | Enqueue v :: msgs => let '(rs, q') := fifo msgs (q ++ [v]) in (None :: rs, q')
  | Dequeue :: msgs =>
      match q with
      | [] => let '(rs, q') := fifo msgs [] in (None :: rs, q')
      | x :: q => let '(rs, q') := fifo msgs q in (Some x :: rs, q')
      end
  end.
Fixpoint enqueues (msgs : list ExecuteMsg) : Z :=
  match msgs with [] => 0 | Enqueue _ :: msgs => 1 + enqueues msgs | Dequeue :: msgs => enqueues msgs end.
Lemma enqueues_nonneg msgs : 0 ≤ enqueues msgs.
Proof. induction msgs as [|[v|] msgs IH]; cbn [enqueues]; lia. Qed.
Definition values_ok (msg : ExecuteMsg) : Prop := match msg with Enqueue v => is_i32 v | Dequeue => True end.

(** C13: The queue contract is a first-in first-out queue. On any lawful storage that
    holds a queue, every sequence of [Enqueue] and [Dequeue] messages succeeds, answers
    what the list of numbers answers, the items in the order they came in, and leaves
    the storage holding the list that remains, as long as fewer than 2^32 keys are used
    up; the number of items is what the contract counts. A queue that used the last key
    panics on the next [Enqueue] and is not changed. *)
Theorem queue_is_fifo env info msgs st n q :
  queued st n q →
  (Forall values_ok msgs → n + Z.of_nat (length q) + enqueues msgs ≤ U32 →
   ∃ st' n', run_messages env info msgs st = (Ok (map (option_map text) (fifo msgs q).1), st') ∧
     queued st' n' (fifo msgs q).2) ∧
  (Z.of_nat (length q) < U32 → query_count st = (Ok (mkCountResponse (Z.of_nat (length q))), st)) ∧
  (∀ v, is_i32 v → q ≠ [] → n + Z.of_nat (length q) = U32 →
   execute env info (Enqueue v) st = (Panic "attempt to add with overflow", st)).
Proof.
  intros Hq. split_and!.
  - intros Hok. revert st n q Hq. induction Hok as [|msg msgs Hmsg Hmsgs IH]; intros st n q Hq Hn.
    { by exists st, n. }
    destruct msg as [v|]; cbn [run_messages execute fifo].
    + pose proof (enqueue_run st n q v Hq Hmsg) as Hrun. cbn [enqueues] in Hn.
      pose proof (enqueues_nonneg msgs). destruct (Z.ltb_spec (n + Z.of_nat (length q)) U32); [|lia]. rewrite orb_true_r in Hrun.
      destruct Hrun as (st1 & n1 & Hrun & Hq1 & Hn1).
      destruct (IH st1 n1 (q ++ [v]) Hq1) as (st2 & n2 & Hrun2 & Hq2).
      { rewrite length_app. cbn [length]. lia. }
      destruct (fifo msgs (q ++ [v])) as [rs q']. exists st2, n2. split; [|done].
      unfold handle_enqueue. rewrite bind_assoc, (bind_Ok _ _ _ _ _ Hrun), bind_ret_l, (bind_Ok _ _ _ _ _ Hrun2). done.
    + pose proof (dequeue_run st n q Hq) as Hrun. cbn [enqueues] in Hn.
      destruct q as [|x q].
      * destruct (IH st n [] Hq Hn) as (st2 & n2 & Hrun2 & Hq2). destruct (fifo msgs []) as [rs q'].
        exists st2, n2. split; [|done]. by rewrite (bind_Ok _ _ _ _ _ Hrun), (bind_Ok _ _ _ _ _ Hrun2).
      * destruct Hrun as (st1 & Hrun & Hq1). destruct (IH st1 (n + 1) q Hq1) as (st2 & n2 & Hrun2 & Hq2).
        { cbn [length] in Hn. lia. }
        destruct (fifo msgs q) as [rs q']. exists st2, n2. split; [|done].
        by rewrite (bind_Ok _ _ _ _ _ Hrun), (bind_Ok _ _ _ _ _ Hrun2).
  - intros Hlt. unfold query_count. rewrite (bind_Ok _ _ _ _ _ (range_run st n q Ascending Hq)). cbn [in_order].
    assert (length (records n q) = length q) as ->.
    { clear. revert n. induction q as [|x q IH]; intros n; cbn; [done|]. by rewrite IH. }
    rewrite Z.mod_small by lia. done.
  - intros v Hv Hne Hfull. pose proof (enqueue_run st n q v Hq Hv) as Hrun.
    rewrite bool_decide_false, Hfull, Z.ltb_irrefl in Hrun by done. cbn [orb] in Hrun.
    cbn [execute]. unfold handle_enqueue. by rewrite (bind_Panic _ _ _ _ _ Hrun).
Qed.
End fifo.
