(* ===== verification/Staking.v ===== *)
(** * The staking contract ([cosmwasm/contracts/staking/src])

    A token backed by delegations: who bonds native tokens gets newly issued ones, who
    unbonds burns them and gets a claim. The storage is any [StorageTrait], the queries go
    through [QuerierWrapper] to whatever answers them, the address API is a parameter.
    The theorems are in [StakingFacts]. *)

From S2P Require Import Prelude.
From S2P Require Import Bytes.
From S2P Require Import CwStd.
From S2P Require Import StdError.
From S2P Require Import Uint128.
From S2P Require Import UintCrate.
From S2P Require Import Ratio.
From S2P Require Decimal.
From S2P Require Import Storage.
From S2P Require Import Namespaces.
From S2P Require Import TypedStorage.
From S2P Require Import StdQueries.

Open Scope Z_scope.

(** ** [state.rs] *)
Definition KEY_INVESTMENT : bytes := as_bytes "invest".
Definition KEY_TOKEN_INFO : bytes := as_bytes "token".
Definition KEY_TOTAL_SUPPLY : bytes := as_bytes "total_supply".
Definition PREFIX_BALANCE : bytes := as_bytes "balance".
Definition PREFIX_CLAIMS : bytes := as_bytes "claim".

Record InvestmentInfo := mkInvestmentInfo {
  owner : Addr;
  bond_denom : string;
  exit_tax : Z;
  validator : string;
  min_withdrawal : Z
}.
Record TokenInfo := mkTokenInfo { ti_name : string; ti_symbol : string; ti_decimals : Z }.
Record Supply := mkSupply { issued : Z; bonded : Z; claims : Z }.
Definition Supply_default : Supply := mkSupply 0 0 0.

(** ** [msg.rs], [errors.rs] *)
Record InstantiateMsg := mkInstantiateMsg {
  im_name : string;
  im_symbol : string;
  im_decimals : Z;
  im_validator : string;
  im_exit_tax : Z;
  im_min_withdrawal : Z
}.
Inductive ExecuteMsg :=
| Transfer (recipient : string) (amount : Z)
| Bond
| Unbond (amount : Z)
| Claim
| Reinvest
| BondAllTokens.
Inductive QueryMsg := QBalance (address : string) | QClaims (address : string) | QTokenInfo | QInvestment.

Record BalanceResponse := mkBalanceResponse { sbr_balance : Z }.
Record ClaimsResponse := mkClaimsResponse { scr_claims : Z }.
Record TokenInfoResponse := mkTokenInfoResponse { tr_name : string; tr_symbol : string; tr_decimals : Z }.
Record InvestmentResponse := mkInvestmentResponse {
  token_supply : Z;
  staked_tokens : Coin;
  nominal_value : Z;
  ir_owner : string;
  ir_exit_tax : Z;
  ir_validator : string;
  ir_min_withdrawal : Z
}.

Inductive StakingError := Std (original : StdError) | Unauthorized.

(** ** [contract.rs] *)
Definition FALLBACK_RATIO : Z := Decimal.one.

Section contract.
Context `{StorageTrait St} `{UintCrate U256}.
(** [deps.api.addr_canonicalize] and [deps.querier]. *)
Context (addr_canonicalize : string → StdError + Binary) (raw_query : bytes → QuerierResult).
Context `{!Json Z, !Json InvestmentInfo, !Json TokenInfo, !Json Supply, !Json ExecuteMsg}.
Context `{!Json BalanceResponse, !Json ClaimsResponse, !Json TokenInfoResponse, !Json InvestmentResponse}.
Context `{!Json (Full.QueryRequest unit), !Json ValidatorResponse, !Json BondedDenomResponse}.
Context `{!Json AllDelegationsResponse, !Json CwStd.BalanceResponse}.
Abbreviation DEPS := (M StdError St).

(** [impl From<OverflowError> for StdError] and [?]. *)
Definition or_overflow {S} (r : OverflowError + Z) : M StdError S Z :=
  match r with inr z => mret z | inl e => throw (StdOverflow e) end.
Definition add_to {S} (n : Z) (balance : option Z) : M StdError S (unit * Z) :=
  z ← uint128_add (default 0 balance) n; mret (tt, z).
Definition take_from {S} (n : Z) (balance : option Z) : M StdError S (unit * Z) :=
  z ← or_overflow (checked_sub (default 0 balance) n); mret (tt, z).

Definition instantiate (env : Env) (info : MessageInfo) (msg : InstantiateMsg) : DEPS Response :=
  v ← of_sum (query_validator raw_query (im_validator msg));
  match v with
  | None => throw (StdGenericErr (im_validator msg +:+ " is not in the current validator set"))
  | Some _ =>
      _ ← on_singleton KEY_TOKEN_INFO
            (SingletonOps.save (mkTokenInfo (im_name msg) (im_symbol msg) (im_decimals msg)));
      denom ← of_sum (query_bonded_denom raw_query);
      _ ← on_singleton KEY_INVESTMENT
            (SingletonOps.save (mkInvestmentInfo (sender info) denom (im_exit_tax msg) (im_validator msg)
               (im_min_withdrawal msg)));
      _ ← on_singleton KEY_TOTAL_SUPPLY (SingletonOps.save Supply_default);
      mret Response_new
  end.

Definition transfer (env : Env) (info : MessageInfo) (recipient : string) (send : Z) : DEPS Response :=
  rcpt_raw ← of_sum (addr_canonicalize recipient);
  sender_raw ← of_sum (addr_canonicalize (sender info));
  _ ← on_bucket PREFIX_BALANCE (update_bucket sender_raw (take_from send));
  _ ← on_bucket PREFIX_BALANCE (update_bucket rcpt_raw (add_to send));
  mret (add_attribute "amount" (pretty send) (add_attribute "to" recipient
    (add_attribute "from" (sender info) (add_attribute "action" "transfer" Response_new)))).

(** The fold goes on over an error that was found. *)
Fixpoint sum_bonds {S} (denom_ : string) (bonds : list Delegation) (racc : StdError + Z) : M StdError S Z :=
  match bonds with
  | [] => of_sum racc
  | d :: bonds =>
      match racc with
      | inl e => sum_bonds denom_ bonds (inl e)
      | inr acc =>
          if negb (String.eqb (denom (d_amount d)) denom_) then
            sum_bonds denom_ bonds (inl (StdGenericErr ("different denoms in bonds: '" +:+ denom_ +:+ "' vs '"
              +:+ denom (d_amount d) +:+ "'")))
          else acc ← uint128_add acc (amount (d_amount d)); sum_bonds denom_ bonds (inr acc)
      end
  end.
Definition get_bonded {S} (contract_addr : string) : M StdError S Z :=
  bonds ← of_sum (query_all_delegations raw_query contract_addr);
  match bonds with
  | [] => mret 0
  | d :: _ => sum_bonds (denom (d_amount d)) bonds (inr 0)
  end.
Definition assert_bonds {S} (supply : Supply) (bonded_ : Z) : M StdError S unit :=
  if negb (bonded supply =? bonded_) then
    throw (StdGenericErr ("Stored bonded " +:+ pretty (bonded supply) +:+ ", but query bonded: " +:+ pretty bonded_))
  else mret tt.

Definition bond (env : Env) (info : MessageInfo) : DEPS Response :=
  sender_raw ← of_sum (addr_canonicalize (sender info));
  invest ← read_singleton KEY_INVESTMENT;
  match find_first (λ x, bool_decide (denom x = bond_denom invest)) (funds info) with
  | None => throw (StdGenericErr ("No " +:+ bond_denom invest +:+ " tokens sent"))
  | Some payment =>
      bonded_ ← get_bonded (ci_address (contract env));
      supply ← on_singleton KEY_TOTAL_SUPPLY (self ← get; of_sum (SingletonOps.load self));
      _ ← assert_bonds supply bonded_;
      to_mint ← (if is_zero (issued supply) || is_zero bonded_ then Decimal.mul_uint (amount payment) FALLBACK_RATIO
                 else Ratio128.multiply_ratio (amount payment) (issued supply) bonded_);
      bonded' ← uint128_add bonded_ (amount payment);
      issued' ← uint128_add (issued supply) to_mint;
      _ ← on_singleton KEY_TOTAL_SUPPLY (SingletonOps.save (mkSupply issued' bonded' (claims supply)));
      _ ← on_bucket PREFIX_BALANCE (update_bucket sender_raw (add_to to_mint));
      mret (add_message (MsgStaking (Delegate (validator invest) payment))
        (add_attribute "minted" (pretty to_mint) (add_attribute "bonded" (pretty (amount payment))
        (add_attribute "from" (sender info) (add_attribute "action" "bond" Response_new)))))
  end.

Definition unbond (env : Env) (info : MessageInfo) (amount : Z) : DEPS Response :=
  invest ← read_singleton KEY_INVESTMENT;
  if amount <? min_withdrawal invest then
    throw (StdGenericErr ("Must unbond at least " +:+ pretty (min_withdrawal invest) +:+ " " +:+ bond_denom invest))
  else
    sender_raw ← of_sum (addr_canonicalize (sender info));
    owner_raw ← of_sum (addr_canonicalize (owner invest));
    tax ← Decimal.mul_uint amount (exit_tax invest);
    _ ← on_bucket PREFIX_BALANCE (update_bucket sender_raw (take_from amount));
    _ ← (if 0 <? tax then on_bucket PREFIX_BALANCE (update_bucket owner_raw (add_to tax)) else mret tt);
    bonded_ ← get_bonded (ci_address (contract env));
    remainder ← or_overflow (checked_sub amount tax);
    supply ← on_singleton KEY_TOTAL_SUPPLY (self ← get; of_sum (SingletonOps.load self));
    _ ← assert_bonds supply bonded_;
    unbond ← Ratio128.multiply_ratio remainder bonded_ (issued supply);
    bonded' ← or_overflow (checked_sub bonded_ unbond);
    issued' ← or_overflow (checked_sub (issued supply) remainder);
    claims' ← uint128_add (claims supply) unbond;
    _ ← on_singleton KEY_TOTAL_SUPPLY (SingletonOps.save (mkSupply issued' bonded' claims'));
    _ ← on_bucket PREFIX_CLAIMS (update_bucket sender_raw (add_to unbond));
    mret (add_message (MsgStaking (Undelegate (validator invest) (coin unbond (bond_denom invest))))
      (add_attribute "burnt" (pretty amount) (add_attribute "unbonded" (pretty unbond)
      (add_attribute "to" (sender info) (add_attribute "action" "unbond" Response_new))))).

(** The part of a claim that is paid, and what stays of it. *)
Definition pay_claim {S} (to_send : Z) (claim : option Z) : M StdError S (Z * Z) :=
  match claim with
  | None => throw (StdGenericErr "no claim for this address")
  | Some claim =>
      let to_send := Z.min to_send claim in
      rest ← or_overflow (checked_sub claim to_send); mret (to_send, rest)
  end.

Definition claim (env : Env) (info : MessageInfo) : DEPS Response :=
  invest ← read_singleton KEY_INVESTMENT;
  balance ← of_sum (StdQueries.query_balance raw_query (ci_address (contract env)) (bond_denom invest));
  if amount balance <? min_withdrawal invest then
    throw (StdGenericErr "Insufficient balance in contract to process claim")
  else
    sender_raw ← of_sum (addr_canonicalize (sender info));
    to_send ← on_bucket PREFIX_CLAIMS (update_bucket sender_raw (pay_claim (amount balance)));
    _ ← on_singleton KEY_TOTAL_SUPPLY (update_singleton (λ supply,
          claims' ← or_overflow (checked_sub (claims supply) to_send);
          mret (tt, mkSupply (issued supply) (bonded supply) claims')));
    mret (add_message (MsgBank (BankSend (sender info) [mkCoin (denom balance) to_send]))
      (add_attribute "amount" (pretty to_send) (add_attribute "from" (sender info)
      (add_attribute "action" "claim" Response_new)))).

Definition reinvest (env : Env) (info : MessageInfo) : DEPS Response :=
  invest ← read_singleton KEY_INVESTMENT;
  msg ← of_sum (to_vec BondAllTokens);
  mret (add_message (MsgWasm (WasmExecute (ci_address (contract env)) msg []))
    (add_message (MsgDistribution (WithdrawDelegatorReward (validator invest))) Response_new)).

(** What is left of the balance after the claims is bonded. *)
Definition reserve {S} (balance : Z) (invest : InvestmentInfo) (supply : Supply) : M StdError S (Z * Supply) :=
  free ← or_overflow (checked_sub balance (claims supply));
  _ ← or_overflow (checked_sub free (min_withdrawal invest));
  bonded' ← uint128_add (bonded supply) free;
  mret (free, mkSupply (issued supply) bonded' (claims supply)).

Definition bond_all_tokens (env : Env) (info : MessageInfo) : M StakingError St Response :=
  if negb (String.eqb (sender info) (ci_address (contract env))) then throw Unauthorized
  else
    invest ← map_err Std (read_singleton KEY_INVESTMENT);
    balance ← map_err Std (of_sum (StdQueries.query_balance raw_query (ci_address (contract env)) (bond_denom invest)));
    r ← map_err Std (catch (on_singleton KEY_TOTAL_SUPPLY (update_singleton (reserve (amount balance) invest))));
    match r with
    | inl (StdOverflow _) => mret Response_new
    | inl e => throw (Std e)
    | inr free =>
        mret (add_message (MsgStaking (Delegate (validator invest) (mkCoin (denom balance) free)))
          (add_attribute "bonded" (pretty free) (add_attribute "action" "reinvest" Response_new)))
    end.

Definition execute (env : Env) (info : MessageInfo) (msg : ExecuteMsg) : M StakingError St Response :=
  match msg with
  | Transfer recipient amount => map_err Std (transfer env info recipient amount)
  | Bond => map_err Std (bond env info)
  | Unbond amount => map_err Std (unbond env info amount)
  | Claim => map_err Std (claim env info)
  | Reinvest => map_err Std (reinvest env info)
  | BondAllTokens => bond_all_tokens env info
  end.

(** ** Queries *)
Definition query_token_info : DEPS TokenInfoResponse :=
  t ← read_singleton KEY_TOKEN_INFO;
  mret (mkTokenInfoResponse (ti_name t) (ti_symbol t) (ti_decimals t)).
Definition query_balance (address : string) : DEPS BalanceResponse :=
  address_raw ← of_sum (addr_canonicalize address);
  balance ← read_bucket PREFIX_BALANCE address_raw;
  mret (mkBalanceResponse (default 0 balance)).
Definition query_claims (address : string) : DEPS ClaimsResponse :=
  address_raw ← of_sum (addr_canonicalize address);
  claims ← read_bucket PREFIX_CLAIMS address_raw;
  mret (mkClaimsResponse (default 0 claims)).
Definition query_investment : DEPS InvestmentResponse :=
  invest ← read_singleton KEY_INVESTMENT;
  supply ← read_singleton KEY_TOTAL_SUPPLY;
  value ← (if is_zero (issued supply) then mret FALLBACK_RATIO
           else Decimal.from_ratio (bonded supply) (issued supply));
  mret (mkInvestmentResponse (issued supply) (coin (bonded supply) (bond_denom invest)) value
          (owner invest) (exit_tax invest) (validator invest) (min_withdrawal invest)).
Definition query (env : Env) (msg : QueryMsg) : DEPS Binary :=
  match msg with
  | QTokenInfo => r ← query_token_info; of_sum (to_vec r)
  | QInvestment => r ← query_investment; of_sum (to_vec r)
  | QBalance address => r ← query_balance address; of_sum (to_vec r)
  | QClaims address => r ← query_claims address; of_sum (to_vec r)
  end.
End contract.
