(* ===== verification/StakingFacts.v ===== *)
(** * What the staking contract guarantees

    The storage of the contract as a ledger of balances and claims, and two theorems: the
    books always balance and the value of the token never falls, and whoever holds tokens
    can unbond them. *)

From S2P Require Import Prelude.
From S2P Require Import Bytes.
From S2P Require Import CwStd.
From S2P Require Import StdError.
From S2P Require Import Uint128.
From S2P Require Import UintCrate.
From S2P Require Import Ratio.
From S2P Require Decimal.
From S2P Require Import Storage.
From S2P Require Import Namespaces.
From S2P Require Import TypedStorage.
From S2P Require Import StdQueries.
From S2P Require Import Staking.

Open Scope Z_scope.

(** ** The ledger *)
Record Ledger := mkLedger {
  l_balances : gmap bytes Z;
  l_claims : gmap bytes Z;
  l_supply : Supply;
  l_invest : InvestmentInfo
}.
Inductive Table := Balances | Claims.
Definition prefix (t : Table) : bytes := match t with Balances => PREFIX_BALANCE | Claims => PREFIX_CLAIMS end.
Definition entries (t : Table) (l : Ledger) : gmap bytes Z :=
  match t with Balances => l_balances l | Claims => l_claims l end.
Definition set_entry (t : Table) (k : bytes) (v : Z) (l : Ledger) : Ledger :=
  match t with
  | Balances => mkLedger (<[k := v]> (l_balances l)) (l_claims l) (l_supply l) (l_invest l)
  | Claims => mkLedger (l_balances l) (<[k := v]> (l_claims l)) (l_supply l) (l_invest l)
  end.
Definition set_supply (s : Supply) (l : Ledger) : Ledger :=
  mkLedger (l_balances l) (l_claims l) s (l_invest l).

Definition total (m : gmap bytes Z) : Z := map_fold (λ _ v acc, v + acc) 0 m.
Definition held (t : Table) (k : bytes) (l : Ledger) : Z := default 0 (entries t l !! k).

Lemma total_insert m k v : total (<[k := v]> m) = total m - default 0 (m !! k) + v.
Proof.
  assert (∀ m v, m !! k = None → total (<[k := v]> m) = v + total m) as Hnew.
  { intros m' v' Hm. unfold total. rewrite map_fold_insert_L; [done|intros; lia|done]. }
  destruct (m !! k) as [w|] eqn:Hm; cbn [from_option id].
  - pose proof (Hnew (delete k m) v (lookup_delete_eq _ _)) as Hv.
    pose proof (Hnew (delete k m) w (lookup_delete_eq _ _)) as Hw.
    rewrite insert_delete_eq in Hv. rewrite insert_delete_id in Hw by done. lia.
  - rewrite Hnew by done. lia.
Qed.
Lemma table_total_nonneg m : map_Forall (λ _ v, 0 ≤ v) m → 0 ≤ total m.
Proof.
  induction m as [|k v m Hk IH] using map_ind; [done|]. intros [Hv Hm]%map_Forall_insert; [|done].
  rewrite total_insert, Hk. cbn. specialize (IH Hm). lia.
Qed.
Lemma total_ge m k : map_Forall (λ _ v, 0 ≤ v) m → default 0 (m !! k) ≤ total m.
Proof.
  intros Hm. destruct (m !! k) as [v|] eqn:Hk; cbn [from_option id]; [|by apply table_total_nonneg].
  pose proof (total_insert (delete k m) k v) as Ht. rewrite insert_delete_id, lookup_delete_eq in Ht by done.
  pose proof (table_total_nonneg (delete k m) ltac:(by apply map_Forall_delete)). cbn in Ht. cbn. lia.
Qed.

(** The books balance: tokens issued are tokens held, and the claims that are reserved
    are the claims of all accounts. *)
Definition u128 (z : Z) : Prop := in_width U128 z.
Record accounted (l : Ledger) : Prop := {
  ac_issued : total (l_balances l) = issued (l_supply l);
  ac_claims : total (l_claims l) = claims (l_supply l);
  ac_balances : map_Forall (λ _, u128) (l_balances l);
  ac_claimed : map_Forall (λ _, u128) (l_claims l);
  ac_supply : u128 (issued (l_supply l)) ∧ u128 (bonded (l_supply l)) ∧ u128 (claims (l_supply l));
  ac_invest : u128 (exit_tax (l_invest l)) ∧ 0 ≤ min_withdrawal (l_invest l)
}.
(** What a token is worth does not fall: [bonded / issued], as long as there are tokens. *)
Definition value_kept (l l' : Ledger) : Prop :=
  0 < issued (l_supply l) →
  bonded (l_supply l) * issued (l_supply l') ≤ bonded (l_supply l') * issued (l_supply l).

(** Bounds of numbers of 128 bits. *)
Ltac width := unfold u128, in_width in *; lia.

Lemma held_u128 t l k : accounted l → u128 (held t k l).
Proof.
  intros Hl. unfold held. destruct (entries t l !! k) as [v|] eqn:Hk; cbn [from_option id]; [|done].
  destruct t; [exact (ac_balances l Hl k v Hk)|exact (ac_claimed l Hl k v Hk)].
Qed.

(** ** Runs *)
Lemma or_overflow_Ok {S} r z (s s' : S) : or_overflow r s = (Ok z, s') → r = inr z ∧ s' = s.
Proof. destruct r; cbn; [intros [=]|intros [= -> ->]]. by split. Qed.
Lemma checked_sub_Ok a b z : checked_sub a b = inr z ↔ z = a - b ∧ u128 z.
Proof.
  unfold checked_sub, overflow. destruct (fits U128 (a - b)) as [x|] eqn:Hf.
  - apply fits_Some in Hf as [-> Hw]. unfold u128. naive_solver.
  - apply fits_None in Hf. unfold u128. naive_solver.
Qed.
Lemma uint128_add_Ok {E S} a b z (s s' : S) : (uint128_add a b : M E S Z) s = (Ok z, s') → z = a + b ∧ u128 z ∧ s' = s.
Proof.
  unfold uint128_add, expect. destruct (fits U128 (a + b)) as [x|] eqn:Hf; [|done].
  apply fits_Some in Hf as [-> Hw]. cbn. by intros [= <- <-].
Qed.
Lemma uint128_add_run {E S} a b (s : S) : u128 (a + b) → (uint128_add a b : M E S Z) s = (Ok (a + b), s).
Proof. intros H. unfold uint128_add, expect. by rewrite (proj2 (fits_Some U128 (a + b) _) (conj eq_refl H)). Qed.
Lemma checked_sub_run {S} a b (s : S) : u128 (a - b) → or_overflow (checked_sub a b) s = (Ok (a - b), s).
Proof. intros H. by rewrite (proj2 (checked_sub_Ok a b (a - b)) (conj eq_refl H)). Qed.

Lemma multiply_ratio_run `{!UintCrate U256, !UintCrateSpec U256} {E S} a n d (s : S) :
  u128 a → u128 n → u128 d → (Ratio128.multiply_ratio a n d : M E S Z) s = (exact_ratio U128 a n d, s).
Proof.
  intros Ha Hn Hd. unfold Ratio128.multiply_ratio. rewrite (bind_Ok _ _ _ _ _ (checked_128 a n d s Ha Hn Hd)).
  apply ratio_or_panic_ratio.
Qed.
Lemma multiply_ratio_Ok `{!UintCrate U256, !UintCrateSpec U256} {E S} a n d z (s s' : S) :
  u128 a → u128 n → u128 d → (Ratio128.multiply_ratio a n d : M E S Z) s = (Ok z, s') →
  z = a * n / d ∧ d ≠ 0 ∧ s' = s.
Proof.
  intros Ha Hn Hd. rewrite multiply_ratio_run by done. unfold exact_ratio.
  destruct (Z.eqb_spec d 0); [done|]. destruct (_ <? U128); [|done]. by intros [= <- <-].
Qed.
Lemma mul_uint_run `{!UintCrate U256, !UintCrateSpec U256} {E S} a x (s : S) :
  u128 a → u128 x →
  (Decimal.mul_uint a x : M E S Z) s =
  (exact_ratio U128 a x Decimal.DECIMAL_FRACTIONAL, s).
Proof.
  intros Ha Hx. unfold Decimal.mul_uint, Decimal.is_zero, is_zero.
  destruct (Z.eqb_spec a 0) as [->|]; [done|]. destruct (Z.eqb_spec x 0) as [->|]; cbn [orb].
  { unfold exact_ratio. by rewrite Z.mul_0_r. }
  by apply multiply_ratio_run.
Qed.

(** ** The storage holds a ledger *)
Section ledger.
Context `{!StorageTrait St, !StorageSpec St} `{!UintCrate U256, !UintCrateSpec U256}.
Context `{!Json Z, !JsonSpec Z, !Json InvestmentInfo, !Json Supply, !JsonSpec Supply}.
Hypothesis u128_to_vec : ∀ z, u128 z → ∃ b, to_vec z = inr b.
Hypothesis supply_to_vec : ∀ s : Supply, u128 (issued s) → u128 (bonded s) → u128 (claims s) → ∃ b, to_vec s = inr b.

Record holds (st : St) (l : Ledger) : Prop := {
  hd_ok : t_ok st;
  hd_entries t k : may_deserialize (t_get (lp (prefix t) ++ k) st) = inr (entries t l !! k);
  hd_supply : must_deserialize (t_get (lp KEY_TOTAL_SUPPLY) st) = inr (l_supply l);
  hd_invest : must_deserialize (t_get (lp KEY_INVESTMENT) st) = inr (l_invest l)
}.

Lemma short_keys : Forall short [PREFIX_BALANCE; PREFIX_CLAIMS; KEY_TOTAL_SUPPLY; KEY_INVESTMENT; KEY_TOKEN_INFO].
Proof. repeat constructor; by vm_compute. Qed.
Lemma short_prefix t : short (prefix t).
Proof. destruct t; by vm_compute. Qed.
(** The keys of the tables and the two singletons are different. *)
Lemma key_entry t t' k k' : lp (prefix t) ++ k = lp (prefix t') ++ k' → t = t' ∧ k = k'.
Proof.
  intros [Hp ->]%lp_inj; [|apply short_prefix..]. split; [|done]. by destruct t, t'; [|vm_compute in Hp..|].
Qed.
Lemma key_supply t k : lp (prefix t) ++ k ≠ lp KEY_TOTAL_SUPPLY.
Proof.
  rewrite <-(app_nil_r (lp KEY_TOTAL_SUPPLY)). intros [Hp _]%lp_inj; [|apply short_prefix|by vm_compute].
  by destruct t; vm_compute in Hp.
Qed.
Lemma key_invest t k : lp (prefix t) ++ k ≠ lp KEY_INVESTMENT.
Proof.
  rewrite <-(app_nil_r (lp KEY_INVESTMENT)). intros [Hp _]%lp_inj; [|apply short_prefix|by vm_compute].
  by destruct t; vm_compute in Hp.
Qed.
Lemma key_supply_invest : lp KEY_INVESTMENT ≠ lp KEY_TOTAL_SUPPLY.
Proof. by vm_compute. Qed.

Lemma invest_read st l : holds st l → read_singleton KEY_INVESTMENT st = (Ok (l_invest l), st).
Proof. intros Hl. rewrite read_singleton_run by (by vm_compute). by rewrite (hd_invest _ _ Hl). Qed.
Lemma supply_read st l :
  holds st l → on_singleton KEY_TOTAL_SUPPLY (self ← get; of_sum (SingletonOps.load self)) st = (Ok (l_supply l), st).
Proof.
  intros Hl. rewrite (on_singleton_run KEY_TOTAL_SUPPLY _ st (Ok (l_supply l)) (mkSingleton st (lp KEY_TOTAL_SUPPLY)));
    [done|by vm_compute|]. rewrite bind_get. unfold SingletonOps.load. cbn [sg_key sg_storage].
  by rewrite (hd_supply _ _ Hl).
Qed.

Lemma holds_set_supply st st' l s b :
  holds st l → to_vec s = inr b → t_ok st' →
  (∀ k, t_get k st' = if decide (k = lp KEY_TOTAL_SUPPLY) then Some b else t_get k st) →
  holds st' (set_supply s l).
Proof.
  intros [Hok He Hs Hi] Hb Hok' Hget. split; [done|..].
  - intros t k. rewrite Hget, decide_False by apply key_supply. rewrite He. by destruct t.
  - rewrite Hget, decide_True by done. cbn. by rewrite (proj1 (from_to s b Hb)).
  - rewrite Hget, decide_False by apply key_supply_invest. done.
Qed.
Lemma holds_set_entry t st st' l k v b :
  holds st l → to_vec v = inr b → t_ok st' →
  (∀ q, t_get q st' = if decide (q = lp (prefix t) ++ k) then Some b else t_get q st) →
  holds st' (set_entry t k v l).
Proof.
  intros [Hok He Hs Hi] Hb Hok' Hget. split; [done|..].
  - intros t' k'. rewrite Hget. destruct (decide (lp (prefix t') ++ k' = lp (prefix t) ++ k)) as [Heq|Hne].
    + apply key_entry in Heq as [-> ->]. cbn. rewrite (proj1 (from_to v b Hb)).
      destruct t; cbn; by rewrite lookup_insert_eq.
    + rewrite He. f_equal. destruct t, t'; cbn; try done; rewrite lookup_insert_ne; try done; by intros ->.
  - rewrite Hget, decide_False by (intros Heq; by apply (key_supply t k)). by destruct t.
  - rewrite Hget, decide_False by (intros Heq; by apply (key_invest t k)). by destruct t.
Qed.

Lemma supply_save st l s :
  holds st l → u128 (issued s) → u128 (bonded s) → u128 (claims s) →
  ∃ st', on_singleton KEY_TOTAL_SUPPLY (SingletonOps.save s) st = (Ok tt, st') ∧ holds st' (set_supply s l).
Proof.
  intros Hl H1 H2 H3. destruct (supply_to_vec s H1 H2 H3) as [b Hb]. destruct (from_to s b Hb) as [_ Hne].
  destruct (t_set_spec (E := StdError) (lp KEY_TOTAL_SUPPLY) b st (hd_ok _ _ Hl) Hne) as (st' & Hrun & Hok & Hget).
  exists st'. split; [|by eapply holds_set_supply].
  apply (on_singleton_run KEY_TOTAL_SUPPLY _ st (Ok tt) (mkSingleton st' (lp KEY_TOTAL_SUPPLY))); [by vm_compute|].
  unfold SingletonOps.save. rewrite Hb. cbn [of_sum]. rewrite bind_ret_l. unfold SingletonOps.on_storage.
  rewrite bind_get. unfold zoom. cbn [sg_storage sg_key]. by rewrite Hrun.
Qed.

(** [update] of a table, given what the action does. *)
Definition updated {X} (m : M StdError St X) (st : St) (r : outcome StdError X) (l' : Ledger) : Prop :=
  match r with
  | Ok x => ∃ st', m st = (Ok x, st') ∧ holds st' l'
  | _ => m st = (r, st)
  end.
Definition first {X Y} (r : outcome StdError (X * Y)) : outcome StdError X :=
  match r with Ok p => Ok p.1 | Err e => Err e | Panic p => Panic p | OutOfFuel => OutOfFuel end.
Definition second {X} (r : outcome StdError (X * Z)) (v : Z) : Z := match r with Ok p => p.2 | _ => v end.

Lemma table_update {X} t st l k (action : option Z → M StdError (Bucket St) (X * Z)) r :
  holds st l → (∀ s, action (entries t l !! k) s = (r, s)) → u128 (second r 0) →
  updated (on_bucket (prefix t) (update_bucket k action)) st (first r) (set_entry t k (second r 0) l).
Proof.
  intros Hl Ha Hw.
  assert (∀ r' self', update_bucket k action (mkBucket st (lp (prefix t))) = (r', self') →
    on_bucket (prefix t) (update_bucket k action) st = (r', bk_storage self')) as Hrun
    by (intros r' self'; apply on_bucket_run; apply short_prefix).
  assert (BucketOps.may_load k (mkBucket st (lp (prefix t))) = inr (entries t l !! k)) as Hload
    by exact (hd_entries _ _ Hl t k).
  unfold update_bucket in Hrun |- *. rewrite bind_assoc, bind_get, Hload in Hrun. cbn [of_sum] in Hrun.
  rewrite bind_ret_l in Hrun. destruct r as [[x v]|e|p|]; cbn [first second updated] in *.
  2-4: apply (Hrun _ (mkBucket st (lp (prefix t)))); unfold mbind, M_bind; rewrite Ha; done.
  destruct (u128_to_vec v Hw) as [b Hb].
  destruct (bucket_save_run (mkBucket st (lp (prefix t))) k v b (hd_ok _ _ Hl) Hb) as (self' & Hsave & Hok & _ & Hget).
  exists (bk_storage self'). split; [|by eapply holds_set_entry]. apply Hrun.
  by rewrite (bind_Ok _ _ _ _ _ (Ha _)), (bind_Ok _ _ _ _ _ Hsave).
Qed.

Lemma add_to_run {S} n b (s : S) :
  add_to n b s = (match fits U128 (default 0 b + n) with Some z => Ok (tt, z) | None => Panic "attempt to add with overflow" end, s).
Proof. unfold add_to, uint128_add, expect. by destruct (fits U128 (default 0 b + n)). Qed.
Lemma take_from_run {S} n b (s : S) :
  take_from n b s = (match checked_sub (default 0 b) n with inr z => Ok (tt, z) | inl e => Err (StdOverflow e) end, s).
Proof. unfold take_from. by destruct (checked_sub (default 0 b) n). Qed.

Lemma table_add t st l k n :
  holds st l → u128 (held t k l + n) →
  ∃ st', on_bucket (prefix t) (update_bucket k (add_to n)) st = (Ok tt, st') ∧
    holds st' (set_entry t k (held t k l + n) l).
Proof.
  intros Hl Hw. apply (table_update t st l k (add_to n) (Ok (tt, held t k l + n)) Hl); [|done].
  intros s. rewrite add_to_run. unfold held in Hw. by rewrite (proj2 (fits_Some _ _ _) (conj eq_refl Hw)).
Qed.
Lemma table_add_Ok t st st' l k n u :
  holds st l → on_bucket (prefix t) (update_bucket k (add_to n)) st = (Ok u, st') →
  u128 (held t k l + n) ∧ holds st' (set_entry t k (held t k l + n) l).
Proof.
  intros Hl Hrun. destruct (fits U128 (held t k l + n)) as [z|] eqn:Hf.
  - apply fits_Some in Hf as [-> Hw]. destruct (table_add t st l k n Hl Hw) as (st1 & H1 & Hl1).
    rewrite H1 in Hrun. injection Hrun as <- <-. done.
  - pose proof (table_update t st l k (add_to n) (Panic "attempt to add with overflow") Hl) as H.
    cbn in H. rewrite H in Hrun; [done| |done]. intros s. rewrite add_to_run. unfold held in Hf. by rewrite Hf.
Qed.
Lemma table_take t st l k n :
  holds st l → u128 (held t k l - n) →
  ∃ st', on_bucket (prefix t) (update_bucket k (take_from n)) st = (Ok tt, st') ∧
    holds st' (set_entry t k (held t k l - n) l).
Proof.
  intros Hl Hw. apply (table_update t st l k (take_from n) (Ok (tt, held t k l - n)) Hl); [|done].
  intros s. rewrite take_from_run. unfold held in Hw. by rewrite (proj2 (checked_sub_Ok _ _ _) (conj eq_refl Hw)).
Qed.
Lemma table_take_Ok t st st' l k n u :
  holds st l → on_bucket (prefix t) (update_bucket k (take_from n)) st = (Ok u, st') →
  u128 (held t k l - n) ∧ holds st' (set_entry t k (held t k l - n) l).
Proof.
  intros Hl Hrun. destruct (checked_sub (held t k l) n) as [e|z] eqn:Hc.
  - pose proof (table_update t st l k (take_from n) (Err (StdOverflow e)) Hl) as H.
    cbn in H. rewrite H in Hrun; [done| |done]. intros s. rewrite take_from_run. unfold held in Hc. by rewrite Hc.
  - apply checked_sub_Ok in Hc as [-> Hw]. destruct (table_take t st l k n Hl Hw) as (st1 & H1 & Hl1).
    rewrite H1 in Hrun. injection Hrun as <- <-. done.
Qed.

Lemma supply_update {X} st l (action : Supply → M StdError (Singleton St) (X * Supply)) r :
  holds st l → (∀ s, action (l_supply l) s = (r, s)) →
  (∀ x s, r = Ok (x, s) → u128 (issued s) ∧ u128 (bonded s) ∧ u128 (claims s)) →
  match r with
  | Ok (x, s) => ∃ st', on_singleton KEY_TOTAL_SUPPLY (update_singleton action) st = (Ok x, st') ∧ holds st' (set_supply s l)
  | _ => on_singleton KEY_TOTAL_SUPPLY (update_singleton action) st = (first r, st)
  end.
Proof.
  intros Hl Ha Hw.
  assert (∀ r' self', update_singleton action (mkSingleton st (lp KEY_TOTAL_SUPPLY)) = (r', self') →
    on_singleton KEY_TOTAL_SUPPLY (update_singleton action) st = (r', sg_storage self')) as Hrun
    by (intros r' self'; apply on_singleton_run; by vm_compute).
  unfold update_singleton in Hrun |- *. rewrite bind_assoc, bind_get in Hrun. unfold SingletonOps.load in Hrun at 1.
  cbn [sg_key sg_storage] in Hrun. rewrite (hd_supply _ _ Hl) in Hrun. cbn [of_sum] in Hrun. rewrite bind_ret_l in Hrun.
  destruct r as [[x s]|e|p|]; cbn [first].
  2-4: apply (Hrun _ (mkSingleton st (lp KEY_TOTAL_SUPPLY))); unfold mbind, M_bind; rewrite Ha; done.
  destruct (Hw x s eq_refl) as (H1 & H2 & H3). destruct (supply_to_vec s H1 H2 H3) as [b Hb].
  destruct (from_to s b Hb) as [_ Hne].
  destruct (t_set_spec (E := StdError) (lp KEY_TOTAL_SUPPLY) b st (hd_ok _ _ Hl) Hne) as (st' & Hset & Hok & Hget).
  exists st'. split; [|by eapply holds_set_supply].
  apply (Hrun _ (mkSingleton st' (lp KEY_TOTAL_SUPPLY))). rewrite (bind_Ok _ _ _ _ _ (Ha _)). cbn [fst snd].
  unfold SingletonOps.save. rewrite Hb. cbn [of_sum]. rewrite bind_assoc, bind_ret_l. unfold SingletonOps.on_storage.
  rewrite bind_assoc, bind_get. unfold mbind, M_bind, zoom. cbn [sg_storage sg_key]. by rewrite Hset.
Qed.

(** ** Entry points that return keep the books *)
Definition kept (st' : St) (l : Ledger) : Prop :=
  ∃ l', holds st' l' ∧ accounted l' ∧ l_invest l' = l_invest l ∧ value_kept l l'.

Lemma value_kept_same l l' : l_supply l' = l_supply l → value_kept l l'.
Proof. intros Hs _. by rewrite Hs, Z.mul_comm. Qed.
Lemma kept_refl st l : holds st l → accounted l → kept st l.
Proof. intros. exists l. split_and!; [done..|]. by apply value_kept_same. Qed.

Context (addr_canonicalize : string → StdError + Binary) (raw_query : bytes → QuerierResult).
Context `{!Json (Full.QueryRequest unit), !Json AllDelegationsResponse, !Json CwStd.BalanceResponse, !Json ExecuteMsg}.

Lemma transfer_kept env info recipient n st st' l r :
  holds st l → accounted l →
  transfer addr_canonicalize env info recipient n st = (Ok r, st') → kept st' l.
Proof.
  intros Hl Ha Hrun. unfold transfer in Hrun.
  apply bind_Ok_inv in Hrun as (rcpt & s1 & [_ ->]%of_sum_Ok & Hrun).
  apply bind_Ok_inv in Hrun as (from & s2 & [_ ->]%of_sum_Ok & Hrun).
  apply bind_Ok_inv in Hrun as (u1 & s3 & Htake & Hrun).
  destruct (table_take_Ok Balances _ _ l from n u1 Hl Htake) as [Hw1 Hl1].
  apply bind_Ok_inv in Hrun as (u2 & s4 & Hadd & Hrun).
  destruct (table_add_Ok Balances _ _ _ rcpt n u2 Hl1 Hadd) as [Hw2 Hl2].
  injection Hrun as _ <-. eexists. split; [exact Hl2|]. split; [|split; [done|by apply value_kept_same]].
  destruct Ha as [H1 H2 H3 H4 H5 H6]. split; cbn [set_entry l_balances l_claims l_supply l_invest] in *; try done.
  - rewrite !total_insert. unfold held, entries in *. cbn [set_entry l_balances] in *. lia.
  - apply map_Forall_insert_2; [exact Hw2|]. by apply map_Forall_insert_2.
Qed.

Lemma get_bonded_Ok {S} addr b (s s' : S) : get_bonded raw_query addr s = (Ok b, s') → u128 b ∧ s' = s.
Proof.
  unfold get_bonded. intros (bonds & s1 & [_ ->]%of_sum_Ok & Hrun)%bind_Ok_inv.
  destruct bonds as [|d bonds]; [by injection Hrun as <- <-|]. generalize dependent (d :: bonds). clear bonds. intros bonds.
  assert (∀ bonds racc, (∀ a, racc = inr a → u128 a) → sum_bonds (denom (d_amount d)) bonds racc s = (Ok b, s') →
    u128 b ∧ s' = s) as Hsum; [|apply Hsum; by intros a [= <-]].
  clear bonds. intros bonds. induction bonds as [|d' bonds IH]; intros racc Hacc; cbn [sum_bonds].
  - intros [Hr ->]%of_sum_Ok. split; [by apply Hacc|done].
  - destruct racc as [e|a]; [apply IH; by intros a|]. destruct (negb _); [apply IH; by intros a'|].
    intros (a' & s1 & (_ & Hw & ->)%uint128_add_Ok & Hrun)%bind_Ok_inv. apply (IH (inr a')); [|done]. by intros ? [= <-].
Qed.
Lemma assert_bonds_Ok {S} supply b u (s s' : S) : assert_bonds supply b s = (Ok u, s') → bonded supply = b ∧ s' = s.
Proof.
  unfold assert_bonds. destruct (Z.eqb_spec (bonded supply) b) as [->|]; cbn; [by intros [= _ <-]|done].
Qed.

Lemma bond_kept env info st st' l r :
  holds st l → accounted l → Forall (λ c, u128 (amount c)) (funds info) →
  bond addr_canonicalize raw_query env info st = (Ok r, st') → kept st' l.
Proof.
  intros Hl Ha Hfunds Hrun. unfold bond in Hrun.
  apply bind_Ok_inv in Hrun as (from & s1 & [_ ->]%of_sum_Ok & Hrun).
  rewrite (bind_Ok _ _ _ _ _ (invest_read st l Hl)) in Hrun.
  destruct (find_first _ (funds info)) as [payment|] eqn:Hfind; [|done].
  assert (u128 (amount payment)) as Hpay.
  { apply List.find_some in Hfind as [Hin _]. rewrite Forall_forall in Hfunds. apply Hfunds. by apply list_elem_of_In. }
  apply bind_Ok_inv in Hrun as (b & s2 & [Hb ->]%get_bonded_Ok & Hrun).
  rewrite (bind_Ok _ _ _ _ _ (supply_read st l Hl)) in Hrun.
  apply bind_Ok_inv in Hrun as (u & s3 & [Hsb ->]%assert_bonds_Ok & Hrun).
  apply bind_Ok_inv in Hrun as (mint & s4 & Hmint & Hrun).
  assert (s4 = st ∧ (0 < issued (l_supply l) → b * mint ≤ amount payment * issued (l_supply l))) as [-> Hvalue].
  { unfold is_zero in Hmint. destruct Ha as [_ _ _ _ (Hi & _ & _) _].
    destruct (Z.eqb_spec (issued (l_supply l)) 0) as [Hi0|Hi0], (Z.eqb_spec b 0) as [Hb0|Hb0]; cbn [orb] in Hmint.
    1-3: rewrite mul_uint_run in Hmint by done; injection Hmint as _ <-; split; [done|];
      unfold u128, in_width in *; nia.
    apply multiply_ratio_Ok in Hmint as (-> & _ & ->); [|done..]. split; [done|]. intros Hpos.
    apply Z.mul_div_le. unfold u128, in_width in Hb. lia. }
  apply bind_Ok_inv in Hrun as (b' & s5 & (-> & Hb' & ->)%uint128_add_Ok & Hrun).
  apply bind_Ok_inv in Hrun as (i' & s6 & (-> & Hi' & ->)%uint128_add_Ok & Hrun).
  destruct (ac_supply l Ha) as (Hi & _ & Hc).
  destruct (supply_save st l (mkSupply (issued (l_supply l) + mint) (b + amount payment) (claims (l_supply l))) Hl Hi' Hb' Hc)
    as (s7 & Hsave & Hl7). rewrite (bind_Ok _ _ _ _ _ Hsave) in Hrun.
  apply bind_Ok_inv in Hrun as (u2 & s8 & Hadd & Hrun).
  destruct (table_add_Ok Balances _ _ _ from mint u2 Hl7 Hadd) as [Hw Hl8]. injection Hrun as _ <-.
  eexists. split; [exact Hl8|]. split; [|split; [done|]].
  - destruct Ha as [H1 H2 H3 H4 H5 H6]. split; cbn [set_entry set_supply l_balances l_claims l_supply l_invest issued claims bonded] in *;
      try done; [|by apply map_Forall_insert_2].
    rewrite total_insert. unfold held, entries. cbn [set_supply l_balances]. lia.
  - intros Hpos. cbn [set_entry set_supply l_supply issued bonded]. rewrite Hsb. specialize (Hvalue Hpos). nia.
Qed.

(** The tax is credited, unless it is zero. *)
Lemma give_tax_Ok st st' l own tax u :
  holds st l → map_Forall (λ _, u128) (l_balances l) → 0 ≤ tax →
  (if 0 <? tax then on_bucket PREFIX_BALANCE (update_bucket own (add_to tax)) else mret tt) st = (Ok u, st') →
  ∃ l', holds st' l' ∧ total (l_balances l') = total (l_balances l) + tax ∧ map_Forall (λ _, u128) (l_balances l') ∧
    l_claims l' = l_claims l ∧ l_supply l' = l_supply l ∧ l_invest l' = l_invest l.
Proof.
  intros Hl Hw Htax Hrun. destruct (Z.ltb_spec 0 tax) as [Hpos|Hzero].
  - destruct (table_add_Ok Balances _ _ l own tax u Hl Hrun) as [Hw' Hl']. eexists. split; [exact Hl'|].
    split_and!; [|by apply map_Forall_insert_2|done..].
    cbn [set_entry l_balances]. rewrite total_insert. unfold held, entries. lia.
  - injection Hrun as _ <-. exists l. split_and!; [done|lia|done..].
Qed.

Lemma unbond_kept env info n st st' l r :
  holds st l → accounted l → u128 n →
  unbond addr_canonicalize raw_query env info n st = (Ok r, st') → kept st' l.
Proof.
  intros Hl Ha Hn Hrun. unfold unbond in Hrun. rewrite (bind_Ok _ _ _ _ _ (invest_read st l Hl)) in Hrun.
  destruct (n <? min_withdrawal (l_invest l)); [done|].
  apply bind_Ok_inv in Hrun as (from & s1 & [_ ->]%of_sum_Ok & Hrun).
  apply bind_Ok_inv in Hrun as (own & s2 & [_ ->]%of_sum_Ok & Hrun).
  destruct (ac_invest l Ha) as [Htax _]. apply bind_Ok_inv in Hrun as (tax & s3 & Hmul & Hrun).
  rewrite mul_uint_run in Hmul by done. unfold exact_ratio in Hmul. cbn [Z.eqb] in Hmul.
  destruct (_ <? U128) in Hmul; [|done]. injection Hmul as Htaxv <-.
  assert (0 ≤ tax) as Htax0 by (subst tax; apply Z.div_pos; [unfold u128, in_width in *; nia|done]).
  apply bind_Ok_inv in Hrun as (u1 & s4 & Htake & Hrun).
  destruct (table_take_Ok Balances _ _ l from n u1 Hl Htake) as [Hw1 Hl1].
  set (l1 := set_entry Balances from (held Balances from l - n) l) in *.
  apply bind_Ok_inv in Hrun as (u2 & s5 & Hgive & Hrun).
  assert (map_Forall (λ _, u128) (l_balances l1)) as Hwl1 by (apply map_Forall_insert_2; [done|apply Ha]).
  destruct (give_tax_Ok _ _ l1 own tax u2 Hl1 Hwl1 Htax0 Hgive) as (l2 & Hl2 & Ht2 & Hw2 & Hc2 & Hs2 & Hi2).
  change (l_claims l2 = l_claims l) in Hc2. change (l_supply l2 = l_supply l) in Hs2. change (l_invest l2 = l_invest l) in Hi2.
  apply bind_Ok_inv in Hrun as (b & s6 & [Hb ->]%get_bonded_Ok & Hrun).
  apply bind_Ok_inv in Hrun as (rest & s7 & [[-> Hrest]%checked_sub_Ok ->]%or_overflow_Ok & Hrun).
  rewrite (bind_Ok _ _ _ _ _ (supply_read s5 l2 Hl2)), Hs2 in Hrun.
  apply bind_Ok_inv in Hrun as (u & s8 & [Hsb ->]%assert_bonds_Ok & Hrun).
  destruct (ac_supply l Ha) as (Hi & _ & Hc).
  apply bind_Ok_inv in Hrun as (out & s9 & (-> & Hi0 & ->)%multiply_ratio_Ok & Hrun); [|done..].
  apply bind_Ok_inv in Hrun as (b' & s10 & [[-> Hb']%checked_sub_Ok ->]%or_overflow_Ok & Hrun).
  apply bind_Ok_inv in Hrun as (i' & s11 & [[-> Hi']%checked_sub_Ok ->]%or_overflow_Ok & Hrun).
  apply bind_Ok_inv in Hrun as (c' & s12 & (-> & Hc' & ->)%uint128_add_Ok & Hrun).
  set (out := (n - tax) * b / issued (l_supply l)) in *.
  destruct (supply_save s5 l2 (mkSupply (issued (l_supply l) - (n - tax)) (b - out) (claims (l_supply l) + out)) Hl2 Hi' Hb' Hc')
    as (s13 & Hsave & Hl13). rewrite (bind_Ok _ _ _ _ _ Hsave) in Hrun.
  apply bind_Ok_inv in Hrun as (u3 & s14 & Hadd & Hrun).
  destruct (table_add_Ok Claims _ _ _ from out u3 Hl13 Hadd) as [Hw Hl14]. injection Hrun as _ <-.
  eexists. split; [exact Hl14|]. split; [|split; [exact Hi2|]].
  - destruct Ha as [H1 H2 H3 H4 H5 H6]. split; cbn [set_entry set_supply l_balances l_claims l_supply l_invest issued claims bonded] in *;
      try done.
    + rewrite Ht2. unfold l1. cbn [set_entry l_balances]. rewrite total_insert. unfold held, entries. lia.
    + rewrite total_insert. unfold held, entries. cbn [set_supply l_claims]. rewrite Hc2. lia.
    + apply map_Forall_insert_2; [done|]. by rewrite Hc2.
    + by rewrite Hi2.
  - intros Hpos. cbn [set_entry set_supply l_supply issued bonded]. rewrite Hsb.
    pose proof (Z.mul_div_le ((n - tax) * b) (issued (l_supply l)) Hpos) as Hle. fold out in Hle. nia.
Qed.

Lemma claim_kept env info st st' l r :
  holds st l → accounted l → claim addr_canonicalize raw_query env info st = (Ok r, st') → kept st' l.
Proof.
  intros Hl Ha Hrun. unfold claim in Hrun. rewrite (bind_Ok _ _ _ _ _ (invest_read st l Hl)) in Hrun.
  apply bind_Ok_inv in Hrun as (balance & s1 & [_ ->]%of_sum_Ok & Hrun).
  destruct (amount balance <? min_withdrawal (l_invest l)); [done|].
  apply bind_Ok_inv in Hrun as (from & s2 & [_ ->]%of_sum_Ok & Hrun).
  apply bind_Ok_inv in Hrun as (sent & s3 & Hpay & Hrun).
  assert (u128 (held Claims from l - sent) ∧ holds s3 (set_entry Claims from (held Claims from l - sent) l)) as [Hw Hl3].
  { destruct (l_claims l !! from) as [c|] eqn:Hc.
    - set (m := Z.min (amount balance) c).
      destruct (checked_sub c m) as [e|rest] eqn:Hsub.
      + pose proof (table_update Claims st l from (pay_claim (amount balance)) (Err (StdOverflow e)) Hl) as H.
        cbn [first updated prefix] in H. rewrite H in Hpay; [done| |done]. intros s. cbn [entries]. rewrite Hc. cbn. fold m. by rewrite Hsub.
      + apply checked_sub_Ok in Hsub as [-> Hw].
        destruct (table_update Claims st l from (pay_claim (amount balance)) (Ok (m, c - m)) Hl) as (s' & H & Hl'); [|done|].
        { intros s. cbn [entries]. rewrite Hc. cbn. fold m. by rewrite (proj2 (checked_sub_Ok c m (c - m)) (conj eq_refl Hw)). }
        cbn [first fst snd second prefix] in H, Hl'. rewrite H in Hpay. injection Hpay as <- <-.
        unfold held. cbn [entries]. rewrite Hc. done.
    - pose proof (table_update Claims st l from (pay_claim (amount balance))
        (Err (StdGenericErr "no claim for this address")) Hl) as H.
      cbn [first updated prefix] in H. rewrite H in Hpay; [done| |done]. intros s. cbn [entries]. by rewrite Hc. }
  apply bind_Ok_inv in Hrun as (u & s4 & Hupd & Hrun). injection Hrun as _ <-. destruct (ac_supply l Ha) as (Hi & Hb & _).
  set (l3 := set_entry Claims from (held Claims from l - sent) l) in *.
  pose proof (supply_update s3 l3 (λ supply, claims' ← or_overflow (checked_sub (claims supply) sent);
    mret (tt, mkSupply (issued supply) (bonded supply) claims'))) as Hsup.
  destruct (checked_sub (claims (l_supply l)) sent) as [e|c'] eqn:Hsub.
  - specialize (Hsup (Err (StdOverflow e)) Hl3). cbn [first] in Hsup. rewrite Hsup in Hupd; [done| |done].
    intros s. cbn [l3 set_entry l_supply]. by rewrite Hsub.
  - pose proof Hsub as [-> Hc']%checked_sub_Ok.
    destruct (Hsup (Ok (tt, mkSupply (issued (l_supply l)) (bonded (l_supply l)) (claims (l_supply l) - sent))) Hl3)
      as (s' & H & Hl4).
    { intros s. cbn [l3 set_entry l_supply]. by rewrite Hsub. }
    { by intros x s [= _ <-]. }
    rewrite H in Hupd. injection Hupd as _ <-. eexists. split; [exact Hl4|]. split; [|split; [done|]].
    + destruct Ha as [H1 H2 H3 H4 H5 H6].
      split; cbn [l3 set_entry set_supply l_balances l_claims l_supply l_invest issued claims bonded]; try done.
      * rewrite total_insert. unfold held. cbn [entries]. lia.
      * by apply map_Forall_insert_2.
    + intros Hpos. cbn. by rewrite Z.mul_comm.
Qed.

Lemma bond_all_kept env info st st' l r :
  holds st l → accounted l → bond_all_tokens raw_query env info st = (Ok r, st') → kept st' l.
Proof.
  intros Hl Ha Hrun. unfold bond_all_tokens in Hrun. destruct (negb _); [done|].
  rewrite (bind_Ok _ _ _ _ _ (map_err_Ok Std _ _ _ _ (invest_read st l Hl))) in Hrun.
  apply bind_Ok_inv in Hrun as (balance & s1 & Hbal & Hrun).
  assert (s1 = st) as -> by (unfold map_err in Hbal; destruct (StdQueries.query_balance _ _ _); [done|by injection Hbal]).
  apply bind_Ok_inv in Hrun as (out & s2 & Hupd & Hrun).
  destruct (ac_supply l Ha) as (Hi & Hb & Hc).
  assert (∃ ro, (∀ s, reserve (amount balance) (l_invest l) (l_supply l) s = (ro, s : Singleton St)) ∧
    (∀ x s, ro = Ok (x, s) → s = mkSupply (issued (l_supply l)) (bonded (l_supply l) + x) (claims (l_supply l)) ∧
      0 ≤ x ∧ u128 (bonded (l_supply l) + x))) as (ro & Hro & Hok).
  { unfold reserve. destruct (checked_sub (amount balance) (claims (l_supply l))) as [e|x] eqn:H1; [by exists (Err (StdOverflow e))|].
    destruct (checked_sub x (min_withdrawal (l_invest l))) as [e|y] eqn:H2; [exists (Err (StdOverflow e)); split; [intros s; cbn [or_overflow]; by rewrite bind_ret_l, H2|done]|].
    unfold uint128_add, expect. destruct (fits U128 (bonded (l_supply l) + x)) as [z|] eqn:Hf.
    - pose proof Hf as [-> Hw]%fits_Some. eexists. split; [intros s; cbn [or_overflow]; rewrite bind_ret_l, H2; cbn [or_overflow]; by rewrite bind_ret_l, Hf|].
      intros x' s' [= <- <-]. split_and!; [done| |done]. apply checked_sub_Ok in H1 as [_ [Hx _]]. done.
    - exists (Panic "attempt to add with overflow"). split; [intros s; cbn [or_overflow]; rewrite bind_ret_l, H2; cbn [or_overflow]; by rewrite bind_ret_l, Hf|done]. }
  pose proof (supply_update st l (reserve (amount balance) (l_invest l)) ro Hl Hro) as Hsup.
  unfold map_err, catch in Hupd.
  destruct ro as [[x s]|e|p|]; cbn [first] in Hsup.
  2: rewrite Hsup in Hupd by done; injection Hupd as <- <-; destruct e; try done; injection Hrun as _ <-; by apply kept_refl.
  2-3: by rewrite Hsup in Hupd by done.
  destruct (Hok x s eq_refl) as (-> & Hx & Hw). destruct Hsup as (s' & H & Hl').
  { by intros x' s' [= <- <-]. }
  rewrite H in Hupd. injection Hupd as <- <-. injection Hrun as _ <-. eexists. split; [exact Hl'|].
  split; [|split; [done|intros Hpos; cbn; unfold u128, in_width in *; nia]].
  destruct Ha as [H1 H2 H3 H4 H5 H6]. by split.
Qed.

Definition message_ok (info : MessageInfo) (msg : ExecuteMsg) : Prop :=
  Forall (λ c, u128 (amount c)) (funds info) ∧ match msg with Unbond n => u128 n | _ => True end.

(** C14: The books of the staking contract balance. Whatever message is executed, by
    whomever and whatever the chain answers to the queries: when it succeeds, the tokens
    issued are again the sum of all balances, and the native tokens reserved are the sum
    of all claims; the terms of the investment are as they were; and what a token is
    worth, bonded tokens per issued token, has not fallen, however the divisions
    rounded. *)
Theorem staking_books_balance env info msg st l r st' :
  holds st l → accounted l → message_ok info msg →
  execute addr_canonicalize raw_query env info msg st = (Ok r, st') →
  ∃ l', holds st' l' ∧ accounted l' ∧ l_invest l' = l_invest l ∧ value_kept l l'.
Proof.
  intros Hl Ha [Hfunds Hmsg] Hrun.
  assert (∀ m : M StdError St Response, map_err Std m st = (Ok r, st') → m st = (Ok r, st')) as Hstd.
  { intros m. unfold map_err. destruct (m st) as [[] ?]; naive_solver. }
  destruct msg as [rcpt n| |n| | |]; cbn [execute] in Hrun; try apply Hstd in Hrun.
  - by eapply transfer_kept.
  - by eapply bond_kept.
  - by eapply unbond_kept.
  - by eapply claim_kept.
  - unfold reinvest in Hrun. rewrite (bind_Ok _ _ _ _ _ (invest_read st l Hl)) in Hrun.
    apply bind_Ok_inv in Hrun as (b & s1 & [_ ->]%of_sum_Ok & Hrun). injection Hrun as _ <-. by apply kept_refl.
  - by eapply bond_all_kept.
Qed.

(** ** Whoever holds tokens can unbond them *)
Definition tax_of (l : Ledger) (n : Z) : Z := n * exit_tax (l_invest l) / Decimal.DECIMAL_FRACTIONAL.
Definition unbonded (l : Ledger) (n : Z) : Z := (n - tax_of l n) * bonded (l_supply l) / issued (l_supply l).

Lemma tax_bound l n : u128 n → 0 ≤ exit_tax (l_invest l) ≤ Decimal.one → 0 ≤ tax_of l n ≤ n.
Proof.
  intros [Hn _] [H0 H1]. unfold tax_of. change Decimal.one with Decimal.DECIMAL_FRACTIONAL in H1.
  assert (0 < Decimal.DECIMAL_FRACTIONAL) by done. split; [apply Z.div_pos; nia|]. apply Z.div_le_upper_bound; nia.
Qed.
Lemma unbonded_bound l n :
  0 ≤ n - tax_of l n ≤ issued (l_supply l) → 0 < issued (l_supply l) → 0 ≤ bonded (l_supply l) →
  0 ≤ unbonded l n ≤ bonded (l_supply l).
Proof. intros. unfold unbonded. split; [apply Z.div_pos; nia|]. apply Z.div_le_upper_bound; nia. Qed.

Lemma held_le t l k : accounted l → held t k l ≤ match t with Balances => issued (l_supply l) | Claims => claims (l_supply l) end.
Proof.
  intros Ha. assert (∀ m : gmap bytes Z, map_Forall (λ _, u128) m → map_Forall (λ _, Z.le 0) m) as Hnn.
  { intros m Hm k' v Hk. by apply (Hm k' v Hk). }
  destruct t; unfold held; cbn [entries]; [rewrite <-(ac_issued l Ha)|rewrite <-(ac_claims l Ha)]; apply total_ge, Hnn, Ha.
Qed.

(** Taking the tokens and crediting the tax. *)
Lemma pay_tax_run st l from own n :
  holds st l → accounted l → u128 n → n ≤ held Balances from l → 0 ≤ exit_tax (l_invest l) ≤ Decimal.one →
  ∃ st', (_ ← on_bucket PREFIX_BALANCE (update_bucket from (take_from n));
          (if 0 <? tax_of l n then on_bucket PREFIX_BALANCE (update_bucket own (add_to (tax_of l n))) else mret tt)) st
         = (Ok tt, st') ∧
    ∃ l', holds st' l' ∧ l_claims l' = l_claims l ∧ l_supply l' = l_supply l ∧ l_invest l' = l_invest l ∧
      (from ≠ own → held Balances from l' = held Balances from l - n ∧ held Balances own l' = held Balances own l + tax_of l n).
Proof.
  intros Hl Ha Hn Hle Htax. pose proof (tax_bound l n Hn Htax) as Ht. pose proof (held_u128 Balances l from Ha) as Hh.
  destruct (table_take Balances st l from n Hl) as (s1 & Hrun1 & Hl1); [width|].
  rewrite (bind_Ok _ _ _ _ _ Hrun1). set (l1 := set_entry Balances from (held Balances from l - n) l) in *.
  assert (held Balances own l1 + n ≤ issued (l_supply l) ∧ 0 ≤ held Balances own l1) as [Hroom Hpos].
  { assert (map_Forall (λ _, Z.le 0) (l_balances l1)) as Hnn.
    { apply map_Forall_insert_2; [width|]. intros k v Hk. by apply (ac_balances l Ha k v Hk). }
    split.
    - pose proof (total_ge _ own Hnn) as Hge. unfold held at 1. cbn [entries].
      assert (total (l_balances l1) = issued (l_supply l) - n) as Ht1; [|lia].
      unfold l1. cbn [set_entry l_balances]. rewrite total_insert, (ac_issued l Ha). unfold held. cbn [entries]. lia.
    - unfold held. cbn [entries]. destruct (l_balances l1 !! own) as [v|] eqn:Hk; [|done]. exact (Hnn own v Hk). }
  assert (held Balances from l1 = held Balances from l - n) as Hfrom.
  { unfold held at 1. cbn. by rewrite lookup_insert_eq. }
  assert (from ≠ own → held Balances own l1 = held Balances own l) as Hown.
  { intros Hne. unfold held. cbn. by rewrite lookup_insert_ne. }
  destruct (Z.ltb_spec 0 (tax_of l n)) as [Hp|Hz].
  - destruct (ac_supply l Ha) as ([_ Hi] & _ & _).
    destruct (table_add Balances s1 l1 own (tax_of l n) Hl1) as (s2 & Hrun2 & Hl2); [width|].
    exists s2. split; [exact Hrun2|]. eexists. split; [exact Hl2|]. split_and!; [done..|]. intros Hne. split.
    + unfold held at 1. cbn [set_entry entries l_balances]. rewrite lookup_insert_ne by done. exact Hfrom.
    + rewrite <-Hown by done. unfold held at 1. cbn [set_entry entries l_balances]. by rewrite lookup_insert_eq.
  - exists s1. split; [done|]. exists l1. split_and!; [done..|]. intros Hne. rewrite Hfrom, Hown by done. lia.
Qed.

(** C15: Whoever holds tokens of the staking contract can unbond them. If the chain
    reports the delegations the contract has on record, the exit tax is at most 100 %,
    and what is bonded and claimed together fits 128 bits, then any amount from the
    minimum up to the balance of the sender can be unbonded: no check fails, no
    operation overflows and no division is by zero. The contract asks the chain to
    undelegate the share of the bonded tokens that the amount less the tax represents,
    and the claim of the sender grows by it. *)
Theorem holders_can_unbond env info n st l from own :
  holds st l → accounted l →
  addr_canonicalize (sender info) = inr from → addr_canonicalize (owner (l_invest l)) = inr own →
  (∀ s : St, get_bonded raw_query (ci_address (contract env)) s = (Ok (bonded (l_supply l)), s)) →
  exit_tax (l_invest l) ≤ Decimal.one → claims (l_supply l) + bonded (l_supply l) < U128 →
  0 < n → min_withdrawal (l_invest l) ≤ n ≤ held Balances from l →
  ∃ r st' l', execute addr_canonicalize raw_query env info (Unbond n) st = (Ok r, st') ∧ holds st' l' ∧
    messages r = [SubMsg_new (MsgStaking (Undelegate (validator (l_invest l))
                    (coin (unbonded l n) (bond_denom (l_invest l)))))] ∧
    held Claims from l' = held Claims from l + unbonded l n ∧
    (from ≠ own → held Balances from l' = held Balances from l - n ∧ held Balances own l' = held Balances own l + tax_of l n).
Proof.
  intros Hl Ha Hfrom Hown Hbonded Htax Hroom Hn [Hmin Hle].
  destruct (ac_supply l Ha) as (Hi & Hb & Hc). destruct (ac_invest l Ha) as [[Htax0 Htaxw] _].
  pose proof (held_le Balances l from Ha) as Hissued. cbn in Hissued.
  assert (u128 n) as Hnw by width.
  pose proof (tax_bound l n Hnw (conj Htax0 Htax)) as Ht.
  pose proof (unbonded_bound l n ltac:(lia) ltac:(lia) (proj1 Hb)) as Hu.
  destruct (pay_tax_run st l from own n Hl Ha Hnw Hle (conj Htax0 Htax)) as (s2 & Hpay & l2 & Hl2 & Hc2 & Hs2 & Hi2 & Hbal).
  cbn [execute]. unfold unbond. unfold map_err. rewrite (bind_Ok _ _ _ _ _ (invest_read st l Hl)).
  rewrite (proj2 (Z.ltb_ge n (min_withdrawal (l_invest l))) Hmin), Hfrom, Hown. cbn [of_sum].
  rewrite !bind_ret_l. rewrite (bind_Ok _ _ _ (tax_of l n) st).
  2: { rewrite mul_uint_run by (first [done|split; done]). unfold exact_ratio. cbn [Z.eqb]. fold (tax_of l n).
       by rewrite (proj2 (Z.ltb_lt (tax_of l n) U128)) by width. }
  rewrite <-bind_assoc, (bind_Ok _ _ _ _ _ Hpay), (bind_Ok _ _ _ _ _ (Hbonded s2)).
  rewrite (bind_Ok _ _ _ _ _ (checked_sub_run n (tax_of l n) s2 ltac:(width))).
  rewrite (bind_Ok _ _ _ _ _ (supply_read s2 l2 Hl2)), Hs2. unfold assert_bonds. rewrite Z.eqb_refl. cbn [negb].
  rewrite bind_ret_l, (bind_Ok _ _ _ (unbonded l n) s2).
  2: { rewrite multiply_ratio_run by (first [done|width]). unfold exact_ratio.
       rewrite (proj2 (Z.eqb_neq (issued (l_supply l)) 0)) by lia. fold (unbonded l n).
       by rewrite (proj2 (Z.ltb_lt (unbonded l n) U128)) by width. }
  rewrite (bind_Ok _ _ _ _ _ (checked_sub_run (bonded (l_supply l)) (unbonded l n) s2 ltac:(width))).
  rewrite (bind_Ok _ _ _ _ _ (checked_sub_run (issued (l_supply l)) (n - tax_of l n) s2 ltac:(width))).
  rewrite (bind_Ok _ _ _ _ _ (uint128_add_run (claims (l_supply l)) (unbonded l n) s2 ltac:(width))).
  destruct (supply_save s2 l2 (mkSupply (issued (l_supply l) - (n - tax_of l n)) (bonded (l_supply l) - unbonded l n)
    (claims (l_supply l) + unbonded l n)) Hl2) as (s3 & Hsave & Hl3); [cbn; width..|].
  rewrite (bind_Ok _ _ _ _ _ Hsave).
  assert (held Claims from (set_supply (mkSupply (issued (l_supply l) - (n - tax_of l n)) (bonded (l_supply l) - unbonded l n)
    (claims (l_supply l) + unbonded l n)) l2) = held Claims from l) as Hcl by (unfold held; cbn; by rewrite Hc2).
  pose proof (held_le Claims l from Ha) as Hcle. pose proof (held_u128 Claims l from Ha) as Hcw. cbn in Hcle.
  destruct (table_add Claims s3 _ from (unbonded l n) Hl3) as (s4 & Hadd & Hl4); [rewrite Hcl; width|].
  rewrite (bind_Ok _ _ _ _ _ Hadd). eexists _, s4, _. split; [reflexivity|]. split; [exact Hl4|].
  split; [done|]. split; [|exact Hbal]. rewrite Hcl. unfold held at 1. cbn. by rewrite lookup_insert_eq.
Qed.
End ledger.
