(* ===== verification/Hackatom.v ===== *)
(** * The escrow and the burner ([cosmwasm/contracts/hackatom/src], [burner/src])

    [hackatom] keeps funds until its verifier releases them to the beneficiary; its other
    messages are failure modes for tests. [burner] is migrated to in order to delete a
    contract's storage and pay out its funds. *)

From S2P Require Import Prelude.
From S2P Require Import Bytes.
From S2P Require Import CwStd.
From S2P Require Import StdError.
From S2P Require Import Storage.
From S2P Require Import Namespaces.
From S2P Require Import TypedStorage.
From S2P Require Import StdQueries.

Open Scope Z_scope.

(** ** [burner] *)
Module Burner.
Record MigrateMsg := mkMigrateMsg { payout : string }.

Section contract.
Context `{StorageTrait St} (raw_query : bytes → QuerierResult).
Context `{!Json (Full.QueryRequest unit), !Json AllBalanceResponse}.

Definition instantiate (env : Env) (info : MessageInfo) : M StdError St Response :=
  throw (StdGenericErr "You can only use this contract for migrations").

Fixpoint remove_all (keys : list bytes) : M StdError St unit :=
  match keys with [] => mret tt | k :: keys => _ ← t_remove k; remove_all keys end.

Definition migrate (env : Env) (msg : MigrateMsg) : M StdError St Response :=
  records ← t_range None None Ascending;
  let keys := records.*1 in
  let count := length keys in
  _ ← remove_all keys;
  balance ← of_sum (query_all_balances raw_query (ci_address (contract env)));
  let data_msg := as_bytes ("burnt " +:+ pretty (Z.of_nat count) +:+ " keys") in
  mret (set_data data_msg (add_attribute "payout" (payout msg) (add_attribute "action" "burn"
    (add_message (MsgBank (BankSend (payout msg) balance)) Response_new)))).
End contract.

Section facts.
Context `{!StorageTrait St, !StorageSpec St} (raw_query : bytes → QuerierResult).
Context `{!Json (Full.QueryRequest unit), !Json AllBalanceResponse}.

Lemma remove_all_run keys st :
  t_ok st → ∃ st', remove_all keys st = (Ok tt, st') ∧ t_ok st' ∧
    ∀ k, t_get k st' = if decide (k ∈ keys) then None else t_get k st.
Proof.
  revert st. induction keys as [|k keys IH]; intros st Hok.
  { exists st. split_and!; [done..|]. intros k. by rewrite decide_False by apply not_elem_of_nil. }
  destruct (t_remove_spec (E := StdError) k st Hok) as (s1 & Hrun & Hok1 & Hget).
  destruct (IH s1 Hok1) as (s2 & Hrun2 & Hok2 & Hget2). exists s2. cbn [remove_all].
  rewrite (bind_Ok _ _ _ _ _ Hrun). split_and!; [done..|]. intros k'. rewrite Hget2, Hget.
  repeat case_decide; set_solver.
Qed.

(** [migrate] deletes every record and sends the whole balance to the payout address;
    if the balance cannot be queried it fails. *)
Lemma burner_burns_everything env msg st :
  t_ok st →
  ∃ st', (∀ k, t_get k st' = None) ∧
    match query_all_balances raw_query (ci_address (contract env)) with
    | inl e => migrate raw_query env msg st = (Err e, st')
    | inr balance => ∃ r, migrate raw_query env msg st = (Ok r, st') ∧
        messages r = [SubMsg_new (MsgBank (BankSend (payout msg) balance))]
    end.
Proof.
  intros Hok. destruct (t_range_spec (E := StdError) None None Ascending st Hok) as (l & Hl & _ & Hin).
  destruct (remove_all_run l.*1 st Hok) as (st' & Hrun & _ & Hget). exists st'. split.
  - intros k. rewrite Hget. case_decide as Hk; [done|]. destruct (t_get k st) as [v|] eqn:Hv; [|done].
    exfalso. apply Hk. apply list_elem_of_fmap. exists (k, v). split; [done|]. by apply Hin.
  - unfold migrate. rewrite (bind_Ok _ _ _ _ _ Hl). cbn zeta. rewrite (bind_Ok _ _ _ _ _ Hrun).
    destruct (query_all_balances raw_query (ci_address (contract env))) as [e|balance]; [done|]. eexists. by split.
Qed.
End facts.
End Burner.

(** ** [hackatom] *)
Module Hackatom.
Definition CONFIG_KEY : bytes := as_bytes "config".
Record State := mkState { verifier : Addr; beneficiary : Addr; funder : Addr }.

Inductive HackError := Std (e : StdError) | Unauthorized.

Record InstantiateMsg := mkInstantiateMsg { im_verifier : string; im_beneficiary : string }.
Record MigrateMsg := mkMigrateMsg { mm_verifier : string }.
Inductive SudoMsg := StealFunds (recipient : string) (amount : list Coin).
Inductive ExecuteMsg :=
| Release
| CpuLoop
| StorageLoop
| MemoryLoop
| MessageLoop
| AllocateLargeMemory (pages : Z)
| DoPanic
| UserErrorsInApiCalls.
Inductive QueryMsg :=
| QVerifier
| QOtherBalance (address : string)
| QRecurse (depth work : Z)
| QGetInt.
Record VerifierResponse := mkVerifierResponse { vr_verifier : string }.
Record RecurseResponse := mkRecurseResponse { rr_hashed : Binary }.
Record IntResponse := mkIntResponse { ir_int : Z }.

(** [deps.api], [Sha256::digest] and [memory_grow] of the machine: the old size in pages,
    or none. *)
Record Outside := mkOutside {
  addr_validate : string → StdError + Addr;
  addr_canonicalize : string → StdError + Binary;
  addr_humanize : Binary → StdError + Addr;
  show_error : StdError → string;
  sha256_digest : bytes → bytes;
  memory_grow : Z → option Z
}.

Section contract.
Context `{StorageTrait St} (o : Outside) (raw_query : bytes → QuerierResult).
Context `{!Json State, !Json ExecuteMsg, !Json QueryMsg, !Json VerifierResponse, !Json RecurseResponse, !Json IntResponse}.
Context `{!Json (Full.QueryRequest unit), !Json AllBalanceResponse}.
Abbreviation HACK := (M HackError St).

(** [?] on a [StdResult]. *)
Definition std {A} (r : StdError + A) : HACK A := match r with inr a => mret a | inl e => throw (Std e) end.

(** [deps.api.debug(..)] prints and is left out. *)
Definition instantiate (env : Env) (info : MessageInfo) (msg : InstantiateMsg) : HACK Response :=
  v ← std (addr_validate o (im_verifier msg));
  b ← std (addr_validate o (im_beneficiary msg));
  data ← std (to_vec (mkState v b (sender info)));
  _ ← t_set CONFIG_KEY data;
  mret (add_attribute "Let the" "hacking begin" Response_new).

(** [deps.storage.get(CONFIG_KEY)], or not found, and [from_slice]. *)
Definition load_state {E S} (storage : St) (from : StdError → E) : M E S State :=
  match t_get CONFIG_KEY storage with
  | None => throw (from (StdNotFound "State"))
  | Some data => match from_slice data with inr s => mret s | inl e => throw (from e) end
  end.

Definition migrate (env : Env) (msg : MigrateMsg) : HACK Response :=
  st ← get;
  config ← load_state st Std;
  v ← std (addr_validate o (mm_verifier msg));
  data ← std (to_vec (mkState v (beneficiary config) (funder config)));
  _ ← t_set CONFIG_KEY data;
  mret Response_new.

Definition sudo (env : Env) (msg : SudoMsg) : HACK Response :=
  match msg with
  | StealFunds recipient amount => mret (add_message (MsgBank (BankSend recipient amount)) Response_new)
  end.

Definition do_release (env : Env) (info : MessageInfo) : HACK Response :=
  st ← get;
  state ← load_state st Std;
  if String.eqb (sender info) (verifier state) then
    let to_addr := beneficiary state in
    balance ← std (query_all_balances raw_query (ci_address (contract env)));
    mret (set_data [Byte.xf0; Byte.x0b; Byte.xaa]
      (add_message (MsgBank (BankSend to_addr balance))
      (add_event (Event_add_attribute "action" "release" (Event_new "hackatom"))
      (add_attribute "destination" to_addr (add_attribute "action" "release" Response_new)))))
  else throw Unauthorized.

(** The loops of the failure modes have no exit: they run out of whatever fuel they get.
    Additions are checked. *)
Fixpoint cpu_loop (fuel : nat) (counter : Z) : HACK Response :=
  match fuel with
  | O => out_of_fuel
  | S fuel =>
      counter ← add_or_panic U64 counter 1;
      cpu_loop fuel (if 9000000000 <=? counter then 0 else counter)
  end.
Fixpoint storage_loop (fuel : nat) (test_case : Z) : HACK Response :=
  match fuel with
  | O => out_of_fuel
  | S fuel =>
      _ ← t_set (as_bytes "test.key") (as_bytes (pretty test_case));
      test_case ← add_or_panic U64 test_case 1;
      storage_loop fuel test_case
  end.
Fixpoint memory_loop (fuel : nat) (data : list Z) : HACK Response :=
  match fuel with
  | O => out_of_fuel
  | S fuel =>
      top ← unwrap "must not be empty" (last data);
      next ← add_or_panic U32 top 1;
      memory_loop fuel (data ++ [next])
  end.

Definition do_message_loop (env : Env) : HACK Response :=
  msg ← std (to_vec MessageLoop);
  mret (add_message (MsgWasm (WasmExecute (ci_address (contract env)) msg [])) Response_new).

Definition do_allocate_large_memory (pages : Z) : HACK Response :=
  match memory_grow o pages with
  | None => throw (Std (StdGenericErr "memory.grow failed"))
  | Some old_size => mret (set_data (be_bytes 4 old_size) Response_new)
  end.

Definition do_panic : HACK Response := panic "This page intentionally faulted".

(** A call must fail, and with a generic error. *)
Definition expect_generic {A} (r : StdError + A) : HACK unit :=
  match r with
  | inr _ => panic "called `Result::unwrap_err()` on an `Ok` value"
  | inl (StdGenericErr _) => mret tt
  | inl err => throw (Std (StdGenericErr ("Unexpected error in do_user_errors_in_api_calls: " +:+ show_error o err)))
  end.
Definition do_user_errors_in_api_calls : HACK Response :=
  _ ← expect_generic (addr_canonicalize o "");
  _ ← expect_generic (addr_canonicalize o
        "bn9hhssomeltvhzgvuqkwjkpwxojfuigltwedayzxljucefikuieillowaticksoistqoynmgcnj219a");
  _ ← expect_generic (addr_humanize o []);
  _ ← expect_generic (addr_humanize o [Byte.xaa; Byte.xbb; Byte.xcc]);
  _ ← expect_generic (addr_humanize o (replicate 17 Byte.xa6));
  mret Response_new.

Definition execute (fuel : nat) (env : Env) (info : MessageInfo) (msg : ExecuteMsg) : HACK Response :=
  match msg with
  | Release => do_release env info
  | CpuLoop => cpu_loop fuel 0
  | StorageLoop => storage_loop fuel 0
  | MemoryLoop => memory_loop fuel [1]
  | MessageLoop => do_message_loop env
  | AllocateLargeMemory pages => do_allocate_large_memory pages
  | DoPanic => do_panic
  | UserErrorsInApiCalls => do_user_errors_in_api_calls
  end.

(** ** Queries *)
Definition query_verifier : M StdError St VerifierResponse :=
  st ← get; state ← load_state st id; mret (mkVerifierResponse (verifier state)).
Definition query_other_balance (address : string) : M StdError St AllBalanceResponse :=
  amount ← of_sum (query_all_balances raw_query address); mret (mkAllBalanceResponse amount).
Definition query_recurse (depth work : Z) (contract_ : Addr) : M StdError St RecurseResponse :=
  let hashed := Nat.iter (Z.to_nat work) (sha256_digest o) (as_bytes contract_) in
  if depth =? 0 then mret (mkRecurseResponse hashed)
  else
    msg ← of_sum (to_vec (QRecurse (depth - 1) work));
    of_sum (StdQueries.query raw_query (Full.Wasm (QSmart contract_ msg))).
Definition query_int : IntResponse := mkIntResponse 15731626.
Definition query (env : Env) (msg : QueryMsg) : M StdError St Binary :=
  match msg with
  | QVerifier => r ← query_verifier; of_sum (to_vec r)
  | QOtherBalance address => r ← query_other_balance address; of_sum (to_vec r)
  | QRecurse depth work => r ← query_recurse depth work (ci_address (contract env)); of_sum (to_vec r)
  | QGetInt => of_sum (to_vec query_int)
  end.
End contract.

(** ** Who gets the funds *)
Section facts.
Context `{!StorageTrait St, !StorageSpec St} (o : Outside).
Context `{!Json State, !JsonSpec State, !Json ExecuteMsg}.
Context `{!Json (Full.QueryRequest unit), !Json AllBalanceResponse}.

(** Calls of every entry point that writes or sends, in their order, the last one first:
    [execute] by anyone, [migrate] by the admin and [sudo] by the chain. A call that fails
    is taken back. *)
Inductive Entry :=
| EExecute (info : MessageInfo) (msg : ExecuteMsg)
| EMigrate (msg : MigrateMsg)
| ESudo (msg : SudoMsg).
Definition enter (raw_query : bytes → QuerierResult) (fuel : nat) (env : Env) (e : Entry) : M HackError St Response :=
  match e with
  | EExecute info msg => execute o raw_query fuel env info msg
  | EMigrate msg => migrate o env msg
  | ESudo msg => sudo env msg
  end.

Record Call := mkCall { ca_env : Env; ca_entry : Entry; ca_response : Response }.
Inductive history (st0 : St) : St → list Call → Prop :=
| history_start : history st0 st0 []
| history_failed st h raw_query fuel env e :
    history st0 st h → (∀ r st', enter raw_query fuel env e st ≠ (Ok r, st')) → history st0 st h
| history_call st st' h raw_query fuel env e r :
    history st0 st h → enter raw_query fuel env e st = (Ok r, st') →
    history st0 st' (mkCall env e r :: h).

(** The verifier: the one of the last migration, or of the creation. *)
Fixpoint verifier_after (v : Addr) (h : list Call) : Addr :=
  match h with
  | [] => v
  | mkCall _ (EMigrate msg) _ :: h =>
      match addr_validate o (mm_verifier msg) with inr a => a | inl _ => verifier_after v h end
  | _ :: h => verifier_after v h
  end.

Lemma cpu_loop_runs fuel c st r st' : cpu_loop (St := St) fuel c st ≠ (Ok r, st').
Proof.
  revert c. induction fuel as [|fuel IH]; intros c; cbn; [done|]. intros (c' & s1 & Hadd & Hrun)%bind_Ok_inv.
  unfold add_or_panic in Hadd. destruct (_ <? U64); [|done]. injection Hadd as <- <-. by eapply IH.
Qed.
Lemma storage_loop_runs fuel c st r st' : storage_loop (St := St) fuel c st ≠ (Ok r, st').
Proof.
  revert c st. induction fuel as [|fuel IH]; intros c st; cbn; [done|]. intros (u & s1 & _ & Hrun)%bind_Ok_inv.
  apply bind_Ok_inv in Hrun as (c' & s2 & _ & Hrun). by eapply IH.
Qed.
Lemma memory_loop_runs fuel l st r st' : memory_loop (St := St) fuel l st ≠ (Ok r, st').
Proof.
  revert l st. induction fuel as [|fuel IH]; intros l st; cbn; [done|]. intros (t & s1 & _ & Hrun)%bind_Ok_inv.
  apply bind_Ok_inv in Hrun as (c' & s2 & _ & Hrun). by eapply IH.
Qed.

(** The messages a call may send, given the beneficiary and the verifier at the time:
    [execute] pays the beneficiary when the verifier calls, or calls the contract itself;
    [migrate] sends nothing; [sudo] pays whom the chain says. *)
Definition allowed (b v : Addr) (env : Env) (e : Entry) (m : CosmosMsg) : Prop :=
  match e with
  | EExecute info _ =>
      (∃ amount, m = MsgBank (BankSend b amount) ∧ sender info = v) ∨
      (∃ body, m = MsgWasm (WasmExecute (ci_address (contract env)) body []))
  | EMigrate _ => False
  | ESudo (StealFunds recipient amount) => m = MsgBank (BankSend recipient amount)
  end.
Definition stored (st : St) (s : State) : Prop :=
  ∃ data, t_get CONFIG_KEY st = Some data ∧ from_slice data = inr s.

Lemma load_state_run {E S} st s from (x : S) : stored st s → load_state (E := E) st from x = (Ok s, x).
Proof. intros (data & Hget & Hs). unfold load_state. by rewrite Hget, Hs. Qed.

Lemma execute_allowed raw_query fuel env info msg st s r st' :
  stored st s → execute o raw_query fuel env info msg st = (Ok r, st') →
  st' = st ∧ ∀ m, m ∈ messages r → allowed (beneficiary s) (verifier s) env (EExecute info msg) (sm_msg m).
Proof.
  intros Hs Hrun. destruct msg as [| | | | |pages| |]; cbn [execute] in Hrun.
  - unfold do_release in Hrun. rewrite bind_get, (bind_Ok _ _ _ _ _ (load_state_run st s Std st Hs)) in Hrun.
    destruct (String.eqb_spec (sender info) (verifier s)) as [Hv|]; [|done].
    apply bind_Ok_inv in Hrun as (balance & s1 & Hq & Hrun).
    destruct (query_all_balances _ _); [done|]. injection Hq as -> <-. injection Hrun as <- <-. split; [done|].
    intros m Hm. cbn in Hm. apply list_elem_of_singleton in Hm as ->. left. by exists balance.
  - by apply cpu_loop_runs in Hrun.
  - by apply storage_loop_runs in Hrun.
  - by apply memory_loop_runs in Hrun.
  - unfold do_message_loop in Hrun. apply bind_Ok_inv in Hrun as (b & s1 & Hb & Hrun).
    destruct (to_vec _); [done|]. injection Hb as -> <-. injection Hrun as <- <-. split; [done|].
    intros m Hm. cbn in Hm. apply list_elem_of_singleton in Hm as ->. right. by exists b.
  - unfold do_allocate_large_memory in Hrun. destruct (memory_grow o pages); [|done]. injection Hrun as <- <-.
    split; [done|]. by intros m ?%elem_of_nil.
  - done.
  - unfold do_user_errors_in_api_calls in Hrun.
    assert (∀ A (x : StdError + A) u s1 s2, expect_generic (St := St) o x s1 = (Ok u, s2) → s2 = s1) as Hx.
    { intros A x u s1 s2. destruct x as [[]|]; cbn; try done. by intros [= _ <-]. }
    do 5 (apply bind_Ok_inv in Hrun as (? & ? & ->%Hx & Hrun)). injection Hrun as <- <-.
    split; [done|]. by intros m ?%elem_of_nil.
Qed.

(** Storing a state. *)
Lemma store_state st s data :
  t_ok st → to_vec s = inr data →
  ∃ st', (t_set CONFIG_KEY data : M HackError St unit) st = (Ok tt, st') ∧ t_ok st' ∧ stored st' s.
Proof.
  intros Hok Hvec. destruct (from_to _ _ Hvec) as [Hfrom Hne].
  destruct (t_set_spec (E := HackError) CONFIG_KEY data st Hok Hne) as (st' & Hset & Hok' & Hget).
  exists st'. split_and!; [done..|]. exists data. by rewrite Hget, decide_True.
Qed.

Lemma std_inv {A} (r : StdError + A) (st : St) x st' : std r st = (Ok x, st') → r = inr x ∧ st' = st.
Proof. destruct r; [done|]. by intros [= -> ->]. Qed.

(** [migrate] changes the verifier alone. *)
Lemma migrate_changes_verifier env msg st s r st' :
  t_ok st → stored st s → migrate o env msg st = (Ok r, st') →
  messages r = [] ∧ t_ok st' ∧
  ∃ v, addr_validate o (mm_verifier msg) = inr v ∧ stored st' (mkState v (beneficiary s) (funder s)).
Proof.
  intros Hok Hs Hrun. unfold migrate in Hrun.
  rewrite bind_get, (bind_Ok _ _ _ _ _ (load_state_run st s Std st Hs)) in Hrun.
  apply bind_Ok_inv in Hrun as (v & s1 & [Hv ->]%std_inv & Hrun).
  apply bind_Ok_inv in Hrun as (data & s2 & [Hvec ->]%std_inv & Hrun).
  destruct (store_state st _ data Hok Hvec) as (st2 & Hset & Hok2 & Hst2).
  rewrite (bind_Ok _ _ _ _ _ Hset) in Hrun. injection Hrun as <- <-. eauto 6.
Qed.

(** The invariant: who gets the funds never changes, who may release them only by
    migration. *)
Lemma history_invariant st0 s h st :
  t_ok st0 → stored st0 s → history st0 st h →
  t_ok st ∧ stored st (mkState (verifier_after (verifier s) h) (beneficiary s) (funder s)) ∧
  ∀ later c earlier m, h = later ++ c :: earlier → m ∈ messages (ca_response c) →
    allowed (beneficiary s) (verifier_after (verifier s) earlier) (ca_env c) (ca_entry c) (sm_msg m).
Proof.
  intros Hok Hs. induction 1 as [|st h rq fuel env e Hh IH Hf|st st' h rq fuel env e r Hh IH Hx]; [|done|].
  { split_and!; [done|by destruct s|]. by intros [] ? ? ? ?. }
  destruct IH as (Hok1 & Hs1 & Hall).
  assert (t_ok st' ∧ stored st' (mkState (verifier_after (verifier s) (mkCall env e r :: h)) (beneficiary s) (funder s)) ∧
    ∀ m, m ∈ messages r → allowed (beneficiary s) (verifier_after (verifier s) h) env e (sm_msg m)) as (Hok2 & Hs2 & Hm).
  { destruct e as [info msg|msg|[recipient amount]]; cbn [enter verifier_after] in *.
    - destruct (execute_allowed rq fuel env info msg st _ r st' Hs1 Hx) as [-> Hm]. by split_and!.
    - destruct (migrate_changes_verifier env msg st _ r st' Hok1 Hs1 Hx) as (Hnil & Hok2 & v & Hv & Hs2).
      rewrite Hv. split_and!; [done..|]. rewrite Hnil. by intros m ?%elem_of_nil.
    - injection Hx as <- <-. split_and!; [done..|]. intros m Hm%list_elem_of_singleton. by subst m. }
  split_and!; [done..|]. intros [|c' later] c earlier m Heq Hin; injection Heq as <- ->; [by apply Hm|by eapply Hall].
Qed.

(** C16: Through any sequence of calls of [execute] (by anyone), [migrate] and [sudo]
    after [instantiate], with any answers of the chain: the beneficiary stays the one of
    the creation, the verifier is the one of the last migration; a message sent by a call
    of [execute] pays the beneficiary and was caused by the verifier of the time, or calls
    the contract itself without funds; a migration sends nothing; a [sudo] call of the
    chain pays whom the chain names. And at every point a release by the verifier
    succeeds and pays the beneficiary everything the contract has. *)
Theorem escrow_pays_the_beneficiary env0 info0 msg0 st0 r0 st1 h st2 :
  t_ok st0 → instantiate o env0 info0 msg0 st0 = (Ok r0, st1) → history st1 st2 h →
  ∃ v0 b, addr_validate o (im_verifier msg0) = inr v0 ∧ addr_validate o (im_beneficiary msg0) = inr b ∧
    (∀ later c earlier m, h = later ++ c :: earlier → m ∈ messages (ca_response c) →
       allowed b (verifier_after v0 earlier) (ca_env c) (ca_entry c) (sm_msg m)) ∧
    (∀ raw_query fuel env funds_ balance,
       query_all_balances raw_query (ci_address (contract env)) = inr balance →
       ∃ r, execute o raw_query fuel env (mkMessageInfo (verifier_after v0 h) funds_) Release st2 = (Ok r, st2) ∧
         messages r = [SubMsg_new (MsgBank (BankSend b balance))]).
Proof.
  intros Hok Hinst Hhist. unfold instantiate in Hinst.
  apply bind_Ok_inv in Hinst as (v & s1 & [Hv ->]%std_inv & Hinst).
  apply bind_Ok_inv in Hinst as (b & s2 & [Hb ->]%std_inv & Hinst).
  apply bind_Ok_inv in Hinst as (data & s3 & [Hvec ->]%std_inv & Hinst).
  destruct (store_state st0 _ data Hok Hvec) as (s4 & Hset & Hok4 & Hst4).
  rewrite (bind_Ok _ _ _ _ _ Hset) in Hinst. injection Hinst as _ <-.
  destruct (history_invariant s4 _ h st2 Hok4 Hst4 Hhist) as (_ & Hst & Hall). cbn [verifier beneficiary funder] in *.
  exists v, b. split_and!; [done..|]. intros rq fuel env fs balance Hbal. cbn [execute]. unfold do_release.
  rewrite bind_get, (bind_Ok _ _ _ _ _ (load_state_run st2 _ Std st2 Hst)). cbn [sender verifier beneficiary].
  rewrite String.eqb_refl, Hbal. cbn [std]. rewrite bind_ret_l. eexists. by split.
Qed.
End facts.
End Hackatom.
