(* ===== verification/IbcReflect.v ===== *)
(** * Accounts on another chain ([cosmwasm/contracts]: [reflect], [ibc-reflect],
      [ibc-reflect-send])

    [reflect] sends whatever messages its owner gives it. [ibc-reflect] creates one
    [reflect] contract per IBC channel and lets the other end of the channel use it.
    [ibc-reflect-send] is that other end. The theorem is on the three together: what the
    sender learns and causes through its channel is what the account of that channel is
    and does.

    The definitions of the contracts come first, the theorems on the channel after them. *)

From S2P Require Import Prelude.
From S2P Require Import Bytes.
From S2P Require Import CwStd.
From S2P Require Import StdError.
From S2P Require Import Storage.
From S2P Require Import Namespaces.
From S2P Require Import TypedStorage.
From S2P Require Import Sections.
From S2P Require Import Ibc.
From S2P Require Import StdQueries.
From S2P Require Import MockQuerier.

Open Scope Z_scope.

(** ** [reflect] *)
Module Reflect.
Definition CONFIG_KEY : bytes := as_bytes "config".
Definition RESULT_PREFIX : bytes := as_bytes "result".
Record State := mkState { owner : Addr }.

Inductive ReflectError :=
| Std (e : StdError)
| NotCurrentOwner (expected actual : string)
| MessagesEmpty.

Inductive SpecialQuery := Ping | Capitalized (text : string).
Record SpecialResponse := mkSpecialResponse { sp_msg : string }.
(** A custom message is a message without content here, as everywhere in this model. *)
Inductive ExecuteMsg :=
| ReflectMsg (msgs : list CosmosMsg)
| ReflectSubMsg (msgs : list SubMsg)
| ChangeOwner (owner : string).
Inductive QueryMsg :=
| QOwner
| QCapitalized (text : string)
| QChain (request : Full.QueryRequest SpecialQuery)
| QRawKey (contract : string) (key : Binary)
| QSubMsgResult (id : Z).
Record OwnerResponse := mkOwnerResponse { or_owner : string }.
Record CapitalizedResponse := mkCapitalizedResponse { cp_text : string }.
Record ChainResponse := mkChainResponse { cn_data : Binary }.
Record RawResponse := mkRawResponse { rw_data : Binary }.

Section contract.
Context `{StorageTrait St} (addr_validate : string → StdError + Addr) (raw_query : bytes → QuerierResult).
Context `{!Json State, !Json Reply, !Json (Full.QueryRequest SpecialQuery), !Json (Full.QueryRequest unit)}.
Context `{!Json SpecialResponse, !Json OwnerResponse, !Json CapitalizedResponse, !Json ChainResponse, !Json RawResponse}.
Abbreviation REFLECT := (M ReflectError St).

Definition instantiate (env : Env) (info : MessageInfo) : M StdError St Response :=
  _ ← on_singleton CONFIG_KEY (SingletonOps.save (mkState (sender info)));
  mret Response_new.

Definition load_config : REFLECT State :=
  map_err Std (on_singleton CONFIG_KEY (self ← get; of_sum (SingletonOps.load self))).

Definition try_reflect (env : Env) (info : MessageInfo) (msgs : list CosmosMsg) : REFLECT Response :=
  state ← load_config;
  if negb (String.eqb (sender info) (owner state)) then throw (NotCurrentOwner (owner state) (sender info))
  else match msgs with
  | [] => throw MessagesEmpty
  | _ => mret (add_messages msgs (add_attribute "action" "reflect" Response_new))
  end.
Definition try_reflect_subcall (env : Env) (info : MessageInfo) (msgs : list SubMsg) : REFLECT Response :=
  state ← load_config;
  if negb (String.eqb (sender info) (owner state)) then throw (NotCurrentOwner (owner state) (sender info))
  else match msgs with
  | [] => throw MessagesEmpty
  | _ => mret (add_submessages msgs (add_attribute "action" "reflect_subcall" Response_new))
  end.

(** The action of the update runs in the error type of the contract. *)
Definition change_owner (info : MessageInfo) (new_owner : string) (state : State) : ReflectError + State :=
  if negb (String.eqb (sender info) (owner state)) then inl (NotCurrentOwner (owner state) (sender info))
  else match addr_validate new_owner with
  | inl e => inl (Std e)
  | inr a => inr (mkState a)
  end.
Definition try_change_owner (env : Env) (info : MessageInfo) (new_owner : string) : REFLECT Response :=
  _ ← on_singleton CONFIG_KEY (SingletonOps.update Std (change_owner info new_owner));
  mret (add_attribute "owner" new_owner (add_attribute "action" "change_owner" Response_new)).

Definition execute (env : Env) (info : MessageInfo) (msg : ExecuteMsg) : REFLECT Response :=
  match msg with
  | ReflectMsg msgs => try_reflect env info msgs
  | ReflectSubMsg msgs => try_reflect_subcall env info msgs
  | ChangeOwner owner => try_change_owner env info owner
  end.

Definition reply (env : Env) (msg : Reply) : REFLECT Response :=
  _ ← map_err Std (on_bucket RESULT_PREFIX (BucketOps.save (be_bytes 8 (reply_id msg)) msg));
  mret Response_new.

Definition query_owner : M StdError St OwnerResponse :=
  state ← read_singleton CONFIG_KEY; mret (mkOwnerResponse (owner state)).
Definition query_subcall (id : Z) : M StdError St Reply :=
  st ← get; self ← bucket_read st RESULT_PREFIX; of_sum (BucketOps.load (be_bytes 8 id) self).
Definition query_capitalized (text : string) : M StdError St CapitalizedResponse :=
  response ← of_sum (StdQueries.query raw_query (Full.Custom (Capitalized text)));
  mret (mkCapitalizedResponse (sp_msg response)).
Definition query_chain (request : Full.QueryRequest SpecialQuery) : M StdError St ChainResponse :=
  match to_vec request with
  | inl serialize_err => throw (StdGenericErr ("Serializing QueryRequest: " +:+ StdError_to_string serialize_err))
  | inr raw =>
      match raw_query raw with
      | SRErr system_err => throw (StdGenericErr ("Querier system error: " +:+ SystemError_to_string system_err))
      | SROk (CRErr contract_err) => throw (StdGenericErr ("Querier contract error: " +:+ contract_err))
      | SROk (CROk value) => mret (mkChainResponse value)
      end
  end.
Definition query_raw (contract : string) (key : Binary) : M StdError St RawResponse :=
  response ← of_sum (query_wasm_raw raw_query contract key); mret (mkRawResponse (default [] response)).
Definition query (env : Env) (msg : QueryMsg) : M StdError St Binary :=
  match msg with
  | QOwner => r ← query_owner; of_sum (to_vec r)
  | QCapitalized text => r ← query_capitalized text; of_sum (to_vec r)
  | QChain request => r ← query_chain request; of_sum (to_vec r)
  | QRawKey contract key => r ← query_raw contract key; of_sum (to_vec r)
  | QSubMsgResult id => r ← query_subcall id; of_sum (to_vec r)
  end.
End contract.
End Reflect.

(** ** The packets

    Both ends declare them the same way. *)
Inductive PacketMsg := Dispatch (msgs : list CosmosMsg) | WhoAmI | Balances.
Abbreviation AcknowledgementMsg := ContractResult.
Abbreviation DispatchResponse := unit.
Record WhoAmIResponse := mkWhoAmIResponse { wa_account : string }.
Record BalancesResponse := mkBalancesResponse { ba_account : string; ba_balances : list Coin }.
Definition IBC_APP_VERSION : string := "ibc-reflect-v1".

(** [String::from_utf8] with the text of its error. *)
Definition utf8_or_error (utf8_error : bytes → string) (b : bytes) : StdError + string :=
  match from_utf8 b with Some s => inr s | None => inl (StdInvalidUtf8 (utf8_error b)) end.
(** [map] with [?] inside and [collect]. *)
Fixpoint collect_results {A B} (f : A → StdError + B) (l : list (StdError + A)) : StdError + list B :=
  match l with
  | [] => inr []
  | inl e :: _ => inl e
  | inr x :: l =>
      match f x with
      | inl e => inl e
      | inr y => match collect_results f l with inl e => inl e | inr ys => inr (y :: ys) end
      end
  end.

(** The handshake of either end: only ordered channels, and the version of the other
    end when it is known. *)
Definition ordered_only (channel : IbcChannel) : StdError + unit :=
  match ch_order channel with
  | Unordered => inl (StdGenericErr "Only supports ordered channels")
  | Ordered => inr tt
  end.
Definition counterparty_ok (counter : option string) : StdError + unit :=
  match counter with
  | Some v =>
      if negb (String.eqb v IBC_APP_VERSION) then
        inl (StdGenericErr ("Counterparty version must be `" +:+ IBC_APP_VERSION +:+ "`"))
      else inr tt
  | None => inr tt
  end.

(** ** [ibc-reflect] *)
Module Host.
Definition KEY_CONFIG : bytes := as_bytes "config".
Definition KEY_PENDING_CHANNEL : bytes := as_bytes "pending".
Definition PREFIX_ACCOUNTS : bytes := as_bytes "accounts".
Record Config := mkConfig { reflect_code_id : Z }.
Definition RECEIVE_DISPATCH_ID : Z := 1234.
Definition INIT_CALLBACK_ID : Z := 7890.

Record InstantiateMsg := mkInstantiateMsg { im_reflect_code_id : Z }.
Inductive QueryMsg := QAccount (channel_id : string) | QListAccounts.
Record AccountResponse := mkAccountResponse { ar_account : option string }.
Record AccountInfo := mkAccountInfo { ai_account : string; ai_channel_id : string }.
Record ListAccountsResponse := mkListAccountsResponse { la_accounts : list AccountInfo }.
(** The one message of [reflect] the host uses, declared anew in its own [msg.rs]. *)
Inductive ReflectExecuteMsg := ReflectMsg (msgs : list CosmosMsg).

Section contract.
Context `{StorageTrait St} (addr_validate : string → StdError + Addr) (raw_query : bytes → QuerierResult).
Context (utf8_error : bytes → string).
Context `{!Json Config, !Json string, !Json PacketMsg, !Json (AcknowledgementMsg unit)}.
Context `{!Json (AcknowledgementMsg WhoAmIResponse), !Json (AcknowledgementMsg BalancesResponse)}.
Context `{!Json ReflectExecuteMsg, !Json AccountResponse, !Json ListAccountsResponse}.
Context `{!Json (Full.QueryRequest unit), !Json AllBalanceResponse}.
Abbreviation DEPS := (M StdError St).

Definition instantiate (env : Env) (info : MessageInfo) (msg : InstantiateMsg) : DEPS Response :=
  _ ← on_singleton KEY_CONFIG (SingletonOps.save (mkConfig (im_reflect_code_id msg)));
  mret (add_attribute "action" "instantiate" Response_new).

Definition encode_ibc_error {E S} (msg : string) : M E S Binary :=
  match to_vec (CRErr msg : AcknowledgementMsg unit) with
  | inr b => mret b
  | inl _ => panic "called `Result::unwrap()` on an `Err` value"
  end.

Definition parse_contract_from_event (events : list Event) : option string :=
  ev ← find_first (λ e, String.eqb (ev_ty e) "instantiate") events;
  a ← find_first (λ a, String.eqb (attr_key a) "_contract_address") (ev_attributes ev);
  Some (attr_value a).

(** The account of a channel is written once. *)
Definition register_account (contract_addr : Addr) (val : option Addr) : StdError + Addr :=
  match val with
  | Some _ => inl (StdGenericErr "Cannot register over an existing channel")
  | None => inr contract_addr
  end.
Definition handle_init_callback (response : SubMsgResponse) : DEPS Response :=
  id ← on_singleton KEY_PENDING_CHANNEL (self ← get; of_sum (SingletonOps.load (T := string) self));
  _ ← on_singleton KEY_PENDING_CHANNEL SingletonOps.remove;
  contract_addr ← match parse_contract_from_event (smr_events response) with
                  | Some addr => of_sum (addr_validate addr)
                  | None => throw (StdGenericErr "No _contract_address found in callback events")
                  end;
  _ ← on_bucket PREFIX_ACCOUNTS (BucketOps.update (λ e, e) (as_bytes id) (register_account contract_addr));
  mret (add_attribute "action" "execute_init_callback" Response_new).

Definition reply (env : Env) (reply : Reply) : DEPS Response :=
  match reply_result reply with
  | SMRErr err =>
      if reply_id reply =? RECEIVE_DISPATCH_ID then
        ack ← encode_ibc_error err; mret (set_data ack Response_new)
      else throw (StdGenericErr "invalid reply id or result")
  | SMROk response =>
      if reply_id reply =? INIT_CALLBACK_ID then handle_init_callback response
      else throw (StdGenericErr "invalid reply id or result")
  end.

Definition account_of (channel_id : string) : DEPS Addr := load_bucket PREFIX_ACCOUNTS (as_bytes channel_id).

Definition ibc_channel_open (env : Env) (msg : IbcChannelOpenMsg) : DEPS IbcChannelOpenResponse :=
  _ ← of_sum (ordered_only (OpenMsg.channel msg));
  _ ← of_sum (counterparty_ok (OpenMsg.counterparty_version msg));
  mret (Some (mkIbc3OpenResponse IBC_APP_VERSION)).

Definition ibc_channel_connect (env : Env) (msg : IbcChannelConnectMsg) : DEPS IbcBasicResponse :=
  let channel := ConnectMsg.channel msg in
  cfg ← on_singleton KEY_CONFIG (self ← get; of_sum (SingletonOps.load self));
  let chan_id := Ibc.channel_id (endpoint channel) in
  let msg := WasmInstantiate None (reflect_code_id cfg) (as_bytes "{}") [] ("ibc-reflect-" +:+ chan_id) in
  let msg := SubMsg_reply_on_success (MsgWasm msg) INIT_CALLBACK_ID in
  _ ← on_singleton KEY_PENDING_CHANNEL (SingletonOps.save chan_id);
  mret (BasicResponse.add_event (Event_add_attribute "channel" "connect" (Event_new "ibc"))
    (BasicResponse.add_attribute "channel_id" chan_id (BasicResponse.add_attribute "action" "ibc_connect"
    (BasicResponse.add_submessage msg BasicResponse.new)))).

Definition ibc_channel_close (env : Env) (msg : IbcChannelCloseMsg) : DEPS IbcBasicResponse :=
  let channel_id := Ibc.channel_id (endpoint (CloseMsg.channel msg)) in
  reflect_addr ← account_of channel_id;
  _ ← on_bucket PREFIX_ACCOUNTS (BucketOps.remove (as_bytes channel_id));
  amount ← of_sum (query_all_balances raw_query reflect_addr);
  messages ← match amount with
             | [] => mret []
             | _ =>
                 let bank_msg := BankSend (ci_address (contract env)) amount in
                 wasm_msg ← of_sum (wasm_execute reflect_addr (ReflectMsg [MsgBank bank_msg]) []);
                 mret [SubMsg_new (MsgWasm wasm_msg)]
             end;
  let steal_funds := match messages with [] => "false" | _ => "true" end in
  mret (BasicResponse.add_attribute "steal_funds" steal_funds (BasicResponse.add_attribute "channel_id" channel_id
    (BasicResponse.add_attribute "action" "ibc_close" (BasicResponse.add_submessages messages BasicResponse.new)))).

Definition migrate (env : Env) : DEPS Response := mret Response_new.

Definition receive_who_am_i (caller : string) : DEPS IbcReceiveResponse :=
  account ← account_of caller;
  acknowledgement ← of_sum (to_vec (CROk (mkWhoAmIResponse account)));
  mret (ReceiveResponse.add_attribute "action" "receive_who_am_i"
    (ReceiveResponse.set_ack acknowledgement ReceiveResponse.new)).
Definition receive_balances (caller : string) : DEPS IbcReceiveResponse :=
  account ← account_of caller;
  balances ← of_sum (query_all_balances raw_query account);
  acknowledgement ← of_sum (to_vec (CROk (mkBalancesResponse account balances)));
  mret (ReceiveResponse.add_attribute "action" "receive_balances"
    (ReceiveResponse.set_ack acknowledgement ReceiveResponse.new)).
Definition receive_dispatch (caller : string) (msgs : list CosmosMsg) : DEPS IbcReceiveResponse :=
  reflect_addr ← account_of caller;
  acknowledgement ← of_sum (to_vec (CROk tt : AcknowledgementMsg unit));
  wasm_msg ← of_sum (wasm_execute reflect_addr (ReflectMsg msgs) []);
  let msg := SubMsg_reply_on_error (MsgWasm wasm_msg) RECEIVE_DISPATCH_ID in
  mret (ReceiveResponse.add_attribute "action" "receive_dispatch"
    (ReceiveResponse.add_submessage msg (ReceiveResponse.set_ack acknowledgement ReceiveResponse.new))).

(** Errors of the closure become acknowledgements; what it wrote before stays. *)
Definition ibc_packet_receive (env : Env) (msg : IbcPacketReceiveMsg) : DEPS IbcReceiveResponse :=
  let packet := rm_packet msg in
  let caller := Ibc.channel_id (dest packet) in
  r ← catch (msg ← of_sum (from_slice (packet_data packet));
             match msg with
             | Dispatch msgs => receive_dispatch caller msgs
             | WhoAmI => receive_who_am_i caller
             | Balances => receive_balances caller
             end);
  match r with
  | inr response => mret response
  | inl e =>
      acknowledgement ← encode_ibc_error ("invalid packet: " +:+ StdError_to_string e);
      mret (ReceiveResponse.add_event (Event_add_attribute "packet" "receive" (Event_new "ibc"))
        (ReceiveResponse.set_ack acknowledgement ReceiveResponse.new))
  end.

Definition ibc_packet_ack (env : Env) (msg : IbcPacketAckMsg) : DEPS IbcBasicResponse :=
  mret (BasicResponse.add_attribute "action" "ibc_packet_ack" BasicResponse.new).
Definition ibc_packet_timeout (env : Env) (msg : IbcPacketTimeoutMsg) : DEPS IbcBasicResponse :=
  mret (BasicResponse.add_attribute "action" "ibc_packet_timeout" BasicResponse.new).

Definition query_account (channel_id : string) : DEPS AccountResponse :=
  st ← get;
  self ← bucket_read st PREFIX_ACCOUNTS;
  account ← of_sum (BucketOps.load (as_bytes channel_id) self);
  mret (mkAccountResponse (Some account)).
Definition query_list_accounts : DEPS ListAccountsResponse :=
  l ← on_bucket PREFIX_ACCOUNTS (BucketOps.range None None Ascending);
  accounts ← of_sum (collect_results (λ '(key, account),
    match utf8_or_error utf8_error key with
    | inl e => inl e
    | inr channel_id => inr (mkAccountInfo account channel_id)
    end) l);
  mret (mkListAccountsResponse accounts).
Definition query (env : Env) (msg : QueryMsg) : DEPS Binary :=
  match msg with
  | QAccount channel_id => r ← query_account channel_id; of_sum (to_vec r)
  | QListAccounts => r ← query_list_accounts; of_sum (to_vec r)
  end.
End contract.
End Host.

(** ** [ibc-reflect-send] *)
Module Sender.
Definition KEY_CONFIG : bytes := as_bytes "config".
Definition PREFIX_ACCOUNTS : bytes := as_bytes "accounts".
Definition PACKET_LIFETIME : Z := 60 * 60.
Record Config := mkConfig { admin : Addr }.
Record AccountData := mkAccountData {
  last_update_time : Z;
  remote_addr : option string;
  remote_balance : list Coin
}.
Definition AccountData_default : AccountData := mkAccountData 0 None [].

Inductive ExecuteMsg :=
| UpdateAdmin (admin : string)
| SendMsgs (channel_id : string) (msgs : list CosmosMsg)
| CheckRemoteBalance (channel_id : string)
| SendFunds (reflect_channel_id transfer_channel_id : string).
Inductive QueryMsg := QAdmin | QListAccounts | QAccount (channel_id : string).
Record AdminResponse := mkAdminResponse { ad_admin : string }.
Record AccountInfo := mkAccountInfo {
  ai_channel_id : string;
  ai_last_update_time : Z;
  ai_remote_addr : option string;
  ai_remote_balance : list Coin
}.
Definition convert (channel_id : string) (input : AccountData) : AccountInfo :=
  mkAccountInfo channel_id (last_update_time input) (remote_addr input) (remote_balance input).
Record ListAccountsResponse := mkListAccountsResponse { la_accounts : list AccountInfo }.
Record AccountResponse := mkAccountResponse {
  ar_last_update_time : Z;
  ar_remote_addr : option string;
  ar_remote_balance : list Coin
}.
Definition account_response (input : AccountData) : AccountResponse :=
  mkAccountResponse (last_update_time input) (remote_addr input) (remote_balance input).

Section contract.
Context `{StorageTrait St} (addr_validate : string → StdError + Addr) (utf8_error : bytes → string).
Context `{!Json Config, !Json AccountData, !Json PacketMsg, !Json (AcknowledgementMsg unit)}.
Context `{!Json (AcknowledgementMsg WhoAmIResponse), !Json (AcknowledgementMsg BalancesResponse)}.
Context `{!Json AdminResponse, !Json ListAccountsResponse, !Json AccountResponse}.
Abbreviation DEPS := (M StdError St).

Definition instantiate (env : Env) (info : MessageInfo) : DEPS Response :=
  _ ← on_singleton KEY_CONFIG (SingletonOps.save (mkConfig (sender info)));
  mret (add_attribute "action" "instantiate" Response_new).

Definition load_config : DEPS Config := on_singleton KEY_CONFIG (self ← get; of_sum (SingletonOps.load self)).
Definition load_account (channel_id : string) : DEPS AccountData :=
  load_bucket PREFIX_ACCOUNTS (as_bytes channel_id).

(** The messages of the simulator's build have no IBC variant; the IBC message of a
    response is kept beside it. *)
Definition send_packet (env : Env) (channel_id : string) (packet : PacketMsg) : DEPS IbcMsg :=
  data ← of_sum (to_vec packet);
  t ← plus_seconds (time (CwStd.block env)) PACKET_LIFETIME;
  mret (IbcSendPacket channel_id data (timeout_of_timestamp t)).

Definition handle_update_admin (info : MessageInfo) (new_admin : string) : DEPS (Response * list IbcMsg) :=
  cfg ← load_config;
  if negb (String.eqb (sender info) (admin cfg)) then throw (StdGenericErr "Only admin may set new admin")
  else
    a ← of_sum (addr_validate new_admin);
    _ ← on_singleton KEY_CONFIG (SingletonOps.save (mkConfig a));
    mret (add_attribute "new_admin" a (add_attribute "action" "handle_update_admin" Response_new), []).
Definition handle_send_msgs (env : Env) (info : MessageInfo) (channel_id : string) (msgs : list CosmosMsg)
    : DEPS (Response * list IbcMsg) :=
  cfg ← load_config;
  if negb (String.eqb (sender info) (admin cfg)) then throw (StdGenericErr "Only admin may send messages")
  else
    _ ← load_account channel_id;
    msg ← send_packet env channel_id (Dispatch msgs);
    mret (add_attribute "action" "handle_send_msgs" Response_new, [msg]).
Definition handle_check_remote_balance (env : Env) (info : MessageInfo) (channel_id : string)
    : DEPS (Response * list IbcMsg) :=
  cfg ← load_config;
  if negb (String.eqb (sender info) (admin cfg)) then throw (StdGenericErr "Only admin may send messages")
  else
    _ ← load_account channel_id;
    msg ← send_packet env channel_id Balances;
    mret (add_attribute "action" "handle_check_remote_balance" Response_new, [msg]).

(** [pop] takes the last coin. *)
Definition handle_send_funds (env : Env) (info : MessageInfo) (reflect_channel_id transfer_channel_id : string)
    : DEPS (Response * list IbcMsg) :=
  match reverse (funds info) with
  | [] => throw (StdGenericErr "you must send the coins you wish to ibc transfer")
  | _ :: _ :: _ => throw (StdGenericErr "you can only ibc transfer one coin")
  | [amount] =>
      data ← load_account reflect_channel_id;
      match remote_addr data with
      | None => throw (StdGenericErr "We don't have the remote address for this channel")
      | Some addr =>
          t ← plus_seconds (time (CwStd.block env)) PACKET_LIFETIME;
          mret (add_attribute "action" "handle_send_funds" Response_new,
                [IbcTransfer transfer_channel_id addr amount (timeout_of_timestamp t)])
      end
  end.

Definition execute (env : Env) (info : MessageInfo) (msg : ExecuteMsg) : DEPS (Response * list IbcMsg) :=
  match msg with
  | UpdateAdmin admin => handle_update_admin info admin
  | SendMsgs channel_id msgs => handle_send_msgs env info channel_id msgs
  | CheckRemoteBalance channel_id => handle_check_remote_balance env info channel_id
  | SendFunds reflect_channel_id transfer_channel_id =>
      handle_send_funds env info reflect_channel_id transfer_channel_id
  end.

Definition ibc_channel_open (env : Env) (msg : IbcChannelOpenMsg) : DEPS unit :=
  _ ← of_sum (ordered_only (OpenMsg.channel msg));
  if negb (String.eqb (version (OpenMsg.channel msg)) IBC_APP_VERSION) then
    throw (StdGenericErr ("Must set version to `" +:+ IBC_APP_VERSION +:+ "`"))
  else of_sum (counterparty_ok (OpenMsg.counterparty_version msg)).

Definition ibc_channel_connect (env : Env) (msg : IbcChannelConnectMsg) : DEPS (IbcBasicResponse * list IbcMsg) :=
  let channel_id := Ibc.channel_id (endpoint (ConnectMsg.channel msg)) in
  _ ← on_bucket PREFIX_ACCOUNTS (BucketOps.save (as_bytes channel_id) AccountData_default);
  msg ← send_packet env channel_id WhoAmI;
  mret (BasicResponse.add_attribute "channel_id" channel_id
    (BasicResponse.add_attribute "action" "ibc_connect" BasicResponse.new), [msg]).

Definition ibc_channel_close (env : Env) (msg : IbcChannelCloseMsg) : DEPS IbcBasicResponse :=
  let channel_id := Ibc.channel_id (endpoint (CloseMsg.channel msg)) in
  _ ← on_bucket PREFIX_ACCOUNTS (BucketOps.remove (as_bytes channel_id));
  mret (BasicResponse.add_attribute "channel_id" channel_id
    (BasicResponse.add_attribute "action" "ibc_close" BasicResponse.new)).

Definition ibc_packet_receive (env : Env) (packet : IbcPacketReceiveMsg) : DEPS IbcReceiveResponse :=
  mret (ReceiveResponse.add_attribute "action" "ibc_packet_ack"
    (ReceiveResponse.set_ack (as_bytes "{}") ReceiveResponse.new)).

Definition acknowledge_dispatch (caller : string) (ack : AcknowledgementMsg unit) : DEPS IbcBasicResponse :=
  mret (BasicResponse.add_attribute "action" "acknowledge_dispatch" BasicResponse.new).

(** The address is set the first time. *)
Definition learn_account (account : string) (acct : option AccountData) : StdError + AccountData :=
  match acct with
  | Some acct =>
      inr (match remote_addr acct with
           | None => mkAccountData (last_update_time acct) (Some account) (remote_balance acct)
           | Some _ => acct
           end)
  | None => inl (StdGenericErr "no account to update")
  end.
Definition acknowledge_who_am_i (caller : string) (ack : AcknowledgementMsg WhoAmIResponse) : DEPS IbcBasicResponse :=
  match ack with
  | CRErr e =>
      mret (BasicResponse.add_attribute "error" e
        (BasicResponse.add_attribute "action" "acknowledge_who_am_i" BasicResponse.new))
  | CROk res =>
      _ ← on_bucket PREFIX_ACCOUNTS (BucketOps.update (λ e, e) (as_bytes caller) (learn_account (wa_account res)));
      mret (BasicResponse.add_attribute "action" "acknowledge_who_am_i" BasicResponse.new)
  end.

Definition learn_balance (now : Z) (account : string) (balances : list Coin) (acct : option AccountData)
    : StdError + AccountData :=
  match acct with
  | Some acct =>
      let update := inr (mkAccountData now (Some account) balances) in
      match remote_addr acct with
      | Some old_addr =>
          if negb (String.eqb old_addr account) then
            inl (StdGenericErr ("remote account changed from " +:+ old_addr +:+ " to " +:+ account))
          else update
      | None => update
      end
  | None => inl (StdGenericErr "no account to update")
  end.
Definition acknowledge_balances (env : Env) (caller : string) (ack : AcknowledgementMsg BalancesResponse)
    : DEPS IbcBasicResponse :=
  match ack with
  | CRErr e =>
      mret (BasicResponse.add_attribute "error" e
        (BasicResponse.add_attribute "action" "acknowledge_balances" BasicResponse.new))
  | CROk res =>
      _ ← on_bucket PREFIX_ACCOUNTS (BucketOps.update (λ e, e) (as_bytes caller)
            (learn_balance (time (CwStd.block env)) (ba_account res) (ba_balances res)));
      mret (BasicResponse.add_attribute "action" "acknowledge_balances" BasicResponse.new)
  end.

Definition ibc_packet_ack (env : Env) (msg : IbcPacketAckMsg) : DEPS IbcBasicResponse :=
  let caller := Ibc.channel_id (src (original_packet msg)) in
  packet ← of_sum (from_slice (packet_data (original_packet msg)));
  match packet with
  | Dispatch _ => res ← of_sum (from_slice (ack_data (acknowledgement msg))); acknowledge_dispatch caller res
  | WhoAmI => res ← of_sum (from_slice (ack_data (acknowledgement msg))); acknowledge_who_am_i caller res
  | Balances => res ← of_sum (from_slice (ack_data (acknowledgement msg))); acknowledge_balances env caller res
  end.
Definition ibc_packet_timeout (env : Env) (msg : IbcPacketTimeoutMsg) : DEPS IbcBasicResponse :=
  mret (BasicResponse.add_attribute "action" "ibc_packet_timeout" BasicResponse.new).

Definition query_account (channel_id : string) : DEPS AccountResponse :=
  st ← get;
  self ← bucket_read st PREFIX_ACCOUNTS;
  account ← of_sum (BucketOps.load (as_bytes channel_id) self);
  mret (account_response account).
Definition query_list_accounts : DEPS ListAccountsResponse :=
  l ← on_bucket PREFIX_ACCOUNTS (BucketOps.range None None Ascending);
  accounts ← of_sum (collect_results (λ '(k, account),
    match utf8_or_error utf8_error k with
    | inl e => inl e
    | inr channel_id => inr (convert channel_id account)
    end) l);
  mret (mkListAccountsResponse accounts).
Definition query_admin : DEPS AdminResponse :=
  cfg ← read_singleton KEY_CONFIG; mret (mkAdminResponse (admin cfg)).
Definition query (env : Env) (msg : QueryMsg) : DEPS Binary :=
  match msg with
  | QAdmin => r ← query_admin; of_sum (to_vec r)
  | QAccount channel_id => r ← query_account channel_id; of_sum (to_vec r)
  | QListAccounts => r ← query_list_accounts; of_sum (to_vec r)
  end.
End contract.
End Sender.

(** * The account at the other end of a channel

    The three contracts of [IbcReflect] put together: packets go from the sender to the
    host and acknowledgements back. *)

Section channel.
(** The storages of the sender, of the host and of the account. *)
Context `{!StorageTrait SA, !StorageSpec SA, !StorageTrait SB, !StorageTrait SR}.
Context (raw_query : bytes → QuerierResult) (addr_validate : string → StdError + Addr).
Context `{!Json Sender.Config, !Json Sender.AccountData, !JsonSpec Sender.AccountData, !JsonTotal Sender.AccountData}.
Context `{!Json PacketMsg, !JsonSpec PacketMsg, !JsonTotal PacketMsg}.
Context `{!Json (AcknowledgementMsg unit), !JsonTotal (AcknowledgementMsg unit)}.
Context `{!Json (AcknowledgementMsg WhoAmIResponse), !JsonSpec (AcknowledgementMsg WhoAmIResponse),
          !JsonTotal (AcknowledgementMsg WhoAmIResponse)}.
Context `{!Json (AcknowledgementMsg BalancesResponse)}.
Context `{!Json string, !Json (Full.QueryRequest unit), !Json AllBalanceResponse, !Json Reflect.State, !Json Host.Config}.
Context `{!Json Reflect.ExecuteMsg, !Json Host.ReflectExecuteMsg, !JsonTotal Host.ReflectExecuteMsg}.
(** What the derived codecs of the two enums share: the same variant with the same field.
    The messages in it differ in the type of the custom ones, so the text carries over for
    lists without custom messages. *)
Context (same_wire : ∀ msgs b, MsgCustom ∉ msgs →
  to_vec (Host.ReflectMsg msgs) = inr b → from_slice b = inr (Reflect.ReflectMsg msgs)).

Lemma to_vec_total `{!Json T, !JsonSpec T, !JsonTotal T} (x : T) : ∃ b, to_vec x = inr b ∧ from_slice b = inr x.
Proof. destruct (json_total x) as [b Hb]. apply to_vec_ok in Hb. exists b. split; [done|]. by apply from_to. Qed.

(** What the two ends and the account hold. *)
Definition host_account (sb : SB) (chan : string) (acc : Addr) : Prop :=
  must_deserialize (T := string) (t_get (lp Host.PREFIX_ACCOUNTS ++ as_bytes chan) sb) = inr acc.
Definition sender_account (sa : SA) (chan : string) (d : Sender.AccountData) : Prop :=
  must_deserialize (t_get (lp Sender.PREFIX_ACCOUNTS ++ as_bytes chan) sa) = inr d.
Definition sender_admin (sa : SA) (a : Addr) : Prop :=
  must_deserialize (t_get (lp Sender.KEY_CONFIG) sa) = inr (Sender.mkConfig a).
Definition account_owner (sr : SR) (h : Addr) : Prop :=
  must_deserialize (t_get (lp Reflect.CONFIG_KEY) sr) = inr (Reflect.mkState h).

(** A packet on its way from the channel [ca] of the sender to [cb] of the host. *)
Definition packet_from (ca cb : IbcEndpoint) (seq : Z) (m : IbcMsg) : option IbcPacket :=
  match m with
  | IbcSendPacket chan data timeout =>
      if String.eqb chan (channel_id ca) then Some (mkIbcPacket data ca cb seq timeout) else None
  | _ => None
  end.

Lemma singleton_load_run `{!StorageTrait X, !Json T} key (st : X) (x : T) :
  short key → must_deserialize (t_get (lp key) st) = inr x →
  on_singleton (E := StdError) key (self ← get; of_sum (SingletonOps.load self)) st = (Ok x, st).
Proof.
  intros Hk Hx. apply (on_singleton_run key _ st (Ok x) (mkSingleton st (lp key))); [done|].
  rewrite bind_get. unfold SingletonOps.load. cbn [sg_key sg_storage]. by rewrite Hx.
Qed.
Lemma account_run `{!StorageTrait X, !Json T} ns chan (st : X) (x : T) :
  short ns → must_deserialize (t_get (lp ns ++ as_bytes chan) st) = inr x →
  load_bucket ns (as_bytes chan) st = (Ok x, st).
Proof. intros Hns Hx. rewrite load_bucket_run by done. by rewrite Hx. Qed.

Lemma plus_seconds_run {E S} t n (s : S) :
  0 ≤ n → n * 1000000000 < U64 → t + n * 1000000000 < U64 →
  (plus_seconds t n : M E S Z) s = (Ok (t + n * 1000000000), s).
Proof.
  intros Hn H1 H2. unfold plus_seconds, plus_nanos, mul_or_panic, add_or_panic.
  destruct (Z.ltb_spec (n * 1000000000) U64); [|lia]. rewrite bind_ret_l.
  by destruct (Z.ltb_spec (t + n * 1000000000) U64); [|lia].
Qed.

Lemma send_packet_run env chan p (sa : SA) :
  time (CwStd.block env) + 3600000000000 < U64 →
  ∃ data, to_vec p = inr data ∧ from_slice data = inr p ∧
    Sender.send_packet env chan p sa =
      (Ok (IbcSendPacket chan data (timeout_of_timestamp (time (CwStd.block env) + 3600000000000))), sa).
Proof.
  intros Ht. destruct (to_vec_total p) as (data & Hto & Hfrom). exists data. split_and!; [done..|].
  unfold Sender.send_packet. rewrite Hto. cbn [of_sum]. rewrite bind_ret_l.
  rewrite (bind_Ok _ _ _ _ _ (plus_seconds_run (time (CwStd.block env)) Sender.PACKET_LIFETIME sa ltac:(done) ltac:(done) Ht)).
  done.
Qed.

(** ** Who am I *)
Lemma connect_run (sa : SA) env msg :
  let chan := channel_id (endpoint (ConnectMsg.channel msg)) in
  t_ok sa → time (CwStd.block env) + 3600000000000 < U64 →
  ∃ r sa1 data timeout, Sender.ibc_channel_connect env msg sa = (Ok (r, [IbcSendPacket chan data timeout]), sa1) ∧
    from_slice data = inr WhoAmI ∧ t_ok sa1 ∧ sender_account sa1 chan Sender.AccountData_default.
Proof.
  intros chan Hok Ht. destruct (to_vec_total Sender.AccountData_default) as (b & Hb & Hfrom).
  destruct (on_bucket_save Sender.PREFIX_ACCOUNTS (as_bytes chan) Sender.AccountData_default b sa ltac:(by vm_compute) Hok Hb)
    as (sa1 & Hrun & Hok1 & Hget).
  destruct (send_packet_run env chan WhoAmI sa1 Ht) as (data & _ & Hdata & Hsend).
  eexists _, sa1, data, _. split.
  - unfold Sender.ibc_channel_connect. cbn zeta. fold chan. rewrite (bind_Ok _ _ _ _ _ Hrun), (bind_Ok _ _ _ _ _ Hsend).
    reflexivity.
  - split_and!; [done..|]. unfold sender_account. rewrite Hget, decide_True by done. cbn. by rewrite Hfrom.
Qed.

Lemma who_am_i_answer (sb : SB) env packet relayer acc :
  host_account sb (channel_id (dest packet)) acc → from_slice (packet_data packet) = inr WhoAmI →
  ∃ r, Host.ibc_packet_receive raw_query env (mkReceiveMsg packet relayer) sb = (Ok r, sb) ∧ rr_messages r = [] ∧
    from_slice (rr_acknowledgement r) = inr (CROk (mkWhoAmIResponse acc)).
Proof.
  intros Hacc Hp. destruct (to_vec_total (CROk (mkWhoAmIResponse acc))) as (b & Hb & Hfrom). eexists. split.
  - unfold Host.ibc_packet_receive. cbn [rm_packet]. unfold catch, mbind, M_bind. rewrite Hp. cbn [of_sum].
    unfold Host.receive_who_am_i. cbn -[Host.account_of to_vec]. unfold mbind, M_bind.
    unfold Host.account_of. rewrite (account_run Host.PREFIX_ACCOUNTS _ sb acc ltac:(by vm_compute) Hacc), Hb. reflexivity.
  - by split.
Qed.

Lemma account_learnt (sa : SA) env ack packet relayer acc :
  let chan := channel_id (src packet) in
  t_ok sa → sender_account sa chan Sender.AccountData_default →
  from_slice (packet_data packet) = inr WhoAmI → from_slice ack = inr (CROk (mkWhoAmIResponse acc)) →
  ∃ r sa', Sender.ibc_packet_ack env (mkAckMsg (mkIbcAck ack) packet relayer) sa = (Ok r, sa') ∧ t_ok sa' ∧
    sender_account sa' chan (Sender.mkAccountData 0 (Some acc) []).
Proof.
  intros chan Hok Hacc Hp Hack. destruct (to_vec_total (Sender.mkAccountData 0 (Some acc) [])) as (b & Hb & Hfrom).
  assert (may_deserialize (t_get (lp Sender.PREFIX_ACCOUNTS ++ as_bytes chan) sa) = inr (Some Sender.AccountData_default)) as Hmay.
  { unfold sender_account in Hacc. rewrite must_may in Hacc. by destruct (may_deserialize _) as [|[]]; simplify_eq. }
  destruct (on_bucket_update Sender.PREFIX_ACCOUNTS (as_bytes chan) (Sender.learn_account acc) _ _ b sa
    ltac:(by vm_compute) Hok Hmay eq_refl Hb) as (sa' & Hrun & Hok' & Hget).
  eexists _, sa'. split.
  - unfold Sender.ibc_packet_ack. cbn [original_packet acknowledgement ack_data]. rewrite Hp. cbn [of_sum].
    rewrite bind_ret_l, Hack. cbn [of_sum]. rewrite bind_ret_l. cbn [Sender.acknowledge_who_am_i wa_account]. fold chan.
    rewrite (bind_Ok _ _ _ _ _ Hrun). reflexivity.
  - split; [done|]. unfold sender_account. rewrite Hget, decide_True by done. cbn. by rewrite Hfrom.
Qed.

Lemma send_funds_run (sa : SA) env sender_ coin chan tr acc d :
  sender_account sa chan d → Sender.remote_addr d = Some acc → time (CwStd.block env) + 3600000000000 < U64 →
  ∃ r timeout, Sender.execute addr_validate env (mkMessageInfo sender_ [coin]) (Sender.SendFunds chan tr) sa =
    (Ok (r, [IbcTransfer tr acc coin timeout]), sa).
Proof.
  intros Hacc Ha Ht. eexists _, _. cbn [Sender.execute]. unfold Sender.handle_send_funds.
  change (reverse (funds (mkMessageInfo sender_ [coin]))) with [coin]. cbn iota.
  unfold Sender.load_account. rewrite (bind_Ok _ _ _ _ _ (account_run Sender.PREFIX_ACCOUNTS chan sa d ltac:(by vm_compute) Hacc)), Ha.
  rewrite (bind_Ok _ _ _ _ _ (plus_seconds_run (time (CwStd.block env)) Sender.PACKET_LIFETIME sa ltac:(done) ltac:(done) Ht)).
  reflexivity.
Qed.

(** ** Dispatch *)
Lemma send_msgs_run (sa : SA) env info chan msgs a d :
  sender_admin sa a → sender_account sa chan d → time (CwStd.block env) + 3600000000000 < U64 →
  if String.eqb (sender info) a then
    ∃ r data timeout, Sender.execute addr_validate env info (Sender.SendMsgs chan msgs) sa =
      (Ok (r, [IbcSendPacket chan data timeout]), sa) ∧ from_slice data = inr (Dispatch msgs)
  else Sender.execute addr_validate env info (Sender.SendMsgs chan msgs) sa =
    (Err (StdGenericErr "Only admin may send messages"), sa).
Proof.
  intros Hadm Hacc Ht. cbn [Sender.execute]. unfold Sender.handle_send_msgs, Sender.load_config, Sender.load_account.
  rewrite (bind_Ok _ _ _ _ _ (singleton_load_run (T := Sender.Config) Sender.KEY_CONFIG sa _ ltac:(by vm_compute) Hadm)). cbn [Sender.admin].
  destruct (String.eqb (sender info) a); cbn [negb]; [|done].
  rewrite (bind_Ok _ _ _ _ _ (account_run Sender.PREFIX_ACCOUNTS chan sa d ltac:(by vm_compute) Hacc)).
  destruct (send_packet_run env chan (Dispatch msgs) sa Ht) as (data & _ & Hdata & Hsend).
  rewrite (bind_Ok _ _ _ _ _ Hsend). eexists _, data, _. split; [reflexivity|done].
Qed.

Lemma dispatch_answer (sb : SB) env packet relayer acc msgs :
  host_account sb (channel_id (dest packet)) acc → from_slice (packet_data packet) = inr (Dispatch msgs) →
  ∃ r body, Host.ibc_packet_receive raw_query env (mkReceiveMsg packet relayer) sb = (Ok r, sb) ∧
    rr_messages r = [SubMsg_reply_on_error (MsgWasm (WasmExecute acc body [])) Host.RECEIVE_DISPATCH_ID] ∧
    to_vec (Host.ReflectMsg msgs) = inr body.
Proof.
  intros Hacc Hp. destruct (json_total (Host.ReflectMsg msgs)) as [body Hb%to_vec_ok].
  destruct (json_total (CROk tt : AcknowledgementMsg unit)) as [ack Hack%to_vec_ok].
  eexists _, body. split.
  - unfold Host.ibc_packet_receive. cbn [rm_packet]. unfold catch, mbind, M_bind. rewrite Hp. cbn [of_sum].
    unfold Host.receive_dispatch. cbn -[Host.account_of to_vec wasm_execute]. unfold mbind, M_bind.
    unfold Host.account_of, wasm_execute. rewrite (account_run Host.PREFIX_ACCOUNTS _ sb acc ltac:(by vm_compute) Hacc), Hack, Hb.
    reflexivity.
  - by split.
Qed.

Lemma reflect_run (sr : SR) env info h msgs :
  account_owner sr h → msgs ≠ [] →
  if String.eqb (sender info) h then
    ∃ r, Reflect.execute addr_validate env info (Reflect.ReflectMsg msgs) sr = (Ok r, sr) ∧
      messages r = SubMsg_new <$> msgs
  else Reflect.execute addr_validate env info (Reflect.ReflectMsg msgs) sr =
    (Err (Reflect.NotCurrentOwner h (sender info)), sr).
Proof.
  intros Hown Hne. cbn [Reflect.execute]. unfold Reflect.try_reflect, Reflect.load_config.
  rewrite (bind_Ok _ _ _ _ _ (map_err_Ok Reflect.Std _ _ _ _ (singleton_load_run (T := Reflect.State) Reflect.CONFIG_KEY sr _ ltac:(by vm_compute) Hown))).
  cbn [Reflect.owner]. destruct (String.eqb (sender info) h); cbn [negb]; [|done].
  destruct msgs as [|m msgs]; [done|]. eexists. split; [reflexivity|done].
Qed.

(** ** Who can make the account act *)

(** [reflect] does what its owner says, whichever of its messages it gets. *)
Lemma owner_only (sr : SR) env info msg h r sr' :
  account_owner sr h → Reflect.execute addr_validate env info msg sr = (Ok r, sr') → sender info = h.
Proof.
  intros Hown Hrun.
  pose proof (singleton_load_run (T := Reflect.State) Reflect.CONFIG_KEY sr _ ltac:(by vm_compute) Hown) as Hload.
  destruct msg as [msgs|msgs|a]; cbn [Reflect.execute] in Hrun.
  1, 2: unfold Reflect.try_reflect, Reflect.try_reflect_subcall, Reflect.load_config in Hrun;
    rewrite (bind_Ok _ _ _ _ _ (map_err_Ok Reflect.Std _ _ _ _ Hload)) in Hrun; cbn [Reflect.owner] in Hrun;
    by destruct (String.eqb_spec (sender info) h).
  unfold Reflect.try_change_owner in Hrun. apply bind_Ok_inv in Hrun as (x & s1 & Hrun & _).
  destruct (String.eqb_spec (sender info) h) as [|Hne]; [done|]. exfalso.
  rewrite (on_singleton_run Reflect.CONFIG_KEY _ sr (Err (Reflect.NotCurrentOwner h (sender info)))
    (mkSingleton sr (lp Reflect.CONFIG_KEY)) ltac:(by vm_compute)) in Hrun; [done|].
  unfold SingletonOps.update, SingletonOps.load. unfold account_owner in Hown.
  rewrite (bind_Ok _ _ _ (Reflect.mkState h) (mkSingleton sr (lp Reflect.CONFIG_KEY))).
  - unfold Reflect.change_owner. cbn [Reflect.owner]. by destruct (String.eqb_spec (sender info) h).
  - apply map_err_Ok. rewrite bind_get. cbn [sg_key sg_storage]. by rewrite Hown.
Qed.

(** The entry points of the host, with the messages of their responses. *)
Inductive HostEntry :=
| HInstantiate (info : MessageInfo) (msg : Host.InstantiateMsg)
| HReply (msg : Reply)
| HMigrate
| HOpen (msg : IbcChannelOpenMsg)
| HConnect (msg : IbcChannelConnectMsg)
| HClose (msg : IbcChannelCloseMsg)
| HReceive (msg : IbcPacketReceiveMsg)
| HAck (msg : IbcPacketAckMsg)
| HTimeout (msg : IbcPacketTimeoutMsg).
Definition host_enter (env : Env) (e : HostEntry) : M StdError SB (list SubMsg) :=
  match e with
  | HInstantiate info msg => r ← Host.instantiate env info msg; mret (messages r)
  | HReply msg => r ← Host.reply addr_validate env msg; mret (messages r)
  | HMigrate => r ← Host.migrate env; mret (messages r)
  | HOpen msg => r ← Host.ibc_channel_open env msg; mret []
  | HConnect msg => r ← Host.ibc_channel_connect env msg; mret (br_messages r)
  | HClose msg => r ← Host.ibc_channel_close raw_query env msg; mret (br_messages r)
  | HReceive msg => r ← Host.ibc_packet_receive raw_query env msg; mret (rr_messages r)
  | HAck msg => r ← Host.ibc_packet_ack env msg; mret (br_messages r)
  | HTimeout msg => r ← Host.ibc_packet_timeout env msg; mret (br_messages r)
  end.

(** The calls the host may make: those a packet of the account's channel asks for, and,
    when the channel closes, the one that has the account send its tokens to the host. *)
Definition host_may_call (sb : SB) (env : Env) (e : HostEntry) (acc : Addr) (body : bytes) : Prop :=
  match e with
  | HReceive msg => ∃ msgs, from_slice (packet_data (rm_packet msg)) = inr (Dispatch msgs) ∧
      host_account sb (channel_id (dest (rm_packet msg))) acc ∧ to_vec (Host.ReflectMsg msgs) = inr body
  | HClose msg => ∃ amount, query_all_balances raw_query acc = inr amount ∧
      host_account sb (channel_id (endpoint (CloseMsg.channel msg))) acc ∧
      to_vec (Host.ReflectMsg [MsgBank (BankSend (ci_address (contract env)) amount)]) = inr body
  | _ => False
  end.

Lemma account_of_inv chan (sb : SB) acc sb' :
  Host.account_of chan sb = (Ok acc, sb') → host_account sb chan acc ∧ sb' = sb.
Proof.
  unfold Host.account_of. rewrite load_bucket_run by (by vm_compute). unfold host_account.
  destruct (must_deserialize _); [done|]. by intros [= -> ->].
Qed.

Lemma of_sum_inv {E S T} (r : E + T) (s s' : S) x : of_sum r s = (Ok x, s') → r = inr x ∧ s' = s.
Proof. destruct r; [done|]. by intros [= -> ->]. Qed.

Lemma wasm_execute_inv `{!Json T} acc (msg : T) w :
  wasm_execute acc msg [] = inr w → ∃ body, w = WasmExecute acc body [] ∧ to_vec msg = inr body.
Proof. unfold wasm_execute. destruct (to_vec msg); [done|]. intros [= <-]. eauto. Qed.

Lemma dispatch_calls caller msgs (sb : SB) r sb' m :
  Host.receive_dispatch caller msgs sb = (Ok r, sb') → m ∈ rr_messages r →
  ∃ acc body, sm_msg m = MsgWasm (WasmExecute acc body []) ∧ host_account sb caller acc ∧
    to_vec (Host.ReflectMsg msgs) = inr body.
Proof.
  unfold Host.receive_dispatch. intros (acc & s1 & [Hacc ->]%account_of_inv & H)%bind_Ok_inv Hm.
  apply bind_Ok_inv in H as (ack & s2 & [_ ->]%of_sum_inv & H).
  apply bind_Ok_inv in H as (w & s3 & [(body & -> & Hb)%wasm_execute_inv ->]%of_sum_inv & H).
  injection H as <- _. cbn in Hm. apply list_elem_of_singleton in Hm as ->. eauto.
Qed.

Lemma receive_calls env msg (sb : SB) r sb' m acc body f :
  Host.ibc_packet_receive raw_query env msg sb = (Ok r, sb') → m ∈ rr_messages r →
  sm_msg m = MsgWasm (WasmExecute acc body f) → f = [] ∧ host_may_call sb env (HReceive msg) acc body.
Proof.
  unfold Host.ibc_packet_receive. intros (x & s1 & Hc & H)%bind_Ok_inv Hm Heq.
  destruct x as [e|r0].
  { apply bind_Ok_inv in H as (ack & s2 & _ & H). injection H as <- _. by apply elem_of_nil in Hm. }
  injection H as <- _. unfold catch in Hc.
  match type of Hc with context [?a sb] => destruct (a sb) as [[r1|e|p|] s2] eqn:Hrun; try done end.
  injection Hc as -> _. apply bind_Ok_inv in Hrun as (p & s3 & [Hp ->]%of_sum_inv & Hrun).
  destruct p as [msgs| |].
  - destruct (dispatch_calls _ _ _ _ _ _ Hrun Hm) as (acc' & body' & Heq' & Hacc & Hb).
    rewrite Heq in Heq'. injection Heq' as -> -> ->. split; [done|]. by exists msgs.
  - unfold Host.receive_who_am_i in Hrun. apply bind_Ok_inv in Hrun as (a & s4 & _ & Hrun).
    apply bind_Ok_inv in Hrun as (k & s5 & _ & Hrun). injection Hrun as <- _. by apply elem_of_nil in Hm.
  - unfold Host.receive_balances in Hrun. apply bind_Ok_inv in Hrun as (a & s4 & _ & Hrun).
    apply bind_Ok_inv in Hrun as (l & s5 & _ & Hrun). apply bind_Ok_inv in Hrun as (k & s6 & _ & Hrun).
    injection Hrun as <- _. by apply elem_of_nil in Hm.
Qed.

Lemma close_calls env msg (sb : SB) r sb' m acc body f :
  Host.ibc_channel_close raw_query env msg sb = (Ok r, sb') → m ∈ br_messages r →
  sm_msg m = MsgWasm (WasmExecute acc body f) → f = [] ∧ host_may_call sb env (HClose msg) acc body.
Proof.
  unfold Host.ibc_channel_close. intros (a & s1 & [Hacc ->]%account_of_inv & H)%bind_Ok_inv Hm Heq.
  apply bind_Ok_inv in H as (u & s2 & _ & H). apply bind_Ok_inv in H as (amount & s3 & [Hq ->]%of_sum_inv & H).
  apply bind_Ok_inv in H as (ms & s4 & Hms & H). injection H as <- _. cbn in Hm.
  destruct amount as [|c amount]; [injection Hms as <- _; by apply elem_of_nil in Hm|].
  apply bind_Ok_inv in Hms as (w & s5 & [(body' & -> & Hb)%wasm_execute_inv ->]%of_sum_inv & Hms).
  injection Hms as <- _. apply list_elem_of_singleton in Hm as ->. injection Heq as -> -> <-.
  split; [done|]. eexists. by split_and!.
Qed.

Lemma host_calls env e (sb : SB) l sb' m acc body f :
  host_enter env e sb = (Ok l, sb') → m ∈ l → sm_msg m = MsgWasm (WasmExecute acc body f) →
  f = [] ∧ host_may_call sb env e acc body.
Proof.
  intros H Hm Heq. destruct e as [info msg|msg| |msg|msg|msg|msg|msg|msg]; cbn [host_enter] in H;
    apply bind_Ok_inv in H as (r & s1 & H & Hl); injection Hl as <- <-.
  - unfold Host.instantiate in H. apply bind_Ok_inv in H as (? & ? & _ & H). injection H as <- _. by apply elem_of_nil in Hm.
  - unfold Host.reply, Host.handle_init_callback in H. destruct (reply_result msg); case_match; try done.
    + repeat (apply bind_Ok_inv in H as (? & ? & _ & H)). injection H as <- _. by apply elem_of_nil in Hm.
    + apply bind_Ok_inv in H as (? & ? & _ & H). injection H as <- _. by apply elem_of_nil in Hm.
  - injection H as <- _. by apply elem_of_nil in Hm.
  - by apply elem_of_nil in Hm.
  - unfold Host.ibc_channel_connect in H. repeat (apply bind_Ok_inv in H as (? & ? & _ & H)).
    injection H as <- _. cbn in Hm. apply list_elem_of_singleton in Hm as ->. discriminate Heq.
  - by eapply close_calls.
  - by eapply receive_calls.
  - injection H as <- _. by apply elem_of_nil in Hm.
  - injection H as <- _. by apply elem_of_nil in Hm.
Qed.

(** C17: The account at the other end of a channel is the sender's. When the channel is
    connected, the packet the sender emits, delivered to the host and acknowledged, makes
    the sender learn exactly the account the host keeps for that channel, and funds sent
    through it go to that account. When the admin of the sender sends messages (none of
    them custom), the packet makes the host call that account once, without funds, with
    these messages, and the account, owned by the host, sends exactly them in their order;
    anyone who is not the admin is refused. Everything crosses three serializations.
    Beyond that the account is protected by what calls it: it does nothing, whichever
    message it gets, for anyone but its owner, the host; and of all entry points of the
    host only two call an account, a packet received on the account's own channel, with
    the messages of the packet, and the closing of that channel, which, as documented,
    takes the tokens of the account. *)
Theorem remote_account_obeys (sa : SA) (sb : SB) (sr : SR) ea eb er acc seq relayer epA epB :
  let host := ci_address (contract eb) in
  t_ok sa → host_account sb (channel_id epB) acc → account_owner sr host →
  time (CwStd.block ea) + 3600000000000 < U64 →
  (∀ cmsg, endpoint (ConnectMsg.channel cmsg) = epA →
     ∃ r1 sa1 m packet r2 r3 sa2,
       Sender.ibc_channel_connect ea cmsg sa = (Ok (r1, [m]), sa1) ∧ packet_from epA epB seq m = Some packet ∧
       Host.ibc_packet_receive raw_query eb (mkReceiveMsg packet relayer) sb = (Ok r2, sb) ∧
       Sender.ibc_packet_ack ea (mkAckMsg (mkIbcAck (rr_acknowledgement r2)) packet relayer) sa1 = (Ok r3, sa2) ∧
       ∀ sender_ coin tr, ∃ r timeout,
         Sender.execute addr_validate ea (mkMessageInfo sender_ [coin]) (Sender.SendFunds (channel_id epA) tr) sa2 =
           (Ok (r, [IbcTransfer tr acc coin timeout]), sa2)) ∧
  (∀ info msgs a d, sender_admin sa a → sender_account sa (channel_id epA) d → msgs ≠ [] → MsgCustom ∉ msgs →
     let run := Sender.execute addr_validate ea info (Sender.SendMsgs (channel_id epA) msgs) sa in
     if String.eqb (sender info) a then
       ∃ r1 m packet r2 body call r3, run = (Ok (r1, [m]), sa) ∧ packet_from epA epB seq m = Some packet ∧
         Host.ibc_packet_receive raw_query eb (mkReceiveMsg packet relayer) sb = (Ok r2, sb) ∧
         sm_msg <$> rr_messages r2 = [MsgWasm (WasmExecute acc body [])] ∧
         from_slice body = inr call ∧
         Reflect.execute addr_validate er (mkMessageInfo host []) call sr = (Ok r3, sr) ∧
         sm_msg <$> messages r3 = msgs
     else ∃ e, run = (Err e, sa)) ∧
  (∀ info call r sr', Reflect.execute addr_validate er info call sr = (Ok r, sr') → sender info = host) ∧
  (∀ entry l sb' m acc' body f, host_enter eb entry sb = (Ok l, sb') → m ∈ l →
     sm_msg m = MsgWasm (WasmExecute acc' body f) → f = [] ∧ host_may_call sb eb entry acc' body).
Proof.
  intros host Hok Hacc Hown Ht. split_and!.
  - intros cmsg Hep. destruct (connect_run sa ea cmsg Hok Ht) as (r1 & sa1 & data & timeout & Hc & Hdata & Hok1 & Hacc1).
    rewrite Hep in Hc, Hacc1. set (packet := mkIbcPacket data epA epB seq timeout).
    destruct (who_am_i_answer sb eb packet relayer acc Hacc Hdata) as (r2 & Hrecv & _ & Hack).
    destruct (account_learnt sa1 ea (rr_acknowledgement r2) packet relayer acc Hok1 Hacc1 Hdata Hack)
      as (r3 & sa2 & Hackrun & _ & Hacc2).
    exists r1, sa1, (IbcSendPacket (channel_id epA) data timeout), packet, r2, r3, sa2.
    split_and!; [done|cbn; by rewrite String.eqb_refl|done..|].
    intros sender_ coin tr. by apply (send_funds_run sa2 ea sender_ coin (channel_id epA) tr acc _ Hacc2).
  - intros info msgs a d Hadm Hacc1 Hne Hcustom. cbn zeta.
    pose proof (send_msgs_run sa ea info (channel_id epA) msgs a d Hadm Hacc1 Ht) as Hrun.
    destruct (String.eqb (sender info) a); [|by eexists].
    destruct Hrun as (r1 & data & timeout & Hrun & Hdata). set (packet := mkIbcPacket data epA epB seq timeout).
    destruct (dispatch_answer sb eb packet relayer acc msgs Hacc Hdata) as (r2 & body & Hrecv & Hmsgs & Hbody).
    pose proof (reflect_run sr er (mkMessageInfo host []) host msgs Hown Hne) as Href. cbn [sender] in Href.
    rewrite String.eqb_refl in Href. destruct Href as (r3 & Href & Hsent).
    exists r1, (IbcSendPacket (channel_id epA) data timeout), packet, r2, body, (Reflect.ReflectMsg msgs), r3.
    split_and!; [done|cbn; by rewrite String.eqb_refl|done|by rewrite Hmsgs|by apply same_wire|done|].
    rewrite Hsent, <-list_fmap_compose. clear. induction msgs as [|m msgs IH]; [done|]. rewrite fmap_cons. by rewrite IH.
  - intros info call r sr'. by apply owner_only.
  - intros. by eapply host_calls.
Qed.
End channel.
