(* ===== verification/TestContracts.v ===== *)
(** * The signature contract ([cosmwasm/contracts/crypto-verify/src])

    Queries that check signatures of several chains with the signature functions of the
    host. Hash functions, hexadecimal and RLP are crates and so parameters.

    Then the contracts of the test suites and [cyberpunk]. *)

From S2P Require Import Prelude.
From S2P Require Import Bytes.
From S2P Require Import CwStd.
From S2P Require Import StdError.
From S2P Require Import TypedStorage.
From S2P Require Import StdQueries.

Open Scope Z_scope.

Module CryptoVerify.
(** [msg.rs] *)
Inductive QueryMsg :=
| VerifyCosmosSignature (message signature public_key : Binary)
| VerifyEthereumText (message : string) (signature : Binary) (signer_address : string)
| VerifyEthereumTransaction (from to : string) (nonce gas_limit gas_price value : Z) (data : Binary)
    (chain_id : Z) (r s : Binary) (v : Z)
| VerifyTendermintSignature (message signature public_key : Binary)
| VerifyTendermintBatch (messages signatures public_keys : list Binary)
| ListVerificationSchemes.
Record VerifyResponse := mkVerifyResponse { verifies : bool }.
Record ListVerificationsResponse := mkListVerificationsResponse { verification_schemes : list string }.
Definition list_verifications : list string := ["secp256k1"; "ed25519"; "ed25519_batch"].
Definition VERSION : string := "crypto-verify-v2".

(** What goes into an RLP list. *)
Inductive RlpItem := RlpNumber (n : Z) | RlpBytes (b : bytes).

(** [deps.api] and the crates. *)
Class CryptoApi := {
  api_secp256k1_verify : bytes → bytes → bytes → VerificationError + bool;
  api_secp256k1_recover_pubkey : bytes → bytes → Z → RecoverPubkeyError + bytes;
  api_ed25519_verify : bytes → bytes → bytes → VerificationError + bool;
  api_ed25519_batch_verify : list bytes → list bytes → list bytes → VerificationError + bool;
  sha256_digest : bytes → bytes;
  keccak256_digest : bytes → bytes;
  rlp_list : list RlpItem → bytes
}.

Section contract.
Context `{CryptoApi, TextCodecs} {S : Type}.
Context `{!Json VerifyResponse, !Json ListVerificationsResponse}.
Abbreviation DEPS := (M StdError S).

Definition verified (r : VerificationError + bool) : DEPS VerifyResponse :=
  match r with inr verifies => mret (mkVerifyResponse verifies) | inl err => throw (StdVerificationErr err) end.

(** ** [ethereum.rs] *)
Definition BAD_V : string := "Values of v other than 27 and 28 not supported. Replay protection (EIP-155) cannot be used here.".
Definition get_recovery_param (v : Z) : StdError + Z :=
  if v =? 27 then inr 0 else if v =? 28 then inr 1 else inl (StdGenericErr BAD_V).

(** The subtractions are on [u64]. *)
Definition get_recovery_param_with_chain_id (v chain_id : Z) : DEPS Z :=
  twice ← mul_or_panic U64 chain_id 2;
  d ← sub_or_panic v twice;
  recovery ← sub_or_panic d 35;
  if (recovery =? 0) || (recovery =? 1) then mret recovery
  else throw (StdGenericErr ("Calculated recovery parameter must be 0 or 1 but is " +:+ pretty recovery +:+ ".")).

(** The last 20 bytes of the hash of a public key. *)
Definition ethereum_address_raw (pubkey : bytes) : DEPS bytes :=
  match pubkey with
  | [] => throw (StdGenericErr "Public key must not be empty")
  | tag :: data =>
      if negb (bool_decide (tag = Byte.x04)) then throw (StdGenericErr "Public key must start with 0x04")
      else if negb (length data =? 64)%nat then throw (StdGenericErr "Public key must be 65 bytes long")
      else
        let hash := keccak256_digest data in
        from ← sub_or_panic (Z.of_nat (length hash)) 20;
        mret (drop (Z.to_nat from) hash)
  end.

Definition decode_address (input : string) : DEPS bytes :=
  if negb (String.length input =? 42)%nat then throw (StdGenericErr "Ethereum address must be 42 characters long")
  else if negb (String.prefix "0x" input) then throw (StdGenericErr "Ethereum address must start wit 0x")
  else match hex_decode (String.substring 2 40 input) with
  | inl _ => throw (StdGenericErr "hex decoding error")
  | inr data => if (length data =? 20)%nat then mret data else panic "called `Result::unwrap()` on an `Err` value"
  end.

Definition serialize_unsigned_transaction (to : bytes) (nonce gas_limit gas_price value : Z) (data : bytes)
    (chain_id : Z) : bytes :=
  rlp_list [RlpNumber nonce; RlpNumber gas_price; RlpNumber gas_limit; RlpBytes to; RlpNumber value;
            RlpBytes data; RlpNumber chain_id; RlpBytes []; RlpBytes []].

(** [r] and [s], padded to 32 bytes each. *)
Definition pad_signature (r s : bytes) : DEPS bytes :=
  pr ← sub_or_panic 32 (Z.of_nat (length r));
  ps ← sub_or_panic 32 (Z.of_nat (length s));
  mret (replicate (Z.to_nat pr) Byte.x00 ++ r ++ replicate (Z.to_nat ps) Byte.x00 ++ s).

Definition recover_and_verify (address hash rs : bytes) (recovery : Z) : DEPS bool :=
  match api_secp256k1_recover_pubkey hash rs recovery with
  | inl e => throw (StdRecoverPubkeyErr e)
  | inr calculated_pubkey =>
      calculated_address ← ethereum_address_raw calculated_pubkey;
      if negb (bool_decide (address = calculated_address)) then mret false
      else match api_secp256k1_verify hash rs calculated_pubkey with
      | inr valid => mret valid
      | inl e => throw (StdVerificationErr e)
      end
  end.

Definition verify_transaction (from to : bytes) (nonce gas gas_price value : Z) (data : bytes) (chain_id : Z)
    (r s : bytes) (v : Z) : DEPS bool :=
  let sign_bytes := serialize_unsigned_transaction to nonce gas gas_price value data chain_id in
  let hash := keccak256_digest sign_bytes in
  rs ← pad_signature r s;
  recovery ← get_recovery_param_with_chain_id v chain_id;
  recover_and_verify from hash rs recovery.

(** ** [contract.rs] *)
Definition instantiate (env : Env) (info : MessageInfo) : DEPS Response := mret Response_new.

Definition query_verify_cosmos (message signature public_key : bytes) : DEPS VerifyResponse :=
  verified (api_secp256k1_verify (sha256_digest message) signature public_key).

(** [split_last]. *)
Definition split_last (l : bytes) : option (byte * bytes) :=
  match reverse l with [] => None | x :: l => Some (x, reverse l) end.
Definition eth_message (message : string) : bytes :=
  Byte.x19 :: as_bytes ("Ethereum Signed Message:" +:+ String.String (Ascii.ascii_of_nat 10)
    (pretty (Z.of_nat (String.length message)))) ++ as_bytes message.
Definition query_verify_ethereum_text (message : string) (signature : bytes) (signer_address : string)
    : DEPS VerifyResponse :=
  signer_address ← decode_address signer_address;
  let hash := keccak256_digest (eth_message message) in
  match split_last signature with
  | None => throw (StdGenericErr "Signature must not be empty")
  | Some (v, rs) =>
      recovery ← of_sum (get_recovery_param (Z_of_byte v));
      verifies ← recover_and_verify signer_address hash rs recovery;
      mret (mkVerifyResponse verifies)
  end.

Definition query_verify_ethereum_transaction (from to : string) (nonce gas_limit gas_price value : Z) (data : bytes)
    (chain_id : Z) (r s : bytes) (v : Z) : DEPS VerifyResponse :=
  from ← decode_address from;
  to ← decode_address to;
  verifies ← verify_transaction from to nonce gas_limit gas_price value data chain_id r s v;
  mret (mkVerifyResponse verifies).

Definition query_verify_tendermint (message signature public_key : bytes) : DEPS VerifyResponse :=
  verified (api_ed25519_verify message signature public_key).
Definition query_verify_tendermint_batch (messages signatures public_keys : list bytes) : DEPS VerifyResponse :=
  verified (api_ed25519_batch_verify messages signatures public_keys).
Definition query_list_verifications : DEPS ListVerificationsResponse :=
  mret (mkListVerificationsResponse list_verifications).

Definition query (env : Env) (msg : QueryMsg) : DEPS Binary :=
  match msg with
  | VerifyCosmosSignature message signature public_key =>
      r ← query_verify_cosmos message signature public_key; of_sum (to_vec r)
  | VerifyEthereumText message signature signer_address =>
      r ← query_verify_ethereum_text message signature signer_address; of_sum (to_vec r)
  | VerifyEthereumTransaction from to nonce gas_limit gas_price value data chain_id r s v =>
      x ← query_verify_ethereum_transaction from to nonce gas_limit gas_price value data chain_id r s v; of_sum (to_vec x)
  | VerifyTendermintSignature message signature public_key =>
      r ← query_verify_tendermint message signature public_key; of_sum (to_vec r)
  | VerifyTendermintBatch messages signatures public_keys =>
      r ← query_verify_tendermint_batch messages signatures public_keys; of_sum (to_vec r)
  | ListVerificationSchemes => r ← query_list_verifications; of_sum (to_vec r)
  end.
End contract.

(** ** Facts *)
Section facts.
Context `{CryptoApi, TextCodecs} {S : Type}.
Implicit Types (st : S).

(** A positive answer means what it says: the key that the signature recovers hashes to
    the address, and the signature verifies under that key. *)
Lemma recover_and_verify_sound address hash rs recovery st st' :
  recover_and_verify address hash rs recovery st = (Ok true, st') →
  ∃ pubkey, api_secp256k1_recover_pubkey hash rs recovery = inr pubkey ∧
    ethereum_address_raw pubkey st = (Ok address, st) ∧ api_secp256k1_verify hash rs pubkey = inr true.
Proof.
  unfold recover_and_verify. destruct (api_secp256k1_recover_pubkey hash rs recovery) as [e|pk]; [done|].
  intros (a & s1 & Ha & Hrun)%bind_Ok_inv. exists pk. split; [done|].
  assert (s1 = st) as ->.
  { unfold ethereum_address_raw in Ha. destruct pk as [|t d]; [done|]. destruct (negb _); [done|].
    destruct (negb _); [done|]. apply bind_Ok_inv in Ha as (f & s2 & Hs & Ha). unfold sub_or_panic in Hs.
    destruct (_ <=? _); [|done]. injection Hs as <- <-. by injection Ha. }
  case_bool_decide; cbn in Hrun; [|done]. subst a. split; [done|].
  destruct (api_secp256k1_verify hash rs pk); [done|]. by injection Hrun as ->.
Qed.

(** The recovery parameter of a transaction: 35 and 36 above twice the chain id; any
    smaller [v] makes the query panic. *)
Lemma recovery_with_chain_id v chain_id st :
  in_width U64 v → 0 ≤ chain_id → chain_id * 2 < U64 →
  (get_recovery_param_with_chain_id v chain_id st).1 =
    if v <? chain_id * 2 + 35 then Panic "attempt to subtract with overflow"
    else if v - chain_id * 2 - 35 <=? 1 then Ok (v - chain_id * 2 - 35)
    else Err (StdGenericErr ("Calculated recovery parameter must be 0 or 1 but is "
                +:+ pretty (v - chain_id * 2 - 35) +:+ ".")).
Proof.
  intros [Hv Hvw] Hc Hcw. unfold get_recovery_param_with_chain_id, mul_or_panic, sub_or_panic.
  destruct (Z.ltb_spec (chain_id * 2) U64); [|lia]. rewrite bind_ret_l.
  destruct (Z.leb_spec (chain_id * 2) v) as [Hle|Hgt].
  2: { by destruct (Z.ltb_spec v (chain_id * 2 + 35)); [|lia]. }
  rewrite bind_ret_l. destruct (Z.leb_spec 35 (v - chain_id * 2)) as [Hge|Hlt].
  2: { by destruct (Z.ltb_spec v (chain_id * 2 + 35)); [|lia]. }
  rewrite bind_ret_l. destruct (Z.ltb_spec v (chain_id * 2 + 35)); [lia|].
  set (x := v - chain_id * 2 - 35). assert (0 ≤ x) by lia.
  destruct (Z.leb_spec x 1).
  - assert (x = 0 ∨ x = 1) as [Hx|Hx] by lia; rewrite Hx; done.
  - destruct (Z.eqb_spec x 0); [lia|]. destruct (Z.eqb_spec x 1); [lia|]. done.
Qed.

(** A signature part of more than 32 bytes makes the query of a transaction panic. *)
Lemma long_signature_panics from to nonce gas gas_price value data chain_id r s v st :
  32 < Z.of_nat (length r) →
  verify_transaction from to nonce gas gas_price value data chain_id r s v st = (Panic "attempt to subtract with overflow", st).
Proof.
  intros Hr. unfold verify_transaction. cbn zeta. apply bind_Panic. unfold pad_signature. apply bind_Panic.
  unfold sub_or_panic. by destruct (Z.leb_spec (Z.of_nat (length r)) 32); [lia|].
Qed.
End facts.

End CryptoVerify.

(** * Contracts of the test suites ([test-contract], [test-contract-cov],
      [cosmwasm/contracts/cyberpunk])

    The first two are the contracts the tests of the simulator run: one writes before it
    fails and queries itself while it runs, the other has branches to be covered. They
    keep a number with [cw-storage-plus], a crate, whose [Item] is a parameter. *)

(** An [Item] of [cw-storage-plus], and what its documentation promises. *)
Class Item (St T : Type) := {
  item_save : T → St → StdError + St;
  item_load : St → StdError + T
}.
Class ItemSpec (St T : Type) `{Item St T} : Prop := {
  item_load_save x st st' : item_save x st = inr st' → item_load st' = inr x
}.
Definition save {E St T} `{Item St T} (from : StdError → E) (x : T) : M E St unit :=
  st ← get; match item_save x st with inr st' => put st' | inl e => throw (from e) end.
Definition load {E St T} `{Item St T} (from : StdError → E) : M E St T :=
  st ← get; match item_load st with inr x => mret x | inl e => throw (from e) end.

Inductive ContractError := Std (e : StdError) | Unauthorized.

(** ** [test-contract] *)
Module TestContract.
Inductive ExecuteMsg := TestQuerySelf | TestAtomic.
Inductive QueryMsg := ReadNumber.
Record ReadNumberResponse := mkReadNumberResponse { value : Z }.

Section contract.
(** [NUMBER]. *)
Context `{!Item St Z} (raw_query : bytes → QuerierResult).
Context `{!Json QueryMsg, !Json ReadNumberResponse, !Json (Full.QueryRequest unit)}.

Definition instantiate (env : Env) (info : MessageInfo) : M ContractError St Response :=
  _ ← save Std 1; mret Response_new.

Definition execute_write_and_query_self (env : Env) : M ContractError St Response :=
  _ ← save Std 2;
  res ← match query_wasm_smart raw_query (ci_address (contract env)) ReadNumber with
        | inr res => mret res
        | inl _ => panic "called `Result::unwrap()` on an `Err` value"
        end;
  _ ← save Std 1;
  mret (add_event (Event_add_attribute "value" (pretty (value res)) (Event_new "read_number")) Response_new).
Definition execute_write_and_panic : M ContractError St Response :=
  _ ← save Std 100; throw Unauthorized.

Definition execute (env : Env) (info : MessageInfo) (msg : ExecuteMsg) : M ContractError St Response :=
  match msg with
  | TestQuerySelf => execute_write_and_query_self env
  | TestAtomic => execute_write_and_panic
  end.

Definition query (env : Env) (msg : QueryMsg) : M StdError St Binary :=
  match msg with
  | ReadNumber =>
      st ← get;
      match item_load st with
      | inl _ => panic "called `Result::unwrap()` on an `Err` value"
      | inr number =>
          match to_vec (mkReadNumberResponse number) with
          | inr b => mret b
          | inl _ => panic "called `Result::unwrap()` on an `Err` value"
          end
      end
  end.
End contract.

(** [TestAtomic] fails after it wrote: only a roll-back by the caller restores the number. *)
Lemma test_atomic_leaves_a_write `{!Item St Z, !ItemSpec St Z} raw_query `{!Json QueryMsg, !Json ReadNumberResponse,
    !Json (Full.QueryRequest unit)} env info (st : St) st1 :
  item_save 100 st = inr st1 →
  execute raw_query env info TestAtomic st = (Err Unauthorized, st1) ∧ item_load st1 = inr 100.
Proof.
  intros Hs. split; [|by eapply item_load_save]. cbn. unfold execute_write_and_panic, save.
  rewrite bind_assoc, bind_get, Hs. done.
Qed.
End TestContract.

(** ** [test-contract-cov] *)
Module TestContractCov.
Inductive ExecuteMsg := ProcessData (data1 : string) (data2 : Z).
Section contract.
Context `{!Item St Z}.

(** The result of the save is ignored. *)
Definition instantiate (env : Env) (info : MessageInfo) : M ContractError St Response :=
  _ ← catch (save Std 4919); mret Response_new.

Definition process_data (data1 : string) (data2 : Z) : M ContractError St Response :=
  number ← load Std;
  if number =? data2 then
    mret (add_event (Event_add_attribute "value" "1" (Event_new "branch1")) Response_new)
  else if String.eqb data1 "DreamAcademy" then
    mret (add_event (Event_add_attribute "value" "1" (Event_new "branch2")) Response_new)
  else throw Unauthorized.
Definition execute (env : Env) (info : MessageInfo) (msg : ExecuteMsg) : M ContractError St Response :=
  match msg with ProcessData data1 data2 => process_data data1 data2 end.
End contract.
End TestContractCov.

(** ** [cyberpunk] *)
Module Cyberpunk.
Inductive ExecuteMsg := Argon2 (mem_cost time_cost : Z) | MirrorEnv.
Inductive QueryMsg := QMirrorEnv.
Record Argon2Config := mkArgon2Config { mem_cost : Z; time_cost : Z; lanes : Z; hash_length : Z }.
Section contract.
(** [argon2::hash_encoded] of the Argon2i variant, version 13, sequentially. *)
Context {S : Type} (hash_encoded : bytes → bytes → Argon2Config → string + string) `{!Json Env}.

Definition instantiate (env : Env) (info : MessageInfo) : M ContractError S Response :=
  mret (add_attribute "Let the" "hacking begin" Response_new).
Definition argon2 (mem_cost time_cost : Z) : M ContractError S Response :=
  match hash_encoded (as_bytes "password") (as_bytes "othersalt") (mkArgon2Config mem_cost time_cost 4 32) with
  | inl e => throw (Std (StdGenericErr ("hash_encoded errored: " +:+ e)))
  | inr hash => mret (set_data (as_bytes hash) Response_new)
  end.
Definition mirror_env (env : Env) : M ContractError S Response :=
  match to_vec env with inr b => mret (set_data b Response_new) | inl e => throw (Std e) end.
Definition execute (env : Env) (info : MessageInfo) (msg : ExecuteMsg) : M ContractError S Response :=
  match msg with
  | Argon2 mem_cost time_cost => argon2 mem_cost time_cost
  | MirrorEnv => mirror_env env
  end.
Definition query (env : Env) (msg : QueryMsg) : M StdError S Binary :=
  match msg with QMirrorEnv => of_sum (to_vec env) end.
End contract.
End Cyberpunk.
