(* ===== verification/GuestDatabase.v ===== *)
(** * The database of a contract is a map

    The imports [db_read], [db_write] and [db_remove] go through Wasm regions with
    length limits, the read-only flag, a storage handle and the shared cell of the
    contract. Seen from the contract they are the three operations of a map:
    sequences of them refine the same sequences on an abstract map, and reach no
    other contract.

    The second part extends this to the storage calls in the memory of the contract. *)

From S2P Require Import Prelude.
From S2P Require Import Bytes.
From S2P Require Import CwStd.
From S2P Require Import StdError.
From S2P Require Import Errors.
From S2P Require Import DebugLog.
From S2P Require Import Storage.
From S2P Require Import Namespaces.
From S2P Require Import TypedStorage.
From S2P Require Import Client.
From S2P Require Import States.
From S2P Require Import Memory.
From S2P Require Import Crypto.
From S2P Require Import Gas.
From S2P Require Import Host.
From S2P Require Import Api.
From S2P Require Import Vm.
From S2P Require Import HostRefines.
From S2P Require Import Guest.
From S2P Require Import GuestRegions.
From S2P Require Import GuestImports.
From S2P Require Import GuestAbi.

Open Scope Z_scope.

(** ** Specification *)
Inductive db_op := DbRead (key : bytes) | DbWrite (key value : bytes) | DbRemove (key : bytes).

Definition db_spec (op : db_op) (m : ContractStorage) : option bytes * ContractStorage :=
  match op with
  | DbRead key => (m !! key, m)
  | DbWrite key value => (None, <[key := value]> m)
  | DbRemove key => (None, delete key m)
  end.

Fixpoint db_specs (ops : list db_op) (m : ContractStorage)
    : list (option bytes) * ContractStorage :=
  match ops with
  | [] => ([], m)
  | op :: ops =>
      let (r, m) := db_spec op m in
      let (rs, m) := db_specs ops m in (r :: rs, m)
  end.

(** The keys and values are within the limits of the imports. *)
Definition db_op_fits (op : db_op) : Prop :=
  match op with
  | DbRead key | DbRemove key => Z.of_nat (length key) ≤ MAX_LENGTH_DB_KEY
  | DbWrite key value =>
      Z.of_nat (length key) ≤ MAX_LENGTH_DB_KEY ∧ Z.of_nat (length value) ≤ MAX_LENGTH_DB_VALUE
  end.

(** What the imports refuse, in the order of their checks: a write with a read-only
    storage, and keys and values over the limits. *)
Definition too_long (d : bytes) (limit : Z) : option VmError :=
  if limit <? Z.of_nat (length d) then Some (CommunicationErr (RegionLengthTooBig (Z.of_nat (length d)) limit))
  else None.
Definition first_error (a b : option VmError) : option VmError := match a with Some _ => a | None => b end.
Definition host_refusal (readonly : bool) (op : db_op) : option VmError :=
  match op with
  | DbRead key => too_long key MAX_LENGTH_DB_KEY
  | DbWrite key value =>
      if readonly then Some WriteAccessDenied
      else first_error (too_long key MAX_LENGTH_DB_KEY) (too_long value MAX_LENGTH_DB_VALUE)
  | DbRemove key => if readonly then Some WriteAccessDenied else too_long key MAX_LENGTH_DB_KEY
  end.

Section database.
Context {C W : Type} {HC : CwClientBackend C} {HX : Externals}.
Abbreviation ENV := (Environment C W).
Abbreviation VM := (M VmError ENV).

(** ** The same operations through the imports *)
Definition db_run (op : db_op) : VM (option bytes) :=
  match op with
  | DbRead key => do_db_read key
  | DbWrite key value => _ ← do_db_write key value; mret None
  | DbRemove key => _ ← do_db_remove key; mret None
  end.

Fixpoint db_runs (ops : list db_op) : VM (list (option bytes)) :=
  match ops with
  | [] => mret []
  | op :: ops => r ← db_run op; rs ← db_runs ops; mret (r :: rs)
  end.

(** What no operation changes: the flag, and every contract but the one whose
    cell the instance holds. *)
Record db_frame (v v' : ENV) : Prop := mk_db_frame {
  dbf_readonly : i_readonly (v_inst v') = i_readonly (v_inst v);
  dbf_shared a : i_cell (v_inst v) = SharedCell a ↔ i_cell (v_inst v') = SharedCell a;
  dbf_others a : i_cell (v_inst v) ≠ SharedCell a →
    contract_states (q_states (v_querier v')) !! a = contract_states (q_states (v_querier v)) !! a;
  dbf_code a : code <$> contract_states (q_states (v_querier v')) !! a
             = code <$> contract_states (q_states (v_querier v)) !! a
}.

Instance db_frame_refl : Reflexive db_frame.
Proof. by intros v. Qed.
Instance db_frame_trans : Transitive db_frame.
Proof.
  intros v1 v2 v3 [R1 S1 O1 K1] [R2 S2 O2 K2]. split.
  - congruence.
  - intros a. by rewrite S1.
  - intros a Ha. rewrite O2; [by apply O1|]. by rewrite <-S1.
  - intros a. congruence.
Qed.

Lemma writeback_read m its ctr (v : ENV) cell :
  cell_read v = Some cell →
  cell_read (storage_writeback (mkStorage m its ctr) v) = Some m ∧
  db_frame v (storage_writeback (mkStorage m its ctr) v).
Proof.
  destruct v as [q [api [a|p] its0 ctr0 ro w]]; unfold cell_read, storage_writeback; cbn.
  - intros Ha. destruct (contract_states (q_states q) !! a) as [cs|] eqn:Hcs; [|done].
    rewrite lookup_alter_eq, Hcs. cbn. split; [done|]. split; cbn; try done.
    + intros b Hb. rewrite lookup_alter_ne; [done|]. congruence.
    + intros b. destruct (decide (b = a)) as [->|Hne].
      * by rewrite lookup_alter_eq, Hcs.
      * by rewrite lookup_alter_ne.
  - by intros [= ->].
Qed.

Lemma with_storage_run {A} conv (m : M BackendError RpcMockStorage A) (v : ENV) cell a st :
  cell_read v = Some cell →
  m (mkStorage cell (i_iterators (v_inst v)) (i_iterator_ctr (v_inst v))) = (Ok a, st) →
  with_storage conv m v = (Ok a, storage_writeback st v).
Proof. intros Hc Hm. unfold with_storage. by rewrite Hc, Hm. Qed.

Lemma read_region_fits d n (v : ENV) : Z.of_nat (length d) ≤ n → read_region d n v = (Ok d, v).
Proof. intros H. unfold read_region. by destruct (Z.ltb_spec n (Z.of_nat (length d))); [lia|]. Qed.

Lemma db_run_refines op v cell :
  cell_read v = Some cell → i_readonly (v_inst v) = false → db_op_fits op →
  ∃ v', db_run op v = (Ok (db_spec op cell).1, v') ∧
    cell_read v' = Some (db_spec op cell).2 ∧ db_frame v v'.
Proof.
  intros Hc Hro Hfit. destruct op as [key|key value|key]; cbn [db_op_fits db_spec fst snd] in *;
    eexists; (split; [|by eapply writeback_read]).
  - unfold db_run, do_db_read. erewrite bind_Ok by by apply read_region_fits.
    by erewrite with_storage_run.
  - destruct Hfit as [Hk Hv]. unfold db_run, do_db_write. rewrite bind_assoc, bind_get.
    unfold mbind at 1, M_bind at 1. rewrite Hro. erewrite !bind_Ok by by apply read_region_fits.
    by erewrite with_storage_run.
  - unfold db_run, do_db_remove. rewrite bind_assoc, bind_get.
    unfold mbind at 1, M_bind at 1. rewrite Hro. erewrite !bind_Ok by by apply read_region_fits.
    by erewrite with_storage_run.
Qed.

Lemma limited_read_run d n (v : ENV) :
  read_region d n v = (match too_long d n with Some x => Err x | None => Ok d end, v).
Proof. unfold read_region, too_long. by destruct (n <? Z.of_nat (length d)). Qed.

(** One operation, whether it is refused or not. *)
Lemma db_run_total op v cell :
  cell_read v = Some cell →
  let refused := host_refusal (i_readonly (v_inst v)) op in
  ∃ v', db_run op v = (match refused with Some x => Err x | None => Ok (db_spec op cell).1 end, v') ∧
    cell_read v' = Some (match refused with Some _ => cell | None => (db_spec op cell).2 end) ∧ db_frame v v'.
Proof.
  intros Hc refused. destruct refused as [x|] eqn:Hr; subst refused.
  - exists v. split_and!; [|done..]. destruct op as [key|key value|key]; cbn [host_refusal] in Hr;
      unfold db_run, do_db_read, do_db_write, do_db_remove.
    + apply bind_Err. by rewrite limited_read_run, Hr.
    + rewrite bind_assoc, bind_get. apply bind_Err. destruct (i_readonly (v_inst v)); [by simplify_eq|].
      unfold mbind, M_bind. rewrite limited_read_run. destruct (too_long key _); [by simplify_eq/=|].
      cbn in Hr. by rewrite limited_read_run, Hr.
    + rewrite bind_assoc, bind_get. apply bind_Err. destruct (i_readonly (v_inst v)); [by simplify_eq|].
      apply bind_Err. by rewrite limited_read_run, Hr.
  - destruct op as [key|key value|key]; cbn [host_refusal] in Hr.
    + eexists. split; [|by eapply writeback_read]. unfold db_run, do_db_read.
      unfold mbind, M_bind. rewrite limited_read_run, Hr. by erewrite with_storage_run.
    + destruct (i_readonly (v_inst v)) eqn:Hro; [done|]. unfold first_error in Hr.
      destruct (too_long key _) eqn:Hk; [done|].
      eexists. split; [|by eapply writeback_read]. unfold db_run, do_db_write. rewrite bind_assoc, bind_get.
      unfold mbind, M_bind. rewrite Hro, limited_read_run, Hk, limited_read_run, Hr. by erewrite with_storage_run.
    + destruct (i_readonly (v_inst v)) eqn:Hro; [done|].
      eexists. split; [|by eapply writeback_read]. unfold db_run, do_db_remove. rewrite bind_assoc, bind_get.
      unfold mbind, M_bind. rewrite Hro, limited_read_run, Hr. by erewrite with_storage_run.
Qed.

(** Sequences of reads, writes and removals a contract makes refine the same
    sequences on a map: as long as the call may write and the keys and values are
    within the limits, every operation succeeds, every read returns what the map
    holds, the storage ends with the content of the map, and no other contract and
    no code is touched. *)
Theorem database_refines_map ops v cell :
  cell_read v = Some cell → i_readonly (v_inst v) = false → Forall db_op_fits ops →
  ∃ v', db_runs ops v = (Ok (db_specs ops cell).1, v') ∧
    cell_read v' = Some (db_specs ops cell).2 ∧ db_frame v v'.
Proof.
  intros Hc Hro Hfit. revert v cell Hc Hro.
  induction Hfit as [|op ops Hop Hops IH]; intros v cell Hc Hro; [by exists v|].
  destruct (db_run_refines op v cell Hc Hro Hop) as (v1 & H1 & Hc1 & Hf1).
  destruct (IH v1 _ Hc1) as (v2 & H2 & Hc2 & Hf2); [by rewrite (dbf_readonly _ _ Hf1)|].
  exists v2. cbn [db_runs db_specs]. rewrite (bind_Ok _ _ _ _ _ H1), (bind_Ok _ _ _ _ _ H2).
  destruct (db_spec op cell) as [r m]; cbn in *. destruct (db_specs ops m) as [rs m']; cbn in *.
  split_and!; [done..|]. by etrans.
Qed.
End database.

(** * From a contract's storage calls to a map

    The whole way of a storage access: [ExternalStorage] in the contract, regions in
    its memory, the imports of the host, the storage of the simulator. Sequences of
    [get], [set] and [remove] a contract makes are the same sequences on a map. *)

(** A call with its arguments as slices of the contract's memory. *)
Inductive guest_op := GGet (key : Slice) | GSet (key value : Slice) | GRemove (key : Slice).

(** The operation on byte strings a call stands for. *)
Definition op_at (h : heap) (g : guest_op) (op : db_op) : Prop :=
  match g, op with
  | GGet key, DbRead k => slice_at h key k
  | GSet key value, DbWrite k v => slice_at h key k ∧ slice_at h value v
  | GRemove key, DbRemove k => slice_at h key k
  | _, _ => False
  end.

(** What a read returns: nothing, or a vector with the bytes. *)
Definition result_at (h : heap) (r : option bytes) (v : option Vec) : Prop :=
  match r, v with
  | None, None => True
  | Some d, Some v => vec_at h v d
  | _, _ => False
  end.

(** Memory that suffices for an operation, and for a sequence of them. *)
Definition op_room (op : db_op) (m : ContractStorage) : Z :=
  2 * REGION_ROOM + match (db_spec op m).1 with Some d => result_room (Z.of_nat (length d)) | None => 0 end.
Fixpoint ops_room (ops : list db_op) (m : ContractStorage) : Z :=
  match ops with
  | [] => 0
  | op :: ops => op_room op m + ops_room ops (db_spec op m).2
  end.

Lemma op_at_mono h h' g op : h ⊆ h' → op_at h g op → op_at h' g op.
Proof. intros Hs. destruct g, op; try done; cbn; intuition eauto using slice_at_mono. Qed.
Lemma result_at_mono h h' r v : h ⊆ h' → result_at h r v → result_at h' r v.
Proof. intros Hs. destruct r, v; try done. cbn. by apply vec_at_mono. Qed.
Lemma op_room_pos op m : 2 * REGION_ROOM ≤ op_room op m.
Proof. unfold op_room, result_room, REGION_SIZE, OVERHEAD. case_match; lia. Qed.
Lemma ops_room_pos ops m : 0 ≤ ops_room ops m.
Proof.
  revert m. induction ops as [|op ops IH]; intros m; cbn; [done|].
  pose proof (op_room_pos op m). pose proof (IH (db_spec op m).2).
  unfold REGION_ROOM, REGION_SIZE, OVERHEAD in *. lia.
Qed.

Section GuestDatabase.
Context {C W : Type} {HC : CwClientBackend C} {HX : Externals}.
Context `{HWI : !WasmerInstance W} `{HWS : !WasmerSpec W} {HP : WasmPtr} `{HPS : !WasmPtrSpec}.
Context `{HAl : !Allocator W} `{HAS : !AllocatorSpec W} {HCv : Curves}.
Context `{HJ : !Json (SystemResult (ContractResult Binary))}.
Context (query_raw : bytes → M BackendError (RpcMockQuerier C)
                               (SystemResult (ContractResult Binary))).
Context (panic_text : string → string) (exported : list string).
Context (Hallocate : "allocate" ∈ exported).

Abbreviation SHARED := (RpcMockQuerier C).
Abbreviation ENV := (Host.Environment RpcMockApi StorageHandle unit W SHARED).
Abbreviation G := (M string ENV).
Abbreviation at_heap := (at_heap (A := RpcMockApi) (S := StorageHandle) (Q := unit) (X := SHARED) exported).
#[local] Instance db_backend : VmBackend RpcMockApi StorageHandle unit SHARED := simulator_backend query_raw.

Definition ext_run (g : guest_op) : G (option Vec) :=
  match g with
  | GGet key => ext_get panic_text key
  | GSet key value => _ ← ext_set panic_text key value; mret None
  | GRemove key => _ ← ext_remove panic_text key; mret None
  end.

Fixpoint ext_runs (gs : list guest_op) : G (list (option Vec)) :=
  match gs with
  | [] => mret []
  | g :: gs => r ← ext_run g; rs ← ext_runs gs; mret (r :: rs)
  end.

(** What a call is refused for: [set] panics on an empty value before it asks the host. *)
Definition db_refusal (readonly : bool) (op : db_op) : option string :=
  match op with
  | DbWrite _ [] => Some (panic_text empty_value)
  | _ => VmError_to_string <$> host_refusal readonly op
  end.

(** The specification of a sequence: the first refused call ends it with its message, and
    the map stays as the calls before it left it. *)
Fixpoint db_session (readonly : bool) (ops : list db_op) (m : ContractStorage)
    : (string + list (option bytes)) * ContractStorage :=
  match ops with
  | [] => (inr [], m)
  | op :: ops =>
      match db_refusal readonly op with
      | Some msg => (inl msg, m)
      | None =>
          let '(r, m1) := db_spec op m in
          match db_session readonly ops m1 with
          | (inr rs, m2) => (inr (r :: rs), m2)
          | (inl msg, m2) => (inl msg, m2)
          end
      end
  end.

(** The instance serves a contract whose storage holds [m]. *)
Record serving (e : ENV) (readonly : bool) (m : ContractStorage) : Prop := {
  sv_ready : host_ready e;
  sv_readonly : storage_readonly (e_data e) = readonly;
  sv_cell : ∃ h, cd_storage (e_data e) = Some h ∧ handle_cell h (shared e) = Some m
}.

(** The storages of other contracts, by the cell the instance holds. *)
Definition other_storages (e : ENV) (a : string) : option ContractState :=
  match h_cell <$> cd_storage (e_data e) with
  | Some (SharedCell b) => delete b (contract_states (q_states (shared e))) !! a
  | _ => contract_states (q_states (shared e)) !! a
  end.

(** The byte-level operation in the environment without the instance. *)
Lemma op_outside e ro m op :
  serving e ro m →
  let refused := host_refusal ro op in
  ∃ o, lift (db_run op) (outside e) =
      (match refused with Some x => Err x | None => Ok (db_spec op m).1 end, o) ∧
    ∀ e', outside e' = o →
      serving e' ro (match refused with Some _ => m | None => (db_spec op m).2 end) ∧
      ∀ a, other_storages e' a = other_storages e a.
Proof.
  intros [[Hst Hq Hdb Hg] Hro (h & Hh & Hcell)] refused.
  destruct (db_run_total op (view h e) m) as (v' & Hrun & Hc' & Hf); [done|].
  change (i_readonly (v_inst (view h e))) with (storage_readonly (e_data e)) in Hrun, Hc'.
  rewrite Hro in Hrun, Hc'. fold refused in Hrun, Hc'.
  exists (update v' (outside e)). split.
  { rewrite (lift_run _ _ h) by done. change (view h (outside e)) with (view h e). by rewrite Hrun. }
  intros e' Ho.
  assert (outside (update v' e) = outside e') as Ho' by (by rewrite Ho). clear Ho.
  assert (cd_storage (e_data e') = Some (handle_of v') ∧ shared e' = v_querier v' ∧
    storage_readonly (e_data e') = ro) as (Hs' & Hx' & Hr').
  { pose proof (dbf_readonly _ _ Hf) as Hrf. rewrite <-Hro.
    destruct e' as [? ? ? [? ? ? ? ?] ? ?], e as [? ? ? [? ? ? ? ?] ? ?]. unfold outside, set_instance, set_data, update in Ho'.
    cbn in *. injection Ho'. naive_solver. }
  split.
  - split; [|done|by exists (handle_of v'); rewrite Hx'].
    apply (host_ready_outside (update v' e)); [done|]. split; [|done..].
    exists (handle_of v'). split; [done|]. by eexists.
  - intros a. unfold other_storages. rewrite Hs', Hh, Hx'. cbn [fmap option_fmap option_map].
    change (h_cell (handle_of v')) with (i_cell (v_inst v')).
    pose proof (dbf_shared _ _ Hf) as Hiff. pose proof (dbf_others _ _ Hf a) as Ho. cbn in Hiff, Ho.
    destruct (h_cell h) as [b|p]; [rewrite (proj1 (Hiff b) eq_refl)|].
    + destruct (decide (a = b)) as [->|]; [by rewrite !lookup_delete_eq|].
      rewrite !lookup_delete_ne by done. apply Ho. congruence.
    + destruct (i_cell (v_inst v')) as [b|p'] eqn:Hb; [by destruct (Hiff b) as [_ ?]; naive_solver|].
      by apply Ho.
Qed.

(** A byte-level operation with a result that is not used. *)
Lemma lift_unit (n : M VmError (Vm.Environment C unit) unit) (e : ENV) r o :
  lift (_ ← n; mret (None (A := bytes))) e = (Ok r, o) → r = None ∧ lift n e = (Ok tt, o).
Proof.
  unfold lift. destruct (cd_storage (e_data e)) as [h|]; [|done].
  unfold mbind, M_bind. destruct (n (view h e)) as [[[]| | |] v]; cbn; intros [= <- <-]; done.
Qed.
Lemma lift_unit_Err (n : M VmError (Vm.Environment C unit) unit) (e : ENV) x o :
  lift (_ ← n; mret (None (A := bytes))) e = (Err x, o) → lift n e = (Err x, o).
Proof.
  unfold lift. destruct (cd_storage (e_data e)) as [h|]; [|by intros [= <- <-]].
  unfold mbind, M_bind. destruct (n (view h e)) as [[[]| | |] v]; cbn; intros [= <- <-]; done.
Qed.
Lemma err_of {T} (r : outcome string T * ENV) msg : r.1 = Err msg → r = (Err msg, r.2).
Proof. by destruct r; cbn; intros ->. Qed.

(** One call that the host refuses. *)
Lemma ext_run_refused e h ρ ro m g op x :
  at_heap e h ρ → serving e ro m → op_at h g op → op_room op m ≤ ρ →
  (∀ k, op ≠ DbWrite k []) → host_refusal ro op = Some x →
  ∃ e', ext_run g e = (Err (VmError_to_string x), e') ∧ serving e' ro m ∧
    ∀ a, other_storages e' a = other_storages e a.
Proof.
  intros He Hs Hg Hρ Hne Hx. destruct (op_outside e ro m op Hs) as (o & Hrun & Hpost).
  rewrite Hx in Hrun, Hpost. pose proof (op_room_pos op m) as Hpos. pose proof (sv_ready _ _ _ Hs) as Hr.
  assert (0 ≤ REGION_ROOM) by (unfold REGION_ROOM, REGION_SIZE, OVERHEAD; lia).
  destruct g as [key|key value|key], op as [k|k v|k]; try done; cbn [op_at db_run ext_run] in *.
  - pose proof (get_abi query_raw panic_text exported Hallocate e h ρ key k He Hr Hg ltac:(lia)) as Habi.
    unfold ends in Habi. rewrite Hrun in Habi. destruct Habi as [Hres%err_of Ho].
    eexists. split; [exact Hres|by apply Hpost].
  - destruct Hg as (Hk & Hv). apply lift_unit_Err in Hrun.
    pose proof (set_abi query_raw panic_text exported e h ρ key value k v He Hr Hk Hv
      ltac:(by intros ->; apply (Hne k)) ltac:(lia)) as Habi.
    unfold ends in Habi. rewrite Hrun in Habi. destruct Habi as [Hres%err_of Ho].
    eexists. split; [by apply bind_Err|by apply Hpost].
  - apply lift_unit_Err in Hrun.
    pose proof (remove_abi query_raw panic_text exported e h ρ key k He Hr Hg ltac:(lia)) as Habi.
    unfold ends in Habi. rewrite Hrun in Habi. destruct Habi as [Hres%err_of Ho].
    eexists. split; [by apply bind_Err|by apply Hpost].
Qed.

(** One call that it serves. *)
Lemma ext_run_served e h ρ ro m g op :
  at_heap e h ρ → serving e ro m → op_at h g op → op_room op m ≤ ρ →
  (∀ k, op ≠ DbWrite k []) → host_refusal ro op = None →
  ∃ r e' h', ext_run g e = (Ok r, e') ∧ at_heap e' h' (ρ - op_room op m) ∧ h ⊆ h' ∧
    result_at h' (db_spec op m).1 r ∧ serving e' ro (db_spec op m).2 ∧
    ∀ a, other_storages e' a = other_storages e a.
Proof.
  intros He Hs Hg Hρ Hne Hx. destruct (op_outside e ro m op Hs) as (o & Hrun & Hpost).
  rewrite Hx in Hrun, Hpost. pose proof (op_room_pos op m) as Hpos. pose proof (sv_ready _ _ _ Hs) as Hr.
  assert (0 ≤ REGION_ROOM) by (unfold REGION_ROOM, REGION_SIZE, OVERHEAD; lia).
  destruct g as [key|key value|key], op as [k|k v|k]; try done; cbn [op_at db_run ext_run db_spec fst snd] in *.
  - pose proof (get_abi query_raw panic_text exported Hallocate e h ρ key k He Hr Hg ltac:(lia)) as Habi.
    unfold ends in Habi. rewrite Hrun in Habi. unfold op_room in *. cbn [db_spec fst] in *.
    destruct (m !! k) as [d|].
    + destruct Habi as (vec & e' & He' & Ho & Hfr & Hv & Hat); [lia|].
      exists (Some vec), e'. eexists. split_and!; [done|eapply at_heap_room; [exact Hat|lia]|by apply with_block_sub|done|apply (Hpost e' Ho)..].
    + destruct Habi as (e' & He' & Ho & Hat).
      exists None, e', h. split_and!; [done|eapply at_heap_room; [exact Hat|lia]|done|done|apply (Hpost e' Ho)..].
  - destruct Hg as (Hk & Hv). apply lift_unit in Hrun as [_ Hrun].
    pose proof (set_abi query_raw panic_text exported e h ρ key value k v He Hr Hk Hv
      ltac:(by intros ->; apply (Hne k)) ltac:(lia)) as Habi.
    unfold ends in Habi. rewrite Hrun in Habi. destruct Habi as (e' & He' & Ho & Hat).
    exists None, e', h. split_and!; [|eapply at_heap_room; [exact Hat|lia]|done|done|apply (Hpost e' Ho)..].
    by rewrite (bind_Ok _ _ _ _ _ He').
  - apply lift_unit in Hrun as [_ Hrun].
    pose proof (remove_abi query_raw panic_text exported e h ρ key k He Hr Hg ltac:(lia)) as Habi.
    unfold ends in Habi. rewrite Hrun in Habi. destruct Habi as (e' & He' & Ho & Hat).
    exists None, e', h. split_and!; [|eapply at_heap_room; [exact Hat|lia]|done|done|apply (Hpost e' Ho)..].
    by rewrite (bind_Ok _ _ _ _ _ He').
Qed.

(** One call, by the specification. *)
Lemma ext_run_op e h ρ ro m g op :
  at_heap e h ρ → serving e ro m → op_at h g op → op_room op m ≤ ρ →
  match db_refusal ro op with
  | Some msg => ∃ e', ext_run g e = (Err msg, e') ∧ serving e' ro m ∧
      ∀ a, other_storages e' a = other_storages e a
  | None => ∃ r e' h', ext_run g e = (Ok r, e') ∧ at_heap e' h' (ρ - op_room op m) ∧ h ⊆ h' ∧
      result_at h' (db_spec op m).1 r ∧ serving e' ro (db_spec op m).2 ∧
      ∀ a, other_storages e' a = other_storages e a
  end.
Proof.
  intros He Hs Hg Hρ. assert ((∃ k, op = DbWrite k []) ∨ ∀ k, op ≠ DbWrite k []) as [[k ->]|Hne'].
  { destruct op as [|k [|b v]|]; eauto. }
  { destruct g as [|key value|]; try done. destruct Hg as [_ [Hlen _]]. exists e. split_and!; [|done..].
    cbn [ext_run]. apply bind_Err. unfold ext_set. by rewrite Hlen. }
  assert (db_refusal ro op = VmError_to_string <$> host_refusal ro op) as ->.
  { destruct op as [|k [|]|]; try done. by destruct (Hne' k). }
  destruct (host_refusal ro op) as [x|] eqn:Hx; cbn.
  - by eapply ext_run_refused.
  - by eapply ext_run_served.
Qed.

(** C23: The storage of a contract is a map, all the way from its code to the simulator.
    With keys and values anywhere in the contract's memory and enough room for the
    regions, any sequence of [get], [set] and [remove] on [ExternalStorage] does what the
    specification [db_session] says. The calls are served in order: reads yield vectors
    with exactly what the map holds at that point and writes and removals change the map.
    The first call that is refused ends the run with its message and without changing
    anything: [set] with an empty value panics in the contract; a write or removal while
    the storage is read-only, and keys or values over the limits of the imports, are
    errors of the host. If all calls are served the run returns, no block the contract
    owned is changed; in every case the storage ends as the map does, and no other
    contract's storage is touched. *)
Theorem guest_storage_is_a_map e h ρ ro m gs ops :
  at_heap e h ρ → serving e ro m → Forall2 (op_at h) gs ops → ops_room ops m ≤ ρ →
  ∃ e', serving e' ro (db_session ro ops m).2 ∧ (∀ a, other_storages e' a = other_storages e a) ∧
    match (db_session ro ops m).1 with
    | inl msg => ext_runs gs e = (Err msg, e')
    | inr results => ∃ rs h', ext_runs gs e = (Ok rs, e') ∧ Forall2 (result_at h') results rs ∧
        at_heap e' h' (ρ - ops_room ops m) ∧ h ⊆ h'
    end.
Proof.
  intros He Hs Hops. revert e h ρ m gs He Hs Hops.
  induction ops as [|op ops IH]; intros e h ρ m gs He Hs Hops Hρ.
  { apply Forall2_nil_inv_r in Hops as ->. cbn in Hρ |- *. exists e. split_and!; [done..|].
    exists [], h. split_and!; [done..|by rewrite Z.sub_0_r|done]. }
  apply Forall2_cons_inv_r in Hops as (g & gs' & Hg & Hops & ->). cbn in Hρ.
  pose proof (ops_room_pos ops (db_spec op m).2).
  pose proof (ext_run_op e h ρ ro m g op He Hs Hg ltac:(lia)) as Hop. cbn [db_session ops_room].
  destruct (db_refusal ro op) as [msg|].
  { destruct Hop as (e' & Hrun & Hs' & Ho). exists e'. split_and!; [done..|]. by apply bind_Err. }
  destruct Hop as (r & e1 & h1 & H1 & He1 & Hsub1 & Hr1 & Hs1 & Ho1).
  destruct (db_spec op m) as [r0 m1] eqn:Hsp. cbn [fst snd] in *.
  destruct (IH e1 h1 _ m1 gs' He1 Hs1) as (e2 & Hs2 & Ho2 & Hend); [|lia|].
  { eapply Forall2_impl; [exact Hops|]. intros ???. by eapply op_at_mono. }
  exists e2. destruct (db_session ro ops m1) as [[msg|rs0] m2]; cbn [fst snd] in *.
  - split_and!; [done|by intros a; rewrite Ho2|]. cbn. rewrite (bind_Ok _ _ _ _ _ H1). by apply bind_Err.
  - destruct Hend as (rs & h2 & H2 & Hr2 & He2 & Hsub2).
    split_and!; [done|by intros a; rewrite Ho2|]. exists (r :: rs), h2. split_and!.
    + cbn. by rewrite (bind_Ok _ _ _ _ _ H1), (bind_Ok _ _ _ _ _ H2).
    + constructor; [|done]. by eapply result_at_mono.
    + by rewrite Z.sub_add_distr.
    + by etrans.
Qed.
End GuestDatabase.
