(* ===== verification/World.v ===== *)
(** * A concrete world

    Instances of the parameters of the development (a chain, the codecs, a Wasm
    engine with a few small contracts), and the theorems applied to them: every
    set of hypotheses used in the development is met by a real run. The contracts
    stand on the chain under these names:
    - [writer] stores a value and answers without messages;
    - [failing] stores a value and answers with an error;
    - [trapping] traps;
    - [caller] calls [failing] with its own coins and asks for a reply on error;
    - [relay] first pays the bank, then calls [failing] without a reply;
    - [nester] calls [writer] and asks for no reply;
    - [prober] tries to write in a query. *)

From S2P Require Import Prelude.
From S2P Require Import CwStd.
From S2P Require Import Errors.
From S2P Require Import Client.
From S2P Require Import Storage.
From S2P Require Import States.
From S2P Require Import Bank.
From S2P Require Import DebugLog.
From S2P Require Import Sections.
From S2P Require Import Api.
From S2P Require Import Vm.
From S2P Require Import Querier.
From S2P Require Import Runs.
From S2P Require Import Model.
From S2P Require Import Messages.
From S2P Require Import Transactions.
From S2P Require Import ReadOnly.
From S2P Require Import Atomicity.
From S2P Require Import Codes.
From S2P Require Import Python.

Open Scope Z_scope.

(** ** The chain *)
Definition world_balances (a : string) : list (string * Z) :=
  if String.eqb a "eoa" then [("uatom", 100); ("ujuno", 7)]
  else if String.eqb a "caller" then [("uatom", 50)]
  else if String.eqb a "relay" then [("uatom", 20)]
  else [].

Definition world_code_id (a : string) : Z :=
  if String.eqb a "writer" then 0 else if String.eqb a "failing" then 1
  else if String.eqb a "trapping" then 2 else if String.eqb a "caller" then 3
  else if String.eqb a "relay" then 4 else if String.eqb a "nester" then 5
  else if String.eqb a "prober" then 6 else 7.

Definition code_byte (i : Z) : byte :=
  match i with
  | 0 => Byte.x00 | 1 => Byte.x01 | 2 => Byte.x02 | 3 => Byte.x03
  | 4 => Byte.x04 | 5 => Byte.x05 | 6 => Byte.x06 | _ => Byte.x07
  end.
Definition world_code (i : Z) : bytes := WASM_MAGIC ++ [code_byte i].

Definition world_state (a : string) : gmap bytes bytes := {[ [Byte.x00] := [Byte.x2a] ]}.

#[export] Instance world_client : CwClientBackend unit := {|
  cb_block_number := λ _, 10;
  cb_chain_id := mret "world-1";
  cb_timestamp := mret 1000;
  cb_block_height := mret 10;
  cb_query_bank_all_balances := λ a, mret (world_balances a);
  cb_query_wasm_contract_smart := λ _ _, throw (RpcError "not a smart chain");
  cb_query_wasm_contract_state_all := λ a, mret (world_state a);
  cb_query_wasm_contract_info := λ a, mret (mkRpcContractInfo (world_code_id a));
  cb_query_wasm_contract_code := λ i, mret (world_code i)
|}.

#[export] Program Instance world_chain : ChainClient unit := {|
  cc_inv := λ _, True;
  cc_view := λ _, mkChainView world_balances world_state
                    (λ a, mkRpcContractInfo (world_code_id a)) world_code
|}.
Solve Obligations with
  first [by intros x c | intros x c y c' _ H; cbn in H; munfold; by simplify_eq].

(** ** Codecs: a response is the number of an entry of a table *)
Definition coins (n : Z) : list Coin := [mkCoin "uatom" n].

Definition response_of (b : byte) : ContractResult Response :=
  match b with
  | Byte.x00 => CROk Response_new
  | Byte.x01 => CRErr "refused"
  | Byte.x02 => CROk (add_submessage
      (SubMsg_reply_on_error
         (MsgWasm (WasmExecute "failing" [Byte.x7b] (coins 30))) 9)
      Response_new)
  | Byte.x03 => CROk (add_message (MsgWasm (WasmExecute "failing" [Byte.x7b] []))
                        (add_message (MsgBank (BankSend "writer" (coins 5))) Response_new))
  | Byte.x04 => CROk (add_message (MsgWasm (WasmExecute "writer" [Byte.x7b] [])) Response_new)
  | _ => CROk Response_new
  end.

Definition bech32_data (s : string) : bytes := drop 4 (as_bytes s).

#[export] Instance world_externals : Externals := {|
  json_display := λ b, match b with [] => None | _ => Some "{}" end;
  json_parse_error := λ _, "EOF while parsing a value";
  to_binary_balance := λ r, inr (as_bytes (pretty (amount (br_amount r))));
  to_binary_all_balance := λ r, inr [];
  to_binary_contract_info := λ c, inr (as_bytes (ci_address c));
  to_binary_print_response := λ _, inr [Byte.x01];
  from_slice_query_request := λ b,
    match b with
    | [Byte.x00] => inr (ReqBank (QBalance "eoa" "uatom"))
    | [Byte.x01] => inr (ReqWasm (QSmart "prober" [Byte.x7b]))
    | [Byte.x02] => inr (ReqWasm (QSmart PRINTER_ADDR [Byte.x68]))
    | [Byte.x03] => inr (ReqWasm (QRaw "writer" [Byte.x00]))
    | _ => inl "bad request"
    end;
  from_binary_bank_query := λ _, inr (QBalance "eoa" "uatom");
  from_binary_print_request := λ b, inr (String.string_of_list_byte b);
  to_vec_env := λ _, inr [];
  to_vec_info := λ _, inr [];
  to_vec_reply := λ _, inr [];
  to_vec_system_result := λ _, inr [];
  from_slice_response := λ b,
    match b with [x] => inr (response_of x) | _ => inl "bad response" end;
  from_slice_query_response := λ b, inr (CROk b);
  rust_type_name := λ s, s;
  encode_instantiate_response := as_bytes;
  encode_execute_response := [];
  sha256 := λ b, b;
  bech32_encode := λ hrp b,
    if String.eqb hrp "wasm" then Some ("wasm" +:+ String.string_of_list_byte b) else None;
  bech32_decode := λ s,
    if String.prefix "wasm" s then inr ("wasm", bech32_data s) else inl "bad prefix";
  from_base32 := λ b, Some b;
  hash_order := map_to_list
|}.

(** ** Contracts *)
Definition store_then (w : bytes) (answer : byte) : Guest bytes :=
  GHost w (HDbWrite [Byte.x61] [Byte.x62]) (λ _, GReturn w [answer]).

Definition world_guest (w : bytes) (name : string) (args : list bytes) : Guest bytes :=
  if String.eqb name "query" then
    match w with
    | [_; _; _; _; Byte.x06] => store_then w Byte.x07
    | _ => GHost w (HQueryChain [Byte.x00]) (λ b, GReturn w (Byte.x37 :: b))
    end
  else if String.eqb name "reply" then GReturn w [Byte.x00]
  else match w with
  | [_; _; _; _; Byte.x00] => store_then w Byte.x00
  | [_; _; _; _; Byte.x01] => store_then w Byte.x01
  | [_; _; _; _; Byte.x02] => GTrap w (RuntimeErr "unreachable")
  | [_; _; _; _; Byte.x03] => GReturn w [Byte.x02]
  | [_; _; _; _; Byte.x04] => GReturn w [Byte.x03]
  | [_; _; _; _; Byte.x05] => GReturn w [Byte.x04]
  | _ => GReturn w [Byte.x00]
  end.

#[export] Instance world_engine : WasmEngine := {|
  Module_ := bytes;
  WInst := bytes;
  wasm_compile := λ b, inr b;
  wasm_instantiate := λ w, inr w;
  call_export := world_guest
|}.

(** The model as [Model::new] makes it, with another sender. *)
Definition world : Model unit :=
  match Model_new tt "wasm" with
  | Ok m => set_m_sender "eoa" m
  | _ => mkModel (mkAllStates ∅ ∅ tt 0 0 "" 0 "") "" ∅ DebugLog_new ∅ CoverageInfo_new ∅
  end.

Definition msg : bytes := [Byte.x7b].

(** The simulator at work: a call that is rolled back, a call with a reply, a
    nested call, a query. *)
Example world_runs :
  (Model_execute 3 "writer" msg (coins 10) world).1 ≠ OutOfFuel ∧
  block_number (m_states (Model_execute 3 "writer" msg (coins 10) world).2) = 11 ∧
  bal (m_states (Model_execute 3 "writer" msg (coins 10) world).2) "writer" "uatom" = 10 ∧
  block_number (m_states (Model_execute 3 "failing" msg (coins 10) world).2) = 10 ∧
  bal (m_states (Model_execute 3 "failing" msg (coins 10) world).2) "failing" "uatom" = 0 ∧
  (wasm_query 3 "writer" msg world).1 = Ok [Byte.x37].
Proof. vm_compute. split_and!; try done. Qed.

(** ** Witnesses: the bank *)
Definition st0 : AllStates unit := m_states world.

Lemma get_balance_correct_witness :
  let r := get_balance "eoa" "uatom" st0 in
  100 = bal st0 "eoa" "uatom" ∧ (∀ o' d', bal r.2 o' d' = bal st0 o' d') ∧
  bank_frame st0 r.2 ∧ cached r.2 "eoa".
Proof. apply (get_balance_correct "eoa" "uatom" st0 100); [done|by vm_compute]. Defined.

Lemma bank_send_transfers_witness :
  ∃ st', bank_execute "eoa" (BankSend "bob" (coins 30)) st0 =
           (Ok (CROk (mkResponse [] [] (send_events "eoa" "bob" (coins 30)) None)), st') ∧
    bank_frame st0 st' ∧
    (∀ d, bal st' "eoa" d = bal st0 "eoa" d - total (coins 30) d) ∧
    (∀ d, bal st' "bob" d = bal st0 "bob" d + total (coins 30) d) ∧
    (∀ o d, o ≠ "eoa" → o ≠ "bob" → bal st' o d = bal st0 o d).
Proof.
  apply (bank_send_transfers "eoa" "bob" (coins 30) st0).
  - intros a c. by exists (world_balances a), c.
  - done.
  - done.
  - repeat constructor. done.
  - intros d. unfold total; cbn. case_decide as H; cbn; [subst; by vm_compute|].
    destruct (decide ("ujuno" = d)) as [<-|Hj]; [by vm_compute|]. unfold bal.
    assert (account st0 "eoa" = <["ujuno" := 7]> (<["uatom" := 100]> ∅)) as -> by reflexivity.
    by rewrite !lookup_insert_ne, lookup_empty.
  - intros d. unfold total; cbn. case_decide; by vm_compute.
Defined.

Lemma bank_send_conserves_witness :
  let r := bank_execute "eoa" (BankSend "bob" (coins 30)) st0 in
  supply r.2 ["eoa"; "bob"] "uatom" = supply st0 ["eoa"; "bob"] "uatom".
Proof.
  apply (bank_send_conserves "eoa" "bob" (coins 30) st0
           (mkResponse [] [] (send_events "eoa" "bob" (coins 30)) None)).
  - done.
  - done.
  - by vm_compute.
  - apply NoDup_cons. split; [set_solver|]. apply NoDup_singleton.
  - set_solver.
  - set_solver.
Defined.

Definition two_coins : list Coin := [mkCoin "uatom" 30; mkCoin "ujuno" 8].

Lemma bank_send_insufficient_witness :
  let r := bank_execute "eoa" (BankSend "bob" two_coins) st0 in
  ∃ done c rest, two_coins = done ++ c :: rest ∧
    bal r.2 "eoa" (denom c) < amount c ∧
    insufficient_balance "eoa" 7 8
      = insufficient_balance "eoa" (bal r.2 "eoa" (denom c)) (amount c) ∧
    ∀ o d, bal r.2 o d = bal st0 o d + send_delta "eoa" "bob" done o d.
Proof. apply bank_send_insufficient; [done|by vm_compute]. Defined.

Lemma bank_send_to_self_mints_witness :
  let r := bank_execute "eoa" (BankSend "eoa" (coins 30)) st0 in
  bal r.2 "eoa" "uatom" = bal st0 "eoa" "uatom" + total (coins 30) "uatom".
Proof.
  apply (bank_send_to_self_mints "eoa" (coins 30) st0
           (mkResponse [] [] (send_events "eoa" "eoa" (coins 30)) None)); [done|by vm_compute].
Defined.

Lemma bank_burn_correct_witness :
  let r := bank_execute "eoa" (BankBurn (coins 30)) st0 in
  ∃ done, bank_frame st0 r.2 ∧
    (∀ o d, bal r.2 o d = bal st0 o d - burn_delta "eoa" done o d) ∧
    done = coins 30 ∧ Response_new = Response_new.
Proof.
  apply (bank_burn_correct "eoa" (coins 30) st0 (CROk Response_new)); [done|by vm_compute].
Defined.

Lemma update_block_time_stands_still_witness :
  update_block st0 = (Ok tt, set_block_number 11 st0).
Proof. by apply update_block_time_stands_still; vm_compute. Defined.

Lemma set_balance_hides_chain_balances_witness :
  bal (set_balance "eoa" "uatom" 1 st0).2 "eoa" "ujuno" = 0.
Proof. by apply set_balance_hides_chain_balances. Defined.

(** ** Witnesses: storage, log, encodings *)
Lemma sections_roundtrip_witness :
  decode_sections [Byte.xaa; Byte.x00; Byte.x00; Byte.x00; Byte.x01; Byte.x00; Byte.x00; Byte.x00; Byte.x00]
  = Some [[Byte.xaa]; []].
Proof. apply sections_roundtrip. by vm_compute. Defined.

Lemma address_roundtrip_witness :
  canonical_address (mkApi 32 (as_bytes "wasm" ++ replicate 6 Byte.x00) 4) "wasmab" tt
  = (Ok [Byte.x61; Byte.x62], tt).
Proof.
  apply (address_roundtrip 32 "wasm"); [|by vm_compute|by vm_compute].
  intros hrp b h H. unfold bech32_encode in H; cbn in H.
  destruct (String.eqb_spec hrp "wasm") as [->|]; [|done]. injection H as <-.
  exists b. split; [|split; [done|by destruct b]].
  transitivity (inr ("wasm", String.list_byte_of_string (String.string_of_list_byte b))
    : string + string * bytes); [by destruct b|].
  by rewrite String.list_byte_of_string_of_list_byte.
Defined.

Definition store0 : RpcMockStorage :=
  Storage_new {[ [Byte.x01] := [Byte.x0a]; [Byte.x02] := [Byte.x0b]; [Byte.x03] := [Byte.x0c] ]}.

Lemma scan_iterates_snapshot_witness :
  let r := scan (Some [Byte.x02]) None Descending store0 in
  let st2 := (storage_remove [Byte.x03] r.2).2 in
  ∃ records st3,
    next_n 3 0 st2 = (Ok ((Some <$> take 3 records) ++ replicate (3 - length records) None), st3) ∧
    inner st3 = inner st2 ∧ StronglySorted (order_rel Descending) records ∧
    ∀ k v, (k, v) ∈ records ↔ inner store0 !! k = Some v ∧ in_range (Some [Byte.x02]) None k = true.
Proof.
  apply (scan_iterates_snapshot _ _ _ _ _ (scan (Some [Byte.x02]) None Descending store0).2);
    reflexivity.
Defined.

Definition trace1 : CallTrace := ((begin_call (E := Error) "call") CallTrace_new).2.
Definition trace2 : CallTrace := ((error_call (E := Error) "oops") trace1).2.
Definition trace3 : CallTrace := ((end_call (E := Error) 0) trace2).2.

Lemma call_graph_is_a_tree_witness :
  trace_wf trace3 ∧ ∀ i, 0 ≤ i ≤ call_id_counter trace3 → rtc (edge trace3) 0 i.
Proof.
  apply call_graph_is_a_tree.
  apply (rtc_l _ _ trace1); [apply (step_begin "call" 0); by vm_compute|].
  apply (rtc_l _ _ trace2); [apply (step_error "oops"); by vm_compute|].
  apply rtc_once, (step_end 0); by vm_compute.
Defined.

(** ** Witnesses: queries *)
Lemma query_raw_read_only_witness :
  query_le (m_querier world) (query_raw 3 [Byte.x01] (m_querier world)).2.
Proof. apply query_raw_read_only. Defined.

(** [prober] tries to write in the query and is refused. *)
Lemma wasm_query_read_only_witness :
  (wasm_query 3 "prober" msg world).1 =
    Err (vm_error (VmError_through_wasm WriteAccessDenied)) ∧
  model_query_le "prober" world (wasm_query 3 "prober" msg world).2.
Proof. split; [vm_compute; reflexivity|apply wasm_query_read_only]. Defined.

(** The contract [writer] holds one record on chain. *)
Lemma raw_query_reads_storage_witness :
  let q := mkQuerier (m_states world) DebugLog_new in
  (query_raw 1 [Byte.x03] q).1 = Ok (SROk (CROk [Byte.x2a])) ∧
  (∀ res q', query_raw 1 [Byte.x03] q = (Ok res, q') →
     res = SROk (CROk (raw_value (contract (q_states q) "writer") [Byte.x00]))) ∧
  (∀ cs api i, (0 < 1)%nat → contract_states (q_states q) !! "writer" = Some cs →
     RpcMockApi_new (canonical_address_length (q_states q)) (bech32_prefix (q_states q)) = inr api →
     instance_from_code (code cs) api (PrivateCell (storage cs)) = inr i →
     query_raw 1 [Byte.x03] q = (Ok (SROk (CROk (raw_value cs [Byte.x00]))), q)).
Proof.
  split; [vm_compute; reflexivity|].
  apply (raw_query_reads_storage 1 [Byte.x03] "writer" [Byte.x00] (mkQuerier (m_states world) DebugLog_new));
    [done|reflexivity|discriminate].
Defined.

(** ** Witnesses: transactions *)
Definition failed : Model unit :=
  (execute_inner (query_raw 3) (handle_response 3) "failing" "eoa" msg (coins 10) world).2.

Lemma execute_failure_rolls_back_witness :
  Model_execute 3 "failing" msg (coins 10) world = (Ok (m_debug_log failed), rolled_back world failed) ∧
  (∀ a, coverage_of world a `prefix_of` coverage_of (rolled_back world failed) a) ∧
  log_le (m_debug_log world) (m_debug_log failed).
Proof. apply (execute_failure_rolls_back 3 "failing" msg (coins 10) world "refused"). vm_compute; reflexivity. Defined.

Definition failed_instantiate : Model unit :=
  (instantiate_inner (query_raw 3) (handle_response 3) 1 "eoa" msg (coins 10) world).2.

Lemma instantiate_failure_rolls_back_witness :
  Model_instantiate 3 1 msg (coins 10) world =
    (Ok (m_debug_log failed_instantiate), rolled_back world failed_instantiate) ∧
  (∀ a, coverage_of world a `prefix_of` coverage_of (rolled_back world failed_instantiate) a) ∧
  log_le (m_debug_log world) (m_debug_log failed_instantiate).
Proof.
  apply (instantiate_failure_rolls_back 3 1 msg (coins 10) world "refused" None). vm_compute; reflexivity.
Defined.

Definition succeeded : Model unit :=
  (execute_inner (query_raw 3) (handle_response 3) "nester" "eoa" msg (coins 10) world).2.

Lemma execute_success_makes_block_witness :
  Model_execute 3 "nester" msg (coins 10) world = (Ok (m_debug_log succeeded), committed succeeded) ∧
  block_number (m_states (committed succeeded)) = 11 ∧
  block_timestamp (m_states (committed succeeded)) = 1000 ∧
  m_sender (committed succeeded) = "eoa" ∧
  m_custom_codes (committed succeeded) = m_custom_codes world ∧
  m_debug_log (committed succeeded) = DebugLog_new ∧
  log_le (m_debug_log world) (m_debug_log succeeded).
Proof.
  apply (execute_success_makes_block 3 "nester" msg (coins 10) world Response_new);
    [vm_compute; reflexivity|vm_compute; reflexivity|vm_compute; reflexivity].
Defined.

Lemma transaction_call_graph_is_a_tree_witness :
  let log := m_debug_log succeeded in
  call_id_counter (call_trace log) = 2 ∧
  trace_wf (call_trace log) ∧
  (∀ i, 0 ≤ i ≤ call_id_counter (call_trace log) → rtc (edge (call_trace log)) 0 i) ∧
  trace_wf (call_trace (m_debug_log (committed succeeded))).
Proof.
  split; [vm_compute; reflexivity|].
  apply (transaction_call_graph_is_a_tree 3 "nester" msg (coins 10) world _ (committed succeeded));
    [apply CallTrace_new_wf|vm_compute; reflexivity].
Defined.

(** The funds of a trapped call are gone although the call returned an error. *)
Lemma hard_error_keeps_transfer_witness :
  let r := Model_execute 3 "trapping" msg (coins 10) world in
  r = (Err (vm_error (RuntimeErr "unreachable")), r.2) ∧
  ∀ o d, bal (m_states r.2) o d = bal (m_states world) o d + send_delta "eoa" "trapping" (coins 10) o d.
Proof.
  eapply (hard_error_keeps_transfer 3 "trapping" msg (coins 10) world);
    [exact I|vm_compute; reflexivity|vm_compute; reflexivity|vm_compute; reflexivity|vm_compute; reflexivity].
Defined.

Lemma ends_Ok {S A E : Type} (r : outcome E A * S) a : r.1 = Ok a → r = (Ok a, r.2).
Proof. by destruct r; cbn; intros ->. Defined.

(** [caller] pays 30 coins to [failing], which answers with an error; the reply makes the
    transaction succeed and the 30 coins stay with [failing]. *)
Lemma failed_submessage_is_not_reverted_witness :
  bal (m_states (Model_execute 4 "caller" msg [] world).2) "failing" "uatom" = 30 ∧
  ∃ m', handle_submessage_execute (query_raw 3) (handle_response 3) "caller" "failing" msg (coins 30) 9
      ReplyError world = (Ok (CROk Response_new), m') ∧
    ∀ o d, bal (m_states m') o d = bal (m_states world) o d + send_delta "caller" "failing" (coins 30) o d.
Proof.
  split; [vm_compute; reflexivity|].
  eapply (failed_submessage_is_not_reverted 2 "caller" "failing" msg (coins 30) 9 ReplyError world "refused").
  - exact I.
  - do 6 eexists. do 4 (split; [apply ends_Ok; vm_compute; reflexivity|]). apply ends_Ok; vm_compute; reflexivity.
  - vm_compute; reflexivity.
  - do 4 eexists. do 3 (split; [apply ends_Ok; vm_compute; reflexivity|]). vm_compute; reflexivity.
Defined.

(** ** Witnesses: messages *)
Definition nested : Model unit :=
  (execute_inner (query_raw 3) (handle_response 2) "nester" "relay" msg [] world).2.

Lemma submessage_dispatched_once_witness :
  messages Response_new = [] ∧
  handle_submessage_execute (query_raw 3) (handle_response 2) "relay" "nester" msg [] 1 ReplyNever world
    = (Ok (CROk Response_new), nested).
Proof.
  apply (submessage_dispatched_once 1 "relay" "nester" msg [] 1 ReplyNever world); vm_compute; reflexivity.
Defined.

Definition relay_response : Response :=
  add_message (MsgWasm (WasmExecute "failing" [Byte.x7b] []))
    (add_message (MsgBank (BankSend "writer" (coins 5))) Response_new).

Lemma handle_response_stops_at_first_error_witness :
  let m' := (handle_response 3 "relay" relay_response world).2 in
  ∃ pre sm post last m1, messages relay_response = pre ++ sm :: post ∧
    ran (query_raw 3) (handle_response 2) "relay" pre (CROk Response_new) world last m1 ∧
    handle_message (query_raw 3) (handle_response 2) "relay" sm m1 = (Ok (CRErr "refused"), m').
Proof.
  apply (handle_response_stops_at_first_error 2 "relay" relay_response world "refused"). vm_compute; reflexivity.
Defined.

Lemma runs_do_not_depend_on_fuel_witness :
  Model_execute 4 "nester" msg [] world = Model_execute 9 "nester" msg [] world.
Proof.
  apply (proj1 (runs_do_not_depend_on_fuel 4 9 world) "nester" msg []); vm_compute; discriminate.
Defined.

(** ** Witnesses: codes and cheats *)
Definition named : Model unit := (generate_address 4 world).2.

Lemma generated_addresses_differ_witness : "wasmseeeed_4_0" ≠ "wasmseeeed_4_1".
Proof.
  apply (generated_addresses_differ 4 4 world "wasmseeeed_4_0" named named "wasmseeeed_4_1"
           (generate_address 4 named).2).
  - intros s t Hst _ _. by apply as_bytes_inj.
  - intros hrp x y s. cbn. case_match; [|done]. intros Hx Hy.
    rewrite <-Hy in Hx. injection Hx as Hx.
    change (String.string_of_list_byte x = String.string_of_list_byte y) in Hx.
    rewrite <-(String.list_byte_of_string_of_list_byte x), Hx.
    apply String.list_byte_of_string_of_list_byte.
  - done.
  - done.
  - vm_compute; reflexivity.
  - done.
  - done.
  - vm_compute; reflexivity.
Defined.

Lemma wasm_cache_transparent_witness :
  (∀ code_ deps cell,
     (create_instance_from_code code_ deps cell world).1 =
     match instance_from_code code_ deps cell with
     | inl e => Err (vm_error e)
     | inr i => Ok i
     end) ∧
  (∀ fuel a msg f, cache_ok (Model_execute fuel a msg f world).2) ∧
  (∀ fuel i msg f, cache_ok (Model_instantiate fuel i msg f world).2).
Proof.
  apply (wasm_cache_transparent world).
  - intros c1 c2 H. cbn in H. by rewrite H.
  - intros code_ module H. change (m_wasm_cache world) with (∅ : gmap bytes bytes) in H.
    by rewrite lookup_empty in H.
Defined.

Lemma cheat_code_all_or_nothing_witness :
  let m' := (cheat_code "failing" (world_code 0) world).2 in
  contract (m_states m') "failing" =
    mkContractState (world_code 0) (storage (contract (m_states world) "failing")) ∧
  (∀ b, b ≠ "failing" → contract (m_states m') b = contract (m_states world) b) ∧
  (∀ o, account (m_states m') o = account (m_states world) o).
Proof.
  apply (cheat_code_all_or_nothing "failing" (world_code 0) world (Ok tt)); [exact I|vm_compute; reflexivity].
Defined.

Lemma cheat_storage_changes_one_key_witness :
  let m' := (cheat_storage "writer" [Byte.x00] [Byte.x01] world).2 in
  contract (m_states m') "writer" =
    mkContractState (code (contract (m_states world) "writer"))
      (<[ [Byte.x00] := [Byte.x01] ]> (storage (contract (m_states world) "writer"))) ∧
  (∀ b, b ≠ "writer" → contract (m_states m') b = contract (m_states world) b) ∧
  (∀ o, account (m_states m') o = account (m_states world) o) ∧
  m_debug_log m' = m_debug_log world ∧ m_sender m' = m_sender world.
Proof. apply cheat_storage_changes_one_key; [exact I|vm_compute; reflexivity]. Defined.

(** ** A Python session *)
Definition poor : PyCall := CheatBankBalance "relay" ("uatom", 0).
Lemma python_session_keeps_settings_witness :
  let m' := session 5 [CheatMessageSender "eoa"; Execute "writer" [] []; poor; Execute "relay" [] [];
                       AddCustomCode 3 (world_code 0); EnableCodeCoverage] world in
  settings m' = mkSettings "eoa" {[ 3 := world_code 0 ]} true ∧
  block_number (m_states world) ≤ block_number (m_states m') ≤ block_number (m_states world) + 2.
Proof.
  destruct (python_session_keeps_settings 5 [CheatMessageSender "eoa"; Execute "writer" [] []; poor;
    Execute "relay" [] []; AddCustomCode 3 (world_code 0); EnableCodeCoverage] world) as [Hs Hb].
  split; [exact Hs|]. apply Hb. repeat (constructor; [reflexivity|]). constructor.
Defined.

(** A bank message that fails takes the transaction back without a trace in [err_msg]. *)
Lemma silent_failure :
  let m := session 5 [poor] world in
  let r := PyModel.execute 5 "relay" msg [] m in
  block_number (m_states r.2) = block_number (m_states m) ∧
  match r.1 with Ok log => PyDebugLog.get_err_msg log = "" | _ => False end.
Proof. vm_compute. split; reflexivity. Qed.
