(* ===== verification/WorldClients.v ===== *)
(** * A concrete node

    Instances of the parameters of the two clients, and the theorems on the
    clients, the amounts and the schema analyzer applied to concrete inputs.

    The second part is a world whose contracts are ranked. *)

From S2P Require Import Prelude.
From S2P Require Import Bytes.
From S2P Require Import CwStd.
From S2P Require Import StdError.
From S2P Require Import Uint128.
From S2P Require Import Errors.
From S2P Require Import DebugLog.
From S2P Require Import Storage.
From S2P Require Import Analyzer.
From S2P Require Import Client.
From S2P Require Import States.
From S2P Require Import Bank.
From S2P Require Import Rpc.
From S2P Require Import Lcd.
From S2P Require Import Api.
From S2P Require Import Vm.
From S2P Require Import Querier.
From S2P Require Import Model.
From S2P Require Import Termination.
From S2P Require Import GuestDatabase.
From S2P Require Import World.

Open Scope Z_scope.

(** A run is determined by its result and its final state. *)
Lemma run_pair {A B} (x : A * B) (a : A) : x.1 = a → x = (a, x.2).
Proof. by destruct x; intros <-. Qed.

(** ** Numbers *)
Lemma parse_print_roundtrip_witness : parse_uint U128 "340282366920938463463374607431768211455"
  = Some 340282366920938463463374607431768211455.
Proof.
  apply (parse_print_roundtrip U128 340282366920938463463374607431768211455).
  split; vm_compute; [discriminate|reflexivity].
Defined.

Lemma uint128_flavours_agree_witness :
  (uint128_add Uint128_MAX 1 : M Error unit Z) tt = (Panic "attempt to add with overflow", tt) ∧
  checked_add Uint128_MAX 1 = inl (mkOverflowError OpAdd (pretty Uint128_MAX) (pretty 1)) ∧
  wrapping_add Uint128_MAX 1 = Uint128_MAX + 1 - U128 ∧ saturating_add Uint128_MAX 1 = Uint128_MAX.
Proof. by apply (uint128_flavours_agree tt Uint128_MAX 1). Defined.

Lemma isqrt_correct_witness : (isqrt U128 1000000 : M Error unit Z) tt = (Ok 1000, tt).
Proof. by apply (isqrt_correct tt U128 1000000). Defined.

(** ** The RPC client *)
Definition default_inner (x : RpcCacheInner) : bool :=
  bool_decide (db x = ∅) && String.eqb (cache_chain_id x) "" && (cache_timestamp x =? 0).

#[export] Instance world_node : Node := {|
  Http := nat;
  http_new := λ _, inr 0%nat;
  http_abci_query := λ p d h, _ ← modify S; mret (mkAbciQuery true "" (as_bytes p));
  http_status := mret ("world-1", 10);
  http_block := λ _, mret (inr 1000);
  abci_path := λ _, inr tt;
  height_try_from := λ n, inr n;
  enc_balances_request := λ a, inr (as_bytes a);
  enc_smart_request := λ a q, inr (as_bytes a ++ q);
  enc_state_request := λ a, inr (as_bytes a);
  enc_info_request := λ a, inr (as_bytes a);
  enc_code_request := λ i, inr [];
  dec_balances_response := λ _, inr [("uatom", "42")];
  dec_smart_response := λ b, inr b;
  dec_state_response := λ _, inr [];
  dec_info_response := λ _, inr (Some 1);
  dec_code_response := λ b, inr b;
  sha256hex := λ s, s;
  bincode_serialize := λ x, if default_inner x then inr [Byte.x01] else inl "too big";
  bincode_deserialize := λ b,
    match b with Byte.x01 :: _ => inr RpcCacheInner_default | _ => inl "bad cache" end
|}.

Definition no_files : FileSystem := mkFileSystem None {["/tmp//.cw-rpc-cache"]} ∅ (λ _, None).

Definition rpc0 : CwRpcClient world_node := mkCwRpcClient 0%nat 7 (FileBacked RpcCacheInner_default false "f").

Definition rpc_state : AllStates (CwRpcClient world_node) :=
  mkAllStates ∅ ∅ rpc0 7 0 "" 32 "wasm".

Definition world_answers (n : Z) (p : string) (d : bytes) : option bytes := Some (as_bytes p).

Lemma rpc_balance_is_on_chain_witness :
  let st' := (get_balance "alice" "uatom" rpc_state).2 in
  rpc_inv world_answers (client st') ∧
  42 = default 0 (collect_map (cv_balances (rpc_view world_answers (client rpc_state)) "alice") !! "uatom").
Proof.
  destruct (rpc_balance_is_on_chain (HN := world_node) world_answers) as (Hread & _).
  - intros p data n h s q s' _ _ H Hok. cbn in H. munfold. by simplify_eq/=.
  - apply (Hread "alice" "uatom" rpc_state 42).
    + split; [done|]. intros p d v. cbn. by rewrite lookup_empty.
    + apply lookup_empty.
    + apply run_pair. vm_compute. reflexivity.
Defined.

Lemma cached_answer_is_reused_witness :
  let c1 := (abci_query_raw "/p" [Byte.x00] rpc0).2 in
  let c2 := mkCwRpcClient 99%nat 7 (rpc_cache c1) in
  abci_query_raw "/p" [Byte.x00] c2 = (Ok (as_bytes "/p"), c2).
Proof.
  apply (cached_answer_is_reused "/p" [Byte.x00] rpc0 (abci_query_raw "/p" [Byte.x00] rpc0).2 _
           RpcCacheInner_default false "f"); [reflexivity| |reflexivity].
  apply run_pair. vm_compute. reflexivity.
Defined.

Definition cache_path : string := cache_file_name "/tmp/" "http://node" 7.

Lemma cache_survives_restart_witness :
  let fs' := (cache_save (FileBacked RpcCacheInner_default false cache_path) no_files).2 in
  ∃ fs'', file_backed "http://node" 7 fs' =
            (Ok (FileBacked RpcCacheInner_default true cache_path), fs'') ∧ files fs'' = files fs'.
Proof.
  apply (cache_survives_restart "http://node" 7 RpcCacheInner_default false no_files).
  - intros x b rest H. cbn in H. unfold default_inner in H.
    destruct (bool_decide_reflect (db x = ∅)) as [E1|]; [|done].
    destruct (String.eqb_spec (cache_chain_id x) "") as [E2|]; [|done].
    destruct (Z.eqb_spec (cache_timestamp x) 0) as [E3|]; [|done]. cbn in H. injection H as <-.
    destruct x; cbn in *. by subst.
  - cbn. set_solver.
  - reflexivity.
Defined.

(** ** The LCD client *)
#[export] Instance world_lcd : LcdNode := {|
  Lcd := unit;
  url_parse := λ s, inr s;
  http_get := λ _, mret (true, inr "");
  dec_error_body := λ s, inr s;
  dec_latest_block := λ _, inr (mkBlockHeaderRaw "world-1" "10" "");
  dec_bank_balances := λ _, inr [("uatom", "42")];
  dec_smart_data := λ _, inr None;
  dec_contract_state := λ _, inr [("k1", "v1"); ("k2", "v2")];
  dec_contract_info := λ _, inr "1";
  dec_code := λ s, inr s;
  parse_rfc3339 := λ _, inr 0;
  base64_encode := String.string_of_list_byte;
  base64_decode := λ s, inr (as_bytes s);
  hex_decode := λ s, inr (as_bytes s)
|}.

Definition lcd0 : CwLcdClient world_lcd := mkCwLcdClient "" 0 tt.
Definition models0 : list (string * string) := [("k1", "v1"); ("k2", "v2")].

Lemma lcd_state_all_decodes_witness :
  (<[as_bytes "k2" := as_bytes "v2"]> (<[as_bytes "k1" := as_bytes "v1"]> (∅ : gmap bytes bytes)))
    !! as_bytes "k1" = Some (as_bytes "v1") ↔
  ∃ kv, kv ∈ models0 ∧ decoded kv (as_bytes "k1", as_bytes "v1").
Proof.
  apply (lcd_state_all_decodes models0 lcd0 lcd0); [reflexivity|].
  apply NoDup_cons. split; [set_solver|]. apply NoDup_singleton.
Defined.

(** ** The analyzer *)
Definition ref_to (t : string) : Json := JObject [("$ref", JString ("#/definitions/" +:+ t))].
Definition struct_json (f t : string) : Json :=
  JObject [("properties", JObject [(f, ref_to t)]); ("type", JString "object")].
Definition two_structs : list (string * Json) :=
  [("Apple", struct_json "seed" "Uint128"); ("Bread", struct_json "flour" "Addr")].

(** The structure [Bread] gets the field [seed] of [Apple]. *)
Lemma struct_fields_pile_up_witness :
  ∃ a', prepare_definitions (JObject two_structs) Analyzer_default = (Ok true, a') ∧
    map_of_struct a' !! "Bread" =
      Some (own_fields [("flour", ref_to "Addr")] ∪
            piled_up [("Apple", struct_json "seed" "Uint128")] ∅).
Proof.
  apply (struct_fields_pile_up two_structs Analyzer_default
           [("Apple", struct_json "seed" "Uint128")] "Bread" (struct_json "flour" "Addr")
           [("flour", ref_to "Addr")] []).
  - intros dv props Hdv Hs.
    unfold two_structs in Hdv. apply elem_of_cons in Hdv as [->|Hdv].
    + cbn in Hs. injection Hs as <-. constructor; [|constructor]. intros s [= <-]. by eexists.
    + apply list_elem_of_singleton in Hdv as ->. cbn in Hs. injection Hs as <-.
      constructor; [|constructor]. intros s [= <-]. by eexists.
  - reflexivity.
  - apply not_elem_of_nil.
  - reflexivity.
Defined.

(** * A world of ranked contracts

    The theorems on termination and on the database applied to a second world.
    Every contract counts down: called with a byte [n] it looks up a balance and
    sends itself the byte [n - 1], until the byte is 0. The rank of a message is
    its byte. *)

Definition quiet_code : bytes := WASM_MAGIC.

#[export] Instance quiet_client : CwClientBackend unit := {|
  cb_block_number := λ _, 10;
  cb_chain_id := mret "quiet-1";
  cb_timestamp := mret 1000;
  cb_block_height := mret 10;
  cb_query_bank_all_balances := λ a, mret [("uatom", 3)];
  cb_query_wasm_contract_smart := λ _ _, throw (RpcError "not a smart chain");
  cb_query_wasm_contract_state_all := λ a, mret ∅;
  cb_query_wasm_contract_info := λ a, mret (mkRpcContractInfo 1);
  cb_query_wasm_contract_code := λ i, mret quiet_code
|}.

#[export] Instance quiet_halts : ClientHalts unit.
Proof. split; intros; by apply halts_ret. Qed.

Definition byte_rank (msg : bytes) : nat :=
  match msg with b :: _ => N.to_nat (Byte.to_N b) | [] => 0%nat end.

Definition count_down (b : byte) : Response :=
  match Byte.of_N (Byte.to_N b - 1) with
  | Some b' =>
      if (Byte.to_N b =? 0)%N then Response_new
      else add_message (MsgWasm (WasmExecute "counter" [b'] [])) Response_new
  | None => Response_new
  end.

#[export] Instance quiet_externals : Externals := {|
  json_display := λ b, Some "{}";
  json_parse_error := λ _, "";
  to_binary_balance := λ r, inr (as_bytes (pretty (amount (br_amount r))));
  to_binary_all_balance := λ r, inr [];
  to_binary_contract_info := λ c, inr [];
  to_binary_print_response := λ _, inr [];
  from_slice_query_request := λ b, inr (ReqBank (QBalance "counter" "uatom"));
  from_binary_bank_query := λ _, inr (QBalance "counter" "uatom");
  from_binary_print_request := λ b, inr "";
  to_vec_env := λ _, inr [];
  to_vec_info := λ _, inr [];
  to_vec_reply := λ _, inr [];
  to_vec_system_result := λ _, inr [];
  from_slice_response := λ b,
    match b with [x] => inr (CROk (count_down x)) | _ => inl "bad response" end;
  from_slice_query_response := λ b, inr (CROk b);
  rust_type_name := λ s, s;
  encode_instantiate_response := as_bytes;
  encode_execute_response := [];
  sha256 := λ b, b;
  bech32_encode := λ hrp b, Some (hrp +:+ String.string_of_list_byte b);
  bech32_decode := λ s, inl "not needed";
  from_base32 := λ b, Some b;
  hash_order := map_to_list
|}.

Definition quiet_guest (w : unit) (name : string) (args : list bytes) : Guest unit :=
  match args with
  | [_; _; msg] => GHost w (HQueryChain []) (λ _, GReturn w msg)
  | _ => GReturn w [Byte.x00]
  end.

#[export] Instance quiet_engine : WasmEngine := {|
  Module_ := unit;
  WInst := unit;
  wasm_compile := λ _, inr tt;
  wasm_instantiate := λ w, inr w;
  call_export := quiet_guest
|}.

Definition quiet : Model unit :=
  match Model_new tt "wasm" with
  | Ok m => set_m_sender "eoa" m
  | _ => mkModel (mkAllStates ∅ ∅ tt 0 0 "" 0 "") "" ∅ DebugLog_new ∅ CoverageInfo_new ∅
  end.

Lemma count_down_below b : below byte_rank (λ _, 0%nat) (byte_rank [b]) (count_down b).
Proof.
  unfold count_down. destruct (Byte.of_N (Byte.to_N b - 1)) as [b'|] eqn:Hb; [|constructor].
  destruct (N.eqb_spec (Byte.to_N b) 0) as [|Hne]; [constructor|].
  constructor; [|constructor]. cbn. apply Byte.to_of_N in Hb. rewrite Hb. lia.
Qed.

Lemma quiet_ranked : ranked_contracts byte_rank (λ _, 0%nat) (λ _, 0%nat) 1.
Proof.
  assert (∀ msg, answers_below byte_rank (λ _, 0%nat) (byte_rank msg) msg) as Hmsg.
  { intros [|b []] r Hr; cbn in Hr; try done. injection Hr as <-. apply count_down_below. }
  split; intros; cbn; try done.
  - split; [lia|]. intros _. apply Hmsg.
  - split; [lia|]. intros _. apply Hmsg.
  - intros r Hr. cbn in Hr. injection Hr as <-. constructor.
Qed.

(** Three nested calls end, with the fuel the ranks give. *)
Lemma ranked_transactions_terminate_witness :
  (∀ a f, (Model_execute 5 a [Byte.x03] f quiet).1 ≠ OutOfFuel ∧
     ∀ fuel', (5 ≤ fuel')%nat →
       Model_execute fuel' a [Byte.x03] f quiet = Model_execute 5 a [Byte.x03] f quiet) ∧
  (∀ i f, (Model_instantiate 5 i [Byte.x03] f quiet).1 ≠ OutOfFuel ∧
     ∀ fuel', (5 ≤ fuel')%nat →
       Model_instantiate fuel' i [Byte.x03] f quiet = Model_instantiate 5 i [Byte.x03] f quiet).
Proof.
  apply (ranked_transactions_terminate byte_rank (λ _, 0%nat) (λ _, 0%nat) 1 quiet_ranked
           5 [Byte.x03] quiet).
  cbn. lia.
Defined.

(** ** The database *)
Definition writable_env : Environment unit unit :=
  mkEnvironment
    (mkQuerier (set_contract_states {["counter" := mkContractState quiet_code ∅]} (m_states quiet))
       DebugLog_new)
    (mkInstance (mkApi 32 [] 0) (SharedCell "counter") ∅ 0 false tt).

Definition some_ops : list db_op :=
  [DbWrite [Byte.x01] [Byte.x02]; DbRead [Byte.x01]; DbRemove [Byte.x01]; DbRead [Byte.x01]].

Lemma database_refines_map_witness :
  (db_specs some_ops ∅).1 = [None; Some [Byte.x02]; None; None] ∧
  ∃ v', db_runs some_ops writable_env = (Ok (db_specs some_ops ∅).1, v') ∧
    cell_read v' = Some (db_specs some_ops ∅).2 ∧ db_frame writable_env v'.
Proof.
  split; [reflexivity|].
  apply (database_refines_map some_ops writable_env ∅); [reflexivity|reflexivity|].
  repeat constructor; vm_compute; discriminate.
Defined.
