(* ===== verification/WorldNumbers.v ===== *)
(** * Concrete numbers

    The theorems on the number types applied to concrete values, with exact arithmetic
    in place of the [uint] crate.

    The second part has concrete stores. *)

From S2P Require Import Prelude.
From S2P Require Import Bytes.
From S2P Require Import Digits.
From S2P Require Import CwStd.
From S2P Require Import StdError.
From S2P Require Import Uint128.
From S2P Require Import UintCrate.
From S2P Require Import Uint256.
From S2P Require Import Uint512.
From S2P Require Import Ratio.
From S2P Require Import Fixed.
From S2P Require Import Decimal.
From S2P Require Import Decimal256.
From S2P Require Import Decimals.
From S2P Require Import Storage.
From S2P Require Import Namespaces.
From S2P Require Import PrefixedStorage.
From S2P Require Import TypedStorage.

Open Scope Z_scope.

#[local] Instance u256 : UintCrate U256 := exact_uint U256.
#[local] Instance u512 : UintCrate U512 := exact_uint U512.
#[local] Instance u256_spec : UintCrateSpec U256 := exact_uint_spec U256 eq_refl.
#[local] Instance u512_spec : UintCrateSpec U512 := exact_uint_spec U512 eq_refl.

Ltac in_range := split; vm_compute; [discriminate|reflexivity].

Lemma multiply_ratio_exact_witness :
  (Ratio64.multiply_ratio 6 7 2 : M unit unit Z) tt = (Ok 21, tt) ∧
  (Ratio128.multiply_ratio Uint128_MAX 6 9 : M unit unit Z) tt =
    (exact_ratio U128 Uint128_MAX 6 9, tt) ∧
  (Ratio256.multiply_ratio Uint256.MAX 1 0 : M unit unit Z) tt =
    (Panic "Denominator must not be zero", tt).
Proof.
  split_and!.
  - apply (proj1 (multiply_ratio_exact tt 6 7 2)); in_range.
  - apply (proj1 (proj2 (multiply_ratio_exact tt Uint128_MAX 6 9))); in_range.
  - apply (proj2 (proj2 (multiply_ratio_exact tt Uint256.MAX 1 0))); in_range.
Defined.

Lemma decimal_string_roundtrip_witness :
  (t ← Decimal.fmt 1234000000000000000; Decimal.from_str t) tt = (Ok 1234000000000000000, tt) ∧
  (t ← Decimal256.fmt Uint256.MAX; Decimal256.from_str t) tt = (Ok Uint256.MAX, tt).
Proof.
  split.
  - apply (proj1 (decimal_string_roundtrip 1234000000000000000 tt)); in_range.
  - apply (proj2 (decimal_string_roundtrip Uint256.MAX tt)); in_range.
Defined.

Lemma decimal_arithmetic_exact_witness :
  Decimal.checked_div 2000000000000000000 3000000000000000000 tt = (Ok 666666666666666666, tt) ∧
  Decimal256.checked_mul 1500000000000000000 1500000000000000000 tt = (Ok 2250000000000000000, tt).
Proof.
  split.
  - pose proof (proj1 (decimal_arithmetic_exact 2000000000000000000 3000000000000000000 tt)
      ltac:(in_range) ltac:(in_range)) as [_ Hdiv _ _]. exact Hdiv.
  - pose proof (proj2 (decimal_arithmetic_exact 1500000000000000000 1500000000000000000 tt)
      ltac:(in_range) ltac:(in_range)) as [Hmul _ _ _]. exact Hmul.
Defined.

Lemma from_atomics_exact_witness :
  Decimal.from_atomics 4321 20 tt = (Ok 43, tt) ∧ Decimal256.from_atomics 1234 3 tt = (Ok 1234000000000000000, tt).
Proof.
  split.
  - apply (proj1 (from_atomics_exact 4321 20 tt ltac:(in_range))); in_range.
  - apply (proj2 (from_atomics_exact 1234 3 tt ltac:(in_range))); in_range.
Defined.

Lemma decimal_sqrt_correct_witness :
  root_at U128 2000000000000000000 (Decimal.sqrt 2000000000000000000 : M unit unit Z) tt ∧
  root_at U256 2000000000000000000 (Decimal256.sqrt 2000000000000000000 : M unit unit Z) tt.
Proof.
  split.
  - apply (proj1 (decimal_sqrt_correct 2000000000000000000 tt)); in_range.
  - apply (proj2 (decimal_sqrt_correct 2000000000000000000 tt)); in_range.
Defined.

Lemma decimal_pow_no_false_overflow_witness :
  (∃ v, Decimal.checked_pow 1500000000000000000 5 tt = (Ok v, tt) ∧ 0 ≤ v ∧
     v * FX ^ 5 ≤ FX * 1500000000000000000 ^ 5) ∧
  (∃ v, Decimal256.checked_pow 1500000000000000000 5 tt = (Ok v, tt) ∧ 0 ≤ v ∧
     v * FX ^ 5 ≤ FX * 1500000000000000000 ^ 5).
Proof.
  split.
  - apply (proj1 (decimal_pow_no_false_overflow 1500000000000000000 5 tt ltac:(in_range)));
      [in_range|vm_compute; reflexivity].
  - apply (proj2 (decimal_pow_no_false_overflow 1500000000000000000 5 tt ltac:(in_range)));
      [in_range|vm_compute; reflexivity].
Defined.

Lemma checked_pow_panics_witness :
  Decimal.checked_pow 10000000000000000000000000000 3 tt =
    (Panic "attempt to multiply with overflow", tt).
Proof.
  apply (proj1 (checked_pow_panics 10000000000000000000000000000 100000000000000000000000000000000000000 tt));
    [in_range|vm_compute; reflexivity|vm_compute; reflexivity].
Defined.

Lemma uint_bytes_roundtrip_witness :
  Uint256.from_be_bytes (Uint256.to_be_bytes (2 ^ 200 + 7)) = 2 ^ 200 + 7 ∧
  Uint512.from_le_bytes (Uint512.to_le_bytes (2 ^ 300)) = 2 ^ 300 ∧
  Uint256.to_be_bytes (Uint256.from_be_bytes (replicate 32 Byte.x07)) = replicate 32 Byte.x07.
Proof.
  split_and!.
  - apply (proj1 (uint_bytes_roundtrip (2 ^ 200 + 7) [])); in_range.
  - apply (proj1 (proj2 (uint_bytes_roundtrip (2 ^ 300) []))); in_range.
  - apply (proj1 (proj2 (proj2 (uint_bytes_roundtrip 0 (replicate 32 Byte.x07))))); reflexivity.
Defined.

(** * Concrete stores

    The theorems on namespaces, views and typed storage applied to memory storages, with
    decimal text as the JSON of a [u64]. *)

(** ** JSON of a [u64] *)
#[local] Instance json_u64 : Json Z := {|
  json_from_slice := λ b, parse_int U64 (String.string_of_list_byte b);
  json_to_vec := λ z,
    if (0 <=? z) && (z <? U64) then inr (as_bytes (pretty z)) else inl "not a u64";
  type_name := "u64"
|}.

Lemma json_u64_text z b :
  json_to_vec z = inr b → in_width U64 z ∧ b = as_bytes (pretty z).
Proof.
  cbn. destruct (Z.leb_spec 0 z), (Z.ltb_spec z U64); cbn; try done. intros [= <-]. done.
Qed.

#[local] Instance json_u64_spec : JsonSpec Z.
Proof.
  split; intros z b [[Hz0 Hz] ->]%json_u64_text; destruct (pretty_digits z Hz0) as (D1 & D2 & D3).
  - cbn. unfold as_bytes. rewrite String.string_of_list_byte_of_string.
    pose proof (parse_int_ok U64 (pretty z)) as Hp. rewrite parse_uint_value in Hp by done.
    rewrite D2, (proj2 (Z.ltb_lt z U64) Hz) in Hp. destruct (parse_int U64 (pretty z)); naive_solver.
  - destruct (pretty z); [done|]. by intros [=].
Qed.

Lemma json_u64_total n : in_width U64 n → ∃ b, to_vec n = inr b.
Proof.
  intros [H0 Hn]. unfold to_vec. cbn. rewrite (proj2 (Z.leb_le _ _) H0), (proj2 (Z.ltb_lt _ _) Hn). eauto.
Qed.

(** ** A storage with one record in the namespace "a" *)
Definition ns_a : bytes := as_bytes "a".
Definition ns_b : bytes := as_bytes "b".
Definition one_record : MemoryStorage :=
  mkMemoryStorage {[ lp ns_a ++ as_bytes "k" := as_bytes "v" ]}.

Lemma one_record_keyed : keyed one_record.
Proof.
  intros k v Hk. cbn in Hk. unfold memory_get, one_record in Hk. cbn in Hk.
  apply lookup_singleton_Some in Hk as [<- _]. exists ns_a, (as_bytes "k"). split; [|done].
  by vm_compute.
Qed.

Lemma namespaces_isolated_witness :
  ∃ st', (through ns_b (t_set (as_bytes "x") (as_bytes "y")) : M unit _ unit) one_record = (Ok tt, st') ∧
    (read_in ns_b (as_bytes "x") : M unit _ _) st' = (Ok (Some (as_bytes "y")), st') ∧
    (read_in ns_a (as_bytes "k") : M unit _ _) st' = (Ok (Some (as_bytes "v")), st').
Proof.
  destruct (proj1 (namespaces_isolated (E := unit) one_record ns_b ns_a (as_bytes "x") (as_bytes "y")
    (memory_ok _) ltac:(by vm_compute) ltac:(by vm_compute) ltac:(discriminate) ltac:(discriminate)))
    as (st' & Hset & _ & _ & Hread).
  exists st'. split; [exact Hset|]. split; [exact (proj1 (Hread (as_bytes "x")))|].
  exact (proj2 (Hread (as_bytes "k"))).
Defined.

Lemma prefixed_range_exact_witness :
  ∃ l, (t_range None None Descending : M unit _ _) (view one_record ns_a) = (Ok l, view one_record ns_a) ∧
    (as_bytes "k", as_bytes "v") ∈ l.
Proof.
  destruct (prefixed_range_exact (E := unit) one_record ns_a None None Descending (memory_ok _) one_record_keyed
    ltac:(by vm_compute)) as (l & Hrun & _ & Hin).
  exists l. split; [exact Hrun|]. apply Hin. split; [|reflexivity].
  apply (lookup_singleton_eq (M := gmap bytes) (lp ns_a ++ as_bytes "k") (as_bytes "v")).
Defined.

(** The namespace of the one byte 255, and a bare key of two bytes. *)
Definition bare : MemoryStorage := mkMemoryStorage {[ [Byte.x00; Byte.x02] := as_bytes "v" ]}.

Lemma range_panics_on_bare_key_witness :
  ∃ msg, (range_with_prefix (lp [Byte.xff]) None None Ascending : M unit _ _) bare = (Panic msg, bare).
Proof.
  apply (range_panics_on_bare_key (E := unit) (lp [Byte.xff]) [Byte.x00; Byte.x02] (as_bytes "v") Ascending bare (memory_ok _)).
  - apply (lookup_singleton_eq (M := gmap bytes) [Byte.x00; Byte.x02] (as_bytes "v")).
  - vm_compute. reflexivity.
  - vm_compute. lia.
Defined.

Lemma multilevel_is_nesting_witness :
  ∃ outer inner,
    (PrefixedStorage_new one_record ns_a : M unit unit _) tt = (Ok outer, tt) ∧
    (PrefixedStorage_multilevel outer [ns_b] : M unit unit _) tt = (Ok inner, tt) ∧
    (PrefixedStorage_multilevel one_record [ns_a; ns_b] : M unit unit _) tt = (Ok (flatten inner), tt).
Proof.
  destruct (multilevel_is_nesting (E := unit) one_record ns_a [ns_b] tt) as (o & i & H1 & H2 & H3 & _).
  - by vm_compute.
  - constructor; [by vm_compute|constructor].
  - eauto.
Defined.

Lemma nextval_counts_witness :
  ∃ seq', nextvals 3 (mkSingleton one_record (lp ns_b)) = (Ok [1; 2; 3], seq') ∧
    currval seq' = inr 3.
Proof.
  apply (nextval_counts json_u64_total 3 (mkSingleton one_record (lp ns_b)) 0 (memory_ok _)); [|lia|done].
  vm_compute. reflexivity.
Defined.

Definition bucket_a : Bucket MemoryStorage := mkBucket one_record (lp ns_a).

Lemma bucket_is_a_typed_map_witness :
  ∃ self', BucketOps.save (as_bytes "n") 42 bucket_a = (Ok tt, self') ∧
    BucketOps.load (as_bytes "n") self' = inr 42.
Proof.
  assert (to_vec 42 = inr (as_bytes "42")) as Hb by (vm_compute; reflexivity).
  destruct (proj1 (bucket_is_a_typed_map (E := unit) bucket_a (as_bytes "n") 42 (as_bytes "42") (memory_ok _) Hb))
    as (self' & H1 & _ & H2 & _). eauto.
Defined.

Lemma bucket_update_all_or_nothing_witness :
  ∃ self', BucketOps.update id (as_bytes "n") (λ o, inr (default 7 o)) bucket_a = (Ok 7, self') ∧
    BucketOps.load (as_bytes "n") self' = inr 7.
Proof.
  pose proof (bucket_update_all_or_nothing id bucket_a (as_bytes "n") (λ o, inr (default 7 o)) (memory_ok _)) as H.
  assert (BucketOps.may_load (T := Z) (as_bytes "n") bucket_a = inr None) as Hl by (vm_compute; reflexivity).
  rewrite Hl in H. destruct H as (self' & H1 & _ & H2). eauto.
Defined.
