(* ===== verification/WorldVm.v ===== *)
(** * A concrete virtual machine

    wasmer's pointers as it implements them, a metered instance that is its memory
    and its points, toy curves and compilers, and the theorems on memory, gas,
    signatures, imports and the module cache applied to them. *)

From S2P Require Import Prelude.
From S2P Require Import Bytes.
From S2P Require Import CwStd.
From S2P Require Import StdError.
From S2P Require Import Errors.
From S2P Require Import Client.
From S2P Require Import Storage.
From S2P Require Import States.
From S2P Require Import DebugLog.
From S2P Require Import Sections.
From S2P Require Import Memory.
From S2P Require Import Crypto.
From S2P Require Import Compatibility.
From S2P Require Import WasmBackend.
From S2P Require Import Cache.
From S2P Require Import CacheFacts.
From S2P Require Import Gas.
From S2P Require Import Api.
From S2P Require Import Vm.
From S2P Require Import Host.
From S2P Require Import HostImports.
From S2P Require Import HostFacts.
From S2P Require Import HostRefines.
From S2P Require Import World.

Open Scope Z_scope.

(** ** Pointers and memory *)

(** [WasmPtr::deref] of wasmer 2: in bounds, then rounded down to the alignment. *)
#[export] Instance wasmer_ptr : WasmPtr := {
  deref_struct size ptr :=
    if (0 <=? ptr) && (ptr + REGION_SIZE <=? size) then Some (ptr - ptr mod 4) else None;
  deref_array size offset len :=
    if (offset + len <=? size) && (offset <? size) then Some offset else None
}.

#[export] Instance wasmer_ptr_spec : WasmPtrSpec.
Proof.
  constructor; cbn.
  - intros size ptr a. destruct (Z.leb_spec 0 ptr), (Z.leb_spec (ptr + REGION_SIZE) size); cbn; try done.
    intros [= <-]. pose proof (Z.mod_pos_bound ptr 4 eq_refl). pose proof (Z.mod_le ptr 4). lia.
  - intros size ptr H0 Hm Hs. destruct (Z.leb_spec 0 ptr); [|lia].
    destruct (Z.leb_spec (ptr + REGION_SIZE) size); [|lia]. cbn. f_equal. lia.
  - done.
Qed.

(** A region at 4 whose buffer is the bytes 32 to 40. *)
Definition empty_region : Region := mkRegion 32 8 0.
Definition small_memory : bytes :=
  replicate 4 Byte.x00 ++ Region_bytes empty_region ++ replicate 48 Byte.x00.

Lemma read_region_safe_witness :
  (∃ e, Memory.read_region 4 8 small_memory = (Err e, small_memory)) ∨
  ∃ data, Memory.read_region 4 8 small_memory = (Ok data, small_memory).
Proof.
  destruct (read_region_safe 4 8 small_memory) as [?|(r & d & H & _)]; [by left|right; eauto].
Defined.

Lemma write_region_roundtrip_witness :
  ∃ memory', Memory.write_region 4 [Byte.x01; Byte.x02] small_memory = (Ok tt, memory') ∧
    Memory.read_region 4 100 memory' = (Ok [Byte.x01; Byte.x02], memory').
Proof.
  destruct (write_region_roundtrip 4 [Byte.x01; Byte.x02] small_memory empty_region 4 100)
    as (memory' & H1 & H2 & _); [vm_compute; reflexivity|vm_compute; reflexivity|by vm_compute|by vm_compute|
    by vm_compute|left; by vm_compute|by vm_compute|eauto].
Defined.

(** ** Curves: a signature is valid when it starts like the message *)
Definition starts_alike (sig msg : bytes) : bool := bool_decide (head sig = head msg).

#[export] Instance toy_curves : Curves := {
  EcSignature := bytes;
  EcKey := bytes;
  EcRecoverable := bytes;
  signature_from_bytes b := inr b;
  normalize_s _ := None;
  key_from_sec1_bytes b := inr b;
  verify_digest _ msg sig := starts_alike sig msg;
  recovery_id_new n := n <? 2;
  recoverable_new sig _ := inr sig;
  recover_verifying_key sig _ := inr sig;
  to_encoded_point k := k;
  EdKey := bytes;
  ed_key_try_from b := Some b;
  ed_verify _ sig msg := starts_alike sig msg;
  ed_batch_verify items := forallb (λ '(_, sig, msg), starts_alike sig msg) items
}.

#[export] Instance toy_curves_spec : CurvesSpec.
Proof. by constructor. Qed.

Lemma batch_verify_is_each_witness :
  let sig := replicate 64 Byte.x07 in
  ed25519_batch_verify [[Byte.x07]] [sig; sig] [replicate 32 Byte.x00; replicate 32 Byte.x01] tt =
  verify_each [([Byte.x07], sig, replicate 32 Byte.x00); ([Byte.x07], sig, replicate 32 Byte.x01)] tt.
Proof.
  intros sig.
  exact (proj1 (proj2 (batch_verify_is_each (S := unit) [sig; sig] tt))
    [Byte.x07] [replicate 32 Byte.x00; replicate 32 Byte.x01] eq_refl).
Defined.

(** ** A metered instance: its memory and its points *)
Definition Metered : Type := bytes * MeteringPoints.

#[export] Instance metered_instance : WasmerInstance Metered := {
  exported_memory w := Some w.1;
  set_exported_memory m w := (m, w.2);
  get_remaining_points w := w.2;
  set_remaining_points n w := (w.1, Remaining n);
  get_function _ name := if String.eqb name "allocate" then inr tt else inl "Missing export"
}.

#[export] Instance metered_spec : WasmerSpec Metered.
Proof.
  constructor; cbn; try done.
  - by intros n [m p] [= ->].
  - by intros m [m' p] [= ->].
Qed.

Definition PlainEnv : Type := Host.Environment unit unit unit Metered unit.

Definition plain_env (memory : bytes) (left : Z) : PlainEnv :=
  Host.mkEnvironment tt false GasConfig_default
    (mkContextData (GasState_with_limit left) None true None (Some (memory, Remaining left))) tt [].

(** 70 of 100 units are charged, 20 of them externally. *)
Definition charged_env : PlainEnv :=
  Eval vm_compute in (process_gas_info (mkGasInfo 50 20) (plain_env [] 100)).2.

Lemma gas_accounting_witness :
  process_gas_info (mkGasInfo 50 20) (plain_env [] 100) = (Ok tt, charged_env) ∧
  create_gas_report charged_env = (Ok (mkGasReport 100 30 20 50), charged_env) ∧
  ∃ e', process_gas_info (mkGasInfo 0 120) charged_env = (Err GasDepletion, e') ∧
    create_gas_report e' = (Ok (mkGasReport 100 0 140 0), e').
Proof.
  assert (process_gas_info (mkGasInfo 50 20) (plain_env [] 100) = (Ok tt, charged_env)) as Hp
    by (vm_compute; reflexivity).
  split; [exact Hp|].
  destruct (gas_accounting 100 charged_env 20 50) as (n & H1 & H0 & H2 & Hnext); [lia| |].
  - apply (metered_host 100 (plain_env [] 100) _ 0 0 (mkGasInfo 50 20)); [by eapply metered_start| |exact Hp].
    split; by vm_compute.
  - assert (n = 30) as -> by lia. split; [exact H1|].
    apply (proj2 (Hnext (mkGasInfo 0 120) ltac:(split; by vm_compute) ltac:(by vm_compute) ltac:(by vm_compute))).
    by vm_compute.
Defined.

(** Regions at 4, 16 and 28 for a message, a signature and a key. *)
Definition three_regions (message signature public_key : bytes) : bytes :=
  let n1 := Z.of_nat (length message) in
  let n2 := Z.of_nat (length signature) in
  let n3 := Z.of_nat (length public_key) in
  replicate 4 Byte.x00 ++ Region_bytes (mkRegion 40 n1 n1) ++ Region_bytes (mkRegion (40 + n1) n2 n2) ++
  Region_bytes (mkRegion (40 + n1 + n2) n3 n3) ++ message ++ signature ++ public_key ++ [Byte.x00].

Definition hash32 : bytes := replicate 32 Byte.x07.
Definition sig64 : bytes := replicate 64 Byte.x07.
Definition key33 : bytes := Byte.x02 :: replicate 32 Byte.x00.

Definition crypto_env : PlainEnv := plain_env (three_regions hash32 sig64 key33) (2 ^ 60).

Lemma signature_imports_answer_witness :
  do_secp256k1_verify 4 16 28 crypto_env = (Ok 0, charged (154 * GAS_PER_US) crypto_env).
Proof.
  assert (gas_left_is crypto_env (2 ^ 60)) as Hn by (by eexists).
  refine (proj1 (signature_imports_answer crypto_env (2 ^ 60) hash32 sig64 key33 4 16 28 Hn _) _ _ _ _ _).
  - by vm_compute.
  - vm_compute; reflexivity.
  - vm_compute; reflexivity.
  - vm_compute; reflexivity.
  - split; by vm_compute.
  - by vm_compute.
Defined.

(** Four bytes that announce a section of nine. *)
Definition bad_sections : bytes := [Byte.x00; Byte.x00; Byte.x00; Byte.x09].
Definition hostile_env : PlainEnv := plain_env (three_regions [] bad_sections []) (2 ^ 60).

Lemma batch_import_panics_witness :
  do_ed25519_batch_verify 4 16 28 hostile_env = (Panic "attempt to subtract with overflow", hostile_env).
Proof.
  apply (batch_import_panics hostile_env [] bad_sections [] 4 16 28); [vm_compute; reflexivity..|].
  right. left. exists [], 9, [], []. split; [vm_compute; reflexivity|]. split; [reflexivity|]. split; by vm_compute.
Defined.

(** ** An instance of the simulator with a private storage *)
Definition SimEnv : Type :=
  Host.Environment RpcMockApi StorageHandle unit Metered (RpcMockQuerier unit).

Definition sim_memory : bytes := three_regions (as_bytes "key") (as_bytes "value") [].

Definition no_queries (request : bytes)
    : M BackendError (RpcMockQuerier unit) (SystemResult (ContractResult Binary)) :=
  throw (BUnknown "no queries").

Definition sim_env : SimEnv :=
  Host.mkEnvironment (mkApi 32 (as_bytes "wasm") 4) false GasConfig_default
    (mkContextData (GasState_with_limit (2 ^ 64 - 1))
       (Some (mkHandle (PrivateCell ∅) ∅ 0)) false (Some tt) (Some (sim_memory, Remaining 1000)))
    (mkQuerier (mkAllStates ∅ ∅ tt 1 0 "world-1" 32 "wasm") DebugLog_new) [].

Lemma sim_env_ready : ready sim_env sim_memory.
Proof.
  constructor; [by eexists|done|done|by vm_compute|]. by exists (sim_memory, Remaining 1000), 1000.
Defined.

Definition no_calls (name : string) (args : list Val) : M string SimEnv (list Val) := throw "unreachable".

Lemma imports_refine_witness :
  HostImports.do_db_write (HB := simulator_backend no_queries) 4 16 sim_env =
  (lift (host_call no_queries (HDbWrite (as_bytes "key") (as_bytes "value"))) ≫= mret) sim_env.
Proof.
  apply (imports_refine no_queries no_calls sim_env sim_memory
    (HDbWrite (as_bytes "key") (as_bytes "value")) (HostImports.do_db_write 4 16) mret sim_env_ready).
  constructor; [exists (mkRegion 40 3 3)|exists (mkRegion 43 5 5)];
    (split; [vm_compute; reflexivity|split; [by vm_compute|split; [by vm_compute|vm_compute; reflexivity]]]).
Defined.

(** ** Bounded texts, static checks and memory limits *)
Lemma to_string_limited_bounded_witness :
  ∃ text, collection_to_string_limited ["alpha"; "beta"; "gamma"] 25 "{" "}" = Some text ∧
    (String.length text ≤ 25)%nat.
Proof.
  destruct (to_string_limited_bounded ["alpha"; "beta"; "gamma"] 25 "{" "}") as (t & H1 & H2 & _);
    [vm_compute; lia|eauto].
Defined.

Definition good_module : WasmModule :=
  mkWasmModule (Some [mkLimits 17 None])
    (Some [("allocate", IFunction); ("deallocate", IFunction); ("instantiate", IFunction);
           ("interface_version_8", IFunction); ("memory", IMemory)])
    (Some [mkImport "env" "db_read" EFunction; mkImport "env" "db_write" EFunction]).

#[export] Instance toy_parity : ParityWasm := {
  deserialize_buffer code := match code with [] => inl "empty" | _ => inr good_module end
}.

#[export] Instance toy_tunables : Tunables := {
  MemoryStyle := unit;
  TableStyle := unit;
  TableType := unit;
  VmMemory := MemoryType;
  VmTable := unit;
  base_memory_style _ := tt;
  base_table_style _ := tt;
  base_create_host_memory ty _ := inr ty;
  base_create_vm_memory ty _ _ := inr ty;
  base_create_host_table _ _ := inr tt;
  base_create_vm_table _ _ _ := inr tt
}.

Lemma memory_limit_enforced_witness :
  ∃ n, create_vm_memory (HT := toy_tunables) (mkLimiting (limit_to_pages (16 * 1024 * 1024))) (mkMemoryType n None false) tt 0 =
    inr (mkMemoryType n (Some 256) false) ∧ n = 17.
Proof.
  destruct (memory_limit_enforced (HT := toy_tunables) (16 * 1024 * 1024) tt 0 ltac:(lia)) as (_ & _ & Hchecked).
  destruct (Hchecked EMPTY_WASM ∅) as (m & n & H1 & H2 & _ & H3 & _); [vm_compute; reflexivity|].
  assert (n = 17) as -> by (cbn in H1; injection H1 as <-; cbn in H2; by injection H2).
  exists 17. split; [exact H3|reflexivity].
Defined.

(** ** A module cache *)

(** An artifact is its code, serialized behind wasmer's header. *)
Definition header : bytes :=
  EXPECTED_MODULE_HEADER_PREFIX ++ [Byte.x01; Byte.x00; Byte.x00; Byte.x00] ++ replicate 4 Byte.x00.

#[export] Instance toy_modules : WasmerModules := {
  Artifact := bytes;
  artifact_compile code := inr code;
  artifact_serialize a := inr (header ++ a);
  artifact_deserialize b := inr (drop 32 b);
  artifact_size a := Z.of_nat (length a);
  artifact_functions _ := []
}.

#[export] Instance toy_modules_spec : WasmerModulesSpec.
Proof. constructor. by intros a b [= <-]. Qed.

(** A cache that refuses what is as heavy as its capacity and evicts nothing. *)
#[export] Instance toy_lru : Lru := {
  LruT := Z * gmap Checksum SizedModule;
  lru_new n := (n, ∅);
  lru_put c m l := if l.1 <=? sm_size m then inl "too heavy" else inr (l.1, <[c := m]> l.2);
  lru_get c l := (l.2 !! c, l);
  lru_len l := Z.of_nat (size l.2);
  lru_weight l := map_fold (λ _ m acc, sm_size m + acc) 0 l.2;
  lru_find l c := l.2 !! c
}.

#[export] Instance toy_lru_spec : LruSpec.
Proof.
  constructor; cbn; try done.
  - intros c v l l'. case_match; [done|]. intros [= <-]. apply lookup_insert_eq.
  - intros c v l l' c'. case_match; [done|]. intros [= <-] Hne. left. by apply lookup_insert_ne.
Qed.

Definition no_fault (op : FsOp) (p : path) : option string := None.
Definition empty_disk : Disk := mkDisk ∅ ∅ ∅.
Definition toy_options : CacheOptions := mkCacheOptions ["home"] ∅ 1000 (32 * 1024 * 1024).

(** The outcome of a run is computed, its state is not. *)
Lemma run_outcome {E A T} (r : outcome E A * T) o : r.1 = o → r = (o, r.2).
Proof. intros <-. by destruct r. Defined.

Definition new_cache : outcome VmError Cache := (Cache_new no_fault toy_options empty_disk).1.
Definition toy_cache : Cache :=
  match new_cache with
  | Ok s => s
  | _ => mkCache ∅ [] 0 ∅ None (mkFsCache [] 0) Stats_default empty_disk
  end.

Lemma toy_cache_new : ∃ d', Cache_new no_fault toy_options empty_disk = (Ok toy_cache, d').
Proof.
  eexists. apply run_outcome. fold new_cache. unfold toy_cache.
  assert (match new_cache with Ok _ => true | _ => false end = true) as H by (vm_compute; reflexivity).
  by destruct new_cache.
Qed.

Lemma empty_disk_coherent s c b a :
  files empty_disk !! module_file (fs_cache s) c = Some b →
  artifact_deserialize b = inr a → artifact_of c a.
Proof. intros H. change ((∅ : gmap path bytes) !! module_file (fs_cache s) c = Some b) in H.
  by rewrite lookup_empty in H. Qed.

Definition toy_code : bytes := EMPTY_WASM.
Definition toy_history : list CacheOp := [OpSaveWasm toy_code; OpPin toy_code; OpGetModule toy_code].

Lemma get_module_of_checksum_witness :
  ∃ m s', get_module no_fault toy_code (cache_run no_fault toy_history toy_cache) = (Ok m, s') ∧
    artifact_of toy_code (m_artifact m) ∧ m_limit m = Some (32 * 1024 * 1024).
Proof.
  destruct toy_cache_new as [d' Hnew]. eexists _, _.
  assert (get_module no_fault toy_code (cache_run no_fault toy_history toy_cache) =
    (Ok (mkModule toy_code (Some (32 * 1024 * 1024))),
     (get_module no_fault toy_code (cache_run no_fault toy_history toy_cache)).2)) as Hget
    by (apply run_outcome; vm_compute; reflexivity).
  split; [exact Hget|].
  exact (get_module_of_checksum no_fault toy_options empty_disk toy_cache d' toy_history toy_code _ _
    Hnew (empty_disk_coherent toy_cache) Hget).
Defined.

Lemma pinned_stays_witness :
  ∃ s1 m s3,
    pin no_fault toy_code (cache_run no_fault [OpSaveWasm toy_code] toy_cache) = (Ok tt, s1) ∧
    get_module no_fault toy_code (cache_run no_fault [OpGetModule toy_code; OpUnpin []] s1) = (Ok m, s3).
Proof.
  set (s := cache_run no_fault [OpSaveWasm toy_code] toy_cache).
  assert (pin no_fault toy_code s = (Ok tt, (pin no_fault toy_code s).2)) as Hpin
    by (apply run_outcome; vm_compute; reflexivity).
  destruct (pinned_stays no_fault toy_code s _ [OpGetModule toy_code; OpUnpin []] Hpin) as (m & _ & Hget).
  { intros Hin. apply elem_of_cons in Hin as [[=]|Hin]. apply elem_of_cons in Hin as [[=]|Hin].
    by apply not_elem_of_nil in Hin. }
  destruct Hget as (s3 & Hs3 & _); [vm_compute; reflexivity|]. eauto.
Defined.

Lemma saved_code_is_found_witness :
  ∃ s1 m s2, save_wasm no_fault toy_code (cache_run no_fault [OpMetrics] toy_cache) = (Ok toy_code, s1) ∧
    get_module no_fault toy_code s1 = (Ok m, s2) ∧ m_artifact m = toy_code.
Proof.
  destruct toy_cache_new as [d' Hnew].
  set (s := cache_run no_fault [OpMetrics] toy_cache).
  assert (save_wasm no_fault toy_code s = (Ok toy_code, (save_wasm no_fault toy_code s).2)) as Hsave
    by (apply run_outcome; vm_compute; reflexivity).
  assert ((get_module no_fault toy_code (save_wasm no_fault toy_code s).2).1 =
    Ok (mkModule toy_code (Some (32 * 1024 * 1024)))) as Hok by (vm_compute; reflexivity).
  destruct (saved_code_is_found no_fault toy_options empty_disk toy_cache d' [OpMetrics] toy_code toy_code
    (save_wasm no_fault toy_code s).2 Hnew (empty_disk_coherent toy_cache))
    as [(m & s2 & Hget & Hart & _)|(a & lim & l & t & s2 & _ & _ & _ & Hget)].
  - done.
  - exact Hsave.
  - by intros code.
  - split_and!; by vm_compute.
  - exists (save_wasm no_fault toy_code s).2, m, s2. split; [exact Hsave|]. split; [exact Hget|]. by injection Hart.
  - exfalso. rewrite Hget in Hok. discriminate Hok.
Defined.

(** The other outcome: a memory cache of one byte. *)
Definition tiny_options : CacheOptions := mkCacheOptions ["home"] ∅ 1 (32 * 1024 * 1024).
Definition tiny_run : M VmError Disk (outcome VmError Module) := λ d,
  let '(r, d') := Cache_new no_fault tiny_options d in
  (match r with Ok s => Ok (get_module no_fault toy_code (save_wasm no_fault toy_code s).2).1
   | Err e => Err e | Panic p => Panic p | OutOfFuel => OutOfFuel end, d').
Lemma too_heavy_to_get : (tiny_run empty_disk).1 = Ok (Err (CacheErr "too heavy")).
Proof. vm_compute. reflexivity. Qed.

(** The file of the code holds one byte too many. *)
Definition damaged_cache : Cache :=
  set_disk (set_file (wasm_path toy_cache ++ [to_hex toy_code]) (toy_code ++ [Byte.xff]) (disk toy_cache))
    toy_cache.

Lemma save_wasm_keeps_old_tail_witness :
  ∃ s1, save_wasm no_fault toy_code damaged_cache = (Ok toy_code, s1) ∧
    load_wasm no_fault toy_code s1 = (Err IntegrityErr, s1).
Proof.
  apply (save_wasm_keeps_old_tail (HX := world_externals) no_fault toy_code damaged_cache toy_code
    (header ++ toy_code) (toy_code ++ [Byte.xff])).
  - done.
  - rewrite <-(check_wasm_pure toy_code (available_capabilities damaged_cache) damaged_cache) at 3.
    apply run_outcome. vm_compute. reflexivity.
  - done.
  - done.
  - vm_compute. reflexivity.
  - apply (bool_decide_unpack _). by vm_compute.
  - by apply Nat.ltb_lt.
  - apply (bool_decide_unpack _). by vm_compute.
Defined.
