(* ===== verification/WorldGuest.v ===== *)
(** * A concrete contract

    A machine with a bump allocator, a contract whose [execute] checks its message, and
    a contract that uses its storage: the theorems on calls and on the storage of a
    contract applied to them. *)

From S2P Require Import Prelude.
From S2P Require Import Bytes.
From S2P Require Import CwStd.
From S2P Require Import StdError.
From S2P Require Import Errors.
From S2P Require Import Client.
From S2P Require Import Storage.
From S2P Require Import States.
From S2P Require Import TypedStorage.
From S2P Require Import DebugLog.
From S2P Require Import Memory.
From S2P Require Import Crypto.
From S2P Require Import Gas.
From S2P Require Import Api.
From S2P Require Import Vm.
From S2P Require Import Host.
From S2P Require Import HostRefines.
From S2P Require Import HostCalls.
From S2P Require Import Guest.
From S2P Require Import GuestRegions.
From S2P Require Import GuestImports.
From S2P Require Import GuestAbi.
From S2P Require Import GuestCalls.
From S2P Require Import GuestDatabase.
From S2P Require Import World.
From S2P Require Import WorldVm.

Open Scope Z_scope.

(** ** The machine: blocks are taken above [mc_top] and the memory grows with it *)
Record Machine := mkMachine {
  mc_memory : bytes;
  mc_points : MeteringPoints;
  mc_live : gmap Z Z;
  mc_top : Z
}.

Definition entries : list string := ["allocate"; "deallocate"; "execute"].

#[export] Instance machine_instance : WasmerInstance Machine := {
  exported_memory w := Some (mc_memory w);
  set_exported_memory m w := mkMachine m (mc_points w) (mc_live w) (mc_top w);
  get_remaining_points w := mc_points w;
  set_remaining_points n w := mkMachine (mc_memory w) (Remaining n) (mc_live w) (mc_top w);
  get_function _ name := if bool_decide (name ∈ entries) then inr tt else inl "Missing export"
}.

#[export] Instance machine_spec : WasmerSpec Machine.
Proof.
  constructor; cbn; try done.
  - by intros n [? ? ? ?] [= ->].
  - by intros m [? ? ? ?] [= ->].
Qed.

Definition tidy (w : Machine) : Prop :=
  0 < mc_top w ∧ map_Forall (λ p n, p + n ≤ mc_top w) (mc_live w).
#[export] Instance tidy_dec w : Decision (tidy w).
Proof. unfold tidy. apply _. Defined.

Definition next_block (w : Machine) : Z := mc_top w + (- mc_top w) mod 4.

Definition bump_room (w : Machine) : Z :=
  if decide (tidy w) then Z.max 0 (2 ^ 31 - 1 - mc_top w) else 0.

Lemma bump_room_tidy w : tidy w → bump_room w = Z.max 0 (2 ^ 31 - 1 - mc_top w).
Proof. intros ?. unfold bump_room. by destruct (decide (tidy w)). Qed.
Lemma bump_room_pos w : 0 < bump_room w → tidy w.
Proof. unfold bump_room. by destruct (decide (tidy w)). Qed.

#[export] Instance bump_allocator : Allocator Machine := {
  live := mc_live;
  malloc size _ w :=
    let p := next_block w in
    Some (p, mkMachine (mc_memory w ++ replicate (Z.to_nat (p + size - mem_size (mc_memory w))) Byte.x00)
               (mc_points w) (<[p := size]> (mc_live w)) (p + size));
  mfree p n w :=
    if decide (mc_live w !! p = Some n)
    then Some (mkMachine (mc_memory w) (mc_points w) (delete p (mc_live w)) (mc_top w)) else None;
  room := bump_room;
  grown n := Z.max 8 n
}.

Lemma bump_kept_same (w w' : Machine) blocks z :
  mc_memory w' = mc_memory w ++ z → mc_points w' = mc_points w →
  layout blocks (mem_size (mc_memory w)) →
  (mem_size (mc_memory w) < U32 → mem_size (mc_memory w') < U32) →
  kept w w' (mc_memory w) (mc_memory w') blocks.
Proof.
  intros Hm Hp Hl Hs. split; [..|done].
  - intros p n Hb. destruct (block_inside _ _ Hl _ _ Hb) as (? & ? & ?). unfold load, slice, mem_size in *.
    rewrite Hm, drop_app_le, take_app_le; [done|rewrite length_drop; lia|lia].
  - intros [? ?]. split; [|auto]. rewrite Hm. unfold mem_size in *. rewrite length_app. lia.
  - intros n Hn ?. exists n. cbn in *. by rewrite Hp.
Qed.

Lemma layout_delete blocks size p : layout blocks size → layout (delete p blocks) size.
Proof.
  intros [H1 H2]. split.
  - intros q n [_ ?]%lookup_delete_Some. by apply H1.
  - intros q n r k [_ ?]%lookup_delete_Some [_ ?]%lookup_delete_Some. by apply H2.
Qed.

#[export] Instance bump_spec : AllocatorSpec Machine.
Proof.
  constructor.
  - intros size align w m Hsize Hroom Halign [= <-] Hl. cbn [room live bump_allocator] in *.
    assert (tidy w) as Htidy by (apply bump_room_pos; unfold OVERHEAD in *; lia).
    rewrite (bump_room_tidy w Htidy) in Hroom |- *. destruct Htidy as [Htop Hbelow].
    pose proof (Z.mod_pos_bound (- mc_top w) 4 eq_refl). fold (next_block w).
    assert (mc_top w ≤ next_block w ≤ mc_top w + 3) by (unfold next_block; lia).
    assert (mc_live w !! next_block w = None) as Hnone.
    { destruct (mc_live w !! next_block w) as [n|] eqn:Hn; [|done].
      pose proof (Hbelow _ _ Hn) as Hb. cbn in Hb. destruct (block_inside _ _ Hl _ _ Hn) as (? & ? & ?). lia. }
    eexists _, _, _. split; [reflexivity|]. split; [reflexivity|]. cbn -[Z.pow]. split_and!; try done.
    + destruct Hl as [H1 H2]. unfold mem_size in *. rewrite length_app, length_replicate. split.
      * intros p n [[<- <-]|[? Hn]]%lookup_insert_Some; [lia|]. destruct (H1 _ _ Hn) as (? & ? & ?). lia.
      * intros p n q k [[<- <-]|[? Hn]]%lookup_insert_Some [[<- <-]|[? Hk]]%lookup_insert_Some Hne; try done.
        { right. pose proof (Hbelow _ _ Hk). cbn in *. lia. }
        { left. pose proof (Hbelow _ _ Hn). cbn in *. lia. }
        by apply (H2 p n q k).
    + assert (next_block w mod 4 = 0).
      { unfold next_block. rewrite Zplus_mod_idemp_r. by rewrite Z.add_opp_diag_r. }
      destruct Halign as [->| ->]; [apply Z.mod_1_r|done].
    + rewrite bump_room_tidy; [cbn -[Z.pow]; unfold OVERHEAD in *; lia|].
      split; cbn; [lia|]. intros p n [[<- <-]|[? Hn]]%lookup_insert_Some; [lia|].
      pose proof (Hbelow _ _ Hn). cbn in *. lia.
    + eapply bump_kept_same; [done|done|done|]. cbn. unfold mem_size. rewrite length_app, length_replicate.
      change U32 with (2 ^ 32). intros ?. unfold OVERHEAD in *. lia.
  - intros p n w m Hp [= <-] Hl. eexists _, _. split; [cbn in *; by rewrite decide_True|]. split; [reflexivity|].
    cbn -[Z.pow]. split_and!; try done.
    + by apply layout_delete.
    + unfold bump_room at 1. destruct (decide (tidy w)) as [[Htop Hbelow]|].
      * rewrite bump_room_tidy; [done|]. split; [done|]. cbn. by apply map_Forall_delete.
      * unfold bump_room. destruct (decide (tidy _)); lia.
    + refine (bump_kept_same w (mkMachine _ _ (delete p (mc_live w)) _) (delete p (mc_live w)) [] _ _ _ _); [by rewrite app_nil_r|done|by apply layout_delete|done].
  - intros n. cbn. lia.
  - intros w. cbn [room bump_allocator]. unfold bump_room. destruct (decide _) as [[? ?]|]; lia.
  - done.
  - done.
  - done.
Qed.

(** ** Texts of values: one environment, one info, responses with data alone *)
#[local] Instance Env_eq_dec : EqDecision Env.
Proof.
  assert (EqDecision BlockInfo) by solve_decision. assert (EqDecision TransactionInfo) by solve_decision.
  assert (EqDecision ContractInfo) by solve_decision. solve_decision.
Defined.
#[local] Instance MessageInfo_eq_dec : EqDecision MessageInfo.
Proof. solve_decision. Defined.

Definition env0 : Env := mkEnv (mkBlockInfo 12345 1571797419 "cosmos-testnet") None (mkContractInfo "contract").
Definition info0 : MessageInfo := mkMessageInfo "creator" [].

(** A text for [x0] alone. *)
Definition one_to_vec `{EqDecision T} (x0 : T) (b : bytes) (x : T) : string + bytes :=
  if decide (x = x0) then inr b else inl "unsupported".
Definition one_from_slice {T} (x0 : T) (b : bytes) (b' : bytes) : string + T :=
  if decide (b' = b) then inr x0 else inl "unsupported".
Lemma one_roundtrip `{EqDecision T} (x0 : T) b x b' :
  one_to_vec x0 b x = inr b' → one_from_slice x0 b b' = inr x.
Proof.
  unfold one_to_vec, one_from_slice. destruct (decide (x = x0)) as [->|]; [|done].
  intros [= <-]. by rewrite decide_True.
Qed.

Definition env_text : bytes := as_bytes "{env}".
Definition info_text : bytes := as_bytes "{info}".

#[local] Instance sj_env : SerdeJson Env := Build_SerdeJson _ (one_from_slice env0 env_text) (one_to_vec env0 env_text) "Env".
#[local] Instance j_env : Json Env := Build_Json _ (one_from_slice env0 env_text) (one_to_vec env0 env_text) "Env".
#[local] Instance env_compat : JsonCompat Env.
Proof. constructor; apply one_roundtrip. Qed.
#[local] Instance sj_info : SerdeJson MessageInfo :=
  Build_SerdeJson _ (one_from_slice info0 info_text) (one_to_vec info0 info_text) "MessageInfo".
#[local] Instance j_info : Json MessageInfo :=
  Build_Json _ (one_from_slice info0 info_text) (one_to_vec info0 info_text) "MessageInfo".
#[local] Instance info_compat : JsonCompat MessageInfo.
Proof. constructor; apply one_roundtrip. Qed.

Definition response_to_vec (r : ContractResult Response) : string + bytes :=
  match r with
  | CROk (mkResponse [] [] [] None) => inr [Byte.x01]
  | CROk (mkResponse [] [] [] (Some d)) => inr (Byte.x02 :: d)
  | CRErr e => inr (Byte.x03 :: as_bytes e)
  | _ => inl "unsupported"
  end.
Definition response_from_slice (b : bytes) : string + ContractResult Response :=
  match b with
  | [Byte.x01] => inr (CROk Response_new)
  | Byte.x02 :: d => inr (CROk (mkResponse [] [] [] (Some d)))
  | Byte.x03 :: e => inr (CRErr (String.string_of_list_byte e))
  | _ => inl "unsupported"
  end.
Lemma response_roundtrip r b : response_to_vec r = inr b → response_from_slice b = inr r.
Proof.
  destruct r as [[[|? ?] [|? ?] [|? ?] [d|]]|e]; cbn; try done; intros [= <-]; try done.
  cbn. do 2 f_equal. apply String.string_of_list_byte_of_string.
Qed.

#[local] Instance sj_response : SerdeJson (ContractResult Response) :=
  Build_SerdeJson _ response_from_slice response_to_vec "ContractResult".
#[local] Instance j_response : Json (ContractResult Response) :=
  Build_Json _ response_from_slice response_to_vec "ContractResult".
#[local] Instance response_compat : JsonCompat (ContractResult Response).
Proof. constructor; apply response_roundtrip. Qed.

(** ** A contract that answers with the number in its message *)
Record NumberMsg := mkNumberMsg { nm_digits : bytes }.
#[local] Instance j_number : Json NumberMsg := {|
  json_from_slice b := match b with [] => inl "EOF while parsing a value" | _ => inr (mkNumberMsg b) end;
  json_to_vec m := inr (nm_digits m);
  type_name := "NumberMsg"
|}.

Definition MachineEnv : Type := Host.Environment unit unit unit Machine unit.
Definition echo (env : Env) (info : MessageInfo) (msg : NumberMsg) : M string MachineEnv (string + Response) :=
  mret (if bool_decide (sender info = "creator") then inr (mkResponse [] [] [] (Some (nm_digits msg)))
        else inl "Unauthorized").

Definition quiet (message : string) : string := message.
Definition echo_exports (name : string) : option (list Val → M string MachineEnv (list Val)) :=
  if String.eqb name "execute" then Some (entry_point3 (do_execute quiet echo)) else None.

Definition fresh_machine : Machine := mkMachine (replicate 16 Byte.x00) (Remaining 100000) ∅ 16.
Definition machine_env : MachineEnv :=
  Host.mkEnvironment tt false GasConfig_default
    (mkContextData (GasState_with_limit 100000) None true None (Some fresh_machine)) tt [].

Lemma machine_env_heap : at_heap entries machine_env ∅ 10000.
Proof.
  exists fresh_machine, (replicate 16 Byte.x00), 100000. split_and!; try done.
  intros name Hn. cbn [get_function machine_instance]. by rewrite bool_decide_true.
Defined.

Lemma call_execute_transparent_witness :
  ∃ e', call_execute (exports quiet echo_exports) env0 info0 (as_bytes "4242424") machine_env =
    (Ok (CROk (mkResponse [] [] [] (Some (as_bytes "4242424")))), e') ∧ outside e' = outside (set_readonly false machine_env).
Proof.
  destruct (call_execute_transparent quiet entries echo_exports machine_env ∅ 10000
    (10000 - args_room [env_text; info_text; as_bytes "4242424"])
    echo env0 info0 (as_bytes "4242424") env_text info_text
    (CROk (mkResponse [] [] [] (Some (as_bytes "4242424")))) (Byte.x02 :: as_bytes "4242424")
    (outside (set_readonly false machine_env)))
    as (e' & h' & Hrun & Ho & _).
  - apply machine_env_heap.
  - by split.
  - by vm_compute.
  - by vm_compute.
  - by vm_compute.
  - intros e1 h1 He1 Hh1 Ho. by exists e1, h1.
  - by vm_compute.
  - by vm_compute.
  - done.
  - by vm_compute.
  - by vm_compute.
  - exact (ex_intro _ e' (conj Hrun Ho)).
Defined.

(** A text of three bytes in a vector of eight. *)
Lemma spare_capacity_frees_wrong_size_witness :
  ∃ p e1 q e2 w, release_result quiet (CROk (mkResponse [] [] [] (Some (as_bytes "42")))) machine_env = (Ok p, e1) ∧
    Guest.deallocate quiet p e1 = gfree q 3 e2 ∧
    wasmer_instance (e_data e2) = Some w ∧ live w !! q = Some 8 ∧ 3 < 8.
Proof.
  destruct (spare_capacity_frees_wrong_size quiet entries machine_env ∅ 10000
    (CROk (mkResponse [] [] [] (Some (as_bytes "42")))) (Byte.x02 :: as_bytes "42"))
    as (p & e1 & q & e2 & w & Hrun & Hfree & Hw & Hlive & Hlt).
  - apply machine_env_heap.
  - by vm_compute.
  - done.
  - by vm_compute.
  - vm_compute. discriminate.
  - by exists p, e1, q, e2, w.
Defined.

(** ** A contract that uses its storage: [key] at 16, [value] at 20 *)
Definition busy_machine : Machine :=
  mkMachine (replicate 16 Byte.x00 ++ as_bytes "key" ++ [Byte.x00] ++ as_bytes "value")
    (Remaining 100000) {[16 := 3; 20 := 5]} 25.

Definition storing_env : Host.Environment RpcMockApi StorageHandle unit Machine (RpcMockQuerier unit) :=
  Host.mkEnvironment (mkApi 32 (as_bytes "wasm") 4) false GasConfig_default
    (mkContextData (GasState_with_limit (2 ^ 64 - 1))
       (Some (mkHandle (PrivateCell ∅) ∅ 0)) false (Some tt) (Some busy_machine))
    (mkQuerier (mkAllStates ∅ ∅ tt 1 0 "world-1" 32 "wasm") DebugLog_new) [].

#[local] Instance j_system : Json (SystemResult (ContractResult Binary)) := {|
  json_from_slice b := inl "unsupported";
  json_to_vec m := inl "unsupported";
  type_name := "SystemResult"
|}.

Definition busy_heap : heap := {[16 := as_bytes "key"; 20 := as_bytes "value"]}.

Lemma storing_env_heap : at_heap entries storing_env busy_heap 10000.
Proof.
  exists busy_machine, (mc_memory busy_machine), 100000. split_and!; try done.
  - split.
    + intros p n. cbn. intros [[<- <-]|[_ [<- <-]%lookup_singleton_Some]]%lookup_insert_Some; done.
    + intros p n q k. cbn.
      intros [[<- <-]|[_ [<- <-]%lookup_singleton_Some]]%lookup_insert_Some
             [[<- <-]|[_ [<- <-]%lookup_singleton_Some]]%lookup_insert_Some; try done; lia.
  - by intros name Hn; cbn [get_function machine_instance]; rewrite bool_decide_true.
Defined.

(** A write, a read and a removal; in the witness also a write of nothing. *)
Definition stored_ops : list db_op :=
  [DbWrite (as_bytes "key") (as_bytes "value"); DbRead (as_bytes "key"); DbRemove (as_bytes "key")].
Definition guest_calls : list guest_op :=
  [GSet (mkSlice 16 3) (mkSlice 20 5); GGet (mkSlice 16 3); GRemove (mkSlice 16 3)].
Lemma stored_ops_results : db_session quiet false stored_ops ∅ = (inr [None; Some (as_bytes "value"); None], ∅).
Proof. by vm_compute. Qed.
Lemma middle_result h d rs :
  Forall2 (result_at h) [None; Some d; None] rs → ∃ r1 r2 r3, rs = [r1; Some r2; r3].
Proof.
  intros (r1 & ? & _ & Hrs & ->)%Forall2_cons_inv_l.
  apply Forall2_cons_inv_l in Hrs as ([r2|] & ? & Hr & Hrs & ->); [|done].
  apply Forall2_cons_inv_l in Hrs as (r3 & ? & _ & Hrs & ->). apply Forall2_nil_inv_l in Hrs as ->. eauto.
Qed.
Lemma key_slice : slice_at busy_heap (mkSlice 16 3) (as_bytes "key").
Proof. split; [done|]. right. exists 16, (as_bytes "key"), 0%nat. split_and!; try done; cbn; lia. Qed.
Lemma value_slice : slice_at busy_heap (mkSlice 20 5) (as_bytes "value").
Proof. split; [done|]. right. exists 20, (as_bytes "value"), 0%nat. split_and!; try done; cbn; lia. Qed.
Lemma storing_env_serves : serving storing_env false ∅.
Proof. split; [|done|by eexists]. split; [|done|done|by vm_compute]. eexists. split; [done|]. by eexists. Qed.
Lemma stored_ops_at : Forall2 (op_at busy_heap) guest_calls stored_ops.
Proof. repeat (apply Forall2_cons; split); cbn; auto using key_slice, value_slice. Qed.

Lemma guest_storage_is_a_map_witness :
  (∃ r1 r2 r3 e', ext_runs no_queries quiet guest_calls storing_env = (Ok [r1; Some r2; r3], e') ∧ serving e' false ∅) ∧
  ∃ e', ext_runs no_queries quiet [GSet (mkSlice 16 3) (mkSlice DANGLING 0)] storing_env =
    (Err Namespaces.empty_value, e') ∧ serving e' false ∅.
Proof.
  split.
  - destruct (guest_storage_is_a_map no_queries quiet entries ltac:(by left) storing_env busy_heap 10000 false ∅
      guest_calls stored_ops storing_env_heap storing_env_serves stored_ops_at ltac:(by vm_compute))
      as (e' & Hs & _ & Hend).
    rewrite stored_ops_results in Hs, Hend. cbn [fst snd] in Hs, Hend. destruct Hend as (rs & h' & Hrun & Hrs & _).
    destruct (middle_result _ _ _ Hrs) as (r1 & r2 & r3 & Heq).
    exists r1, r2, r3, e'. rewrite <-Heq. exact (conj Hrun Hs).
  - destruct (guest_storage_is_a_map no_queries quiet entries ltac:(by left) storing_env busy_heap 10000 false ∅
      [GSet (mkSlice 16 3) (mkSlice DANGLING 0)] [DbWrite (as_bytes "key") []] storing_env_heap storing_env_serves)
      as (e' & Hs & _ & Hend).
    + constructor; [|constructor]. split; [apply key_slice|]. split; [done|by left].
    + by vm_compute.
    + exists e'. exact (conj Hend Hs).
Defined.
