(* ===== verification/WorldTesting.v ===== *)
(** * Concrete tests

    The test doubles, the middlewares and the queue contract with concrete inputs: the
    theorems on them applied. *)

From S2P Require Import Prelude.
From S2P Require Import Bytes.
From S2P Require Import CwStd.
From S2P Require Import StdError.
From S2P Require Import Storage.
From S2P Require Import Namespaces.
From S2P Require Import TypedStorage.
From S2P Require Import Sections.
From S2P Require Import StdQueries.
From S2P Require Import MockApi.
From S2P Require Import MockQuerier.
From S2P Require Import Operators.
From S2P Require Import Gatekeeper.
From S2P Require Import Profiler.
From S2P Require Import Queue.

Open Scope Z_scope.

(** ** A text for everything that can be numbered: the bits of its number *)
Fixpoint bits_text (p : positive) : bytes :=
  match p with
  | xH => [Byte.x31]
  | xO p => Byte.x30 :: bits_text p
  | xI p => Byte.x32 :: bits_text p
  end.
Fixpoint text_bits (b : bytes) : option positive :=
  match b with
  | [Byte.x31] => Some xH
  | Byte.x30 :: b => xO <$> text_bits b
  | Byte.x32 :: b => xI <$> text_bits b
  | _ => None
  end.
Lemma text_bits_text p : text_bits (bits_text p) = Some p.
Proof. induction p as [p IH|p IH|]; cbn; [|rewrite IH..|done]; [|done]. by rewrite IH. Qed.

Definition numbered_json (T : Type) `{Countable T} : Json T := {|
  json_from_slice b := match text_bits b ≫= countable.decode with Some x => inr x | None => inl "not a value" end;
  json_to_vec x := inr (bits_text (countable.encode x));
  type_name := "T"
|}.
Lemma numbered_spec (T : Type) `{Countable T} : @JsonSpec T (numbered_json T).
Proof.
  split; intros x b [= <-]; [|by destruct (countable.encode x)].
  cbn. rewrite text_bits_text. cbn. by rewrite countable.decode_encode.
Qed.
Lemma numbered_total (T : Type) `{Countable T} : @JsonTotal T (numbered_json T).
Proof. intros x. eexists. reflexivity. Qed.

(** The requests without a payload type of their own, as sums. *)
Definition bank_sum (q : Full.BankQuery) : string + (string * string) + string :=
  match q with
  | Full.Supply d => inl (inl d)
  | Full.Balance a d => inl (inr (a, d))
  | Full.AllBalances a => inr a
  end.
Definition sum_bank (s : string + (string * string) + string) : Full.BankQuery :=
  match s with
  | inl (inl d) => Full.Supply d
  | inl (inr (a, d)) => Full.Balance a d
  | inr a => Full.AllBalances a
  end.
Lemma sum_bank_sum q : sum_bank (bank_sum q) = q.
Proof. by destruct q. Qed.
#[local] Instance bank_eq_dec : EqDecision Full.BankQuery.
Proof. solve_decision. Defined.
#[local] Instance bank_countable : Countable Full.BankQuery := inj_countable' bank_sum sum_bank sum_bank_sum.

Definition staking_sum (q : StakingQuery) : bool + string + (string * string) + string :=
  match q with
  | QBondedDenom => inl (inl (inl false))
  | QAllValidators => inl (inl (inl true))
  | QAllDelegations d => inl (inl (inr d))
  | QDelegation d v => inl (inr (d, v))
  | QValidator a => inr a
  end.
Definition sum_staking (s : bool + string + (string * string) + string) : StakingQuery :=
  match s with
  | inl (inl (inl false)) => QBondedDenom
  | inl (inl (inl true)) => QAllValidators
  | inl (inl (inr d)) => QAllDelegations d
  | inl (inr (d, v)) => QDelegation d v
  | inr a => QValidator a
  end.
Lemma sum_staking_sum q : sum_staking (staking_sum q) = q.
Proof. by destruct q. Qed.
#[local] Instance staking_eq_dec : EqDecision StakingQuery.
Proof. solve_decision. Defined.
#[local] Instance staking_countable : Countable StakingQuery :=
  inj_countable' staking_sum sum_staking sum_staking_sum.

Definition wasm_sum (q : WasmQuery) : (string * bytes) + (string * bytes) + string :=
  match q with
  | QSmart a m => inl (inl (a, m))
  | QRaw a k => inl (inr (a, k))
  | QContractInfo a => inr a
  end.
Definition sum_wasm (s : (string * bytes) + (string * bytes) + string) : WasmQuery :=
  match s with
  | inl (inl (a, m)) => QSmart a m
  | inl (inr (a, k)) => QRaw a k
  | inr a => QContractInfo a
  end.
Lemma sum_wasm_sum q : sum_wasm (wasm_sum q) = q.
Proof. by destruct q. Qed.
#[local] Instance wasm_eq_dec : EqDecision WasmQuery.
Proof. solve_decision. Defined.
#[local] Instance wasm_countable : Countable WasmQuery := inj_countable' wasm_sum sum_wasm sum_wasm_sum.

Definition ibc_sum (q : Full.IbcQuery) : unit + option string + (string * option string) :=
  match q with
  | Full.PortId => inl (inl tt)
  | Full.ListChannels p => inl (inr p)
  | Full.Channel c p => inr (c, p)
  end.
Definition sum_ibc (s : unit + option string + (string * option string)) : Full.IbcQuery :=
  match s with
  | inl (inl _) => Full.PortId
  | inl (inr p) => Full.ListChannels p
  | inr (c, p) => Full.Channel c p
  end.
Lemma sum_ibc_sum q : sum_ibc (ibc_sum q) = q.
Proof. by destruct q. Qed.
#[local] Instance ibc_eq_dec : EqDecision Full.IbcQuery.
Proof. solve_decision. Defined.
#[local] Instance ibc_countable : Countable Full.IbcQuery := inj_countable' ibc_sum sum_ibc sum_ibc_sum.

Abbreviation Request := (Full.QueryRequest unit).
Definition request_sum (q : Request) :
    Full.BankQuery + unit + StakingQuery + (string * bytes) + Full.IbcQuery + WasmQuery :=
  match q with
  | Full.Bank q => inl (inl (inl (inl (inl q))))
  | Full.Custom q => inl (inl (inl (inl (inr q))))
  | Full.Staking q => inl (inl (inl (inr q)))
  | Full.Stargate p d => inl (inl (inr (p, d)))
  | Full.ReqIbc q => inl (inr q)
  | Full.Wasm q => inr q
  end.
Definition sum_request (s : Full.BankQuery + unit + StakingQuery + (string * bytes) + Full.IbcQuery + WasmQuery) : Request :=
  match s with
  | inl (inl (inl (inl (inl q)))) => Full.Bank q
  | inl (inl (inl (inl (inr q)))) => Full.Custom q
  | inl (inl (inl (inr q))) => Full.Staking q
  | inl (inl (inr (p, d))) => Full.Stargate p d
  | inl (inr q) => Full.ReqIbc q
  | inr q => Full.Wasm q
  end.
Lemma sum_request_sum q : sum_request (request_sum q) = q.
Proof. by destruct q. Qed.
#[local] Instance request_eq_dec : EqDecision Request.
Proof. solve_decision. Defined.
#[local] Instance request_countable : Countable Request := inj_countable' request_sum sum_request sum_request_sum.

#[local] Instance coin_countable : Countable Coin.
Proof. refine (inj_countable' (λ c, (denom c, amount c)) (λ p, mkCoin p.1 p.2) _). by intros []. Defined.
#[local] Instance supply_eq_dec : EqDecision SupplyResponse.
Proof. solve_decision. Defined.
#[local] Instance supply_countable : Countable SupplyResponse.
Proof. refine (inj_countable' sr_amount mkSupplyResponse _). by intros []. Defined.
#[local] Instance balance_eq_dec : EqDecision BalanceResponse.
Proof. solve_decision. Defined.
#[local] Instance balance_countable : Countable BalanceResponse.
Proof. refine (inj_countable' br_amount mkBalanceResponse _). by intros []. Defined.
#[local] Instance all_balance_eq_dec : EqDecision AllBalanceResponse.
Proof. solve_decision. Defined.
#[local] Instance all_balance_countable : Countable AllBalanceResponse.
Proof. refine (inj_countable' abr_amount mkAllBalanceResponse _). by intros []. Defined.

#[local] Instance request_json : Json Request := numbered_json Request.
#[local] Instance request_spec : JsonSpec Request := numbered_spec Request.
#[local] Instance request_total : JsonTotal Request := numbered_total Request.
#[local] Instance supply_json : Json SupplyResponse := numbered_json SupplyResponse.
#[local] Instance supply_spec : JsonSpec SupplyResponse := numbered_spec SupplyResponse.
#[local] Instance supply_total : JsonTotal SupplyResponse := numbered_total SupplyResponse.
#[local] Instance balance_json : Json BalanceResponse := numbered_json BalanceResponse.
#[local] Instance balance_spec : JsonSpec BalanceResponse := numbered_spec BalanceResponse.
#[local] Instance balance_total : JsonTotal BalanceResponse := numbered_total BalanceResponse.
#[local] Instance all_balance_json : Json AllBalanceResponse := numbered_json AllBalanceResponse.
#[local] Instance all_balance_spec : JsonSpec AllBalanceResponse := numbered_spec AllBalanceResponse.
#[local] Instance all_balance_total : JsonTotal AllBalanceResponse := numbered_total AllBalanceResponse.

(** Answers the tests here do not ask for. *)
Definition silent_json (T : Type) : Json T := {|
  json_from_slice _ := inl "not used";
  json_to_vec _ := inl "not used";
  type_name := "T"
|}.
#[local] Instance bonded_json : Json BondedDenomResponse := silent_json _.
#[local] Instance all_delegations_json : Json AllDelegationsResponse := silent_json _.
#[local] Instance delegation_json : Json DelegationResponse := silent_json _.
#[local] Instance all_validators_json : Json AllValidatorsResponse := silent_json _.
#[local] Instance validator_json : Json ValidatorResponse := silent_json _.

#[local] Instance sorted_coins : HashCoins := {|
  coins_order m := map_to_list m;
  coins_order_perm m := reflexivity _
|}.

(** ** Balances *)
Definition ten_gold : list Coin := [mkCoin "gold" 10].
Definition alice_and_bob : MockQuerier unit :=
  mkMockQuerier (mkBankQuerier {["gold" := 5]} {["alice" := [mkCoin "gold" 5]]})
    StakingQuerier_default WasmQuerier_default (λ _, SRErr (UnsupportedRequest "custom")).

Lemma mock_balances_are_seen_witness :
  ∃ self', mock_update_balance (E := unit) "bob" ten_gold alice_and_bob = (Ok None, self') ∧
    query_balance (mock_raw_query self') "bob" "gold" = inr (mkCoin "gold" 10) ∧
    query_balance (mock_raw_query self') "bob" "silver" = inr (mkCoin "silver" 0) ∧
    query_supply (mock_raw_query self') "gold" = inr (mkCoin "gold" 15).
Proof.
  destruct (mock_balances_are_seen alice_and_bob "bob" ten_gold (E := unit)) as [_ Hok].
  { vm_compute. repeat constructor; discriminate. }
  destruct Hok as (self' & Hrun & Hbalance & _ & Hsupply).
  { intros d. apply Z.le_lt_trans with 15; [|done].
    replace (supply_of (<["bob":=ten_gold]> (balances (mq_bank alice_and_bob))) d)
      with (if decide ("gold" = d) then 15 else 0); [by destruct (decide _)|].
    unfold supply_of. change (all_coins _) with [mkCoin "gold" 5; mkCoin "gold" 10].
    cbn. by destruct (decide ("gold" = d)). }
  exists self'. split_and!; [exact Hrun|..].
  - rewrite Hbalance. reflexivity.
  - rewrite Hbalance. reflexivity.
  - rewrite Hsupply. reflexivity.
Defined.

(** ** Addresses *)
Definition ascii_lower (c : Ascii.ascii) : Ascii.ascii :=
  let n := Ascii.N_of_ascii c in if ((65 <=? n) && (n <=? 90))%N then Ascii.ascii_of_N (n + 32) else c.
Fixpoint string_lower (s : string) : string :=
  match s with String.EmptyString => String.EmptyString | String.String c s => String.String (ascii_lower c) (string_lower s) end.
#[local] Instance ascii_text : RustText := {| to_lowercase := string_lower; utf8_error _ := "invalid utf-8 sequence" |}.

Lemma mock_addresses_roundtrip_witness :
  ∃ canonical, addr_canonicalize MockApi_default "Creator" tt = (Ok canonical, tt) ∧
    length canonical = CANONICAL_LENGTH ∧
    addr_humanize MockApi_default canonical tt = (Ok "creator", tt) ∧
    addr_validate MockApi_default "Creator" tt = (Err (StdGenericErr "Invalid input: address not normalized"), tt).
Proof.
  destruct (mock_addresses_roundtrip "Creator" tt) as (c & H1 & H2 & H3 & H4);
    [vm_compute; lia|vm_compute; lia| |reflexivity|exists c; split_and!; [exact H1|exact H2|exact H3|exact H4]].
  vm_compute. intros H. repeat (apply elem_of_cons in H as [[=]|H]). by apply elem_of_nil in H.
Defined.

(** ** Middlewares *)
Definition plain_op (o : Operator.t) : OperatorText := mkOperator o "".
Lemma gatekeeper_keeps_floats_out_witness :
  let self := generate_function_middleware Gatekeeper_default in
  feed_all self (plain_op <$> [Operator.I32Const; Operator.Drop; Operator.End]) [] =
    (Ok tt, plain_op <$> [Operator.I32Const; Operator.Drop; Operator.End]) ∧
  ∃ msg, feed_all self (plain_op <$> [Operator.I32Const; Operator.F32Abs; Operator.End]) [] =
    (Err (mkMiddlewareError MIDDLEWARE_NAME msg), [plain_op Operator.I32Const]).
Proof.
  split.
  - apply (gatekeeper_keeps_floats_out (generate_function_middleware Gatekeeper_default)
      (plain_op <$> [Operator.I32Const; Operator.Drop; Operator.End])).
    repeat constructor.
  - destruct (gatekeeper_keeps_floats_out (generate_function_middleware Gatekeeper_default)
      (plain_op <$> [Operator.I32Const; Operator.F32Abs; Operator.End])) as [[_ Hfirst] _].
    exact (Hfirst 1%nat (plain_op Operator.F32Abs) eq_refl).
Defined.

#[local] Instance count_symbols : Hasher := {| hash_symbols l := Z.of_nat (length l) |}.
Definition two_blocks : list Op :=
  (λ o, mkOp o []) <$> [Operator.I32Const; Operator.Drop; Operator.Call; Operator.Nop; Operator.End].
Lemma profiler_measures_each_block_witness :
  let s := profile_function (mkProfilingIndexes 7 8) 3 BlockStore_new two_blocks in
  get_block 2 (fs_store s) = Some [OperatorSymbol.I32Const; OperatorSymbol.Drop] ∧
  ∃ m', run_straight (E := unit) 3 (pieces [] two_blocks) 100 Measurements_new = (Ok tt, m') ∧
    timings m' 1 = 1%nat ∧ timings m' 2 = 1%nat.
Proof.
  destruct (profiler_measures_each_block (mkProfilingIndexes 7 8) 3 BlockStore_new two_blocks)
    as (_ & _ & Hstore & Hrun). split.
  - apply (Hstore [OperatorSymbol.I32Const; OperatorSymbol.Drop]); cbn.
    + apply elem_of_cons. by left.
    + intros b' [->|[->|?%elem_of_nil]%elem_of_cons]%elem_of_cons; done.
  - destruct (Hrun unit 100 Measurements_new eq_refl) as (m' & Hm & Ht). exists m'. split; [exact Hm|].
    rewrite !Ht. split; reflexivity.
Defined.

(** ** The queue *)
#[local] Instance item_eq_dec : EqDecision Item.
Proof. solve_decision. Defined.
#[local] Instance item_countable : Countable Item.
Proof. refine (inj_countable' item_value mkItem _). by intros []. Defined.
#[local] Instance item_json : Json Item := numbered_json Item.
#[local] Instance item_spec : JsonSpec Item := numbered_spec Item.
Definition item_text (x : Z) : bytes := bits_text (countable.encode (mkItem x)).

Lemma item_serializes x : is_i32 x → to_vec (mkItem x) = inr (item_text x).
Proof. intros _. reflexivity. Qed.
Definition empty_queue : MemoryStorage := mkMemoryStorage ∅.
Lemma queue_is_fifo_witness :
  ∃ st', run_messages mock_env (mock_info "creator" []) [Enqueue 5; Enqueue (-7); Dequeue; Dequeue; Dequeue] empty_queue =
    (Ok [None; None; Some (item_text 5); Some (item_text (-7)); None], st').
Proof.
  destruct (queue_is_fifo item_text item_serializes mock_env (mock_info "creator" []) [Enqueue 5; Enqueue (-7); Dequeue; Dequeue; Dequeue]
    empty_queue 0 []) as (Hrun & _).
  { split; [done|lia|by vm_compute|constructor|]. intros k v. cbn. rewrite elem_of_nil. split; [|done].
    intros Hk. exfalso. revert Hk. change ((∅ : gmap bytes bytes) !! k = Some v → False). by rewrite lookup_empty. }
  destruct Hrun as (st' & n' & Hm & _); [repeat constructor; cbn; lia|by vm_compute|].
  exists st'. exact Hm.
Defined.
