(* ===== verification/WorldContracts.v ===== *)
(** * Concrete contracts

    The theorems on the staking, escrow and remote account contracts applied to storages
    in memory, with the numbering of [WorldTesting] as JSON. *)

From S2P Require Import Prelude.
From S2P Require Import Bytes.
From S2P Require Import CwStd.
From S2P Require Import StdError.
From S2P Require Import Uint128.
From S2P Require Import UintCrate.
From S2P Require Decimal.
From S2P Require Import Storage.
From S2P Require Import Namespaces.
From S2P Require Import TypedStorage.
From S2P Require Import StdQueries.
From S2P Require Import MockQuerier.
From S2P Require Import WorldTesting.
From S2P Require Import Hackatom.
From S2P Require Import Ibc.
From S2P Require Import IbcReflect.
From S2P Require Import Staking.
From S2P Require Import StakingFacts.

Open Scope Z_scope.

(** ** Staking: alice holds 100 tokens, for which 200 are bonded *)
Section staking.
#[local] Instance z_json : Json Z := numbered_json Z.
#[local] Instance z_spec : JsonSpec Z := numbered_spec Z.
#[local] Instance supply_eq : EqDecision Supply.
Proof. solve_decision. Defined.
#[local] Instance supply_count : Countable Supply.
Proof.
  refine (inj_countable' (λ s, (issued s, bonded s, claims s)) (λ p, mkSupply p.1.1 p.1.2 p.2) _). by intros [].
Defined.
#[local] Instance supply_json : Json Supply := numbered_json Supply.
#[local] Instance supply_spec : JsonSpec Supply := numbered_spec Supply.
#[local] Instance invest_eq : EqDecision InvestmentInfo.
Proof. solve_decision. Defined.
#[local] Instance invest_count : Countable InvestmentInfo.
Proof.
  refine (inj_countable' (λ i, (owner i, bond_denom i, exit_tax i, validator i, min_withdrawal i))
    (λ p, mkInvestmentInfo p.1.1.1.1 p.1.1.1.2 p.1.1.2 p.1.2 p.2) _). by intros [].
Defined.
#[local] Instance invest_json : Json InvestmentInfo := numbered_json InvestmentInfo.

(** The chain answers every question about delegations with one delegation of 200. *)
Definition delegated : AllDelegationsResponse :=
  mkAllDelegationsResponse [mkDelegation "staking" "val" (mkCoin "ustake" 200)].
Definition any_text (T : Type) (x : T) : Json T :=
  {| json_from_slice _ := inr x; json_to_vec _ := inr [Byte.x7b]; type_name := "T" |}.
#[local] Instance request_text : Json (Full.QueryRequest unit) := any_text _ (Full.Custom tt).
#[local] Instance delegations_text : Json AllDelegationsResponse := any_text _ delegated.
#[local] Instance balance_text : Json CwStd.BalanceResponse := any_text _ (CwStd.mkBalanceResponse (mkCoin "ustake" 0)).
#[local] Instance execute_text : Json ExecuteMsg := any_text _ Claim.
Definition answers : bytes → QuerierResult := λ _, SROk (CROk []).
Definition canonical (s : string) : StdError + Binary := inr (as_bytes s).

Definition terms : InvestmentInfo := mkInvestmentInfo "owner" "ustake" (Decimal.DECIMAL_FRACTIONAL / 10) "val" 5.
Definition alices : Ledger :=
  set_entry Balances (as_bytes "alice") 100 (mkLedger ∅ ∅ (mkSupply 100 200 0) terms).

Definition staking_base : MemoryStorage :=
  mkMemoryStorage (<[lp KEY_TOTAL_SUPPLY := bits_text (countable.encode (mkSupply 100 200 0))]>
    {[ lp KEY_INVESTMENT := bits_text (countable.encode terms) ]}).
Definition staking_storage : MemoryStorage :=
  mkMemoryStorage (<[lp PREFIX_BALANCE ++ as_bytes "alice" := bits_text (countable.encode 100)]> (data staking_base)).

Lemma staking_holds : holds staking_storage alices.
Proof.
  assert (holds staking_base (mkLedger ∅ ∅ (mkSupply 100 200 0) terms)) as Hbase.
  { split; [done|..].
    - intros t k. change (t_get (lp (prefix t) ++ k) staking_base) with (data staking_base !! (lp (prefix t) ++ k)).
      unfold staking_base. cbn [data]. rewrite lookup_insert_ne by (intros Heq; by apply (key_supply t k)).
      rewrite lookup_singleton_ne by (intros Heq; by apply (key_invest t k)). by destruct t.
    - vm_compute. reflexivity.
    - vm_compute. reflexivity. }
  apply (holds_set_entry Balances staking_base staking_storage _ (as_bytes "alice") 100
    (bits_text (countable.encode 100)) Hbase); [reflexivity|done|].
  intros q. change (t_get q staking_storage) with (data staking_storage !! q). unfold staking_storage. cbn [data].
  change (prefix Balances) with PREFIX_BALANCE. case_decide as Hq; [by rewrite Hq, lookup_insert_eq|].
  by rewrite lookup_insert_ne.
Qed.
Lemma staking_accounted : accounted alices.
Proof.
  split.
  - vm_compute. reflexivity.
  - reflexivity.
  - intros k v. cbn. rewrite lookup_insert_Some. intros [[_ <-]|[_ H]]; [done|]. by rewrite lookup_empty in H.
  - apply map_Forall_empty.
  - done.
  - done.
Qed.
Lemma z_serializes z : u128 z → ∃ b, to_vec z = inr b.
Proof. intros _. by eexists. Qed.
Lemma supply_serializes (s : Supply) : u128 (issued s) → u128 (bonded s) → u128 (claims s) → ∃ b, to_vec s = inr b.
Proof. intros _ _ _. by eexists. Qed.
#[local] Instance u256 : UintCrate U256 := exact_uint U256.
#[local] Instance u256_spec : UintCrateSpec U256 := exact_uint_spec U256 eq_refl.
Definition alice : MessageInfo := mkMessageInfo "alice" [].
Definition staking_env : Env := mkEnv (mkBlockInfo 1 1 "chain") None (mkContractInfo "staking").

Lemma staking_books_balance_witness :
  ∃ r st' l', execute canonical answers staking_env alice (Transfer "bob" 30) staking_storage = (Ok r, st') ∧
    holds st' l' ∧ accounted l' ∧ l_invest l' = terms.
Proof.
  assert (∃ r st', execute canonical answers staking_env alice (Transfer "bob" 30) staking_storage = (Ok r, st'))
    as (r & st' & Hrun) by (eexists _, _; vm_compute; reflexivity).
  destruct (staking_books_balance z_serializes supply_serializes canonical answers staking_env alice (Transfer "bob" 30)
    staking_storage alices r st' staking_holds staking_accounted ltac:(by split; [constructor|]) Hrun)
    as (l' & Hl & Ha & Hi & _).
  exists r, st', l'. split_and!; [exact Hrun|exact Hl|exact Ha|exact Hi].
Defined.

Lemma holders_can_unbond_witness :
  ∃ r st' l', execute canonical answers staking_env alice (Unbond 50) staking_storage = (Ok r, st') ∧ holds st' l' ∧
    messages r = [SubMsg_new (MsgStaking (Undelegate "val" (mkCoin "ustake" 90)))] ∧
    held Claims (as_bytes "alice") l' = 90 ∧ held Balances (as_bytes "alice") l' = 50 ∧
    held Balances (as_bytes "owner") l' = 5.
Proof.
  destruct (holders_can_unbond z_serializes supply_serializes canonical answers staking_env alice 50
    staking_storage alices (as_bytes "alice") (as_bytes "owner") staking_holds staking_accounted eq_refl eq_refl)
    as (r & st' & l' & Hrun & Hl & Hm & Hc & Hb).
  - intros s. reflexivity.
  - done.
  - done.
  - done.
  - split; vm_compute; discriminate.
  - destruct (Hb ltac:(discriminate)) as [Hb1 Hb2].
    exists r, st', l'. split_and!; [exact Hrun|exact Hl|exact Hm|exact Hc|exact Hb1|exact Hb2].
Defined.
End staking.

(** ** The escrow *)
Section escrow.
Import Hackatom.
#[local] Instance state_eq : EqDecision State.
Proof. solve_decision. Defined.
#[local] Instance state_count : Countable State.
Proof.
  refine (inj_countable' (λ s, (verifier s, beneficiary s, funder s)) (λ p, mkState p.1.1 p.1.2 p.2) _). by intros [].
Defined.
#[local] Instance state_json : Json State := numbered_json State.
#[local] Instance state_spec : JsonSpec State := numbered_spec State.
#[local] Instance hack_text : Json ExecuteMsg := any_text _ MessageLoop.
#[local] Instance hack_request : Json (Full.QueryRequest unit) := any_text _ (Full.Custom tt).
#[local] Instance hack_balances : Json AllBalanceResponse := any_text _ (mkAllBalanceResponse [mkCoin "gold" 7]).

Definition accepting : Outside :=
  mkOutside inr (λ s, inr (as_bytes s)) (λ _, inl (StdGenericErr "")) (λ _, "") id (λ _, None).
Definition escrow_env : Env := mkEnv (mkBlockInfo 1 1 "chain") None (mkContractInfo "escrow").
Definition escrow_msg : InstantiateMsg := mkInstantiateMsg "verifies" "benefits".
Definition created : MemoryStorage :=
  (instantiate accepting escrow_env (mkMessageInfo "creator" []) escrow_msg (mkMemoryStorage ∅)).2.

Definition change : Entry := EMigrate (mkMigrateMsg "checks").
Definition migrated : MemoryStorage := (enter accepting answers 3 escrow_env change created).2.

(** A call that is refused, a migration, then a release by the new verifier. *)
Lemma escrow_pays_the_beneficiary_witness :
  ∃ r, execute accepting answers 5 escrow_env (mkMessageInfo "checks" []) Release migrated = (Ok r, migrated) ∧
    messages r = [SubMsg_new (MsgBank (BankSend "benefits" [mkCoin "gold" 7]))].
Proof.
  assert (∃ r, instantiate accepting escrow_env (mkMessageInfo "creator" []) escrow_msg (mkMemoryStorage ∅) = (Ok r, created))
    as [r0 Hinst] by (eexists; reflexivity).
  assert (history accepting created migrated [mkCall escrow_env change Response_new]) as Hhist.
  { apply (history_call accepting created created migrated [] answers 3 escrow_env change Response_new).
    - apply (history_failed accepting created created [] answers 3 escrow_env
        (EExecute (mkMessageInfo "anyone" []) Release)); [constructor|].
      intros r st' H. vm_compute in H. discriminate H.
    - vm_compute. reflexivity. }
  destruct (escrow_pays_the_beneficiary accepting escrow_env (mkMessageInfo "creator" []) escrow_msg (mkMemoryStorage ∅)
    r0 created _ migrated (memory_ok _) Hinst Hhist) as (v & b & Hv & Hb & _ & Hrel).
  injection Hb as Hb. rewrite <-Hb in Hrel.
  exact (Hrel answers 5%nat escrow_env [] [mkCoin "gold" 7] eq_refl).
Defined.
End escrow.

(** ** The remote account: the messages of the packets as sums *)
Section remote.
#[local] Instance coin_count : Countable Coin.
Proof. refine (inj_countable' (λ c, (denom c, amount c)) (λ p, mkCoin p.1 p.2) _). by intros []. Defined.

Definition bank_msg_sum (m : BankMsg) : (string * list Coin) + list Coin :=
  match m with BankSend a c => inl (a, c) | BankBurn c => inr c end.
Definition sum_bank_msg (s : (string * list Coin) + list Coin) : BankMsg :=
  match s with inl (a, c) => BankSend a c | inr c => BankBurn c end.
#[local] Instance bank_msg_eq : EqDecision BankMsg.
Proof. solve_decision. Defined.
#[local] Instance bank_msg_count : Countable BankMsg.
Proof. refine (inj_countable' bank_msg_sum sum_bank_msg _). by intros []. Defined.

Definition staking_msg_sum (m : StakingMsg) : (string * Coin) + (string * Coin) + (string * string * Coin) :=
  match m with
  | Delegate v c => inl (inl (v, c))
  | Undelegate v c => inl (inr (v, c))
  | Redelegate a b c => inr (a, b, c)
  end.
Definition sum_staking_msg (s : (string * Coin) + (string * Coin) + (string * string * Coin)) : StakingMsg :=
  match s with
  | inl (inl (v, c)) => Delegate v c
  | inl (inr (v, c)) => Undelegate v c
  | inr (a, b, c) => Redelegate a b c
  end.
#[local] Instance staking_msg_eq : EqDecision StakingMsg.
Proof. solve_decision. Defined.
#[local] Instance staking_msg_count : Countable StakingMsg.
Proof. refine (inj_countable' staking_msg_sum sum_staking_msg _). by intros []. Defined.

#[local] Instance distribution_msg_eq : EqDecision DistributionMsg.
Proof. solve_decision. Defined.
#[local] Instance distribution_msg_count : Countable DistributionMsg.
Proof.
  refine (inj_countable' (λ m, match m with SetWithdrawAddress a => inl a | WithdrawDelegatorReward v => inr v end)
    (λ s : string + string, match s with inl a => SetWithdrawAddress a | inr v => WithdrawDelegatorReward v end) _).
  by intros [].
Defined.

Abbreviation wasm_msg_shape :=
  ((string * bytes * list Coin) + (option string * Z * bytes * list Coin * string) + (string * Z * bytes) +
   (string * string) + string)%type.
Definition wasm_msg_sum (m : WasmMsg) : wasm_msg_shape :=
  match m with
  | WasmExecute a b c => inl (inl (inl (inl (a, b, c))))
  | WasmInstantiate a i b c l => inl (inl (inl (inr (a, i, b, c, l))))
  | WasmMigrate a i b => inl (inl (inr (a, i, b)))
  | WasmUpdateAdmin a b => inl (inr (a, b))
  | WasmClearAdmin a => inr a
  end.
Definition sum_wasm_msg (s : wasm_msg_shape) : WasmMsg :=
  match s with
  | inl (inl (inl (inl (a, b, c)))) => WasmExecute a b c
  | inl (inl (inl (inr (a, i, b, c, l)))) => WasmInstantiate a i b c l
  | inl (inl (inr (a, i, b))) => WasmMigrate a i b
  | inl (inr (a, b)) => WasmUpdateAdmin a b
  | inr a => WasmClearAdmin a
  end.
#[local] Instance wasm_msg_eq : EqDecision WasmMsg.
Proof. solve_decision. Defined.
#[local] Instance wasm_msg_count : Countable WasmMsg.
Proof. refine (inj_countable' wasm_msg_sum sum_wasm_msg _). by intros []. Defined.

Abbreviation cosmos_msg_shape := (BankMsg + unit + StakingMsg + DistributionMsg + WasmMsg)%type.
Definition cosmos_msg_sum (m : CosmosMsg) : cosmos_msg_shape :=
  match m with
  | MsgBank m => inl (inl (inl (inl m)))
  | MsgCustom => inl (inl (inl (inr tt)))
  | MsgStaking m => inl (inl (inr m))
  | MsgDistribution m => inl (inr m)
  | MsgWasm m => inr m
  end.
Definition sum_cosmos_msg (s : cosmos_msg_shape) : CosmosMsg :=
  match s with
  | inl (inl (inl (inl m))) => MsgBank m
  | inl (inl (inl (inr tt))) => MsgCustom
  | inl (inl (inr m)) => MsgStaking m
  | inl (inr m) => MsgDistribution m
  | inr m => MsgWasm m
  end.
#[local] Instance cosmos_msg_eq : EqDecision CosmosMsg.
Proof. solve_decision. Defined.
#[local] Instance cosmos_msg_count : Countable CosmosMsg.
Proof. refine (inj_countable' cosmos_msg_sum sum_cosmos_msg _). by intros []. Defined.

#[local] Instance reply_on_eq : EqDecision ReplyOn.
Proof. solve_decision. Defined.
#[local] Instance reply_on_count : Countable ReplyOn.
Proof.
  refine (inj_countable'
    (λ r, match r with ReplyAlways => (true, true) | ReplyError => (true, false) | ReplySuccess => (false, true) | ReplyNever => (false, false) end)
    (λ p : bool * bool, match p with (true, true) => ReplyAlways | (true, false) => ReplyError | (false, true) => ReplySuccess | (false, false) => ReplyNever end) _).
  by intros [].
Defined.
#[local] Instance sub_msg_eq : EqDecision SubMsg.
Proof. solve_decision. Defined.
#[local] Instance sub_msg_count : Countable SubMsg.
Proof.
  refine (inj_countable' (λ s, (sm_id s, sm_msg s, sm_gas_limit s, sm_reply_on s)) (λ p, mkSubMsg p.1.1.1 p.1.1.2 p.1.2 p.2) _).
  by intros [].
Defined.
#[local] Instance reflect_msg_eq : EqDecision Reflect.ExecuteMsg.
Proof. solve_decision. Defined.
#[local] Instance reflect_msg_count : Countable Reflect.ExecuteMsg.
Proof.
  refine (inj_countable'
    (λ m, match m with Reflect.ReflectMsg l => inl (inl l) | Reflect.ReflectSubMsg l => inl (inr l) | Reflect.ChangeOwner o => inr o end)
    (λ s : list CosmosMsg + list SubMsg + string,
       match s with inl (inl l) => Reflect.ReflectMsg l | inl (inr l) => Reflect.ReflectSubMsg l | inr o => Reflect.ChangeOwner o end) _).
  by intros [].
Defined.
#[local] Instance packet_msg_eq : EqDecision PacketMsg.
Proof. solve_decision. Defined.
#[local] Instance packet_msg_count : Countable PacketMsg.
Proof.
  refine (inj_countable' (λ m, match m with Dispatch l => inl l | WhoAmI => inr true | IbcReflect.Balances => inr false end)
    (λ s : list CosmosMsg + bool, match s with inl l => Dispatch l | inr true => WhoAmI | inr false => IbcReflect.Balances end) _).
  by intros [].
Defined.
#[local] Instance account_data_eq : EqDecision Sender.AccountData.
Proof. solve_decision. Defined.
#[local] Instance account_data_count : Countable Sender.AccountData.
Proof.
  refine (inj_countable' (λ d, (Sender.last_update_time d, Sender.remote_addr d, Sender.remote_balance d))
    (λ p, Sender.mkAccountData p.1.1 p.1.2 p.2) _). by intros [].
Defined.
#[local] Instance who_am_i_eq : EqDecision WhoAmIResponse.
Proof. solve_decision. Defined.
#[local] Instance who_am_i_count : Countable WhoAmIResponse.
Proof. refine (inj_countable' wa_account mkWhoAmIResponse _). by intros []. Defined.
#[local] Instance result_eq `{EqDecision A} : EqDecision (ContractResult A).
Proof. solve_decision. Defined.
#[local] Instance result_count `{Countable A} : Countable (ContractResult A).
Proof.
  refine (inj_countable' (λ r, match r with CROk a => inl a | CRErr e => inr e end)
    (λ s : A + string, match s with inl a => CROk a | inr e => CRErr e end) _). by intros [].
Defined.

#[local] Instance account_json : Json Sender.AccountData := numbered_json _.
#[local] Instance packet_json : Json PacketMsg := numbered_json _.
#[local] Instance ack_unit_json : Json (ContractResult unit) := numbered_json _.
#[local] Instance ack_who_json : Json (ContractResult WhoAmIResponse) := numbered_json _.
#[local] Instance reflect_json : Json Reflect.ExecuteMsg := numbered_json _.
(** The host writes its one message as [reflect] writes the same one. *)
#[local] Instance host_reflect_json : Json Host.ReflectExecuteMsg := {|
  json_to_vec := λ '(Host.ReflectMsg msgs), json_to_vec (Reflect.ReflectMsg msgs);
  json_from_slice := λ b, match json_from_slice b with
                          | inr (Reflect.ReflectMsg msgs) => inr (Host.ReflectMsg msgs)
                          | _ => inl "unknown variant"
                          end;
  type_name := "ReflectExecuteMsg"
|}.
#[local] Instance host_config_json : Json Host.Config := any_text _ (Host.mkConfig 1).
#[local] Instance string_json : Json string := any_text _ "account".
#[local] Instance config_json : Json Sender.Config := any_text _ (Sender.mkConfig "admin").
#[local] Instance owner_json : Json Reflect.State := any_text _ (Reflect.mkState "host").
#[local] Instance ack_balances_json : Json (ContractResult BalancesResponse) := any_text _ (CRErr "").
#[local] Instance ask_json : Json (Full.QueryRequest unit) := any_text _ (Full.Custom tt).
#[local] Instance balances_json : Json AllBalanceResponse := any_text _ (mkAllBalanceResponse []).

#[local] Existing Instances numbered_spec numbered_total.

(** One key of a storage, where any text will do. *)
Definition one_key (k : bytes) : MemoryStorage := mkMemoryStorage {[ k := [Byte.x7b] ]}.
Definition sender_storage : MemoryStorage :=
  mkMemoryStorage {[ lp Sender.KEY_CONFIG := [Byte.x7b];
    lp Sender.PREFIX_ACCOUNTS ++ as_bytes "here" := bits_text (countable.encode Sender.AccountData_default) ]}.
Definition host_storage : MemoryStorage := one_key (lp Host.PREFIX_ACCOUNTS ++ as_bytes "there").
Definition reflect_storage : MemoryStorage := one_key (lp Reflect.CONFIG_KEY).
Definition here : IbcEndpoint := mkIbcEndpoint "port" "here".
Definition there : IbcEndpoint := mkIbcEndpoint "port" "there".
Definition gift : list CosmosMsg := [MsgBank (BankSend "friend" [mkCoin "gold" 3])].

Lemma host_knows : host_account host_storage "there" "account".
Proof. vm_compute. reflexivity. Qed.
Lemma reflect_owned : account_owner reflect_storage "host".
Proof. vm_compute. reflexivity. Qed.
Lemma sender_has_admin : sender_admin sender_storage "admin".
Proof. vm_compute. reflexivity. Qed.
Lemma sender_knows : sender_account sender_storage "here" Sender.AccountData_default.
Proof. vm_compute. reflexivity. Qed.

#[local] Instance host_reflect_total : JsonTotal Host.ReflectExecuteMsg.
Proof. intros [msgs]. exact (json_total (Reflect.ReflectMsg msgs)). Qed.
Lemma wire_agrees msgs b :
  MsgCustom ∉ msgs → to_vec (Host.ReflectMsg msgs) = inr b → from_slice b = inr (Reflect.ReflectMsg msgs).
Proof.
  intros _ H. unfold to_vec in H; cbn [json_to_vec host_reflect_json] in H.
  destruct (json_to_vec (Reflect.ReflectMsg msgs)) as [?|b'] eqn:Hb; [done|]. injection H as ->.
  by apply from_to, to_vec_ok.
Qed.

Definition host_env : Env := mkEnv (mkBlockInfo 1 1 "chain") None (mkContractInfo "host").

Lemma remote_account_obeys_witness :
  ∃ r1 m packet r2 body call r3,
    Sender.execute inr escrow_env (mkMessageInfo "admin" []) (Sender.SendMsgs "here" gift) sender_storage =
      (Ok (r1, [m]), sender_storage) ∧ packet_from here there 1 m = Some packet ∧
    Host.ibc_packet_receive answers host_env (mkReceiveMsg packet "relayer") host_storage = (Ok r2, host_storage) ∧
    sm_msg <$> rr_messages r2 = [MsgWasm (WasmExecute "account" body [])] ∧
    from_slice body = inr call ∧
    Reflect.execute inr escrow_env (mkMessageInfo "host" []) call reflect_storage = (Ok r3, reflect_storage) ∧
    sm_msg <$> messages r3 = gift.
Proof.
  destruct (remote_account_obeys answers inr wire_agrees sender_storage host_storage reflect_storage escrow_env host_env escrow_env
    "account" 1 "relayer" here there (memory_ok _) host_knows reflect_owned eq_refl) as (_ & Hsend & _).
  specialize (Hsend (mkMessageInfo "admin" []) gift "admin" Sender.AccountData_default sender_has_admin sender_knows ltac:(done)).
  cbn [sender String.eqb] in Hsend.
  assert (MsgCustom ∉ gift) as Hg by (intros Hin%list_elem_of_singleton; discriminate Hin).
  exact (Hsend Hg).
Defined.
End remote.
